(* ===== verification/_CoqProject ===== *)
-Q . S2P
Prelude.v
Effects.v
Utils.v
Logging.v
Lan8720.v
Prbs.v
Gf2.v
PrbsPeriod.v
PrbsVerifier.v
RegInterface.v
RegFile.v
MacDevice.v
Mdio.v
MdioMaster.v
MdioUnit.v
RmiiMac.v
RmiiEthernet.v
UdpDevice.v
UdpFramer.v
UdpDeframer.v
UartRegInterface.v
UartLink.v
UartFrame.v
UartTx.v
UartRx.v
RegBlock.v
ApbBridge.v
BridgeWords.v
UartBridge.v
Timer.v
TokenBucket.v
UdpConnection.v
Frame.v
Setup.v
Main.v
Words.v
Program.v
Threads.v
SendLoop.v
Axis.v
EthernetFcs.v
EthernetFramer.v
MacStats.v
CircularBuffer.v
EthernetDeframer.v
EthernetLink.v
Fifo.v
UdpIpFramer.v
UdpIpFramerDrain.v
UdpIpDeframer.v
Arp.v
RxPacketBuffer.v
UdpLink.v
RmiiTx.v
RmiiRx.v
RmiiLine.v
Gray.v
Afifo.v
Cdc.v
PacketAfifo.v
UdpStack.v
