(* ===== verification/Prelude.v ===== *)
(** * Verification of the RMII Ethernet stack and of its host software

    The repository holds an FPGA Ethernet/UDP stack in VHDL ([src/vhdl]) and a
    C++ program ([example/cpp]) that configures it over a serial line and then
    streams pseudo random packets to it and back.  This development models the
    C++ program, and the hardware it works with: clock by clock the serial link
    with its bridge and registers, the MDIO master, and the data path its packets
    take from the UDP framer to the RMII pins and back.  Paths in the comments are relative to the
    repository's root, those of VHDL files to [src/vhdl].

    ** How the program is put together

    [main] opens [uart_reg_interface], an implementation of the virtual register
    bus [reg_interface].  On the bus sit three components, each driven by a
    subclass of [reg_comp]: the UDP framer, the UDP deframer and the RMII MAC;
    [rmii_ethernet] owns the MAC driver and, through its [mdio_comp], the PHY.
    After the configuration [main] starts two threads.  [send_thread] fills
    packets from a [prbs] generator and sends them through [udp_connection] at
    the pace of a [token_bucket]; [receive_thread] feeds what arrives to a
    [prbs_verifier].  A [timer] triggers the status prints of each loop; output
    goes through [logging].  A signal handler sets the flag that ends all loops.

    In the hardware the bytes of the serial line pass [axi_uart_rx] and
    [axi_uart_tx] and reach the registers of the components through
    [uart_apb_bridge] and [component_register_block]; the MAC's registers start
    the MDIO master.  A payload passes [udp_ip_framer], [arp], [ethernet_framer]
    (with [ethernet_fcs]), [packet_afifo] and [rmii_mac_tx]; a received frame
    passes [rmii_mac_rx], [afifo], [ethernet_deframer] (with [circular_buffer]),
    [rx_packet_buffer] and [udp_ip_deframer], and on the way [arp] looks for
    requests in it.  The parts hand bytes on as AXI streams.

    ** How it is modelled

    - Pure member functions (the PRBS classes, the codecs) are functions in a
      state monad with errors, [stM]: a call that throws keeps the updates made
      before the throw.
    - Code that talks to its environment is a program over events, [prog E A]
      of Effects.v: the register bus [busE], the serial descriptor [osE], the
      clock [clockE], the sockets [sockE], and for the threads, [main] and the
      program their unions.  A world answers the events ([Handler]).  Member functions on an
      object that itself performs events are in [objM].
    - A call's outcome is [Ok], or [Err] of an exception with its text, a failed
      assertion, or undefined behaviour.  Unsigned arithmetic wraps ([u8] to
      [u64]); signed overflow and shifts out of range are [Undefined].
    - Bus hardware is a [Device]: each answer may depend on everything that
      happened on the bus before, the delays included.  The components are
      classes of devices ([IsRegFile], [IsMac], [IsFramer], [IsDeframer]) that
      fix the register map and leave all signals produced by the hardware
      arbitrary, so that a theorem about a driver holds whatever the hardware
      does meanwhile.
    - A clocked VHDL entity is a record of its registers and one function,
      [..._clock], from the inputs on a rising edge and the registers to the
      registers after it, with signals that are not registers as functions of
      both.  A run is a list of inputs; theorems hold for all of them, so for
      all gaps and all back-pressure.
    - An entity with two clocks is a pair of such records; a run is a list of
      edges of either clock or both, in any order, and on a common edge a
      synchroniser captures any mixture of the old and the new value of its
      input.

    ** Files

    - Prelude.v (this file): outcomes, [stM], machine integers, bits of words,
      little-endian words; tactics and hints.  Effects.v: programs, handlers,
      [run], interpretation, simulations, [objM].
    - Utils.v: [utils.hpp], [utils.cpp].  Lan8720.v: [lan8720.hpp], [lan8720.cpp].
    - Logging.v: [logging.hpp].
    - Prbs.v: class [prbs] of [prbs.hpp]; Gf2.v and PrbsPeriod.v: the period of
      the sequence; PrbsVerifier.v: [prbs_verifier.hpp], [prbs_verifier.cpp].
    - RegInterface.v: [reg_interface.hpp], [reg_comp.hpp], bus traces.
      RegFile.v: register files behind the bus ([component_register_block.vhd] at
      the granularity of accesses), the class [IsRegFile].
    - MacDevice.v: the register map of [rmii_mac_comp.vhd].  Mdio.v:
      [mdio_comp.cpp].  RmiiMac.v: [rmii_mac_comp.cpp].  RmiiEthernet.v:
      [rmii_ethernet.cpp].
    - UdpDevice.v: the register maps of [udp_ip_framer_comp.vhd] and
      [udp_ip_deframer_comp.vhd], the IP header of [udp_ip_framer.vhd].
      UdpFramer.v: [udp_framer_comp.cpp].  UdpDeframer.v:
      [udp_deframer_comp.cpp].
    - UartRegInterface.v: [uart_reg_interface.cpp].  UartLink.v:
      [uart_apb_bridge.vhd] at the granularity of received bytes, and host and
      bridge together.
    - UartFrame.v (baud generator, frames on the line), UartTx.v, UartRx.v:
      [uart/axi_uart_tx.vhd], [uart/axi_uart_rx.vhd].  RegBlock.v:
      [component_register_block.vhd] and the bus master's clocks; ApbBridge.v and
      BridgeWords.v: the state machine and the word processes of
      [uart_apb_bridge.vhd]; UartBridge.v: all of it clock by clock, refining the
      bridge of UartLink.v.
    - MdioMaster.v: [ethernet/mdio/mdio.vhd]; MdioUnit.v: the processes of
      [rmii_mac_comp.vhd] around it and the driver of Mdio.v on the line.
    - Timer.v: [timer.hpp]; TokenBucket.v: [token_bucket.hpp]; UdpConnection.v:
      [udp_connection.cpp].
    - Frame.v: drivers stay inside their component.  Setup.v: [main] up to
      the start of the threads.  Main.v: the rest of [main], on the register
      bus.  Words.v: what [main] writes are 32-bit words, inside its components.
      Program.v: the whole of [main] on the host, from [signal] and the
      constructor of the register interface to its destructor, and
      [sig_handler].  Threads.v: [send_thread] and [receive_thread].  SendLoop.v: the send loop keeps
      sending.
    - Axis.v: byte streams.  EthernetFcs.v: [fcs/ethernet_fcs.vhd];
      EthernetFramer.v: [ethernet_framer.vhd]; MacStats.v:
      [rmii/rmii_mac_counters.vhd]; CircularBuffer.v and
      EthernetDeframer.v: [ethernet_deframer/]; EthernetLink.v: both ends
      together.
    - Fifo.v: [fifo/fifo.vhd]; UdpIpFramer.v and UdpIpFramerDrain.v:
      [udp/framer/udp_ip_framer.vhd]; UdpIpDeframer.v:
      [udp/deframer/udp_ip_deframer.vhd]; RxPacketBuffer.v:
      [ethernet/rx_packet_buffer/]; UdpLink.v: datagrams from station to station.
    - RmiiTx.v, RmiiRx.v: [rmii_mac_tx.vhd], [rmii_mac_rx.vhd]; RmiiLine.v: the
      two on one line.  UdpStack.v: a payload's whole path.
    - Arp.v: [arp/arp.vhd].
    - Gray.v, Afifo.v: [afifo/] with [ram/sdp_ram.vhd]; Cdc.v:
      [cdc/pulse_transfer.vhd], [cdc/bit_synchroniser.vhd]; PacketAfifo.v:
      [ethernet/packet_afifo/].

    ** What the theorems show

    - The data path.  [get_word] is the bit-serial generator, on a
      constructed generator no call sequence is undefined unless a tap is 0, the
      verifier follows a matching
      stream, locks exactly at its threshold and keeps its counters consistent
      over every call sequence.  Put together over packets, a lossless network
      and the receive loop: all bits counted, no error, locked, registers equal.
    - The drivers.  Every sequence of driver calls refines updates of an abstract
      configuration ([mac_config], [framer_config], [deframer_config]); MDIO
      accesses, the PHY scan, negotiation, address changes and the status record
      are characterised on every branch; the methods named in
      [ethernet_stops_on_error] swallow no bus error.
    - The set-up sequence of [main] leaves the three components configured as
      intended, and the IP headers then sent are valid.  The program as a whole,
      over the bytes of the serial line, returns with that configuration still
      in place, both threads started and joined ([main_outcome],
      [program_outcome]).
    - The bus.  A driver run through [uart_reg_interface], the bytes on the line
      and the bridge has the outcome and the effect of a run on the components
      themselves; short transfers and failed echoes throw; a constructor
      that fails and a normal exit have closed the one descriptor opened
      ([program_no_leak]).  The clocked bridge
      refines the bridge of bytes ([bridge_refines_bytes]), and the UARTs carry
      bytes between clocks that differ by a few per cent ([uart_receives],
      [uart_roundtrip]).
    - MDIO.  A register read or written through the driver's accesses is the
      frame of the standard on the line, and the value read is what the PHY
      answered there ([mdio_read_on_line], [mdio_write_on_line]).
    - The hardware data path.  Each entity delivers: what has left it is at any
      time a prefix of what the bytes taken call for, and all of it after a
      bounded number of edges ([framer_delivers], [deframer_delivers],
      [udp_framer_delivers], [udp_deframer_delivers], [rx_buffer_passes_good]).
      The FCS generator is CRC-32 bit by bit and finds every burst of up to 32
      bits.  Put together: what one station sends the other receives, from
      Ethernet framer to deframer, over the RMII pins, and from UDP payload to
      UDP payload through all FIFOs ([ethernet_roundtrip], [rmii_roundtrip],
      [udp_stack_roundtrip]).  Each theorem states its conditions (frames that
      are long enough, an empty edge between frames, buffers that do not
      overflow); examples show what happens outside them.  The statistics registers count what passed
      ([statistics_count]).
    - ARP: among frames of up to 128 bytes exactly the requests for the station's
      address are answered, to their senders ([arp_answers]), and for all traffic
      no ARP packet lands within another packet ([arp_stream_whole]).
    - Between clocks: the FIFO and the pulse transfer lose and repeat nothing
      whatever the order of edges, the packet FIFO hands packets on without gaps.
    - The rest of the threads: the pacing and the termination of the token
      bucket; the send loop returns having sent the generator's packets one by
      one; the expiry of timers; the receive results with [errno].

    Theorems that pin down behaviour the code does not seem to intend say so in
    their comment (for instance [phy_autonegotiate_diverges],
    [mdio_write_blind], [get_bits_field_iff], [relock_after_one_word]); for the
    hardware such behaviour is shown by examples (for instance
    [request_in_payload_answered], [counter_wraps_stuck], [cut_datagram_swallows_next]).

    ** Interfaces between components

    [Device]/[IsRegFile] between drivers and hardware; [IsPhyBus] between
    [rmii_ethernet] and the MDIO layer, with [MdioEngine] the assumption under
    which Mdio.v implements it; [IsPhy] for the chip on the MDIO line; [Apb] between the bridge and the components;
    [Os] and [OsLog] for the system calls; [WordBus] for a bus of words;
    [SteadyClock] and [ProgressingClock] for the
    clock; [SendLog] for what a world records of the sent datagrams, [SendWorld],
    [MainWorld] and [HostWorld] for the surroundings of the send and main threads and
    of the program.  Each
    class has an instance for a concrete world that the witnesses run on.

    ** Fuel

    Loops with a bound in the code (the MDIO and idle polls, the PHY scan) have
    no fuel.  Fuel stands in for the loops without one: the negotiation wait
    ([phy_autonegotiate_completes] says how much is enough,
    [phy_autonegotiate_diverges] that none is if the PHY never completes), the
    spin loop of the token bucket ([acquire_returns]: an interval divided by the
    clock's step), and the loops of [main] and of the threads, which run until
    the exit flag is set (one unit for each iteration: [main_outcome],
    [send_loop_returns] and [stream_end_to_end] need one more than rounds or
    packets).

    ** What is not modelled

    - The text of floating point numbers that are only printed, and the constant
      log lines of [main] and the threads.
    - Preemption between the threads of the program: they share only the exit
      flag, and the components are used by one thread each.
    - In hardware: [cdc/word_transfer.vhd] and [cdc/sync_pulse_gen.vhd], which are
      not instantiated.  [udp_stack_roundtrip] takes the Ethernet framer's
      destination as it is: [arp], which stands before the framer, is a
      component of its own and no hop of that path.  The status words that
      drivers read are arbitrary, their relation to the counters of the data path
      is [statistics_count] alone.
    - Resets of the two-clock FIFOs in the middle of traffic: the handshake is
      modelled, the theorems start at power-up.
    - C library and kernel: [inet_pton], [inet_ntop], [strerror] and the
      platform's constants are parameters, system calls are events. *)

From stdpp Require Export base numbers list strings gmap.
From Stdlib Require Export ZArith Lia.

#[global] Open Scope Z_scope.

(** ** Outcomes of host code

    A C++ call either returns, throws a [std::exception] (kept with its
    [what()] text), fails an [assert], or runs into undefined behaviour.
    [OutOfFuel] is the only outcome that does not exist in the code: it marks
    an unbounded loop that was given too few iterations by the model. *)
Inductive error :=
  | Exn (what : string)
  | AssertFail
  | Undefined
  | OutOfFuel.

#[export] Instance error_eq_dec : EqDecision error.
Proof. solve_decision. Defined.

Inductive result (A : Type) :=
  | Ok (a : A)
  | Err (e : error).
Arguments Ok {A} a.
Arguments Err {A} e.

#[export] Instance result_eq_dec `{EqDecision A} : EqDecision (result A).
Proof. solve_decision. Defined.

#[export] Instance result_ret : MRet result := fun A => Ok.
#[export] Instance result_bind : MBind result := fun A B f m =>
  match m with Ok a => f a | Err e => Err e end.
#[export] Instance result_fmap : FMap result := fun A B f m =>
  match m with Ok a => Ok (f a) | Err e => Err e end.

Definition throw {A} (what : string) : result A := Err (Exn what).

Definition is_Ok {A} (r : result A) : bool :=
  match r with Ok _ => true | Err _ => false end.

(** ** State and exceptions: methods of an object held by value

    A method that throws keeps the field assignments it made before the
    throw, so the state is returned on every path. *)
Definition stM (S A : Type) : Type := S -> result A * S.

#[export] Instance stM_ret {S} : MRet (stM S) := fun A a s => (Ok a, s).
#[export] Instance stM_bind {S} : MBind (stM S) := fun A B f m s =>
  match m s with
  | (Ok a, s') => f a s'
  | (Err e, s') => (Err e, s')
  end.

Definition st_get {S} : stM S S := fun s => (Ok s, s).
Definition st_put {S} (s' : S) : stM S unit := fun _ => (Ok tt, s').
Definition st_modify {S} (f : S -> S) : stM S unit := fun s => (Ok tt, f s).
Definition st_lift {S A} (r : result A) : stM S A := fun s => (r, s).

(** Unfolds the monad structure only. *)
Ltac st_simpl :=
  cbv beta iota delta [mbind stM_bind mret stM_ret st_get st_put st_modify st_lift
                       result_bind result_ret].

(** ** Machine integers

    Unsigned [w]-bit values are [Z] in [[0, 2^w)]; the wrap-around of C++
    unsigned arithmetic is written out with [wrap]. *)
Definition is_u (w x : Z) : Prop := 0 <= x < 2 ^ w.
#[export] Instance is_u_dec w x : Decision (is_u w x).
Proof. unfold is_u. apply _. Defined.

Definition wrap (w x : Z) : Z := x mod 2 ^ w.
Abbreviation u8 := (wrap 8).
Abbreviation u16 := (wrap 16).
Abbreviation u32 := (wrap 32).
Abbreviation u64 := (wrap 64).

Definition int_min : Z := - 2 ^ 31.
Definition int_max : Z := 2 ^ 31 - 1.

(** Shifts of a 32-bit unsigned operand: undefined from 32 places on. *)
Definition shl32 (x n : Z) : result Z :=
  if (0 <=? n) && (n <? 32) then Ok (u32 (Z.shiftl x n)) else Err Undefined.
Definition shr32 (x n : Z) : result Z :=
  if (0 <=? n) && (n <? 32) then Ok (Z.shiftr x n) else Err Undefined.
Definition not32 (x : Z) : Z := u32 (Z.lnot x).

(** [1 << n] on [int] (C++20: the result is reduced modulo 2^32 into the
    signed range) and signed subtraction, undefined on overflow. *)
Definition int_one_shl (n : Z) : result Z :=
  if (0 <=? n) && (n <? 32)
  then Ok (if n =? 31 then int_min else 2 ^ n) else Err Undefined.
Definition int_sub (a b : Z) : result Z :=
  let d := a - b in
  if (int_min <=? d) && (d <=? int_max) then Ok d else Err Undefined.

(** The expression [(1 << n) - 1] converted to [uint32_t], which the code
    uses for every low-order mask. *)
Definition int_mask (n : Z) : result Z :=
  s ← int_one_shl n; d ← int_sub s 1; Ok (u32 d).

(** Number of one bits ([__builtin_popcount] on 32-bit values). *)
Fixpoint popcount_pos (p : positive) : Z :=
  match p with
  | xH => 1
  | xO q => popcount_pos q
  | xI q => 1 + popcount_pos q
  end.
Definition popcount (x : Z) : Z :=
  match x with Zpos p => popcount_pos p | _ => 0 end.

(** ** Lemmas on outcomes *)
Lemma result_bind_Ok {A B} (r : result A) (f : A -> result B) b :
  (r ≫= f) = Ok b -> exists a, r = Ok a /\ f a = Ok b.
Proof. destruct r; [eauto | discriminate]. Qed.

(** ** Lemmas on machine integers *)
Lemma wrap_range w x : 0 <= w -> is_u w (wrap w x).
Proof. intros. apply Z.mod_pos_bound. lia. Qed.

Lemma wrap_small w x : is_u w x -> wrap w x = x.
Proof. apply Z.mod_small. Qed.

Lemma wrap_wrap w x : 0 <= w -> wrap w (wrap w x) = wrap w x.
Proof. intros. apply wrap_small, wrap_range; lia. Qed.

Lemma is_u_mono v w x : is_u v x -> v <= w -> is_u w x.
Proof.
  unfold is_u. intros ? ?. pose proof (Z.pow_le_mono_r 2 v w ltac:(lia)). lia.
Qed.

Lemma wrap_ones w x : 0 <= w -> Z.land x (Z.ones w) = wrap w x.
Proof. intros. by apply Z.land_ones. Qed.

(** *** Bits *)
Lemma testbit_wrap w x i :
  0 <= w -> Z.testbit (wrap w x) i = (i <? w) && Z.testbit x i.
Proof.
  intros. unfold wrap. rewrite Z.testbit_mod_pow2 by lia. reflexivity.
Qed.

Lemma testbit_ones w i :
  0 <= w -> Z.testbit (Z.ones w) i = (0 <=? i) && (i <? w).
Proof. intros. apply Z.testbit_ones. lia. Qed.

Lemma testbit_not32 x i :
  0 <= i -> Z.testbit (not32 x) i = (i <? 32) && negb (Z.testbit x i).
Proof.
  intros. unfold not32. rewrite testbit_wrap by lia. by rewrite Z.lnot_spec.
Qed.

Lemma testbit_shiftl x n i :
  Z.testbit (Z.shiftl x n) i = (0 <=? i) && Z.testbit x (i - n).
Proof.
  destruct (Z.leb_spec 0 i) as [Hi|Hi]; cbn [andb].
  - by rewrite Z.shiftl_spec.
  - by rewrite Z.testbit_neg_r.
Qed.

Lemma testbit_shiftr x n i :
  Z.testbit (Z.shiftr x n) i = (0 <=? i) && Z.testbit x (i + n).
Proof.
  destruct (Z.leb_spec 0 i) as [Hi|Hi]; cbn [andb].
  - by rewrite Z.shiftr_spec.
  - by rewrite Z.testbit_neg_r.
Qed.

Lemma testbit_high w x i : is_u w x -> w <= i -> Z.testbit x i = false.
Proof.
  intros Hx Hi. rewrite <- (wrap_small w x Hx).
  destruct (Z.le_gt_cases 0 w).
  - rewrite testbit_wrap by lia. by rewrite (proj2 (Z.ltb_ge i w)).
  - unfold is_u in Hx. rewrite Z.pow_neg_r in Hx; lia.
Qed.

Lemma is_u_bits w x :
  0 <= w -> 0 <= x ->
  (forall i, w <= i -> Z.testbit x i = false) -> is_u w x.
Proof.
  intros Hw Hx Hb.
  assert (wrap w x = x) as <-; [|by apply wrap_range].
  apply Z.bits_inj'. intros i Hi. rewrite testbit_wrap by lia.
  destruct (Z.ltb_spec i w); [done | by rewrite Hb].
Qed.

Lemma testbit_b2z (b : bool) i : Z.testbit (Z.b2z b) i = (i =? 0) && b.
Proof.
  destruct (Z.eqb_spec i 0) as [->|Hi]; cbn [andb]; [by destruct b|].
  destruct (Z.le_gt_cases 0 i); [|by rewrite Z.testbit_neg_r].
  destruct b; cbn [Z.b2z]; [|by rewrite Z.bits_0].
  apply (testbit_high 1); [|lia]. unfold is_u. lia.
Qed.

Lemma testbit_1 i : Z.testbit 1 i = (i =? 0).
Proof. change 1 with (Z.b2z true). by rewrite testbit_b2z, andb_true_r. Qed.

Create Rewrite HintDb zbits.
#[export] Hint Rewrite
  Z.land_spec Z.lor_spec Z.lxor_spec Z.bits_0 testbit_shiftl testbit_shiftr testbit_b2z testbit_1 : zbits.
#[export] Hint Rewrite
  testbit_wrap testbit_ones testbit_not32 Z.lnot_spec
  using lia : zbits.
#[export] Hint Rewrite
  andb_false_r andb_true_r orb_false_r orb_true_r xorb_false_r xorb_true_r
  andb_false_l andb_true_l orb_false_l orb_true_l xorb_false_l xorb_true_l : zbits.

(** [zcases] decides every integer comparison of the goal, using [lia] to
    drop the impossible branches. *)
Ltac zcases :=
  repeat match goal with
  | |- context [Z.ltb ?a ?b] =>
      destruct (Z.ltb_spec a b); try (exfalso; lia)
  | |- context [Z.leb ?a ?b] =>
      destruct (Z.leb_spec a b); try (exfalso; lia)
  | |- context [Z.eqb ?a ?b] =>
      destruct (Z.eqb_spec a b); try (exfalso; lia)
  end.

(** [zbits] proves an equation between integers bit by bit; [zbits_at i]
    leaves the goal for bit [i] after normalisation. *)
Ltac zneg :=
  repeat match goal with
  | |- context [Z.testbit ?x ?j] => rewrite (Z.testbit_neg_r x j) by lia
  end.
Ltac zbits_step :=
  autorewrite with zbits; zcases; zneg; autorewrite with zbits; try done;
  try (f_equal; lia).
Tactic Notation "zbits_at" ident(i) :=
  apply Z.bits_inj'; intros i ?; zbits_step.
Ltac zbits := let i := fresh "i" in zbits_at i;
  repeat (f_equal; try lia); try reflexivity.

(** ** Pointers that wrap, and slices *)
Lemma wrap_pointer w x : 0 <= w -> wrap w (wrap (w + 1) x) = wrap w x.
Proof. intros Hw. zbits_at i. Qed.

Lemma wrap_eq_iff w x d : 0 <= w -> 0 <= d < 2 ^ w -> wrap w x = wrap w (x + d) <-> d = 0.
Proof.
  intros Hw Hd. unfold wrap. split; [|intros ->; by rewrite Z.add_0_r].
  intros E. assert (Hm : (x + d - x) mod 2 ^ w = 0).
  { rewrite Zminus_mod, <- E, Z.sub_diag. apply Z.mod_0_l. lia. }
  replace (x + d - x) with d in Hm by lia. rewrite Z.mod_small in Hm by lia. lia.
Qed.

Lemma wrap_add_full w x : 0 <= w -> wrap w (x + 2 ^ w) = wrap w x.
Proof.
  intros. unfold wrap. pose proof (Z.pow_pos_nonneg 2 w ltac:(lia) ltac:(lia)).
  rewrite <- (Z.mul_1_l (2 ^ w)) at 1. apply Z.mod_add. lia.
Qed.

Lemma testbit_add_full w x : 0 <= w -> Z.testbit (x + 2 ^ w) w = negb (Z.testbit x w).
Proof.
  intros Hw. pose proof (Z.pow_pos_nonneg 2 w ltac:(lia) ltac:(lia)).
  rewrite !Z.testbit_odd, !Z.shiftr_div_pow2 by lia.
  rewrite <- (Z.mul_1_l (2 ^ w)) at 1. rewrite Z.div_add, Z.add_1_r, Z.odd_succ by lia.
  by rewrite Z.negb_odd.
Qed.

Lemma wrap_add_idemp w x y : 0 <= w -> wrap w (wrap w x + y) = wrap w (x + y).
Proof. intros Hw. unfold wrap. apply Z.add_mod_idemp_l, Z.pow_nonzero; lia. Qed.

(** [x(hi downto lo)] *)
Definition slice (x hi lo : Z) : Z := wrap (hi - lo + 1) (Z.shiftr x lo).

(** [log2_ceil] of [utils.vhd]: the least power of two that is not below [v]. *)
Definition log2_ceil (v : Z) : Z := Z.log2_up v.

Lemma slice_range n x hi lo : n = hi - lo + 1 -> 0 <= n -> is_u n (slice x hi lo).
Proof. intros -> H. by apply wrap_range. Qed.

Lemma testbit_slice x hi lo i :
  0 <= lo -> 0 <= i -> lo <= hi ->
  Z.testbit (slice x hi lo) i = (i <=? hi - lo) && Z.testbit x (i + lo).
Proof.
  intros Hl Hi Hh. unfold slice. rewrite testbit_wrap, testbit_shiftr by lia.
  zcases; cbn [andb]; try done; lia.
Qed.

Lemma is_u_lor w x y : 0 <= w -> is_u w x -> is_u w y -> is_u w (Z.lor x y).
Proof.
  intros Hw Hx Hy. apply is_u_bits; [done| |].
  - apply Z.lor_nonneg. unfold is_u in *. lia.
  - intros i Hi. rewrite Z.lor_spec, !(testbit_high w) by done. done.
Qed.

Lemma is_u_lxor w x y : 0 <= w -> is_u w x -> is_u w y -> is_u w (Z.lxor x y).
Proof.
  intros Hw Hx Hy. apply is_u_bits; [done| |].
  - apply Z.lxor_nonneg. unfold is_u in *. lia.
  - intros i Hi. rewrite Z.lxor_spec, !(testbit_high w) by done. done.
Qed.

Lemma is_u_land_l w x y : 0 <= w -> is_u w x -> 0 <= y -> is_u w (Z.land x y).
Proof.
  intros Hw Hx Hy. apply is_u_bits; [done| |].
  - apply Z.land_nonneg. unfold is_u in *. lia.
  - intros i Hi. by rewrite Z.land_spec, (testbit_high w x).
Qed.

Lemma is_u_shiftr w x n : 0 <= n -> is_u w x -> is_u w (Z.shiftr x n).
Proof.
  unfold is_u. intros Hn Hx. rewrite Z.shiftr_div_pow2 by done.
  pose proof (Z.pow_pos_nonneg 2 n ltac:(lia) Hn).
  split; [apply Z.div_pos; lia|].
  apply Z.le_lt_trans with x; [|lia]. apply Z.div_le_upper_bound; nia.
Qed.

Create HintDb word.
#[export] Hint Resolve wrap_range is_u_lor is_u_lxor is_u_land_l is_u_shiftr : word.
#[export] Hint Extern 1 (_ <= _) => lia : word.
#[export] Hint Extern 1 (_ < _) => lia : word.

Lemma shl32_ok x n : 0 <= n < 32 -> shl32 x n = Ok (u32 (Z.shiftl x n)).
Proof.
  intros. unfold shl32.
  by rewrite (proj2 (Z.leb_le 0 n)), (proj2 (Z.ltb_lt n 32)) by lia.
Qed.

Lemma shr32_ok x n : 0 <= n < 32 -> shr32 x n = Ok (Z.shiftr x n).
Proof.
  intros. unfold shr32.
  by rewrite (proj2 (Z.leb_le 0 n)), (proj2 (Z.ltb_lt n 32)) by lia.
Qed.

(** *** The mask expression [(1 << n) - 1] *)
Lemma int_mask_ok n : 0 <= n <= 30 -> int_mask n = Ok (Z.ones n).
Proof.
  intros Hn. unfold int_mask, int_one_shl, int_sub, int_min, int_max.
  rewrite (proj2 (Z.leb_le 0 n)), (proj2 (Z.ltb_lt n 32)) by lia.
  destruct (Z.eqb_spec n 31); [lia|]. cbn [mbind result_bind andb].
  pose proof (Z.pow_le_mono_r 2 n 30 ltac:(lia) ltac:(lia)).
  pose proof (Z.pow_pos_nonneg 2 n ltac:(lia) ltac:(lia)).
  destruct (_ && _) eqn:E; [|exfalso; lia]. cbn [mbind result_bind].
  rewrite Z.ones_equiv, wrap_small; [by rewrite Z.sub_1_r|unfold is_u; lia].
Qed.

Lemma int_mask_undef n : ~ (0 <= n <= 30) -> int_mask n = Err Undefined.
Proof.
  intros Hn. unfold int_mask, int_one_shl.
  destruct ((0 <=? n) && (n <? 32)) eqn:E; [|done].
  assert (n = 31) as -> by lia. reflexivity.
Qed.

(** *** Population count *)
Lemma popcount_nonneg x : 0 <= popcount x.
Proof.
  destruct x as [|p|p]; cbn; try lia. induction p; cbn [popcount_pos]; lia.
Qed.

Lemma popcount_0 x : 0 <= x -> popcount x = 0 <-> x = 0.
Proof.
  intros Hx. destruct x as [|p|p]; cbn; [done| |lia].
  assert (0 < popcount_pos p) by (induction p; cbn [popcount_pos]; lia). lia.
Qed.

Lemma lxor_0_iff x y : Z.lxor x y = 0 <-> x = y.
Proof. split; [apply Z.lxor_eq | intros ->; apply Z.lxor_nilpotent]. Qed.

(** *** Words given by their bits *)

(** The [n]-bit number whose bit [i] is [f i]. *)
Fixpoint bits_word (f : Z -> bool) (n : nat) : Z :=
  match n with
  | O => 0
  | S n' => Z.lor (bits_word f n') (Z.shiftl (Z.b2z (f (Z.of_nat n'))) (Z.of_nat n'))
  end.

Lemma testbit_bits_word f n i :
  Z.testbit (bits_word f n) i = (0 <=? i) && (i <? Z.of_nat n) && f i.
Proof.
  revert i. induction n as [|n IH]; intros i; cbn [bits_word].
  - rewrite Z.bits_0. by zcases.
  - rewrite Z.lor_spec, IH, testbit_shiftl, testbit_b2z. zcases; cbn [andb orb];
      try done; try (replace i with (Z.of_nat n) by lia); by rewrite ?orb_false_r.
Qed.
#[export] Hint Rewrite testbit_bits_word : zbits.

Lemma bits_word_is_u f n : is_u (Z.of_nat n) (bits_word f n).
Proof.
  apply is_u_bits; [lia| |].
  - induction n as [|n IH]; cbn [bits_word]; [lia|]. apply Z.lor_nonneg. split; [done|].
    apply Z.shiftl_nonneg. destruct (f _); cbn; lia.
  - intros i Hi. rewrite testbit_bits_word. zcases; by rewrite ?andb_false_r.
Qed.

Lemma bits_word_ext f g n :
  (forall i, 0 <= i < Z.of_nat n -> f i = g i) -> bits_word f n = bits_word g n.
Proof.
  intros E. zbits_at i. rewrite E by lia. done.
Qed.
#[export] Hint Resolve bits_word_is_u : word.

Lemma popcount_le w x : 0 <= w -> is_u w x -> popcount x <= w.
Proof.
  intros Hw Hx. destruct x as [|p|p]; cbn; [lia| |unfold is_u in Hx; lia].
  revert w Hw Hx. induction p as [p IH|p IH|]; intros w Hw Hx; cbn [popcount_pos];
    unfold is_u in *.
  - destruct (Z.eq_dec w 0) as [->|]; [cbn in Hx; lia|].
    replace w with (1 + (w - 1)) in Hx by lia. rewrite Z.pow_add_r in Hx by lia.
    specialize (IH (w - 1) ltac:(lia) ltac:(lia)). lia.
  - destruct (Z.eq_dec w 0) as [->|]; [cbn in Hx; lia|].
    replace w with (1 + (w - 1)) in Hx by lia. rewrite Z.pow_add_r in Hx by lia.
    specialize (IH (w - 1) ltac:(lia) ltac:(lia)). lia.
  - destruct (Z.eq_dec w 0) as [->|]; [cbn in Hx; lia|lia].
Qed.

Lemma popcount_lxor_0 x y : 0 <= x -> 0 <= y -> popcount (Z.lxor x y) = 0 <-> x = y.
Proof.
  intros. rewrite popcount_0 by (apply Z.lxor_nonneg; lia). apply lxor_0_iff.
Qed.

Lemma wrap_is_u_mono v w x : 0 <= v <= w -> is_u w (wrap v x).
Proof. intros. eapply is_u_mono; [apply wrap_range|]; lia. Qed.
#[export] Hint Resolve wrap_is_u_mono : word.

Lemma u64_small x : 0 <= x < 2 ^ 64 -> u64 x = x.
Proof. intros. by apply wrap_small. Qed.

(** *** Little-endian memory *)

(** The word [memcpy] assembles from bytes on a little-endian host, and the
    [n] bytes of a word. *)
Fixpoint le_load (bytes : list Z) : Z :=
  match bytes with
  | [] => 0
  | b :: rest => b + 256 * le_load rest
  end.
Fixpoint le_store (n : nat) (x : Z) : list Z :=
  match n with
  | O => []
  | S n' => Z.land x 0xFF :: le_store n' (Z.shiftr x 8)
  end.

Lemma le_load_app l1 l2 :
  le_load (l1 ++ l2) = le_load l1 + 256 ^ Z.of_nat (length l1) * le_load l2.
Proof.
  induction l1 as [|b l1 IH]; cbn [le_load app length].
  - rewrite Z.pow_0_r. lia.
  - rewrite IH, Nat2Z.inj_succ, Z.pow_succ_r by lia. lia.
Qed.

Lemma le_load_range l :
  Forall (is_u 8) l -> is_u (8 * Z.of_nat (length l)) (le_load l).
Proof.
  induction 1 as [|b l Hb Hl IH]; cbn [le_load length]; unfold is_u in *; [lia|].
  replace (8 * Z.of_nat (S (length l))) with (8 + 8 * Z.of_nat (length l)) by lia.
  rewrite Z.pow_add_r by lia. change (2 ^ 8) with 256 in *. nia.
Qed.

Lemma le_store_length n x : length (le_store n x) = n.
Proof. revert x. induction n; intros; cbn; auto. Qed.

Lemma le_store_bytes n x : Forall (is_u 8) (le_store n x).
Proof.
  revert x. induction n; intros; cbn [le_store]; constructor; [|auto].
  change 0xFF with (Z.ones 8). rewrite wrap_ones by lia. apply wrap_range. lia.
Qed.

Lemma le_load_store n x : le_load (le_store n x) = wrap (8 * Z.of_nat n) x.
Proof.
  revert x. induction n as [|n IH]; intros x; cbn [le_store le_load].
  - unfold wrap. cbn. by rewrite Z.mod_1_r.
  - rewrite IH. change 0xFF with (Z.ones 8). rewrite wrap_ones by lia. unfold wrap.
    rewrite Z.shiftr_div_pow2 by lia.
    replace (8 * Z.of_nat (S n)) with (8 + 8 * Z.of_nat n) by lia.
    rewrite Z.pow_add_r, Z.rem_mul_r by lia. done.
Qed.

Lemma le_store_load l : Forall (is_u 8) l -> le_store (length l) (le_load l) = l.
Proof.
  induction 1 as [|b l Hb Hl IH]; cbn [le_store le_load length]; [done|].
  assert (Hm : 0 <= b < 256) by exact Hb.
  change 0xFF with (Z.ones 8). rewrite wrap_ones by lia. f_equal.
  - unfold wrap. change (2 ^ 8) with 256.
    rewrite (Z.mul_comm 256), Z.mod_add by lia. by apply Z.mod_small.
  - rewrite Z.shiftr_div_pow2 by lia. change (2 ^ 8) with 256.
    by rewrite (Z.mul_comm 256), Z.div_add, Z.div_small, Z.add_0_l by lia.
Qed.

Lemma le_load_inj l1 l2 :
  length l1 = length l2 -> Forall (is_u 8) l1 -> Forall (is_u 8) l2 ->
  le_load l1 = le_load l2 -> l1 = l2.
Proof.
  intros Hl H1 H2 E. by rewrite <- (le_store_load l1), <- (le_store_load l2), E, Hl.
Qed.
