(* ===== verification/Effects.v ===== *)
(** * Effectful host code

    Code that talks to its environment (the register bus, the serial line, the
    clock, sockets) is a [prog E A]: a finite tree of events of the family [E]
    whose answers select the continuation.  A [Handler E W] answers the events
    from a world [W]; [run] executes a program against it.  Simulations between
    worlds are proved once, for every program. *)

From S2P Require Import Prelude.

Inductive prog (E : Type -> Type) (A : Type) : Type :=
  | Ret (a : A)
  | Vis (X : Type) (e : E X) (k : X -> prog E A).
Arguments Ret {E A} a.
Arguments Vis {E A X} e k.

Fixpoint prog_bind {E A B} (p : prog E A) (f : A -> prog E B) : prog E B :=
  match p with
  | Ret a => f a
  | Vis e k => Vis e (fun x => prog_bind (k x) f)
  end.

Definition trigger {E X} (e : E X) : prog E X := Vis e Ret.

(** Programs that may throw; a throw skips the rest. *)
Definition io (E : Type -> Type) (A : Type) : Type := prog E (result A).

#[export] Instance io_ret {E} : MRet (io E) := fun A a => Ret (Ok a).
#[export] Instance io_bind {E} : MBind (io E) := fun A B f p =>
  prog_bind p (fun r => match r with Ok a => f a | Err e => Ret (Err e) end).

Definition io_throw {E A} (what : string) : io E A := Ret (throw what).
Definition io_fail {E A} (e : error) : io E A := Ret (Err e).
(** An event whose answer is an outcome, and one whose answer is a plain value. *)
Definition call {E X} (e : E (result X)) : io E X := trigger e.
Definition call_ok {E X} (e : E X) : io E X := Vis e (fun x => Ret (Ok x)).

(** ** Running against a world *)
Class Handler (E : Type -> Type) (W : Type) : Type :=
  handle : forall X, E X -> W -> X * W.
Arguments handle {E W _ X} e w.

Fixpoint run {E W A} `{!Handler E W} (p : prog E A) (w : W) : A * W :=
  match p with
  | Ret a => (a, w)
  | Vis e k => let (x, w') := handle e w in run (k x) w'
  end.

Section Run.
Context {E : Type -> Type} {W : Type} `{!Handler E W}.

Lemma run_prog_bind {A B} (p : prog E A) (f : A -> prog E B) w :
  run (prog_bind p f) w = let (a, w') := run p w in run (f a) w'.
Proof.
  revert w. induction p as [a|X e k IH]; intros w; cbn; [done|].
  destruct (handle e w) as [x w']. apply IH.
Qed.

Lemma run_bind {A B} (p : io E A) (f : A -> io E B) w :
  run (p ≫= f) w =
    match run p w with
    | (Ok a, w') => run (f a) w'
    | (Err e, w') => (Err e, w')
    end.
Proof.
  unfold mbind, io_bind. rewrite run_prog_bind. by destruct (run p w) as [[]].
Qed.

Lemma run_Ret {A} (a : A) w : run (Ret a : prog E A) w = (a, w).
Proof. done. Qed.

Lemma run_ret {A} (a : A) w : run (mret a : io E A) w = (Ok a, w).
Proof. done. Qed.

Lemma run_call {X} (e : E (result X)) w : run (call e) w = handle e w.
Proof. unfold call, trigger. cbn. by destruct (handle e w). Qed.

Lemma run_call_ok {X} (e : E X) w :
  run (call_ok e) w = let (x, w') := handle e w in (Ok x, w').
Proof. unfold call_ok. cbn. by destruct (handle e w). Qed.

(** A run that ends normally went through every step of a sequence. *)
Lemma run_bind_Ok {A B} (p : io E A) (f : A -> io E B) w b w2 :
  run (p ≫= f) w = (Ok b, w2) <->
  exists a w1, run p w = (Ok a, w1) /\ run (f a) w1 = (Ok b, w2).
Proof.
  rewrite run_bind. split.
  - destruct (run p w) as [[a|e] w1]; intros H; [eauto|discriminate].
  - by intros (a & w1 & -> & H).
Qed.

Lemma run_bind_step {A B} (p : io E A) (f : A -> io E B) w a w1 :
  run p w = (Ok a, w1) -> run (p ≫= f) w = run (f a) w1.
Proof. rewrite run_bind. by intros ->. Qed.
End Run.

(** ** Simulation *)

(** Two worlds that answer every event alike, as far as a program can tell. *)
Definition simulates {E W1 W2} `{!Handler E W1} `{!Handler E W2} (R : W1 -> W2 -> Prop) : Prop :=
  forall X (e : E X) w1 w2, R w1 w2 ->
    (handle e w1).1 = (handle e w2).1 /\ R (handle e w1).2 (handle e w2).2.

Theorem run_simulates {E W1 W2 A} `{!Handler E W1} `{!Handler E W2} (R : W1 -> W2 -> Prop) :
  simulates R -> forall (p : prog E A) w1 w2, R w1 w2 ->
    (run p w1).1 = (run p w2).1 /\ R (run p w1).2 (run p w2).2.
Proof.
  intros Hsim p. induction p as [a|X e k IH]; intros w1 w2 HR; cbn; [done|].
  destruct (Hsim X e w1 w2 HR) as [Hx HR'].
  destruct (handle e w1) as [x1 w1'], (handle e w2) as [x2 w2']; cbn in *. subst x2.
  by apply IH.
Qed.

(** An invariant of the world that every event preserves holds after a run. *)
Theorem run_invariant {E W A} `{!Handler E W} (I : W -> Prop) :
  (forall X (e : E X) w, I w -> I (handle e w).2) ->
  forall (p : prog E A) w, I w -> I (run p w).2.
Proof.
  intros HI p. induction p as [a|X e k IH]; intros w Hw; cbn; [done|].
  pose proof (HI X e w Hw). destruct (handle e w) as [x w']. by apply IH.
Qed.

(** ** Interpreting one family of events by programs of another *)
Class Interp (E F : Type -> Type) : Type := interp : forall X, E X -> prog F X.
Arguments interp {E F _ X} e.

Fixpoint translate {E F A} `{!Interp E F} (p : prog E A) : prog F A :=
  match p with
  | Ret a => Ret a
  | Vis e k => prog_bind (interp e) (fun x => translate (k x))
  end.

(** The world of [F] answers the events of [E] through the interpretation. *)
Definition via {E F W} `{!Interp E F} `{!Handler F W} : Handler E W :=
  fun X e w => run (interp e) w.

Lemma run_translate {E F W A} `{!Interp E F} `{!Handler F W} (p : prog E A) w :
  run (translate p) w = run (Handler0 := via) p w.
Proof.
  revert w. induction p as [a|X e k IH]; intros w; cbn; [done|].
  rewrite run_prog_bind. unfold handle, via. destruct (run (interp e) w). apply IH.
Qed.

(** ** Methods of an object that talks to its environment

    The fields are threaded on every path, exceptions included. *)
Definition objM (E : Type -> Type) (S A : Type) : Type := S -> prog E (result A * S).

#[export] Instance objM_ret {E S} : MRet (objM E S) := fun A a s => Ret (Ok a, s).
#[export] Instance objM_bind {E S} : MBind (objM E S) := fun A B f m s =>
  prog_bind (m s) (fun x => match x with
    | (Ok a, s') => f a s'
    | (Err e, s') => Ret (Err e, s')
    end).

Definition obj_io {E S A} (p : io E A) : objM E S A := fun s =>
  prog_bind p (fun r => Ret (r, s)).
Definition obj_get {E S} : objM E S S := fun s => Ret (Ok s, s).
Definition obj_modify {E S} (f : S -> S) : objM E S unit := fun s => Ret (Ok tt, f s).
Definition obj_throw {E S A} (what : string) : objM E S A := fun s => Ret (throw what, s).
Definition obj_fail {E S A} (e : error) : objM E S A := fun s => Ret (Err e, s).

Section RunObj.
Context {E : Type -> Type} {S W : Type} `{!Handler E W}.

Lemma run_obj_bind {A B} (m : objM E S A) (f : A -> objM E S B) s w :
  run ((m ≫= f) s) w =
    match run (m s) w with
    | ((Ok a, s'), w') => run (f a s') w'
    | ((Err e, s'), w') => ((Err e, s'), w')
    end.
Proof.
  unfold mbind, objM_bind. rewrite run_prog_bind.
  by destruct (run (m s) w) as [[[a|e] s'] w'].
Qed.

Lemma run_obj_ret {A} (a : A) s w : run ((mret a : objM E S A) s) w = ((Ok a, s), w).
Proof. done. Qed.

Lemma run_obj_io {A} (p : io E A) s w :
  run (obj_io (S := S) p s) w = let (r, w') := run p w in ((r, s), w').
Proof. unfold obj_io. rewrite run_prog_bind. by destruct (run p w). Qed.

Lemma run_obj_get s w : run ((obj_get : objM E S S) s) w = ((Ok s, s), w).
Proof. done. Qed.

Lemma run_obj_modify f s w : run ((obj_modify f : objM E S unit) s) w = ((Ok tt, f s), w).
Proof. done. Qed.
End RunObj.

Ltac obj1 :=
  first [ rewrite run_obj_bind | rewrite run_obj_ret | rewrite run_obj_io
        | rewrite run_obj_get | rewrite run_obj_modify | rewrite run_Ret ]; cbn beta iota.
