(* ===== verification/Utils.v ===== *)
(** * Helpers: [example/cpp/utils.hpp] and [utils.cpp]

    Bit helpers of the register drivers, component addresses and the printing
    of addresses.  [inet_pton] is the C library's and stays a parameter. *)

From stdpp Require Import pretty.
From Stdlib Require Import Ascii.
From S2P Require Import Prelude.

(** ** Addresses *)
Definition COMP_NUM_TO_OFFSET (comp_num : Z) : Z := u32 (Z.shiftl comp_num 8).
Definition to_reg_address (comp_num reg_addr : Z) : Z :=
  Z.lor (u32 (Z.shiftl comp_num 8)) reg_addr.

(** ** Bit helpers; [w] is the width of the template argument [T] *)

(** [(1 << (num_bits + 1)) - 1] is [int] arithmetic, then converted to [T]. *)
Definition get_bits (w value index_low index_high : Z) : result Z :=
  let num_bits := u64 (index_high - index_low + 1) in
  mask ← int_mask (u64 (num_bits + 1));
  v ← shr32 value index_low;
  Ok (Z.land v (wrap w mask)).

(** The callers pass literal indices below 32. *)
Definition get_bit (value index : Z) : bool :=
  negb (Z.land (Z.shiftr value index) 0x01 =? 0).
Definition set_bit (value index : Z) : Z := Z.lor value (u32 (Z.shiftl 1 index)).
Definition clear_bit (value index : Z) : Z :=
  Z.land value (not32 (u32 (Z.shiftl 1 index))).

(** ** Printing *)
Definition hex_digit (d : Z) : string :=
  nth (Z.to_nat d)
    ["0";"1";"2";"3";"4";"5";"6";"7";"8";"9";"a";"b";"c";"d";"e";"f"]%string ""%string.

(** [std::hex << static_cast<int>(byte)]: no leading zero. *)
Definition hex_byte (b : Z) : string :=
  if b <? 16 then hex_digit b
  else (hex_digit (Z.shiftr b 4) +:+ hex_digit (Z.land b 15))%string.

Definition mac_to_string (addr : list Z) : string :=
  match addr with
  | [a; b; c; d; e; f] =>
      (hex_byte a +:+ ":" +:+ hex_byte b +:+ ":" +:+ hex_byte c +:+ ":" +:+
       hex_byte d +:+ ":" +:+ hex_byte e +:+ ":" +:+ hex_byte f)%string
  | _ => ""%string
  end.

Definition dec (n : Z) : string := pretty (Z.to_N n).

Definition ip_to_string (addr : Z) : string :=
  (dec (Z.land (Z.shiftr addr 24) 0xFF) +:+ "." +:+
   dec (Z.land (Z.shiftr addr 16) 0xFF) +:+ "." +:+
   dec (Z.land (Z.shiftr addr 8) 0xFF) +:+ "." +:+
   dec (Z.land (Z.shiftr addr 0) 0xFF) +:+ ":")%string.

(** [inet_pton(AF_INET, s, &ret)]: its return value and the word it stores. *)
Definition string_to_ip (inet_pton : string -> Z * Z) (addr : string) : option Z :=
  let (r, ret) := inet_pton addr in
  if negb (r =? 1) then None else Some ret.

(** [ntohl] on a little-endian host. *)
Definition ntohl (x : Z) : Z :=
  Z.lor (Z.shiftl (Z.land x 0xFF) 24)
    (Z.lor (Z.shiftl (Z.land (Z.shiftr x 8) 0xFF) 16)
      (Z.lor (Z.shiftl (Z.land (Z.shiftr x 16) 0xFF) 8) (Z.land (Z.shiftr x 24) 0xFF))).

(** ** Lemmas *)

Lemma testbit_get_bit v i : 0 <= i -> get_bit v i = Z.testbit v i.
Proof.
  intros Hi. unfold get_bit. change 0x01 with (Z.ones 1). rewrite wrap_ones by lia.
  pose proof (testbit_wrap 1 (Z.shiftr v i) 0 ltac:(lia)) as H0.
  rewrite Z.shiftr_spec, Z.add_0_l in H0 by lia. cbn [Z.ltb Z.compare andb] in H0.
  pose proof (wrap_range 1 (Z.shiftr v i) ltac:(lia)) as Hr. unfold is_u in Hr.
  rewrite <- H0. assert (wrap 1 (Z.shiftr v i) = 0 \/ wrap 1 (Z.shiftr v i) = 1) as [-> | ->] by lia;
    reflexivity.
Qed.

Lemma testbit_set_bit v i j :
  0 <= i < 32 -> 0 <= j -> Z.testbit (set_bit v i) j = (j =? i) || Z.testbit v j.
Proof.
  intros Hi Hj. unfold set_bit. autorewrite with zbits. zcases; cbn [andb]; try done.
  all: by rewrite ?orb_true_r, ?orb_false_r.
Qed.

Lemma testbit_clear_bit v i j :
  0 <= i < 32 -> is_u 32 v -> 0 <= j ->
  Z.testbit (clear_bit v i) j = negb (j =? i) && Z.testbit v j.
Proof.
  intros Hi Hv Hj. unfold clear_bit. autorewrite with zbits. zcases; cbn [andb negb];
    rewrite ?andb_true_r, ?andb_false_r; try done; by rewrite (testbit_high 32 v).
Qed.

Lemma set_bit_is_u v i : 0 <= i < 32 -> is_u 32 v -> is_u 32 (set_bit v i).
Proof. intros. unfold set_bit. auto with word. Qed.

Lemma clear_bit_is_u v i : is_u 32 v -> is_u 32 (clear_bit v i).
Proof.
  intros. unfold clear_bit. apply is_u_land_l; [lia|done|].
  unfold not32. pose proof (wrap_range 32 (Z.lnot (u32 (Z.shiftl 1 i))) ltac:(lia)) as [? _]. done.
Qed.
#[export] Hint Resolve set_bit_is_u clear_bit_is_u : word.

Lemma get_bits_ok w value lo hi :
  0 <= w <= 32 -> is_u w value -> 0 <= lo <= hi -> hi - lo <= 28 -> lo < 32 ->
  get_bits w value lo hi = Ok (wrap w (wrap (hi - lo + 2) (Z.shiftr value lo))).
Proof.
  intros Hw Hv Hlo Hhi Hlo32. unfold get_bits.
  rewrite (u64_small (hi - lo + 1)), u64_small, int_mask_ok, shr32_ok by lia.
  cbn [mbind result_bind]. f_equal. zbits_at i.
Qed.

(** *** Printed addresses *)
Fixpoint char_free (c : ascii) (s : string) : bool :=
  match s with
  | EmptyString => true
  | String d s' => negb (bool_decide (d = c)) && char_free c s'
  end.

Lemma split_unique c s1 s2 t1 t2 :
  char_free c s1 = true -> char_free c s2 = true ->
  (s1 +:+ String c t1 = s2 +:+ String c t2)%string -> s1 = s2 /\ t1 = t2.
Proof.
  revert s2. induction s1 as [|d s1 IH]; intros [|d2 s2] H1 H2 E; cbn in *.
  - by injection E.
  - injection E as -> _. by rewrite bool_decide_true in H2.
  - injection E as <- _. by rewrite bool_decide_true in H1.
  - injection E as <- E. apply andb_true_iff in H1 as [_ H1], H2 as [_ H2].
    by destruct (IH s2 H1 H2 E) as [-> ->].
Qed.

(** A property of the 256 byte values, checked by evaluation. *)
Lemma byte_cases (P : Z -> bool) :
  forallb P (seqZ 0 256) = true -> forall b, is_u 8 b -> P b = true.
Proof.
  intros H b Hb. rewrite forallb_forall in H. apply H, list_elem_of_In, elem_of_seqZ.
  unfold is_u in Hb. lia.
Qed.

Fixpoint unhex (s : string) (acc : Z) : Z :=
  match s with
  | EmptyString => acc
  | String c s' =>
      let n := Z.of_nat (nat_of_ascii c) in
      unhex s' (16 * acc + (if n <? 58 then n - 48 else n - 87))
  end.

Lemma hex_byte_inv b : is_u 8 b -> unhex (hex_byte b) 0 = b.
Proof.
  intros Hb. apply Z.eqb_eq. revert b Hb. apply byte_cases. vm_compute. reflexivity.
Qed.

Lemma hex_byte_colon_free b : is_u 8 b -> char_free ":" (hex_byte b) = true.
Proof. revert b. apply byte_cases. vm_compute. reflexivity. Qed.

Lemma dec_free b : is_u 8 b -> char_free "." (dec b) && char_free ":" (dec b) = true.
Proof. revert b. apply byte_cases. vm_compute. reflexivity. Qed.

Lemma hex_byte_inj a b : is_u 8 a -> is_u 8 b -> hex_byte a = hex_byte b -> a = b.
Proof. intros Ha Hb E. by rewrite <- (hex_byte_inv a), <- (hex_byte_inv b), E. Qed.

Lemma dec_inj a b : 0 <= a -> 0 <= b -> dec a = dec b -> a = b.
Proof. unfold dec. intros Ha Hb E%pretty_N_inj. by apply Z2N.inj in E. Qed.

(** The four bytes of an address, most significant first. *)
Definition ip_bytes (addr : Z) : list Z :=
  [Z.land (Z.shiftr addr 24) 0xFF; Z.land (Z.shiftr addr 16) 0xFF;
   Z.land (Z.shiftr addr 8) 0xFF; Z.land (Z.shiftr addr 0) 0xFF].

Lemma land_ff x : Z.land x 0xFF = wrap 8 x.
Proof. change 0xFF with (Z.ones 8). by rewrite wrap_ones. Qed.

Lemma ip_bytes_inj a b : is_u 32 a -> is_u 32 b -> ip_bytes a = ip_bytes b -> a = b.
Proof.
  unfold ip_bytes. rewrite !land_ff. intros Ha Hb [= E3 E2 E1 E0].
  apply Z.bits_inj'. intros i Hi. destruct (Z.lt_ge_cases i 32);
    [|by rewrite !(testbit_high 32)].
  assert (Hbyte : forall k x y, 0 <= k -> wrap 8 (Z.shiftr x k) = wrap 8 (Z.shiftr y k) ->
            k <= i < k + 8 -> Z.testbit x i = Z.testbit y i).
  { intros k x y Hk E Hr. pose proof (f_equal (fun z => Z.testbit z (i - k)) E) as Hb'.
    cbn beta in Hb'. rewrite !testbit_wrap, !Z.shiftr_spec in Hb' by lia.
    replace (i - k + k) with i in Hb' by lia. revert Hb'. by zcases. }
  destruct (Z.lt_ge_cases i 8); [by apply (Hbyte 0)|].
  destruct (Z.lt_ge_cases i 16); [by apply (Hbyte 8)|].
  destruct (Z.lt_ge_cases i 24); [by apply (Hbyte 16)|by apply (Hbyte 24)].
Qed.

(** ** Properties *)

(** [get_bits v lo hi] is one bit too wide: it returns the documented field
    [hi..lo] exactly when bit [hi + 1] of the value happens to be clear. *)
Theorem get_bits_field_iff w value lo hi :
  0 <= w <= 32 -> is_u w value -> 0 <= lo <= hi -> hi + 1 < w -> hi - lo <= 28 ->
  get_bits w value lo hi = Ok (wrap (hi - lo + 1) (Z.shiftr value lo))
  <-> Z.testbit value (hi + 1) = false.
Proof.
  intros Hw Hv Hlo Hhi Hd. rewrite get_bits_ok by (done || lia).
  rewrite (wrap_small w).
  2: { eapply is_u_mono; [apply wrap_range|]; lia. }
  split.
  - intros [= E]. pose proof (f_equal (fun z => Z.testbit z (hi - lo + 1)) E) as Hb.
    cbn beta in Hb. rewrite !testbit_wrap, Z.shiftr_spec in Hb by lia.
    replace (hi - lo + 1 + lo) with (hi + 1) in Hb by lia. revert Hb. by zcases.
  - intros Hb. f_equal. zbits_at i. replace i with (hi - lo + 1) by lia.
    by replace (hi - lo + 1 + lo) with (hi + 1) by lia.
Qed.

(** The log lines tell addresses apart: [mac_to_string] and [ip_to_string]
    are injective on 6-byte and 32-bit addresses (digits are not padded, but
    the separators keep the bytes apart). *)
Theorem printed_addresses_injective :
  (forall m1 m2, length m1 = 6%nat -> length m2 = 6%nat ->
     Forall (is_u 8) m1 -> Forall (is_u 8) m2 ->
     mac_to_string m1 = mac_to_string m2 -> m1 = m2) /\
  (forall a b, is_u 32 a -> is_u 32 b -> ip_to_string a = ip_to_string b -> a = b).
Proof.
  split.
  - intros m1 m2 L1 L2 F1 F2 E.
    destruct m1 as [|a1 [|b1 [|c1 [|d1 [|e1 [|f1 []]]]]]]; try discriminate.
    destruct m2 as [|a2 [|b2 [|c2 [|d2 [|e2 [|f2 []]]]]]]; try discriminate.
    decompose_Forall_hyps. unfold mac_to_string in E. cbn [String.app] in E.
    repeat (apply split_unique in E as [?%hex_byte_inj E]; [|auto using hex_byte_colon_free..];
            [|done..]).
    apply hex_byte_inj in E; congruence.
  - intros a b Ha Hb E. apply ip_bytes_inj; [done..|].
    assert (Hu : forall x k, is_u 8 (Z.land (Z.shiftr x k) 0xFF))
      by (intros; rewrite land_ff; apply wrap_range; lia).
    assert (Hn : forall x k, 0 <= Z.land (Z.shiftr x k) 0xFF) by (intros; apply Hu).
    assert (Hf : forall x k, char_free "." (dec (Z.land (Z.shiftr x k) 0xFF)) = true /\
                             char_free ":" (dec (Z.land (Z.shiftr x k) 0xFF)) = true)
      by (intros x k; apply andb_true_iff, dec_free, Hu).
    unfold ip_to_string in E. cbn [String.app] in E.
    do 3 (apply split_unique in E as [?%dec_inj E]; [|try apply Hf; apply Hn..]).
    apply split_unique in E as [?%dec_inj _]; [|try apply Hf; apply Hn..].
    unfold ip_bytes. congruence.
Qed.

(** [ntohl] exchanges network and host order: it is its own inverse on
    32-bit words and stays in range. *)
Theorem ntohl_involutive x : is_u 32 x -> is_u 32 (ntohl x) /\ ntohl (ntohl x) = x.
Proof.
  intros Hx. split.
  - apply is_u_bits; [lia| |].
    + unfold ntohl. rewrite !land_ff. repeat (apply Z.lor_nonneg; split);
        try apply Z.shiftl_nonneg; apply wrap_range; lia.
    + intros i Hi. unfold ntohl. rewrite !land_ff. autorewrite with zbits. by zcases.
  - unfold ntohl. rewrite !land_ff. zbits_at i; by rewrite (testbit_high 32 x) by (done || lia).
Qed.

(** ** Witnesses *)
Lemma get_bits_field_iff_witness :
  get_bits 16 0xFFDB 2 4 = Ok 6 /\ get_bits 16 0xFFFB 2 4 = Ok 14.
Proof.
  split; [|vm_compute; reflexivity].
  apply (get_bits_field_iff 16 0xFFDB 2 4); [lia|unfold is_u; lia|lia..|vm_compute; reflexivity].
Defined.

Lemma printed_addresses_injective_witness :
  mac_to_string [0xe9; 0xd6; 0x85; 0x0c; 0x47; 0x5a] = "e9:d6:85:c:47:5a"%string /\
  ip_to_string 0xC0A80002 = "192.168.0.2:"%string /\
  ip_to_string 0xC0A80002 <> ip_to_string 0xC0A80001.
Proof.
  split; [vm_compute; reflexivity|]. split; [vm_compute; reflexivity|].
  intros E. enough (0xC0A80002 = 0xC0A80001) by lia.
  apply (proj2 printed_addresses_injective); [unfold is_u; lia..|exact E].
Defined.

Lemma ntohl_involutive_witness : ntohl (ntohl 0x0200A8C0) = 0x0200A8C0.
Proof. apply (ntohl_involutive 0x0200A8C0). unfold is_u. lia. Defined.
