(* ===== verification/Logging.v ===== *)
(** * Log output: [example/cpp/logging.hpp]

    The levels, [baseName] on a file name literal, and the [LOG_IMPL] macro as
    the sequence of calls it makes on [stderr].  [stderr] is a shared stream
    with the recursive lock of [flockfile]; threads that log run interleaved,
    one call at a time.  The theorems: what [baseName] returns, and that the
    lines of different threads never mix and no thread gets stuck. *)

From Stdlib Require Import Ascii.
From S2P Require Import Prelude.
From S2P Require Import Utils.

Inductive log_level_t := TRACE | DEBUG | INFO | WARN | ERROR.

Definition level_num (l : log_level_t) : Z :=
  match l with TRACE => 0 | DEBUG => 1 | INFO => 2 | WARN => 3 | ERROR => 4 end.

(** [std::atomic<log_level_t> global_log_level{log_level_t::INFO}] *)
Definition global_log_level : log_level_t := INFO.

(** ** The file name *)

(** [str[pos] == '/' || str[pos] == '\\'] *)
Definition is_separator (c : ascii) : bool :=
  Ascii.eqb c "/"%char || Ascii.eqb c "\"%char.

(** A string literal is an array of its characters and the final NUL; the
    returned pointer is an offset into it.  Reading outside of the array does
    not compile ([consteval]). *)
Definition literal (s : list ascii) : list ascii := s ++ [zero].

Fixpoint baseNameImpl (str : list ascii) (pos : nat) : option nat :=
  match pos with
  | O => Some 0%nat
  | S pos' =>
      c ← str !! pos;
      if is_separator c then Some (pos + 1)%nat else baseNameImpl str pos'
  end.

Definition baseName (str : list ascii) : option nat := baseNameImpl str (length str - 1).

(** The C string a pointer into the array denotes: up to the NUL. *)
Fixpoint c_string (l : list ascii) : list ascii :=
  match l with
  | [] => []
  | c :: l' => if Ascii.eqb c zero then [] else c :: c_string l'
  end.

Definition base_name (s : list ascii) : list ascii :=
  match baseName (literal s) with
  | Some off => c_string (drop off (literal s))
  | None => []
  end.

(** ** The macro *)
Definition escape : string := String (Ascii.ascii_of_nat 27) "".
Definition newline : string := String (Ascii.ascii_of_nat 10) "".

Definition colour (l : log_level_t) : string :=
  (escape +:+ match l with
              | TRACE => "[0;36m" | DEBUG => "[0;35m" | INFO => "[0;32m"
              | WARN => "[0;33m" | ERROR => "[0;31m"
              end)%string.
Definition colour_reset : string := (escape +:+ "[0m")%string.

(** [STRING(LEVEL)] *)
Definition level_string (l : log_level_t) : string :=
  match l with
  | TRACE => "TRACE" | DEBUG => "DEBUG" | INFO => "INFO"
  | WARN => "WARN" | ERROR => "ERROR"
  end%string.

(** One expansion of the macro: the value of [global_log_level] it reads, its
    level, [__FILE__], [__LINE__] and the formatted message. *)
Record log_call := LogCall {
  seen_level : log_level_t;
  call_level : log_level_t;
  call_file : list ascii;
  call_line : Z;
  call_message : string
}.

Definition visible (c : log_call) : bool :=
  level_num (seen_level c) <=? level_num (call_level c).

Definition log_prefix (c : log_call) : string :=
  (colour (call_level c) +:+ String.string_of_list_ascii (base_name (call_file c)) +:+ ":" +:+
   dec (call_line c) +:+ " " +:+ level_string (call_level c) +:+ ": ")%string.
Definition log_suffix : string := (colour_reset +:+ newline)%string.

Inductive stdio_op := FLockFile | FPrintf (s : string) | FUnlockFile.

Definition line_ops (c : log_call) : list stdio_op :=
  [FLockFile; FPrintf (log_prefix c); FPrintf (call_message c); FPrintf log_suffix; FUnlockFile].

Definition LOG_IMPL (c : log_call) : list stdio_op := if visible c then line_ops c else [].

Definition LOG_TRACE (seen : log_level_t) (file : list ascii) (line : Z) (message : string) :=
  LOG_IMPL (LogCall seen TRACE file line message).
Definition LOG_DEBUG (seen : log_level_t) (file : list ascii) (line : Z) (message : string) :=
  LOG_IMPL (LogCall seen DEBUG file line message).
Definition LOG_INFO (seen : log_level_t) (file : list ascii) (line : Z) (message : string) :=
  LOG_IMPL (LogCall seen INFO file line message).
Definition LOG_WARN (seen : log_level_t) (file : list ascii) (line : Z) (message : string) :=
  LOG_IMPL (LogCall seen WARN file line message).
Definition LOG_ERROR (seen : log_level_t) (file : list ascii) (line : Z) (message : string) :=
  LOG_IMPL (LogCall seen ERROR file line message).

Definition line_text (c : log_call) : string :=
  (log_prefix c +:+ call_message c +:+ log_suffix)%string.

(** ** Threads on the shared stream *)

(** [stderr]: the thread that holds the stream's lock with its count, and what
    was written. *)
Record stream := Stream { holder : option (nat * nat); written : string }.

(** [flockfile] and [funlockfile] count; [fprintf] needs the lock for its own
    duration.  [None]: the thread waits. *)
Definition stdio_do (i : nat) (o : stdio_op) (s : stream) : option stream :=
  match o, holder s with
  | FLockFile, None => Some (Stream (Some (i, 1%nat)) (written s))
  | FLockFile, Some (j, n) =>
      if decide (i = j) then Some (Stream (Some (i, S n)) (written s)) else None
  | FPrintf t, None => Some (Stream None (written s +:+ t))
  | FPrintf t, Some (j, n) =>
      if decide (i = j) then Some (Stream (Some (j, n)) (written s +:+ t)) else None
  | FUnlockFile, Some (j, n) =>
      if decide (i = j)
      then Some (Stream (match n with S (S n') => Some (j, S n') | _ => None end) (written s))
      else None
  | FUnlockFile, None => None
  end.

(** Each thread with the calls it has left. *)
Definition sys : Type := list (list stdio_op) * stream.

Inductive log_step : sys -> sys -> Prop :=
  | log_step_thread ts s i o ops s' :
      ts !! i = Some (o :: ops) -> stdio_do i o s = Some s' ->
      log_step (ts, s) (<[i := ops]> ts, s').

(** Execution under a schedule; a thread that waits or is done stays put. *)
Fixpoint log_exec (sched : list nat) (y : sys) : sys :=
  match sched with
  | [] => y
  | i :: sched' =>
      log_exec sched'
        match y.1 !! i with
        | Some (o :: ops) =>
            match stdio_do i o y.2 with Some s' => (<[i := ops]> y.1, s') | None => y end
        | _ => y
        end
  end.

Definition thread_ops (cs : list log_call) : list stdio_op := concat (LOG_IMPL <$> cs).
Definition sys_start (threads : list (list log_call)) : sys :=
  (thread_ops <$> threads, Stream None "").
Definition finished (y : sys) : Prop := Forall (fun ops => ops = []) y.1.

Definition concat_strings (l : list string) : string := foldr String.append ""%string l.

(** ** [baseName] *)

Lemma baseNameImpl_none str pos :
  (pos < length str)%nat ->
  (forall j, (1 <= j <= pos)%nat -> exists c, str !! j = Some c /\ is_separator c = false) ->
  baseNameImpl str pos = Some 0%nat.
Proof.
  induction pos as [|pos IH]; intros Hl H; [done|]. cbn [baseNameImpl].
  destruct (H (S pos) ltac:(lia)) as (c & Ec & Hc). rewrite Ec. cbn [mbind option_bind].
  rewrite Hc. apply IH; [lia|]. intros j Hj. apply H. lia.
Qed.

Lemma baseNameImpl_some str pos j c :
  (1 <= j <= pos)%nat -> (pos < length str)%nat ->
  str !! j = Some c -> is_separator c = true ->
  (forall k, (j < k <= pos)%nat -> exists c, str !! k = Some c /\ is_separator c = false) ->
  baseNameImpl str pos = Some (j + 1)%nat.
Proof.
  intros Hj Hl Ej Hc. induction pos as [|pos IH]; intros H; [lia|]. cbn [baseNameImpl].
  destruct (decide (j = S pos)) as [->|Hne].
  - rewrite Ej. cbn [mbind option_bind]. by rewrite Hc.
  - destruct (H (S pos) ltac:(lia)) as (c' & Ec & Hc'). rewrite Ec. cbn [mbind option_bind].
    rewrite Hc'. apply IH; [lia|lia|]. intros k Hk. apply H. lia.
Qed.

Definition no_nul (s : list ascii) : Prop := Forall (fun c => Ascii.eqb c zero = false) s.
Definition no_separator (s : list ascii) : Prop := Forall (fun c => is_separator c = false) s.

Lemma c_string_literal s : no_nul s -> c_string (literal s) = s.
Proof. induction 1 as [|c s Hc Hs IH]; cbn; [done|]. rewrite Hc. by f_equal. Qed.

Lemma literal_tail d b j :
  no_separator b -> (length d <= j <= length d + length b)%nat ->
  exists c, literal (d ++ b) !! j = Some c /\ is_separator c = false.
Proof.
  intros Hb Hj. unfold literal. rewrite <- app_assoc, lookup_app_r by lia.
  destruct (decide (j - length d < length b)%nat) as [Hlt|Hge].
  - rewrite lookup_app_l by lia. destruct (lookup_lt_is_Some_2 b _ Hlt) as [c Ec].
    exists c. split; [done|]. exact (Forall_lookup_1 _ _ _ _ Hb Ec).
  - exists zero. rewrite lookup_app_r by lia. by replace (_ - _ - _)%nat with 0%nat by lia.
Qed.

Lemma base_name_leading c b :
  no_nul (c :: b) -> no_separator b -> base_name (c :: b) = c :: b.
Proof.
  intros Hn Hb. unfold base_name, baseName. rewrite baseNameImpl_none.
  - by apply c_string_literal.
  - unfold literal. rewrite length_app. cbn. lia.
  - intros j Hj. apply (literal_tail [c] b); [done|].
    revert Hj. unfold literal. rewrite length_app. cbn. lia.
Qed.

Lemma base_name_after d c b :
  no_nul b -> d <> [] -> is_separator c = true -> no_separator b ->
  base_name (d ++ c :: b) = b.
Proof.
  intros Hn Hd Hc Hb. unfold base_name, baseName.
  assert (0 < length d)%nat by (destruct d; [done|cbn; lia]).
  assert (Hl : length (literal (d ++ c :: b)) = (length d + length b + 2)%nat).
  { unfold literal. rewrite !length_app. cbn. lia. }
  rewrite (baseNameImpl_some _ _ (length d) c); [| lia | lia | | done |].
  - replace (drop _ _) with (literal b); [by apply c_string_literal|].
    unfold literal. rewrite <- app_assoc. cbn.
    rewrite drop_app_ge by lia. by replace (length d + 1 - length d)%nat with 1%nat by lia.
  - unfold literal. rewrite <- app_assoc, lookup_app_r, Nat.sub_diag by lia. done.
  - intros k Hk. replace (d ++ c :: b) with ((d ++ [c]) ++ b) by by rewrite <- app_assoc.
    apply literal_tail; [done|]. rewrite length_app. cbn. lia.
Qed.

(** ** Whole lines *)

Lemma append_assoc (a b c : string) : (a +:+ (b +:+ c) = (a +:+ b) +:+ c)%string.
Proof. induction a as [|x a IH]; [done|exact (f_equal (String x) IH)]. Qed.

Lemma append_empty_r (a : string) : (a +:+ "" = a)%string.
Proof. induction a as [|x a IH]; [done|exact (f_equal (String x) IH)]. Qed.

Lemma concat_strings_snoc l s : concat_strings (l ++ [s]) = (concat_strings l +:+ s)%string.
Proof.
  induction l as [|x l IH]; [apply append_empty_r|].
  change (x +:+ concat_strings (l ++ [s]) = (x +:+ concat_strings l) +:+ s)%string.
  by rewrite IH, append_assoc.
Qed.

Lemma thread_ops_visible cs : thread_ops cs = concat (line_ops <$> filter visible cs).
Proof.
  induction cs as [|c cs IH]; [done|].
  change (LOG_IMPL c ++ thread_ops cs = concat (line_ops <$> filter visible (c :: cs))).
  rewrite IH, filter_cons. unfold LOG_IMPL. destruct (visible c) eqn:E; by case_decide.
Qed.

(** The lines logged so far, in order, with the thread that logged each one;
    [log_state todo order cur y]: the threads have [todo] left, the line
    [cur = (i, c, k)] is being written by thread [i] and [k] of its parts are
    out. *)
Abbreviation log_order := (list (nat * log_call)).
Definition lines_of (i : nat) (order : log_order) : list log_call :=
  (filter (fun p => p.1 = i) order).*2.
Definition order_text (order : log_order) : string :=
  concat_strings ((fun p => line_text p.2) <$> order).

Definition pending (cs : list log_call) : list stdio_op := concat (line_ops <$> cs).

Definition parts (c : log_call) (k : nat) : string :=
  concat_strings (take k [log_prefix c; call_message c; log_suffix]).

Definition log_state (todo : list (list log_call)) (order : log_order)
    (cur : option (nat * log_call * nat)) (y : sys) : Prop :=
  match cur with
  | None => y = (pending <$> todo, Stream None (order_text order))
  | Some (i, c, k) =>
      (k <= 3)%nat /\ exists cs, todo !! i = Some cs /\
      y = (<[i := drop (S k) (line_ops c) ++ pending cs]> (pending <$> todo),
           Stream (Some (i, 1%nat)) (order_text order +:+ parts c k)%string)
  end.

(** What thread [i] has logged, is logging and will log is what it had to log. *)
Definition accounts (threads todo : list (list log_call)) (order : log_order)
    (cur : option (nat * log_call * nat)) : Prop :=
  length todo = length threads /\
  forall i cs todo_i, threads !! i = Some cs -> todo !! i = Some todo_i ->
    filter visible cs =
      lines_of i order ++
      match cur with Some (j, c, _) => if decide (j = i) then [c] else [] | None => [] end ++
      todo_i.

Definition log_inv (threads : list (list log_call)) (y : sys) : Prop :=
  exists todo order cur, log_state todo order cur y /\ accounts threads todo order cur.

Lemma log_inv_start threads : log_inv threads (sys_start threads).
Proof.
  exists (filter visible <$> threads), [], None. split.
  - unfold log_state, sys_start. f_equal. rewrite <- list_fmap_compose.
    apply list_fmap_ext. intros i cs _. apply thread_ops_visible.
  - split; [apply length_fmap|]. intros i cs todo_i H1. rewrite list_lookup_fmap, H1. cbn.
    by intros [= <-].
Qed.

Lemma lines_of_snoc i order j c :
  lines_of i (order ++ [(j, c)]) = lines_of i order ++ (if decide (j = i) then [c] else []).
Proof.
  unfold lines_of. rewrite filter_app, fmap_app. f_equal.
  rewrite filter_cons. cbn [fst]. by case_decide.
Qed.

Lemma order_text_snoc order j c :
  order_text (order ++ [(j, c)]) = (order_text order +:+ line_text c)%string.
Proof. unfold order_text. rewrite fmap_app. apply concat_strings_snoc. Qed.

(** The whole system knows the next call of each thread. *)
Lemma stdio_do_other i j o t n : i <> j -> stdio_do i o (Stream (Some (j, n)) t) = None.
Proof. intros. unfold stdio_do. cbn. destruct o; by rewrite decide_False. Qed.

Lemma log_inv_step threads y y' : log_inv threads y -> log_step y y' -> log_inv threads y'.
Proof.
  intros (todo & order & cur & Hst & Hlen & Hacc) Hstep.
  destruct Hstep as [ts s i o ops s' Hi Hdo]. destruct cur as [[[j c] k]|]; cbn in Hst.
  - destruct Hst as (Hk & cs & Hcs & [= -> ->]).
    destruct (decide (i = j)) as [->|Hne]; [|by rewrite stdio_do_other in Hdo].
    rewrite list_lookup_insert_eq in Hi by (rewrite length_fmap; by eapply lookup_lt_Some).
    rewrite list_insert_insert_eq.
    assert (k = 3 \/ k < 3)%nat as [->|Hk3] by lia.
    + injection Hi as <- <-. cbn in Hdo. rewrite decide_True in Hdo by done.
      injection Hdo as <-. exists todo, (order ++ [(j, c)]), None. split.
      * cbn. rewrite order_text_snoc. f_equal.
        by rewrite list_insert_id by by rewrite list_lookup_fmap, Hcs.
      * split; [done|]. intros i cs0 todo_i H1 H2. rewrite (Hacc i _ _ H1 H2), lines_of_snoc.
        by rewrite <- app_assoc.
    + exists todo, order, (Some (j, c, S k)). split; [|done].
      cbn. split; [lia|]. exists cs. split; [done|].
      destruct k as [|[|[|k]]]; [..|lia]; injection Hi as <- <-; cbn in Hdo;
        rewrite decide_True in Hdo by done; injection Hdo as <-; cbn;
        by rewrite ?append_empty_r, <- ?append_assoc, ?append_empty_r.
  - injection Hst as -> ->. rewrite list_lookup_fmap in Hi.
    destruct (todo !! i) as [[|c cs]|] eqn:Ei; try done. injection Hi as <- <-.
    injection Hdo as <-. exists (<[i := cs]> todo), order, (Some (i, c, 0%nat)). split.
    + cbn. split; [lia|]. exists cs. split.
      { apply list_lookup_insert_eq. by eapply lookup_lt_Some. }
      by rewrite list_fmap_insert, list_insert_insert_eq, append_empty_r.
    + split; [by rewrite length_insert|]. intros i' cs0 todo_i H1 H2.
      destruct (decide (i = i')) as [<-|Hne].
      * rewrite list_lookup_insert_eq in H2 by (by eapply lookup_lt_Some).
        injection H2 as <-. exact (Hacc i _ _ H1 Ei).
      * rewrite list_lookup_insert_ne in H2 by done. exact (Hacc i' _ _ H1 H2).
Qed.

Lemma log_inv_reachable threads y : rtc log_step (sys_start threads) y -> log_inv threads y.
Proof.
  intros H. remember (sys_start threads) as y0 eqn:E.
  assert (log_inv threads y0) as H0 by (subst; apply log_inv_start). clear E.
  induction H as [|y0 y1 y H1 H IH]; eauto using log_inv_step.
Qed.

(** In every reachable state some thread can make its next call, or all are
    done. *)
Lemma log_inv_progress threads y : log_inv threads y -> finished y \/ exists y', log_step y y'.
Proof.
  intros (todo & order & cur & Hst & _). destruct cur as [[[i c] k]|]; cbn in Hst.
  - destruct Hst as (Hk & cs & Hcs & ->). right.
    assert (exists o ops s', drop (S k) (line_ops c) ++ pending cs = o :: ops /\
              stdio_do i o (Stream (Some (i, 1%nat)) (order_text order +:+ parts c k)) = Some s')
      as (o & ops & s' & E & Hdo).
    { destruct k as [|[|[|[|k]]]]; [..|lia]; cbn; do 3 eexists; (split; [done|]); cbn;
        by rewrite decide_True. }
    eexists. eapply (log_step_thread _ _ i o ops); [|exact Hdo].
    rewrite <- E. apply list_lookup_insert_eq. rewrite length_fmap. by eapply lookup_lt_Some.
  - subst y. destruct (decide (Forall (fun cs => cs = []) todo)) as [Hall|Hnot].
    + left. unfold finished. cbn. apply Forall_fmap. eapply Forall_impl; [exact Hall|].
      by intros cs ->.
    + right. apply not_Forall_Exists, Exists_exists in Hnot; [|apply _].
      destruct Hnot as (cs & Hin & Hne). apply list_elem_of_lookup_1 in Hin as [i Hi].
      destruct cs as [|c cs]; [by destruct Hne|].
      eexists. eapply (log_step_thread _ _ i FLockFile); [|done].
      by rewrite list_lookup_fmap, Hi.
Qed.

(** The number of calls left falls with every step, so no execution goes on
    forever. *)
Definition calls_left (y : sys) : nat := sum_list (length <$> y.1).

Lemma sum_list_insert (l : list nat) i a b :
  l !! i = Some b -> (sum_list (<[i := a]> l) + b = sum_list l + a)%nat.
Proof.
  revert i. induction l as [|x l IH]; intros [|i] H; try done.
  - injection H as ->. cbn. lia.
  - specialize (IH i H). change (<[S i:=a]> (x :: l)) with (x :: <[i:=a]> l). cbn [sum_list_with].
    unfold id in *. lia.
Qed.

Lemma log_step_calls_left y y' : log_step y y' -> calls_left y = S (calls_left y').
Proof.
  intros [ts s i o ops s' Hi _]. unfold calls_left. cbn [fst]. rewrite list_fmap_insert.
  pose proof (sum_list_insert (length <$> ts) i (length ops) (S (length ops))) as H.
  rewrite list_lookup_fmap, Hi in H. specialize (H eq_refl). lia.
Qed.

Lemma log_exec_steps sched y : rtc log_step y (log_exec sched y).
Proof.
  revert y. induction sched as [|i sched IH]; intros [ts s]; cbn; [done|].
  destruct (ts !! i) as [[|o ops]|] eqn:Ei; [apply IH| |apply IH].
  destruct (stdio_do i o s) as [s'|] eqn:Ed; [|apply IH].
  eapply rtc_l; [by econstructor|apply IH].
Qed.

(** ** Properties *)

(** [baseName] on a path without NUL: the part behind the last separator
    ([/] or [\]); the whole path if there is none; and the whole path too,
    separator included, if its only separator is its first character, because
    the recursion stops at position 0 without looking at it. *)
Theorem baseName_spec d c b :
  no_nul b -> no_separator b ->
  (d <> [] -> is_separator c = true -> base_name (d ++ c :: b) = b) /\
  base_name b = b /\
  (Ascii.eqb c zero = false -> base_name (c :: b) = c :: b).
Proof.
  intros Hn Hb. repeat split.
  - intros. by apply base_name_after.
  - destruct b as [|c' b']; [done|]. apply base_name_leading; [done|]. by inversion Hb.
  - intros Hc. apply base_name_leading; [by constructor|done].
Qed.

(** C23. Whatever the interleaving of the threads that log: no reachable state is
    stuck, every execution ends (each step uses up a call), and when it has
    ended the output is a sequence of whole lines which contains, in its order,
    exactly the lines of each thread that its level lets through. *)
Theorem log_lines_whole threads y :
  rtc log_step (sys_start threads) y ->
  (finished y \/ exists y', log_step y y') /\
  (forall y', log_step y y' -> (calls_left y' < calls_left y)%nat) /\
  (finished y ->
   exists order, holder y.2 = None /\ written y.2 = order_text order /\
     forall i cs, threads !! i = Some cs -> lines_of i order = filter visible cs).
Proof.
  intros Hr. pose proof (log_inv_reachable _ _ Hr) as Hinv.
  split; [by eapply log_inv_progress|]. split.
  { intros y' Hs. rewrite (log_step_calls_left _ _ Hs). lia. }
  intros Hfin. destruct Hinv as (todo & order & cur & Hst & Hlen & Hacc).
  destruct cur as [[[i c] k]|]; cbn in Hst.
  - destruct Hst as (Hk & cs & Hcs & ->). exfalso. unfold finished in Hfin. cbn [fst] in Hfin.
    refine (_ (Forall_lookup_1 _ _ i _ Hfin (list_lookup_insert_eq _ _ _ _))).
    + by destruct k as [|[|[|[|k]]]]; [..|lia].
    + rewrite length_fmap. by eapply lookup_lt_Some.
  - subst y. exists order. do 2 (split; [done|]). intros i cs Hi.
    destruct (lookup_lt_is_Some_2 todo i) as [todo_i Ht].
    { rewrite Hlen. by eapply lookup_lt_Some. }
    rewrite (Hacc i _ _ Hi Ht). unfold finished in Hfin. cbn [fst] in Hfin.
    assert (pending todo_i = []) as Hp.
    { apply (Forall_lookup_1 _ _ i _ Hfin). by rewrite list_lookup_fmap, Ht. }
    destruct todo_i as [|c todo_i]; [by rewrite !app_nil_r|done].
Qed.

(** ** Witnesses *)
Definition demo_file : list ascii := String.list_ascii_of_string "cpp/main.cpp".

Lemma baseName_spec_witness :
  base_name (String.list_ascii_of_string "cpp" ++ "/"%char :: String.list_ascii_of_string "main.cpp")
  = String.list_ascii_of_string "main.cpp".
Proof.
  refine (proj1 (baseName_spec _ "/"%char _ _ _) _ _).
  - repeat constructor.
  - repeat constructor.
  - discriminate.
  - reflexivity.
Defined.

Definition demo_calls : list (list log_call) :=
  [[LogCall INFO INFO demo_file 12 "one"; LogCall INFO DEBUG demo_file 13 "two"];
   [LogCall INFO WARN demo_file 20 "three"]].
Definition demo_end : sys := log_exec [1; 0; 1; 0; 1; 1; 1; 0; 0; 0; 0; 0]%nat (sys_start demo_calls).

Lemma log_lines_whole_witness :
  exists order, written demo_end.2 = order_text order /\
    lines_of 0 order = [LogCall INFO INFO demo_file 12 "one"].
Proof.
  destruct (log_lines_whole demo_calls demo_end) as (_ & _ & H).
  - apply log_exec_steps.
  - destruct H as (order & _ & Hw & Hl).
    + repeat constructor.
    + exists order. split; [exact Hw|]. exact (Hl 0%nat _ eq_refl).
Defined.
