(* ===== verification/Lan8720.v ===== *)
(** * PHY registers: [example/cpp/lan8720.hpp] and [.cpp]

    Decoding of the 16-bit LAN8720 registers into records and the encoding of
    the basic control register. *)

From S2P Require Import Prelude Utils.

Inductive speed_t :=
  | UNKNOWN
  | TEN_BASE_T_HALF_DUPLEX
  | TEN_BASE_T_FULL_DUPLEX
  | HUNDRED_BASE_TX_HALF_DUPLEX
  | HUNDRED_BASE_TX_FULL_DUPLEX.
#[export] Instance speed_t_eq_dec : EqDecision speed_t.
Proof. solve_decision. Defined.

Definition speed_t_to_string (speed : speed_t) : string :=
  match speed with
  | UNKNOWN => "UNKNOWN"
  | TEN_BASE_T_HALF_DUPLEX => "10BASE-T Half-duplex"
  | TEN_BASE_T_FULL_DUPLEX => "10BASE-T"
  | HUNDRED_BASE_TX_HALF_DUPLEX => "100BASE-TX Half-duplex"
  | HUNDRED_BASE_TX_FULL_DUPLEX => "100BASE-TX"
  end%string.

(** ** Basic control register *)
Record basic_control_reg_t := BasicControl {
  soft_reset : bool;
  loopback : bool;
  speed_select : bool;
  auto_negotiation_enabled : bool;
  power_down : bool;
  isolate : bool;
  restart_auto_negotiation : bool;
  duplex_mode : bool
}.
Definition BASIC_CONTROL_REG_NUM : Z := 0.

Definition basic_control_of_u16 (reg : Z) : basic_control_reg_t := {|
  soft_reset := get_bit reg 15;
  loopback := get_bit reg 14;
  speed_select := get_bit reg 13;
  auto_negotiation_enabled := get_bit reg 12;
  power_down := get_bit reg 11;
  isolate := get_bit reg 10;
  restart_auto_negotiation := get_bit reg 9;
  duplex_mode := get_bit reg 8
|}.

(** [std::bitset<16>::set(pos, value)]. *)
Definition bitset_set (pos : Z) (value : bool) (b : Z) : Z :=
  if value then Z.lor b (Z.shiftl 1 pos)
  else Z.land b (Z.lxor 0xFFFF (Z.shiftl 1 pos)).

Definition to_u16 (r : basic_control_reg_t) : Z :=
  let ret := 0 in
  let ret := bitset_set 15 (soft_reset r) ret in
  let ret := bitset_set 14 (loopback r) ret in
  let ret := bitset_set 13 (speed_select r) ret in
  let ret := bitset_set 12 (auto_negotiation_enabled r) ret in
  let ret := bitset_set 11 (power_down r) ret in
  let ret := bitset_set 10 (isolate r) ret in
  let ret := bitset_set 9 (restart_auto_negotiation r) ret in
  let ret := bitset_set 8 (duplex_mode r) ret in
  u16 ret.

(** ** Basic status register *)
Record basic_status_reg_t := BasicStatus {
  ability_100_base_t4 : bool;
  ability_100_base_tx_full_duplex : bool;
  ability_100_base_tx_half_duplex : bool;
  ability_10_base_t_full_duplex : bool;
  ability_10_base_t_half_duplex : bool;
  auto_negotiation_complete : bool;
  remote_fault : bool;
  auto_negotiate_ability : bool;
  link_status : bool;
  jabber_detected : bool;
  extended_capabilites : bool
}.
Definition BASIC_STATUS_REG_NUM : Z := 1.

Definition basic_status_of_u16 (reg : Z) : basic_status_reg_t := {|
  ability_100_base_t4 := get_bit reg 15;
  ability_100_base_tx_full_duplex := get_bit reg 14;
  ability_100_base_tx_half_duplex := get_bit reg 13;
  ability_10_base_t_full_duplex := get_bit reg 12;
  ability_10_base_t_half_duplex := get_bit reg 11;
  auto_negotiation_complete := get_bit reg 5;
  remote_fault := get_bit reg 4;
  auto_negotiate_ability := get_bit reg 3;
  link_status := get_bit reg 2;
  jabber_detected := get_bit reg 1;
  extended_capabilites := get_bit reg 0
|}.

(** ** Special status register *)
Record special_status_reg_t := SpecialStatus {
  auto_negotiation_done : bool;
  speed : speed_t
}.
Definition SPECIAL_STATUS_REG_NUM : Z := 31.

Definition decode_speed (speed_bits : Z) : speed_t :=
  match speed_bits with
  | 1 => TEN_BASE_T_HALF_DUPLEX
  | 2 => HUNDRED_BASE_TX_HALF_DUPLEX
  | 5 => TEN_BASE_T_FULL_DUPLEX
  | 6 => HUNDRED_BASE_TX_FULL_DUPLEX
  | _ => UNKNOWN
  end.

(** [get_bits(reg, 2, 4)] is defined for every register value, so the
    constructor cannot fail. *)
Definition special_status_of_u16 (reg : Z) : special_status_reg_t := {|
  auto_negotiation_done := get_bit reg 12;
  speed := match get_bits 16 reg 2 4 with
           | Ok speed_bits => decode_speed speed_bits
           | Err _ => UNKNOWN
           end
|}.

(** ** Lemmas *)
Lemma to_u16_range r : is_u 16 (to_u16 r).
Proof. apply wrap_range. lia. Qed.

Lemma testbit_bitset_set pos value b i :
  0 <= pos < 16 -> 0 <= i < 16 ->
  Z.testbit (bitset_set pos value b) i = if i =? pos then value else Z.testbit b i.
Proof.
  intros Hp Hi. unfold bitset_set. change 0xFFFF with (Z.ones 16).
  destruct value; autorewrite with zbits; zcases; cbn [andb orb];
    rewrite ?orb_true_r, ?orb_false_r, ?andb_true_r, ?andb_false_r; done.
Qed.

(** ** Properties *)

(** The basic control register round trips: decoding an encoded record gives
    the record back, and encoding a decoded register keeps exactly its upper
    byte. *)
Theorem basic_control_roundtrip :
  (forall r, basic_control_of_u16 (to_u16 r) = r) /\
  (forall reg, is_u 16 reg -> to_u16 (basic_control_of_u16 reg) = Z.land reg 0xFF00).
Proof.
  split.
  - intros [[] [] [] [] [] [] [] []]; reflexivity.
  - intros reg Hr. change 0xFF00 with (Z.shiftl (Z.ones 8) 8).
    apply Z.bits_inj'. intros i Hi. unfold to_u16, basic_control_of_u16.
    cbn [soft_reset loopback speed_select auto_negotiation_enabled power_down isolate
         restart_auto_negotiation duplex_mode].
    rewrite !testbit_get_bit, testbit_wrap by lia.
    destruct (Z.ltb_spec i 16).
    + rewrite !testbit_bitset_set by lia. autorewrite with zbits. zcases; cbn [andb];
        rewrite ?andb_true_r, ?andb_false_r; congruence.
    + autorewrite with zbits. by rewrite (testbit_high 16 reg).
Qed.

(** The link speed: the decoder reads bits 5..2 although the field is 4..2, so
    it equals the decoded field when bit 5 is clear and is UNKNOWN whenever bit 5
    is set. *)
Theorem special_status_speed reg :
  is_u 16 reg ->
  speed (special_status_of_u16 reg) =
    if Z.testbit reg 5 then UNKNOWN else decode_speed (wrap 3 (Z.shiftr reg 2)).
Proof.
  intros Hr. unfold special_status_of_u16. cbn [speed].
  rewrite get_bits_ok by (done || lia). change (4 - 2 + 2) with 4. cbn iota beta.
  rewrite (wrap_small 16).
  2: { eapply is_u_mono; [apply wrap_range|]; lia. }
  assert (E : wrap 4 (Z.shiftr reg 2) = wrap 3 (Z.shiftr reg 2) + 8 * Z.b2z (Z.testbit reg 5)).
  { replace (Z.testbit reg 5) with (Z.testbit (Z.shiftr reg 2) 3) by (by rewrite Z.shiftr_spec).
    set (x := Z.shiftr reg 2). rewrite Z.testbit_spec' by lia. unfold wrap.
    change (2 ^ 4) with (2 ^ 3 * 2). rewrite Z.rem_mul_r by lia. lia. }
  rewrite E. pose proof (wrap_range 3 (Z.shiftr reg 2) ltac:(lia)) as Hw. unfold is_u in Hw.
  destruct (Z.testbit reg 5); cbn [Z.b2z]; [|f_equal; lia].
  assert (8 <= wrap 3 (Z.shiftr reg 2) + 8 * 1 < 16) as Hb by lia.
  revert Hb. generalize (wrap 3 (Z.shiftr reg 2) + 8 * 1). intros z Hz.
  assert (z = 8 \/ z = 9 \/ z = 10 \/ z = 11 \/ z = 12 \/ z = 13 \/ z = 14 \/ z = 15) by lia.
  repeat (destruct H as [->|H]; [reflexivity|]). by subst z.
Qed.

(** ** Witnesses *)
Lemma basic_control_roundtrip_witness :
  to_u16 (basic_control_of_u16 0x3180) = 0x3100 /\ to_u16 (BasicControl false false false true false false true false) = 0x1200.
Proof.
  split; [|vm_compute; reflexivity].
  refine (proj2 basic_control_roundtrip 0x3180 _). unfold is_u. lia.
Defined.

Lemma special_status_speed_witness :
  speed (special_status_of_u16 0x1018) = HUNDRED_BASE_TX_FULL_DUPLEX /\
  speed (special_status_of_u16 0x1038) = UNKNOWN.
Proof.
  split.
  - rewrite (special_status_speed 0x1018); [reflexivity|unfold is_u; lia].
  - rewrite (special_status_speed 0x1038); [reflexivity|unfold is_u; lia].
Defined.
