(* ===== verification/Prbs.v ===== *)
(** * The PRBS generator: class [prbs] of [example/cpp/prbs.hpp]

    A linear feedback shift register over a list of tap positions.  [advance]
    shifts one bit in; [get_word] computes several new bits at once from the
    parallel feedback taps.  The file states the class as it is written (every
    shift is checked for undefined behaviour), an abstract bit-serial
    generator, and proves that the class implements it. *)

From S2P Require Import Prelude.

Record prbs := Prbs {
  m_taps : list Z;
  m_invert : bool;
  m_reg : Z;
  m_reg_mask : Z;
  m_high_tap : Z;
  m_low_tap : Z
}.

Definition with_reg (p : prbs) (r : Z) : prbs :=
  Prbs (m_taps p) (m_invert p) r (m_reg_mask p) (m_high_tap p) (m_low_tap p).

(** [*std::max_element] and [*std::min_element] of a non-empty vector. *)
Definition max_element (t : Z) (ts : list Z) : Z := foldr Z.max t ts.
Definition min_element (t : Z) (ts : list Z) : Z := foldr Z.min t ts.

(** The constructor: the [assert], the range check, and the mask expression
    [(1 << m_high_tap) - 1] with its own domain. *)
Definition prbs_new (taps : list Z) (seed : Z) (invert : bool) : result prbs :=
  match taps with
  | [] => Err AssertFail
  | t :: ts =>
      let high := max_element t ts in
      let low := min_element t ts in
      if 32 <? high then throw "Tap value not supported"
      else mask ← int_mask high; Ok (Prbs taps invert seed mask high low)
  end.

Definition reg_length_bits (p : prbs) : Z := m_high_tap p.
Definition get_reg (p : prbs) : Z := m_reg p.
Definition set_reg (r : Z) (p : prbs) : prbs :=
  with_reg p (Z.land r (m_reg_mask p)).

(** [m_reg >> amount(m_taps[0])] XORed with the same for the other taps. *)
Definition xor_taps (amount : Z -> Z) (reg : Z) (taps : list Z) : result Z :=
  match taps with
  | [] => Err Undefined
  | t :: ts =>
      foldl (fun acc t' => a ← acc; y ← shr32 reg (amount t'); Ok (Z.lxor a y))
            (shr32 reg (amount t)) ts
  end.

(** [m_taps[i] - 1] is 32-bit arithmetic, [m_taps[i] - bits] is [size_t]. *)
Definition advance : stM prbs unit :=
  p ← st_get;
  x ← st_lift (xor_taps (fun t => u32 (t - 1)) (m_reg p) (m_taps p));
  let new_bit := Z.land (if m_invert p then not32 x else x) 0x01 in
  sh ← st_lift (shl32 (m_reg p) 1);
  st_put (with_reg p (Z.land (Z.lor sh new_bit) (m_reg_mask p))).

Definition get_bit : stM prbs Z :=
  _ ← advance;
  p ← st_get;
  mret (Z.land (m_reg p) 0x01).

Definition get_word (bits : Z) : stM prbs Z :=
  p ← st_get;
  if m_low_tap p <? bits then st_lift (throw "Too many bits requested")
  else
    mask ← st_lift (int_mask bits);
    x ← st_lift (xor_taps (fun t => u64 (t - bits)) (m_reg p) (m_taps p));
    let new_bits := Z.land (if m_invert p then not32 x else x) mask in
    sh ← st_lift (shl32 (m_reg p) bits);
    _ ← st_put (with_reg p (Z.land (Z.lor sh new_bits) (m_reg_mask p)));
    mret new_bits.

(** [n] calls of [get_bit], the first result being the most significant bit. *)
Fixpoint get_bits_serial (n : nat) : stM prbs Z :=
  match n with
  | O => mret 0
  | S n' =>
      w ← get_bits_serial n';
      b ← get_bit;
      mret (Z.lor (Z.shiftl w 1) b)
  end.

(** Calls of the class's methods, for statements about any use of an object. *)
Inductive prbs_op := OpAdvance | OpGetBit | OpSetReg (r : Z) | OpGetWord (n : nat).

Definition prbs_run (o : prbs_op) : stM prbs Z :=
  match o with
  | OpAdvance => _ ← advance; mret 0
  | OpGetBit => get_bit
  | OpSetReg r => _ ← st_modify (set_reg r); mret 0
  | OpGetWord n => get_word (Z.of_nat n)
  end.

Definition prbs_op_ok (o : prbs_op) : Prop :=
  match o with OpSetReg r => is_u 32 r | _ => True end.

(** The results of a sequence of calls (the caller catching exceptions). *)
Fixpoint prbs_run_all (os : list prbs_op) (p : prbs) : list (result Z) * prbs :=
  match os with
  | [] => ([], p)
  | o :: os' =>
      let (r, p1) := prbs_run o p in
      let (rs, p2) := prbs_run_all os' p1 in (r :: rs, p2)
  end.

(** ** The abstract generator *)

(** XOR of [f t] over the taps. *)
Definition xor_all (f : Z -> bool) (taps : list Z) : bool :=
  foldr (fun t b => xorb (f t) b) false taps.

(** The bit shifted in next: the parity of the tapped bits, inverted or not. *)
Definition feedback (taps : list Z) (inv : bool) (r : Z) : bool :=
  xorb inv (xor_all (fun t => Z.testbit r (t - 1)) taps).

Definition lfsr_step (taps : list Z) (inv : bool) (high r : Z) : Z :=
  wrap high (Z.lor (Z.shiftl r 1) (Z.b2z (feedback taps inv r))).

(** Well-formed generators: what a successful construction with taps of at
    least 1 establishes and every method preserves. *)
Record prbs_wf (p : prbs) : Prop := {
  wf_taps : m_taps p <> [];
  wf_range : Forall (fun t => m_low_tap p <= t <= m_high_tap p) (m_taps p);
  wf_low : 1 <= m_low_tap p;
  wf_high : m_high_tap p <= 30;
  wf_mask : m_reg_mask p = Z.ones (m_high_tap p);
  wf_reg : is_u 32 (m_reg p)
}.

(** The state after [n] steps and the bit shifted in by step [k] (from 0). *)
Fixpoint lfsr_iter (taps : list Z) (inv : bool) (high : Z) (n : nat) (r : Z) : Z :=
  match n with
  | O => r
  | S n' => lfsr_step taps inv high (lfsr_iter taps inv high n' r)
  end.

Definition lfsr_out (taps : list Z) (inv : bool) (high r : Z) (k : nat) : bool :=
  feedback taps inv (lfsr_iter taps inv high k r).

(** ** The abstract generator as a bit stream *)
Section Lfsr.
Context (taps : list Z) (inv : bool) (high : Z).
Context (Hhigh : 1 <= high).
Context (Htaps : Forall (fun t => 1 <= t <= high) taps).

#[local] Abbreviation step := (lfsr_step taps inv high).
#[local] Abbreviation iter := (lfsr_iter taps inv high).
#[local] Abbreviation out := (lfsr_out taps inv high).

Lemma xor_all_ext f g :
  (forall t, 1 <= t <= high -> t ∈ taps -> f t = g t) ->
  xor_all f taps = xor_all g taps.
Proof.
  unfold xor_all. induction Htaps as [|t ts Ht Hts IH]; [done|]; cbn. intros E.
  rewrite (E t) by (done || by left). f_equal. apply IH; [done|]. intros. apply E; [done|by right].
Qed.

Lemma feedback_ext r r' :
  (forall i, 0 <= i < high -> Z.testbit r i = Z.testbit r' i) ->
  feedback taps inv r = feedback taps inv r'.
Proof. intros E. unfold feedback. f_equal. apply xor_all_ext. intros. apply E. lia. Qed.

Lemma testbit_step r i :
  Z.testbit (step r) i =
    (i <? high) && (if i =? 0 then feedback taps inv r else Z.testbit r (i - 1)).
Proof.
  unfold lfsr_step. autorewrite with zbits. zcases; cbn [andb]; try done.
  - subst i. by rewrite Z.testbit_neg_r.
  - by rewrite orb_false_r.
  - by rewrite Z.testbit_neg_r by lia.
Qed.

Lemma step_is_u r : is_u high (step r).
Proof. apply wrap_range. lia. Qed.

Lemma iter_is_u n r : is_u high r -> is_u high (iter n r).
Proof. destruct n; cbn [lfsr_iter]; auto using step_is_u. Qed.

Lemma iter_add m n r : iter (m + n) r = iter m (iter n r).
Proof. induction m as [|m IH]; cbn [lfsr_iter Nat.add]; congruence. Qed.

Lemma out_add m n r : out r (m + n)%nat = out (iter n r) m.
Proof. unfold lfsr_out. by rewrite iter_add. Qed.

(** The register holds the last bits shifted in, newest first, above them
    the initial contents. *)
Lemma testbit_iter k r i :
  0 <= i < high ->
  Z.testbit (iter k r) i =
    if i <? Z.of_nat k then out r (k - 1 - Z.to_nat i) else Z.testbit r (i - Z.of_nat k).
Proof.
  revert i. induction k as [|k IH]; intros i Hi; cbn [lfsr_iter].
  - zcases. f_equal. lia.
  - rewrite testbit_step. destruct (Z.ltb_spec i high); [|lia]. cbn [andb].
    destruct (Z.eqb_spec i 0) as [->|Hi0].
    + zcases. unfold lfsr_out. do 2 f_equal. lia.
    + rewrite IH by lia. zcases; f_equal; lia.
Qed.

(** While fewer bits were shifted in than the lowest tap, the feedback only
    looks at the initial contents. *)
Lemma out_parallel low r k :
  Forall (fun t => low <= t) taps -> Z.of_nat k < low ->
  out r k = xorb inv (xor_all (fun t => Z.testbit r (t - 1 - Z.of_nat k)) taps).
Proof.
  intros Hlow Hk. unfold lfsr_out, feedback. f_equal. apply xor_all_ext. intros t Ht Hin.
  pose proof (proj1 (Forall_forall _ _) Hlow t Hin) as Hlt. cbn beta in Hlt.
  rewrite testbit_iter by lia. by zcases.
Qed.

(** Self-synchronisation: a register loaded with the last [m >= high] bits
    of the stream is the generator's own register. *)
Lemma iter_sync m r :
  high <= Z.of_nat m -> is_u high r ->
  wrap high (bits_word (fun i => out r (m - 1 - Z.to_nat i)) m) = iter m r.
Proof.
  intros Hm Hr. pose proof (iter_is_u m r Hr) as Hu.
  apply Z.bits_inj'. intros i Hi. rewrite testbit_wrap, testbit_bits_word by lia.
  destruct (Z.ltb_spec i high).
  - rewrite testbit_iter by lia. by zcases.
  - by rewrite (testbit_high high).
Qed.
End Lfsr.

(** ** The class implements the abstract generator *)

Lemma xor_taps_foldl amount reg ts acc :
  0 <= reg -> 0 <= acc -> Forall (fun t => 0 <= amount t < 32) ts ->
  exists x,
    foldl (fun a t' => b ← a; y ← shr32 reg (amount t'); Ok (Z.lxor b y)) (Ok acc) ts = Ok x
    /\ 0 <= x
    /\ forall i, 0 <= i ->
         Z.testbit x i =
           xorb (Z.testbit acc i) (xor_all (fun t => Z.testbit reg (i + amount t)) ts).
Proof.
  intros Hr. revert acc. induction ts as [|t ts IH]; intros acc Ha Hts; cbn.
  - exists acc. repeat split; [done|]. intros. by rewrite xorb_false_r.
  - inversion_clear Hts as [|? ? Ht Hts'].
    rewrite shr32_ok by done. cbn [mbind result_bind].
    assert (0 <= Z.shiftr reg (amount t)) by (apply Z.shiftr_nonneg; lia).
    destruct (IH (Z.lxor acc (Z.shiftr reg (amount t)))) as (x & E & Hx & B);
      [apply Z.lxor_nonneg; lia|done|].
    exists x. repeat split; [exact E|done|]. intros i Hi.
    rewrite B, Z.lxor_spec, Z.shiftr_spec, xorb_assoc by lia. done.
Qed.

Lemma xor_taps_ok amount reg taps :
  0 <= reg -> taps <> [] -> Forall (fun t => 0 <= amount t < 32) taps ->
  exists x, xor_taps amount reg taps = Ok x
    /\ 0 <= x
    /\ forall i, 0 <= i ->
         Z.testbit x i = xor_all (fun t => Z.testbit reg (i + amount t)) taps.
Proof.
  intros Hr Hne Hts. destruct taps as [|t ts]; [done|].
  inversion_clear Hts as [|? ? Ht Hts'].
  assert (0 <= Z.shiftr reg (amount t)) as Hs by (apply Z.shiftr_nonneg; lia).
  destruct (xor_taps_foldl amount reg ts _ Hr Hs Hts') as (x & E & Hx & B).
  exists x. unfold xor_taps. rewrite shr32_ok by done. split; [exact E|]. split; [done|]. intros i Hi.
  rewrite B, Z.shiftr_spec by lia. done.
Qed.

(** Abstract parameters of a generator object. *)
Definition p_step (p : prbs) : Z -> Z := lfsr_step (m_taps p) (m_invert p) (m_high_tap p).
Definition p_iter (p : prbs) : nat -> Z -> Z := lfsr_iter (m_taps p) (m_invert p) (m_high_tap p).
Definition p_out (p : prbs) : Z -> nat -> bool := lfsr_out (m_taps p) (m_invert p) (m_high_tap p).


(** The next [n] bits as a word, oldest bit first. *)
Definition p_word (p : prbs) (r : Z) (n : nat) : Z :=
  bits_word (fun i => p_out p r (n - 1 - Z.to_nat i)) n.

Section Wf.
Context (p : prbs) (Hwf : prbs_wf p).

Lemma wf_tap t : t ∈ m_taps p -> m_low_tap p <= t <= m_high_tap p.
Proof. apply (proj1 (Forall_forall _ _) (wf_range p Hwf)). Qed.

Lemma wf_low_le_high : m_low_tap p <= m_high_tap p.
Proof.
  pose proof (wf_taps p Hwf). destruct (m_taps p) as [|t ts] eqn:E; [done|].
  pose proof (wf_tap t ltac:(rewrite E; by left)). lia.
Qed.

Lemma wf_high_pos : 1 <= m_high_tap p.
Proof.
  pose proof wf_low_le_high. pose proof (wf_low p Hwf). lia.
Qed.

Lemma wf_taps_le : Forall (fun t => 1 <= t <= m_high_tap p) (m_taps p).
Proof.
  apply Forall_forall. intros t Ht. pose proof (wf_tap t Ht). pose proof (wf_low p Hwf). lia.
Qed.

Lemma with_reg_wf r : is_u 32 r -> prbs_wf (with_reg p r).
Proof. intros Hr. destruct Hwf. by constructor. Qed.

Lemma step_u32 r : is_u 32 (p_step p r).
Proof.
  pose proof wf_high_pos. pose proof (wf_high p Hwf).
  eapply is_u_mono; [apply step_is_u; lia|lia].
Qed.

Lemma advance_ok : advance p = (Ok tt, with_reg p (p_step p (m_reg p))).
Proof.
  pose proof (wf_high p Hwf). pose proof (wf_reg p Hwf) as Hr. pose proof wf_taps_le as Hts.
  assert (Hamt : forall t, t ∈ m_taps p -> u32 (t - 1) = t - 1).
  { intros t Ht. apply wrap_small. pose proof (wf_tap t Ht). pose proof (wf_low p Hwf).
    unfold is_u. lia. }
  destruct (xor_taps_ok (fun t => u32 (t - 1)) (m_reg p) (m_taps p)) as (x & E & Hx & B).
  { unfold is_u in Hr. lia. }
  { apply (wf_taps p Hwf). }
  { apply Forall_forall. intros t Ht. rewrite Hamt by done.
    pose proof (wf_tap t Ht). pose proof (wf_low p Hwf). lia. }
  unfold advance. st_simpl. rewrite E, shl32_ok by lia. do 2 f_equal.
  pose proof wf_high_pos as Hp.
  rewrite (wf_mask p Hwf), wrap_ones by lia. unfold p_step, lfsr_step.
  assert (Z.testbit x 0 = xor_all (fun t => Z.testbit (m_reg p) (t - 1)) (m_taps p)) as B0.
  { rewrite B by lia. apply (xor_all_ext _ (m_high_tap p)); [done|].
    intros t Ht Hin. by rewrite Hamt, Z.add_0_l. }
  zbits_at i. subst i. f_equal. unfold feedback. rewrite <- B0.
  destruct (m_invert p); rewrite ?testbit_not32 by lia; by destruct (Z.testbit x 0).
Qed.

Lemma get_bit_ok :
  get_bit p = (Ok (Z.b2z (p_out p (m_reg p) 0)), with_reg p (p_step p (m_reg p))).
Proof.
  unfold get_bit. st_simpl. rewrite advance_ok. cbn [with_reg m_reg]. do 2 f_equal.
  pose proof wf_high_pos. zbits_at i. unfold p_step. rewrite testbit_step by done.
  zcases. by rewrite andb_true_l.
Qed.

(** The parallel feedback of [get_word] is the serial one. *)
Lemma get_word_ok (n : nat) :
  Z.of_nat n <= m_low_tap p ->
  get_word (Z.of_nat n) p =
    (Ok (p_word p (m_reg p) n),
     with_reg p (wrap (m_high_tap p) (p_iter p n (m_reg p)))).
Proof.
  intros Hn. pose proof (wf_high p Hwf). pose proof (wf_low p Hwf).
  pose proof wf_low_le_high. pose proof (wf_reg p Hwf) as Hr.
  assert (Hamt : forall t, t ∈ m_taps p -> u64 (t - Z.of_nat n) = t - Z.of_nat n).
  { intros t Ht. apply wrap_small. pose proof (wf_tap t Ht). unfold is_u. lia. }
  destruct (xor_taps_ok (fun t => u64 (t - Z.of_nat n)) (m_reg p) (m_taps p)) as (x & E & Hx & B).
  { unfold is_u in Hr. lia. }
  { apply (wf_taps p Hwf). }
  { apply Forall_forall. intros t Ht. rewrite Hamt by done. pose proof (wf_tap t Ht). lia. }
  assert (Hw : Z.land (if m_invert p then not32 x else x) (Z.ones (Z.of_nat n))
               = p_word p (m_reg p) n).
  { apply Z.bits_inj'. intros i Hi. unfold p_word.
    rewrite testbit_bits_word, Z.land_spec, testbit_ones by lia. zcases; [|by rewrite andb_false_r].
    unfold p_out. rewrite (out_parallel _ _ _ wf_high_pos wf_taps_le (m_low_tap p));
      [|eapply Forall_impl; [apply (wf_range p Hwf)|cbn; lia]|lia].
    rewrite andb_true_r. cbn [andb]. 
    replace (xor_all _ (m_taps p)) with (Z.testbit x i).
    2: { rewrite B by lia. apply (xor_all_ext _ _ wf_taps_le). intros t Ht Hin.
         rewrite Hamt by done. f_equal. lia. }
    destruct (m_invert p); [rewrite testbit_not32 by lia; by zcases|by rewrite xorb_false_l]. }
  unfold get_word. st_simpl. rewrite (proj2 (Z.ltb_ge _ _)) by lia.
  rewrite int_mask_ok, E, shl32_ok, Hw by lia. do 2 f_equal.
  rewrite (wf_mask p Hwf), wrap_ones by (pose proof wf_high_pos; lia).
  pose proof wf_high_pos.
  apply Z.bits_inj'. intros i Hi. rewrite !testbit_wrap by lia.
  destruct (Z.ltb_spec i (m_high_tap p)); [|done]. cbn [andb]. unfold p_iter.
  rewrite testbit_iter by lia.
  unfold p_word. autorewrite with zbits. zcases; cbn [andb orb].
  - by rewrite Z.testbit_neg_r by lia.
  - by rewrite orb_false_r.
Qed.

Lemma get_word_too_many bits :
  m_low_tap p < bits -> get_word bits p = (throw "Too many bits requested", p).
Proof.
  intros Hb. unfold get_word. st_simpl. by rewrite (proj2 (Z.ltb_lt _ _)) by lia.
Qed.
End Wf.

Create HintDb prbs.
#[export] Hint Resolve with_reg_wf step_u32 wf_high_pos wf_taps_le wf_low_le_high : prbs.

Lemma p_iter_with_reg p r n x : p_iter (with_reg p r) n x = p_iter p n x.
Proof. done. Qed.

Lemma get_bits_serial_ok p n :
  prbs_wf p ->
  get_bits_serial n p = (Ok (p_word p (m_reg p) n), with_reg p (p_iter p n (m_reg p))).
Proof.
  intros Hwf. induction n as [|n IH].
  - cbn. unfold st_lift. by destruct p.
  - cbn [get_bits_serial]. st_simpl. rewrite IH.
    assert (Hu : is_u 32 (p_iter p n (m_reg p))).
    { destruct n; [apply (wf_reg p Hwf)|]. apply (step_u32 p Hwf). }
    rewrite (get_bit_ok _ (with_reg_wf p Hwf _ Hu)). cbn [with_reg m_reg].
    do 2 f_equal. unfold p_word. zbits_at i; unfold p_out, p_iter;
      cbn [with_reg m_taps m_invert m_high_tap].
    all: first [by f_equal; lia | rewrite <- (out_add _ _ _ 0 n); f_equal; lia].
Qed.

(** ** Construction *)

Lemma max_element_spec t ts :
  max_element t ts ∈ t :: ts /\ Forall (fun x => x <= max_element t ts) (t :: ts).
Proof.
  unfold max_element. induction ts as [|u ts [IHin IHle]]; cbn [foldr].
  - split; [by left|]. repeat constructor. lia.
  - set (m := foldr Z.max t ts) in *. split.
    + destruct (Z.max_spec u m) as [[_ ->]|[_ ->]]; [|right; by left].
      apply elem_of_cons in IHin as [->|IHin]; [by left|]. right. by right.
    + apply Forall_cons in IHle as [? IHle]. repeat constructor; [lia|lia|].
      eapply Forall_impl; [exact IHle|]. cbn. lia.
Qed.

Lemma min_element_spec t ts :
  min_element t ts ∈ t :: ts /\ Forall (fun x => min_element t ts <= x) (t :: ts).
Proof.
  unfold min_element. induction ts as [|u ts [IHin IHle]]; cbn [foldr].
  - split; [by left|]. repeat constructor. lia.
  - set (m := foldr Z.min t ts) in *. split.
    + destruct (Z.min_spec u m) as [[_ ->]|[_ ->]]; [right; by left|].
      apply elem_of_cons in IHin as [->|IHin]; [by left|]. right. by right.
    + apply Forall_cons in IHle as [? IHle]. repeat constructor; [lia|lia|].
      eapply Forall_impl; [exact IHle|]. cbn. lia.
Qed.

Lemma prbs_new_ok t ts seed inv :
  Forall (fun t => 1 <= t <= 30) (t :: ts) -> is_u 32 seed ->
  exists p, prbs_new (t :: ts) seed inv = Ok p /\ prbs_wf p
    /\ p = Prbs (t :: ts) inv seed (Z.ones (max_element t ts))
                (max_element t ts) (min_element t ts).
Proof.
  intros Hts Hseed. pose proof (proj1 (Forall_forall _ _) Hts) as Hin. cbn beta in Hin.
  destruct (max_element_spec t ts) as [Hmi Hml]. destruct (min_element_spec t ts) as [Hni Hnl].
  pose proof (Hin _ Hmi). pose proof (Hin _ Hni).
  eexists. split; [|split; [|reflexivity]].
  - unfold prbs_new. rewrite (proj2 (Z.ltb_ge _ _)), int_mask_ok by lia. done.
  - constructor; cbn; [done| |lia|lia|done|done].
    apply Forall_forall. intros x Hx.
    pose proof (proj1 (Forall_forall _ _) Hml x Hx). pose proof (proj1 (Forall_forall _ _) Hnl x Hx).
    cbn beta in *. lia.
Qed.

(** ** Lemmas on the set of stuck registers *)

Lemma xor_all_const (f : Z -> bool) (b : bool) taps :
  (forall t, t ∈ taps -> f t = b) ->
  xor_all f taps = b && Nat.odd (length taps).
Proof.
  unfold xor_all. induction taps as [|t ts IH]; intros Hf; cbn [foldr length].
  - by rewrite andb_false_r.
  - rewrite (Hf t), IH by (by left || (intros; apply Hf; by right)).
    rewrite Nat.odd_succ, <- Nat.negb_odd. destruct b; [|done]. by destruct (Nat.odd _).
Qed.

Lemma xor_all_app f l1 l2 : xor_all f (l1 ++ l2) = xorb (xor_all f l1) (xor_all f l2).
Proof.
  unfold xor_all. induction l1 as [|t l IH]; cbn; [done|].
  by rewrite IH, xorb_assoc.
Qed.

Lemma step_fixed_bits taps inv high r :
  1 <= high -> is_u high r -> lfsr_step taps inv high r = r ->
  forall i, 0 <= i < high -> Z.testbit r i = feedback taps inv r.
Proof.
  intros Hh Hr E i [Hi0 Hi]. revert Hi. pattern i. apply natlike_ind; [| |done].
  - intros _. rewrite <- E at 1. rewrite testbit_step by lia. by zcases.
  - intros j Hj IH Hlt. rewrite <- E at 1. rewrite testbit_step by lia. zcases.
    rewrite andb_true_l. rewrite <- IH by lia. f_equal. lia.
Qed.

Lemma const_bits_word high r (b : bool) :
  0 <= high -> is_u high r -> (forall i, 0 <= i < high -> Z.testbit r i = b) ->
  r = if b then Z.ones high else 0.
Proof.
  intros Hh Hr Hb. apply Z.bits_inj'. intros i Hi. destruct (Z.lt_ge_cases i high).
  - rewrite Hb by lia. destruct b; [|by rewrite Z.bits_0]. rewrite testbit_ones by lia. by zcases.
  - rewrite (testbit_high high) by done. destruct b; [|by rewrite Z.bits_0].
    rewrite testbit_ones by lia. by zcases.
Qed.

Lemma feedback_const taps inv high (b : bool) :
  1 <= high -> Forall (fun t => 1 <= t <= high) taps ->
  feedback taps inv (if b then Z.ones high else 0)
  = xorb inv (b && Nat.odd (length taps)).
Proof.
  intros Hh Hts. unfold feedback. f_equal. apply xor_all_const. intros t Ht.
  pose proof (proj1 (Forall_forall _ _) Hts t Ht) as Hb. cbn beta in Hb.
  destruct b; [|apply Z.bits_0]. rewrite testbit_ones by lia. by zcases.
Qed.

Lemma step_const taps inv high (b : bool) :
  1 <= high -> feedback taps inv (if b then Z.ones high else 0) = b ->
  lfsr_step taps inv high (if b then Z.ones high else 0) = if b then Z.ones high else 0.
Proof.
  intros Hh Hf. apply Z.bits_inj'. intros i Hi. rewrite testbit_step, Hf by lia.
  destruct b; rewrite ?Z.bits_0, ?testbit_ones by lia; zcases; done.
Qed.

Lemma set_reg_wf p r : prbs_wf p -> is_u 32 r -> prbs_wf (set_reg r p).
Proof.
  intros Hwf Hr. apply with_reg_wf; [done|]. rewrite (wf_mask p Hwf).
  pose proof (wf_high_pos p Hwf). apply is_u_land_l; [lia|done|].
  rewrite Z.ones_equiv. pose proof (Z.pow_pos_nonneg 2 (m_high_tap p)). lia.
Qed.

Lemma prbs_run_wf o p :
  prbs_wf p -> prbs_op_ok o ->
  prbs_wf (prbs_run o p).2 /\
  (is_Ok (prbs_run o p).1 = true \/ (prbs_run o p).1 = throw "Too many bits requested").
Proof.
  intros Hwf Ho. destruct o as [| |r|n]; cbn [prbs_run].
  - st_simpl. rewrite advance_ok by done. cbn [fst snd is_Ok]. auto with prbs.
  - rewrite get_bit_ok by done. cbn [fst snd is_Ok]. auto with prbs.
  - st_simpl. cbn [fst snd is_Ok]. auto using set_reg_wf.
  - destruct (Z.le_gt_cases (Z.of_nat n) (m_low_tap p)).
    + rewrite get_word_ok by done. cbn [fst snd is_Ok]. split; [|by left].
      apply with_reg_wf; [done|]. pose proof (wf_high_pos p Hwf). pose proof (wf_high p Hwf).
      eapply is_u_mono; [apply wrap_range|]; lia.
    + rewrite get_word_too_many by lia. cbn [fst snd]. by auto.
Qed.

Lemma feedback_top taps inv high r1 r2 :
  Forall (fun t => 1 <= t <= high) taps -> NoDup taps -> high ∈ taps ->
  (forall i, 0 <= i < high - 1 -> Z.testbit r1 i = Z.testbit r2 i) ->
  feedback taps inv r1 = feedback taps inv r2 ->
  Z.testbit r1 (high - 1) = Z.testbit r2 (high - 1).
Proof.
  intros Hts Hnd Hin Hlow Hf. apply list_elem_of_split in Hin as (l1 & l2 & ->).
  unfold feedback in Hf.
  apply NoDup_app in Hnd as (_ & Hn1 & Hnd2). apply NoDup_cons in Hnd2 as [Hn2 _].
  assert (Hrest : forall l, (forall t, t ∈ l -> t ∈ l1 ++ high :: l2 /\ t <> high) ->
    xor_all (fun t => Z.testbit r1 (t - 1)) l = xor_all (fun t => Z.testbit r2 (t - 1)) l).
  { induction l as [|t l IH]; intros Hl; [done|]. unfold xor_all; cbn [foldr].
    destruct (Hl t ltac:(by left)) as [Ht Hne].
    pose proof (proj1 (Forall_forall _ _) Hts t Ht) as Hb. cbn beta in Hb.
    rewrite (Hlow (t - 1)) by lia. f_equal. apply IH. intros. apply Hl. by right. }
  rewrite !xor_all_app in Hf. change (high :: l2) with ([high] ++ l2) in Hf.
  rewrite !xor_all_app, (Hrest l1), (Hrest l2) in Hf by set_solver.
  unfold xor_all at 2 5 in Hf. cbn [foldr] in Hf.
  destruct inv, (xor_all _ l1), (xor_all _ l2), (Z.testbit r1 _), (Z.testbit r2 _);
    done || discriminate.
Qed.

(** The constructor by its highest tap. *)
Lemma prbs_new_cases t ts seed inv :
  Forall (fun t => 0 <= t) (t :: ts) ->
  let high := max_element t ts in
  (high <= 30 -> is_Ok (prbs_new (t :: ts) seed inv) = true) /\
  (31 <= high <= 32 -> prbs_new (t :: ts) seed inv = Err Undefined) /\
  (32 < high -> prbs_new (t :: ts) seed inv = throw "Tap value not supported").
Proof.
  intros Hts high.
  assert (0 <= high).
  { destruct (max_element_spec t ts) as [Hin _]. exact (proj1 (Forall_forall _ _) Hts _ Hin). }
  unfold prbs_new. fold high. repeat split; intros Hh.
  - rewrite (proj2 (Z.ltb_ge _ _)), int_mask_ok by lia. done.
  - rewrite (proj2 (Z.ltb_ge _ _)), int_mask_undef by lia. done.
  - by rewrite (proj2 (Z.ltb_lt _ _)) by lia.
Qed.

(** ** Properties of the class *)

(** C32. [get_word n] is exactly [n] calls of [get_bit]: same word (first bit
    most significant), same register, for every generator whose taps are in
    range and every [n] up to the lowest tap. *)
Theorem get_word_serial p n :
  prbs_wf p -> 1 <= Z.of_nat n <= m_low_tap p ->
  get_word (Z.of_nat n) p = get_bits_serial n p.
Proof.
  intros Hwf Hn. rewrite get_word_ok, get_bits_serial_ok by (done || lia). do 2 f_equal.
  apply wrap_small. destruct n; [lia|]. apply step_is_u. pose proof (wf_high_pos p Hwf). lia.
Qed.

(** The constructor's outcome for every non-empty tap vector: an object
    only when the highest tap is at most 30, the documented exception above
    32, and undefined behaviour of [(1 << m_high_tap) - 1] for 31 and 32,
    which the guard lets through. *)
Theorem prbs_new_outcome t ts seed inv :
  Forall (fun t => 0 <= t) (t :: ts) ->
  let high := max_element t ts in
  (high <= 30 -> is_Ok (prbs_new (t :: ts) seed inv) = true) /\
  (31 <= high <= 32 -> prbs_new (t :: ts) seed inv = Err Undefined) /\
  (32 < high -> prbs_new (t :: ts) seed inv = throw "Tap value not supported").
Proof. apply prbs_new_cases. Qed.

Lemma shr32_defined x n : (exists y, shr32 x n = Ok y) \/ shr32 x n = Err Undefined.
Proof. unfold shr32. case_match; eauto. Qed.

Lemma xor_taps_stuck (amount : Z -> Z) reg ts :
  foldl (fun acc t' => a ← acc; y ← shr32 reg (amount t'); Ok (Z.lxor a y)) (Err Undefined) ts = Err Undefined.
Proof. by induction ts. Qed.

(** One shift out of range and the whole expression is undefined. *)
Lemma xor_taps_undefined amount reg ts t0 :
  t0 ∈ ts -> shr32 reg (amount t0) = Err Undefined -> xor_taps amount reg ts = Err Undefined.
Proof.
  intros Hin E. destruct ts as [|t ts]; [by apply not_elem_of_nil in Hin|]. cbn [xor_taps].
  apply elem_of_cons in Hin as [->|Hin]; [rewrite E; apply xor_taps_stuck|].
  generalize (shr32_defined reg (amount t)). generalize (shr32 reg (amount t)) as acc.
  induction ts as [|u ts IH]; intros acc [[y ->]| ->]; [by apply not_elem_of_nil in Hin..| |apply xor_taps_stuck].
  cbn [foldl mbind result_bind]. apply elem_of_cons in Hin as [<-|Hin]; [rewrite E; apply xor_taps_stuck|].
  apply IH; [done|]. destruct (shr32_defined reg (amount u)) as [[z ->]| ->]; [left|right]; cbn; eauto.
Qed.

(** A tap of 0 shifts by [m_taps[i] - 1 = 0xFFFFFFFF]. *)
Lemma advance_tap_zero p : 0 ∈ m_taps p -> (advance p).1 = Err Undefined.
Proof.
  intros H. unfold advance. st_simpl.
  rewrite (xor_taps_undefined _ _ _ 0) by done. done.
Qed.

Lemma prbs_new_taps ts seed inv p : prbs_new ts seed inv = Ok p -> m_taps p = ts.
Proof.
  destruct ts as [|t ts]; [done|]. unfold prbs_new. case_match; [done|].
  destruct (int_mask _) as [mask|]; [|done]. by intros [= <-].
Qed.

Lemma prbs_new_ok_wf t ts seed inv p :
  Forall (fun t => 1 <= t) (t :: ts) -> is_u 32 seed -> prbs_new (t :: ts) seed inv = Ok p -> prbs_wf p.
Proof.
  intros Hts Hseed Hnew.
  assert (Hb : max_element t ts <= 30).
  { destruct (prbs_new_cases t ts seed inv) as (_ & H31 & H33).
    { eapply Forall_impl; [exact Hts|]. cbn. lia. }
    destruct (Z.le_gt_cases (max_element t ts) 30); [done|].
    destruct (Z.le_gt_cases (max_element t ts) 32);
      [rewrite H31 in Hnew by lia | rewrite H33 in Hnew by lia]; discriminate. }
  destruct (max_element_spec t ts) as [_ Hmax].
  destruct (prbs_new_ok t ts seed inv) as (q & E & Hq & _); [|done|congruence].
  apply Forall_forall. intros x Hx.
  pose proof (proj1 (Forall_forall _ _) Hts x Hx). pose proof (proj1 (Forall_forall _ _) Hmax x Hx).
  cbn beta in *. lia.
Qed.

Lemma prbs_run_all_wf os p :
  Forall prbs_op_ok os -> prbs_wf p ->
  prbs_wf (prbs_run_all os p).2 /\
  Forall (fun r => is_Ok r = true \/ r = throw "Too many bits requested") (prbs_run_all os p).1.
Proof.
  intros Hos. revert p. induction Hos as [|o os Ho Hos IH]; intros p Hwf; cbn [prbs_run_all]; [by auto|].
  destruct (prbs_run_wf o p Hwf Ho) as [Hwf1 Hr]. destruct (prbs_run o p) as [r p1].
  specialize (IH p1 Hwf1). destruct (prbs_run_all os p1) as [rs p2].
  cbn [fst snd] in *. destruct IH. auto.
Qed.

(** C40. After a successful construction with a 32-bit seed, exactly the tap
    vectors without a 0 are free of undefined behaviour.  With all taps at least
    1, whatever sequence of methods is called, every call returns a value or
    throws the documented exception, and the object stays well formed.  With a 0
    among the taps, which the constructor lets through, the first [advance] (or
    [get_bit]) is undefined: it shifts by [0 - 1 = 0xFFFFFFFF]. *)
Theorem prbs_run_all_safe t ts seed inv p :
  Forall (fun t => 0 <= t) (t :: ts) -> is_u 32 seed -> prbs_new (t :: ts) seed inv = Ok p ->
  if decide (0 ∈ t :: ts) then
    (prbs_run OpAdvance p).1 = Err Undefined /\ (prbs_run OpGetBit p).1 = Err Undefined
  else
    forall os, Forall prbs_op_ok os ->
    prbs_wf (prbs_run_all os p).2 /\
    Forall (fun r => is_Ok r = true \/ r = throw "Too many bits requested") (prbs_run_all os p).1.
Proof.
  intros Hts Hseed Hnew. destruct (decide (0 ∈ t :: ts)) as [H0|H0].
  - rewrite <- (prbs_new_taps _ _ _ _ Hnew) in H0. apply advance_tap_zero in H0.
    cbn [prbs_run]. unfold get_bit, mbind, stM_bind. by destruct (advance p) as [r p']; cbn [fst] in H0; subst r.
  - intros os Hos. apply prbs_run_all_wf; [done|]. apply (prbs_new_ok_wf t ts seed inv); [|done..].
    apply Forall_forall. intros x Hx. pose proof (proj1 (Forall_forall _ _) Hts x Hx). cbn beta in *.
    assert (x <> 0) by (by intros ->). lia.
Qed.

(** The lock-up state of the generator, as the constructor's comment has
    it: with an even number of taps the register is stuck under [advance] iff
    it is all ones (inverting generator, where 0 is a valid state) or iff it is
    0 (non-inverting, where all ones is valid). *)
Theorem advance_stuck_iff p :
  prbs_wf p -> is_u (m_high_tap p) (m_reg p) -> Nat.even (length (m_taps p)) = true ->
  (advance p).2 = p <-> m_reg p = (if m_invert p then Z.ones (m_high_tap p) else 0).
Proof.
  intros Hwf Hr Heven. rewrite advance_ok by done. cbn [snd].
  pose proof (wf_high_pos p Hwf) as Hp. pose proof (wf_taps_le p Hwf) as Hts.
  assert (Hodd : Nat.odd (length (m_taps p)) = false) by (by rewrite <- Nat.negb_even, Heven).
  assert (Hfix : with_reg p (p_step p (m_reg p)) = p <-> p_step p (m_reg p) = m_reg p).
  { split; [intros E; exact (f_equal m_reg E)|intros ->; by destruct p]. }
  rewrite Hfix. unfold p_step. split.
  - intros E. pose proof (step_fixed_bits _ _ _ _ Hp Hr E) as Hb.
    pose proof (const_bits_word (m_high_tap p) _ _ ltac:(lia) Hr Hb) as Hc.
    assert (feedback (m_taps p) (m_invert p) (m_reg p) = m_invert p) as <-; [|done].
    rewrite Hc at 1. rewrite feedback_const, Hodd by done.
    by rewrite andb_false_r, xorb_false_r.
  - intros ->. apply step_const; [done|].
    rewrite feedback_const, Hodd by done. by rewrite andb_false_r, xorb_false_r.
Qed.

(** [advance] loses no state: two generators with the same distinct taps
    (the highest one among them) and different in-range registers still differ
    after the call, so the register sequence has no transient part. *)
Theorem advance_injective p r1 r2 :
  prbs_wf p -> NoDup (m_taps p) -> m_high_tap p ∈ m_taps p ->
  is_u (m_high_tap p) r1 -> is_u (m_high_tap p) r2 ->
  (advance (with_reg p r1)).2 = (advance (with_reg p r2)).2 -> r1 = r2.
Proof.
  intros Hwf Hnd Hin H1 H2. pose proof (wf_high_pos p Hwf) as Hp.
  pose proof (wf_high p Hwf).
  rewrite !advance_ok by (apply with_reg_wf; [done|]; eapply is_u_mono; [eassumption|lia]).
  cbn [snd m_reg]. intros E.
  assert (Hs : p_step p r1 = p_step p r2) by exact (f_equal m_reg E).
  assert (Hlow : forall i, 0 <= i < m_high_tap p - 1 -> Z.testbit r1 i = Z.testbit r2 i).
  { intros i Hi. pose proof (f_equal (fun r => Z.testbit r (i + 1)) Hs) as Hb. cbn beta in Hb.
    unfold p_step in Hb. rewrite !testbit_step in Hb by done. revert Hb. zcases.
    cbn [andb]. by replace (i + 1 - 1) with i by lia. }
  assert (Hf : feedback (m_taps p) (m_invert p) r1 = feedback (m_taps p) (m_invert p) r2).
  { pose proof (f_equal (fun r => Z.testbit r 0) Hs) as Hb. cbn beta in Hb.
    unfold p_step in Hb. rewrite !testbit_step in Hb by done. revert Hb. zcases. done. }
  assert (Htop : Z.testbit r1 (m_high_tap p - 1) = Z.testbit r2 (m_high_tap p - 1)).
  { exact (feedback_top _ _ _ _ _ (wf_taps_le p Hwf) Hnd Hin Hlow Hf). }
  apply Z.bits_inj'. intros i Hi. destruct (Z.lt_ge_cases i (m_high_tap p)).
  - destruct (Z.eq_dec i (m_high_tap p - 1)) as [->|]; [done|apply Hlow; lia].
  - by rewrite !(testbit_high (m_high_tap p)).
Qed.

(** ** Witnesses: the generator that the test application builds *)

Definition main_taps : list Z := [23; 18].
Definition main_prbs : prbs := Prbs main_taps true 0 (Z.ones 23) 23 18.

Lemma main_prbs_new : prbs_new main_taps 0 true = Ok main_prbs.
Proof. reflexivity. Qed.

Lemma main_prbs_wf : prbs_wf main_prbs.
Proof. constructor; cbn; repeat constructor; try lia; done. Qed.

Lemma get_word_serial_witness :
  get_word 8 main_prbs = get_bits_serial 8 main_prbs.
Proof. apply (get_word_serial main_prbs 8); [exact main_prbs_wf|cbn; lia]. Defined.

Lemma prbs_new_outcome_witness :
  prbs_new [5; 32] 0 true = Err Undefined.
Proof.
  destruct (prbs_new_outcome 5 [32] 0 true) as (_ & H & _).
  - repeat constructor; lia.
  - apply H. vm_compute. by split.
Defined.

(** Taps [5; 0] pass the constructor. *)
Lemma prbs_run_all_safe_witness :
  prbs_wf (prbs_run_all [OpGetWord 8; OpGetWord 19; OpSetReg 5; OpGetBit] main_prbs).2 /\
  match prbs_new [5; 0] 0 true with
  | Ok p => (prbs_run OpAdvance p).1 = Err Undefined
  | Err _ => False
  end.
Proof.
  split.
  - pose proof (prbs_run_all_safe 23 [18] 0 true main_prbs) as H. rewrite decide_False in H by (rewrite !elem_of_cons, elem_of_nil; lia).
    apply H; [repeat constructor; lia|unfold is_u; lia|reflexivity|].
    repeat constructor. all: cbn; unfold is_u; lia.
  - pose proof (prbs_run_all_safe 5 [0] 0 true (Prbs [5; 0] true 0 31 5 0)) as H.
    rewrite decide_True in H by (rewrite !elem_of_cons, elem_of_nil; lia).
    apply H; [repeat constructor; lia|unfold is_u; lia|reflexivity].
Defined.

Lemma advance_stuck_iff_witness :
  (advance (with_reg main_prbs (Z.ones 23))).2 = with_reg main_prbs (Z.ones 23).
Proof.
  apply (advance_stuck_iff (with_reg main_prbs (Z.ones 23))).
  - apply with_reg_wf; [exact main_prbs_wf|by vm_compute].
  - by vm_compute.
  - reflexivity.
  - reflexivity.
Defined.

Lemma advance_injective_witness :
  (advance (with_reg main_prbs 1)).2 <> (advance (with_reg main_prbs 2)).2.
Proof.
  intros E. enough (1 = 2) by lia.
  apply (advance_injective main_prbs 1 2); [exact main_prbs_wf|..|exact E].
  - apply NoDup_cons. split; [set_solver|]. apply NoDup_singleton.
  - by left.
  - by vm_compute.
  - by vm_compute.
Defined.
