(* ===== verification/Gf2.v ===== *)
(** * Linear maps on words

    A function on [n]-bit words is linear when it commutes with [Z.lxor] on
    bits.  Two linear functions that agree on the powers of two agree
    everywhere ([linear_ext]), and a linear function is the list of its values
    there, so that compositions and powers of shift registers can be computed
    ([mat_mul], [mat_pow]).  Used for the PRBS generator and the Ethernet FCS. *)

From S2P Require Import Prelude.

Lemma xorb_swap a b c d : xorb (xorb a b) (xorb c d) = xorb (xorb a c) (xorb b d).
Proof. by destruct a, b, c, d. Qed.

Lemma lxor_swap a b c d : Z.lxor (Z.lxor a b) (Z.lxor c d) = Z.lxor (Z.lxor a c) (Z.lxor b d).
Proof.
  rewrite !Z.lxor_assoc. f_equal. rewrite <- !Z.lxor_assoc. f_equal. apply Z.lxor_comm.
Qed.

Definition linear (n : Z) (f : Z -> Z) : Prop :=
  forall x y, is_u n x -> is_u n y -> f (Z.lxor x y) = Z.lxor (f x) (f y).

Lemma linear_0 n f : 0 <= n -> linear n f -> f 0 = 0.
Proof.
  intros Hn Hf. assert (is_u n 0) as H0 by (unfold is_u; lia).
  pose proof (Hf 0 0 H0 H0) as E. rewrite !Z.lxor_nilpotent in E. exact E.
Qed.

(** The highest bit split off. *)
Lemma split_top (n : nat) x :
  is_u (Z.of_nat (S n)) x ->
  x = Z.lxor (wrap (Z.of_nat n) x) (if Z.testbit x (Z.of_nat n) then 2 ^ Z.of_nat n else 0).
Proof.
  intros Hx. apply Z.bits_inj'. intros i Hi. rewrite Z.lxor_spec, testbit_wrap by lia.
  assert (Hhi : Z.of_nat n < i -> Z.testbit x i = false).
  { intros. apply (testbit_high (Z.of_nat (S n))); [done|lia]. }
  destruct (Z.eq_dec i (Z.of_nat n)) as [->|Hne];
    destruct (Z.testbit x (Z.of_nat n)) eqn:E; rewrite ?Z.pow2_bits_eqb, ?Z.bits_0 by lia;
    zcases; cbn [andb]; rewrite ?xorb_false_r, ?xorb_false_l; try done; apply Hhi; lia.
Qed.

Lemma is_u_pow2 (n : nat) : is_u (Z.of_nat (S n)) (2 ^ Z.of_nat n).
Proof.
  unfold is_u. rewrite Nat2Z.inj_succ, Z.pow_succ_r by lia.
  pose proof (Z.pow_pos_nonneg 2 (Z.of_nat n)). lia.
Qed.

(** ** Extensionality on the basis *)
Lemma linear_ext (n : nat) f g :
  linear (Z.of_nat n) f -> linear (Z.of_nat n) g ->
  Forall (fun i => f (2 ^ Z.of_nat i) = g (2 ^ Z.of_nat i)) (seq 0 n) ->
  forall x, is_u (Z.of_nat n) x -> f x = g x.
Proof.
  intros Hf Hg Hb. induction n as [|n IH]; intros x Hx.
  - assert (x = 0) as -> by (unfold is_u in Hx; cbn in Hx; lia).
    by rewrite (linear_0 _ f ltac:(done) Hf), (linear_0 _ g ltac:(done) Hg).
  - rewrite seq_S, Forall_app in Hb. destruct Hb as [Hb Hn].
    inversion_clear Hn as [|? ? Hn' _]. rename Hn' into Hn. cbn beta in Hn.
    assert (Hsub : forall z, is_u (Z.of_nat n) z -> is_u (Z.of_nat (S n)) z).
    { intros z Hz. eapply is_u_mono; [exact Hz|lia]. }
    pose proof (wrap_range (Z.of_nat n) x ltac:(lia)) as Hw.
    assert (is_u (Z.of_nat (S n)) 0) as H0 by (apply Hsub; unfold is_u; lia).
    rewrite (split_top n x Hx).
    assert (Ht : forall b : bool, is_u (Z.of_nat (S n)) (if b then 2 ^ Z.of_nat n else 0)).
    { intros []; [apply is_u_pow2|exact H0]. }
    rewrite (Hf _ _ (Hsub _ Hw) (Ht _)), (Hg _ _ (Hsub _ Hw) (Ht _)). f_equal.
    + apply IH; [| |done|done].
      * intros a b Ha Hb'. apply Hf; auto.
      * intros a b Ha Hb'. apply Hg; auto.
    + destruct (Z.testbit x (Z.of_nat n)); [exact Hn|].
      by rewrite (linear_0 _ f (Nat2Z.is_nonneg _) Hf), (linear_0 _ g (Nat2Z.is_nonneg _) Hg).
Qed.

Lemma linear_comp n f g :
  linear n f -> linear n g -> (forall x, is_u n x -> is_u n (g x)) -> linear n (fun x => f (g x)).
Proof. intros Hf Hg Hr x y Hx Hy. rewrite Hg by done. apply Hf; auto. Qed.

Lemma linear_lxor n f g :
  linear n f -> linear n g -> linear n (fun x => Z.lxor (f x) (g x)).
Proof.
  intros Hf Hg x y Hx Hy. rewrite Hf, Hg by done.
  apply lxor_swap.
Qed.

Lemma linear_id n : linear n (fun x => x).
Proof. done. Qed.

(** ** Functions as their list of values on the basis *)
Fixpoint mat_apply (m : list Z) (x : Z) : Z :=
  match m with
  | [] => 0
  | c :: m' => Z.lxor (if Z.odd x then c else 0) (mat_apply m' (Z.div2 x))
  end.
Definition mat_mul (a b : list Z) : list Z := mat_apply a <$> b.
Definition mat_id (n : nat) : list Z := (fun i => 2 ^ Z.of_nat i) <$> seq 0 n.

Fixpoint mat_pow (n : nat) (a : list Z) (p : positive) : list Z :=
  match p with
  | xH => a
  | xO q => let b := mat_pow n a q in mat_mul b b
  | xI q => let b := mat_pow n a q in mat_mul a (mat_mul b b)
  end.

Lemma mat_apply_lxor m x y :
  mat_apply m (Z.lxor x y) = Z.lxor (mat_apply m x) (mat_apply m y).
Proof.
  revert x y. induction m as [|c m IH]; intros x y; cbn [mat_apply]; [done|].
  rewrite <- !Z.bit0_odd, Z.lxor_spec, !Z.div2_spec, Z.shiftr_lxor, IH.
  rewrite lxor_swap. f_equal.
  destruct (Z.testbit x 0), (Z.testbit y 0); cbn [xorb];
    by rewrite ?Z.lxor_0_l, ?Z.lxor_0_r, ?Z.lxor_nilpotent.
Qed.

Lemma linear_mat n m : linear n (mat_apply m).
Proof. intros x y _ _. apply mat_apply_lxor. Qed.

Lemma mat_apply_0 m : mat_apply m 0 = 0.
Proof. by rewrite (linear_0 0 _ ltac:(done) (linear_mat 0 m)). Qed.

Lemma mat_mul_apply a b x : mat_apply (mat_mul a b) x = mat_apply a (mat_apply b x).
Proof.
  revert x. induction b as [|c b IH]; intros x; cbn; [by rewrite mat_apply_0|].
  change (mat_apply a <$> b) with (mat_mul a b). rewrite IH, mat_apply_lxor.
  destruct (Z.odd x); [done|]. by rewrite mat_apply_0.
Qed.

Lemma mat_pow_apply n a p x : mat_apply (mat_pow n a p) x = Pos.iter (mat_apply a) x p.
Proof.
  revert x. induction p as [p IH|p IH|]; intros x; cbn [mat_pow]; rewrite ?mat_mul_apply, ?IH; done.
Qed.

(** The basis vectors through a matrix are its columns. *)
Lemma mat_apply_basis m (i : nat) : mat_apply m (2 ^ Z.of_nat i) = nth i m 0.
Proof.
  revert i. induction m as [|c m IH]; intros [|i]; cbn [mat_apply nth]; try done.
  - change (2 ^ Z.of_nat 0) with 1. cbn. by rewrite mat_apply_0, Z.lxor_0_r.
  - rewrite Nat2Z.inj_succ, Z.pow_succ_r by lia.
    rewrite Z.odd_mul, Z.div2_div. cbn [Z.odd andb]. rewrite Z.lxor_0_l.
    rewrite Z.mul_comm, Z.div_mul by lia. apply IH.
Qed.

(** A linear function is the matrix of its values on the basis. *)
Lemma mat_of_linear (n : nat) f x :
  linear (Z.of_nat n) f -> is_u (Z.of_nat n) x ->
  mat_apply ((fun i => f (2 ^ Z.of_nat i)) <$> seq 0 n) x = f x.
Proof.
  intros Hf Hx. refine (linear_ext n _ f (linear_mat _ _) Hf _ x Hx).
  apply Forall_forall. intros i Hi. apply elem_of_seq in Hi.
  rewrite mat_apply_basis. apply nth_lookup_Some.
  rewrite list_lookup_fmap, lookup_seq_lt by lia. done.
Qed.

(** ** Periods

    The exponents that leave a point fixed are closed under [Z.gcd]. *)
Section Period.
Context {A : Type} (f : A -> A) (x : A).

Definition fixed_at (k : Z) : Prop := 0 <= k /\ Nat.iter (Z.to_nat k) f x = x.

Lemma iter_plus (m n : nat) y : Nat.iter (m + n) f y = Nat.iter m f (Nat.iter n f y).
Proof. by rewrite Nat.iter_add. Qed.

Lemma fixed_at_add a b : fixed_at a -> fixed_at b -> fixed_at (a + b).
Proof.
  intros [Ha Ea] [Hb Eb]. split; [lia|]. by rewrite Z2Nat.inj_add, iter_plus, Eb by lia.
Qed.

Lemma fixed_at_mul a q : 0 <= q -> fixed_at a -> fixed_at (q * a).
Proof.
  intros Hq Ha. revert q Hq. apply (natlike_ind (fun q => fixed_at (q * a))).
  - by split; [lia|].
  - intros q Hq IH. rewrite Z.mul_succ_l. by apply fixed_at_add.
Qed.

Lemma fixed_at_sub a b : 0 <= b -> fixed_at a -> fixed_at (b + a) -> fixed_at b.
Proof.
  intros Hb [Ha Ea] [_ E]. split; [done|].
  rewrite Z2Nat.inj_add, iter_plus, Ea in E by lia. exact E.
Qed.

Lemma fixed_at_mod a b : 0 < a -> fixed_at a -> fixed_at b -> fixed_at (b mod a).
Proof.
  intros Ha Fa [Hb Eb]. pose proof (Z.mod_pos_bound b a Ha).
  apply (fixed_at_sub (b / a * a)); [lia| |].
  - apply fixed_at_mul; [|done]. apply Z.div_pos; lia.
  - rewrite Z.add_comm, Z.mul_comm, <- Z.div_mod by lia. by split.
Qed.

Lemma fixed_at_gcd a b : fixed_at a -> fixed_at b -> fixed_at (Z.gcd a b).
Proof.
  intros Fa. assert (0 <= a) as Ha by apply Fa. revert b Fa.
  revert a Ha. refine (Zlt_0_rec _ _). intros a IH _ b Fa Fb.
  destruct (Z.eq_dec a 0) as [->|Hne].
  - rewrite Z.gcd_0_l, Z.abs_eq; [done|apply Fb].
  - assert (0 < a) as Hp by (destruct Fa; lia).
    rewrite <- Z.gcd_mod by lia. pose proof (Z.mod_pos_bound b a Hp).
    apply IH; [lia..|by apply fixed_at_mod|done].
Qed.

Lemma fixed_at_divide a b : 0 <= b -> (a | b) -> fixed_at a -> fixed_at b.
Proof.
  intros Hb [q ->] Fa. assert (0 <= a) by apply Fa.
  destruct (Z.eq_dec a 0) as [->|]; [by rewrite Z.mul_0_r; split|].
  apply fixed_at_mul; [nia|done].
Qed.
End Period.

Lemma fixed_at_ext {A} (f g : A -> A) (P : A -> Prop) x k :
  (forall y, P y -> f y = g y /\ P (f y)) -> P x -> fixed_at f x k -> fixed_at g x k.
Proof.
  intros H Hx [Hk E]. split; [done|]. rewrite <- E at 2.
  assert (Nat.iter (Z.to_nat k) f x = Nat.iter (Z.to_nat k) g x /\ P (Nat.iter (Z.to_nat k) f x))
    as [-> _]; [|done].
  clear E. induction (Z.to_nat k) as [|n IH]; [done|]. rewrite !Nat.iter_succ. destruct IH as [IH Hp].
  destruct (H _ Hp) as [H1 H2]. rewrite <- IH. by split.
Qed.

(** A power of a matrix, as an iteration. *)
Lemma mat_pow_iter n a p x : mat_apply (mat_pow n a p) x = Nat.iter (Pos.to_nat p) (mat_apply a) x.
Proof. by rewrite mat_pow_apply, Pos2Nat.inj_iter. Qed.

Lemma mat_apply_zip a b x :
  length a = length b ->
  mat_apply (zip_with Z.lxor a b) x = Z.lxor (mat_apply a x) (mat_apply b x).
Proof.
  revert b x. induction a as [|c a IH]; intros [|d b] x Hl; try done. cbn [zip_with mat_apply].
  rewrite IH by (injection Hl; done). destruct (Z.odd x); rewrite ?Z.lxor_0_l; [apply lxor_swap|done].
Qed.

Lemma mat_id_apply (n : nat) x : is_u (Z.of_nat n) x -> mat_apply (mat_id n) x = x.
Proof. apply (mat_of_linear n (fun x => x)), linear_id. Qed.

(** [b * (a^p + 1) = 1]: only 0 is fixed by the [p]-th power of [a]. *)
Lemma mat_pow_no_fixed (n : nat) a b p x :
  is_u (Z.of_nat n) x -> fixed_at (mat_apply a) x (Zpos p) ->
  mat_mul b (zip_with Z.lxor (mat_pow n a p) (mat_id n)) = mat_id n ->
  length (mat_pow n a p) = n -> x = 0.
Proof.
  intros Hx [_ E] Hb Hl. rewrite <- (mat_id_apply n x Hx), <- Hb, mat_mul_apply.
  rewrite mat_apply_zip by (rewrite Hl; unfold mat_id; by rewrite length_fmap, length_seq).
  rewrite mat_id_apply, mat_pow_iter by done. change (Z.to_nat (Zpos p)) with (Pos.to_nat p) in E.
  rewrite E, Z.lxor_nilpotent. apply mat_apply_0.
Qed.

(** ** Divisors *)
Definition only_trivial_divisors (p : Z) : Prop := forall d, 0 < d -> (d | p) -> d = 1 \/ d = p.

Lemma prime_by_trial (p m : Z) :
  1 < p -> 0 < m -> p < m * m -> forallb (fun d => negb (p mod Z.of_nat d =? 0)) (seq 2 (Z.to_nat m)) = true ->
  only_trivial_divisors p.
Proof.
  intros Hp Hm Hpm Hall d Hd [q Hq]. rewrite forallb_forall in Hall.
  assert (Hsmall : forall e, (e | p) -> 1 < e -> ~ e <= m).
  { intros e [c Hc] He1 Hem.
    assert (In (Z.to_nat e) (seq 2 (Z.to_nat m))) as Hin by (apply in_seq; lia).
    apply Hall in Hin. rewrite Z2Nat.id, Hc, Z.mod_mul in Hin by lia. done. }
  destruct (Z.eq_dec d 1) as [|Hd1]; [by left|]. right.
  destruct (Z.eq_dec q 1) as [->|Hq1]; [lia|]. exfalso.
  assert (0 < q) by nia.
  assert (d | p) as Hdp by by exists q.
  assert (q | p) as Hqp by (exists d; lia).
  pose proof (Hsmall d Hdp ltac:(lia)). pose proof (Hsmall q Hqp ltac:(lia)). nia.
Qed.

(** The divisors of a product of two primes, other than the product itself,
    divide one of the primes. *)
Lemma divide_semiprime p q g :
  1 < p -> only_trivial_divisors p -> only_trivial_divisors q ->
  0 < g -> (g | p * q) -> g <> p * q -> (g | p) \/ (g | q).
Proof.
  intros Hp1 Hp Hq Hg Hdiv Hne. assert (0 < Z.gcd g p) as Hpos.
  { pose proof (Z.gcd_nonneg g p). destruct (Z.eq_dec (Z.gcd g p) 0) as [E|]; [|lia].
    apply Z.gcd_eq_0_l in E. lia. }
  destruct (Hp _ Hpos (Z.gcd_divide_r g p)) as [E|E].
  - right. by apply (Z.gauss g p q).
  - left. destruct (Z.gcd_divide_l g p) as [c Hc]. rewrite E in Hc.
    assert (0 < c) by nia.
    assert (c | q) as Hcq.
    { destruct Hdiv as [k Hk]. exists k. apply (Z.mul_reg_l _ _ p); nia. }
    destruct (Hq c ltac:(lia) Hcq) as [-> | ->]; [|nia].
    exists 1. lia.
Qed.
