(* ===== verification/PrbsPeriod.v ===== *)
(** * The period of the test pattern

    The generator [send_thread] of [example/cpp/main.cpp] builds (taps 23 and
    18, inverted) runs through all registers except its stuck one: every such
    register comes back after exactly [2^23 - 1] steps.  The step is a matrix over the
    bits (Gf2.v); the period divides [2^23 - 1 = 47 * 178481] and is neither 1 nor one
    of the two primes. *)

From S2P Require Import Prelude.
From S2P Require Import Gf2.
From S2P Require Import Prbs.

(** The same register without the inversion. *)
Definition plain_step (x : Z) : Z := lfsr_step main_taps false 23 x.

Lemma main_taps_in_range : Forall (fun t => 1 <= t <= 23) main_taps.
Proof. repeat constructor; lia. Qed.

Lemma plain_step_range x : is_u 23 (plain_step x).
Proof. apply step_is_u. lia. Qed.

Lemma plain_step_linear : linear 23 plain_step.
Proof.
  intros x y _ _. apply Z.bits_inj'. intros i Hi. rewrite Z.lxor_spec.
  unfold plain_step. rewrite !testbit_step by lia.
  destruct (i <? 23); cbn [andb]; [|done]. destruct (i =? 0); [|apply Z.lxor_spec].
  unfold feedback, main_taps, xor_all. cbn [foldr]. rewrite !Z.lxor_spec.
  change (23 - 1) with 22. change (18 - 1) with 17.
  by destruct (Z.testbit x 22), (Z.testbit x 17), (Z.testbit y 22), (Z.testbit y 17).
Qed.

(** The inverting generator is the plain one seen through the complement. *)
Lemma main_step_plain r :
  is_u 23 r -> p_step main_prbs r = Z.lxor (Z.ones 23) (plain_step (Z.lxor (Z.ones 23) r)).
Proof.
  intros Hr. apply Z.bits_inj'. intros i Hi. rewrite Z.lxor_spec, testbit_ones by lia.
  unfold p_step, plain_step. cbn [m_taps m_invert m_high_tap main_prbs].
  rewrite !testbit_step by lia. zcases; cbn [andb]; try done.
  - unfold feedback, main_taps, xor_all. cbn [foldr].
    change (23 - 1) with 22. change (18 - 1) with 17. rewrite !Z.lxor_spec.
    change (Z.testbit (Z.ones 23) 22) with true. change (Z.testbit (Z.ones 23) 17) with true.
    by destruct (Z.testbit r 22), (Z.testbit r 17).
  - rewrite Z.lxor_spec, testbit_ones by lia. zcases. by destruct (Z.testbit r (i - 1)).
Qed.

Definition shift_matrix : list Z :=
  Eval vm_compute in ((fun i => plain_step (2 ^ Z.of_nat i)) <$> seq 0 23).

Lemma shift_matrix_step x : is_u 23 x -> mat_apply shift_matrix x = plain_step x.
Proof. exact (mat_of_linear 23 plain_step x plain_step_linear). Qed.

(** Inverses of the matrix, of its 47th power plus 1 and of its 178481st power
    plus 1. *)
Definition shift_inverse : list Z :=
  [4194304; 1; 2; 4; 8; 16; 32; 64; 128; 256; 512; 1024; 2048; 4096; 8192; 16384; 32768;
   65536; 4325376; 262144; 524288; 1048576; 2097152].
Definition inverse_47 : list Z :=
  [1803665; 3607331; 7214663; 6040718; 3692829; 7385658; 6382709; 4376811; 365014; 730028;
   1460057; 2920115; 5840230; 3291853; 6583707; 4778807; 1169007; 2338014; 6085676; 3782745;
   7565490; 6742372; 5096136].
Definition inverse_178481 : list Z :=
  [1643070; 3286140; 6572281; 4755955; 1123303; 2246606; 4493213; 597819; 1195638; 2391277;
   4782554; 1176501; 2353002; 4706005; 1023402; 2046805; 4093611; 8187223; 6342801; 4296995;
   205383; 410767; 821535].

Lemma shift_matrix_inverse : mat_mul shift_inverse shift_matrix = mat_id 23.
Proof. vm_compute. reflexivity. Qed.
Lemma shift_matrix_top : mat_pow 23 shift_matrix (2 ^ 23) = shift_matrix.
Proof. vm_compute. reflexivity. Qed.
Lemma shift_matrix_47 :
  mat_mul inverse_47 (zip_with Z.lxor (mat_pow 23 shift_matrix 47) (mat_id 23)) = mat_id 23.
Proof. vm_compute. reflexivity. Qed.
Lemma shift_matrix_178481 :
  mat_mul inverse_178481 (zip_with Z.lxor (mat_pow 23 shift_matrix 178481) (mat_id 23)) = mat_id 23.
Proof. vm_compute. reflexivity. Qed.

Lemma prime_47 : only_trivial_divisors 47.
Proof. apply (prime_by_trial 47 7); [lia..|]. vm_compute. reflexivity. Qed.
Lemma prime_178481 : only_trivial_divisors 178481.
Proof. apply (prime_by_trial _ 423); [lia..|]. vm_compute. reflexivity. Qed.

#[local] Abbreviation period := 8388607.

Lemma mat_iter_fixed_period x : is_u 23 x -> fixed_at (mat_apply shift_matrix) x period.
Proof.
  intros Hx. split; [lia|].
  assert (E : mat_apply shift_matrix (Nat.iter (Z.to_nat period) (mat_apply shift_matrix) x)
              = mat_apply shift_matrix x).
  { rewrite <- Nat.iter_succ, <- Z2Nat.inj_succ by lia.
    change (Z.succ period) with (Zpos (2 ^ 23)).
    rewrite Z2Nat.inj_pos, <- (mat_pow_iter 23). by rewrite shift_matrix_top. }
  apply (f_equal (mat_apply shift_inverse)) in E.
  rewrite <- !mat_mul_apply, shift_matrix_inverse in E.
  rewrite !(mat_id_apply 23) in E; [exact E|done|].
  assert (forall n, is_u 23 (Nat.iter n (mat_apply shift_matrix) x)) as H; [|apply H].
  intros n. induction n as [|n IH]; [done|]. rewrite Nat.iter_succ.
  rewrite shift_matrix_step by done. apply plain_step_range.
Qed.

Lemma mat_iter_period x k :
  is_u 23 x -> x <> 0 -> fixed_at (mat_apply shift_matrix) x k -> (period | k).
Proof.
  intros Hx Hne Hk. set (f := mat_apply shift_matrix) in *.
  assert (Hg : fixed_at f x (Z.gcd k period))
    by (apply fixed_at_gcd; [done|by apply mat_iter_fixed_period]).
  destruct (Z.eq_dec (Z.gcd k period) period) as [<-|Hgne]; [apply Z.gcd_divide_l|exfalso].
  assert (0 < Z.gcd k period).
  { pose proof (Z.gcd_nonneg k period). destruct (Z.eq_dec (Z.gcd k period) 0) as [E|]; [|lia].
    apply Z.gcd_eq_0_r in E. lia. }
  destruct (divide_semiprime 47 178481 (Z.gcd k period)) as [H47 | H178];
    auto using prime_47, prime_178481; [lia| | |].
  - apply Z.gcd_divide_r.
  - apply Hne, (mat_pow_no_fixed 23 shift_matrix inverse_47 47 x Hx).
    + by apply (fixed_at_divide f x (Z.gcd k period)).
    + apply shift_matrix_47.
    + vm_compute. reflexivity.
  - apply Hne, (mat_pow_no_fixed 23 shift_matrix inverse_178481 178481 x Hx).
    + by apply (fixed_at_divide f x (Z.gcd k period)).
    + apply shift_matrix_178481.
    + vm_compute. reflexivity.
Qed.

(** ** The generator *)

(** [n] calls of [advance]. *)
Definition advances (n : nat) (p : prbs) : prbs := Nat.iter n (fun q => (advance q).2) p.

Lemma advances_iter n p :
  prbs_wf p -> advances n p = with_reg p (p_iter p n (m_reg p)) /\ prbs_wf (advances n p).
Proof.
  intros Hwf. induction n as [|n [IH Hn]].
  - split; [by destruct p|done].
  - unfold advances in *. rewrite Nat.iter_succ, advance_ok by done. cbn [snd]. rewrite IH.
    split; [done|]. apply with_reg_wf; [by rewrite <- IH|].
    apply (step_u32 (with_reg p _)). by rewrite <- IH.
Qed.

Lemma p_iter_plain n r :
  is_u 23 r ->
  p_iter main_prbs n r = Z.lxor (Z.ones 23) (Nat.iter n (mat_apply shift_matrix) (Z.lxor (Z.ones 23) r))
  /\ is_u 23 (Nat.iter n (mat_apply shift_matrix) (Z.lxor (Z.ones 23) r)).
Proof.
  intros Hr. assert (is_u 23 (Z.ones 23)) as H1 by by vm_compute.
  induction n as [|n [IH Hn]].
  - cbn. rewrite <- Z.lxor_assoc, Z.lxor_nilpotent, Z.lxor_0_l.
    split; [done|]. auto with word.
  - rewrite Nat.iter_succ, shift_matrix_step by done. split; [|apply plain_step_range].
    change (p_iter main_prbs (S n) r) with (p_step main_prbs (p_iter main_prbs n r)).
    rewrite IH, main_step_plain by auto with word.
    by rewrite <- Z.lxor_assoc, Z.lxor_nilpotent, Z.lxor_0_l.
Qed.

Lemma main_prbs_fixed_iff k r :
  is_u 23 r -> r <> Z.ones 23 -> p_iter main_prbs k r = r <-> (period | Z.of_nat k).
Proof.
  intros Hr Hne. set (x := Z.lxor (Z.ones 23) r).
  assert (is_u 23 x) as Hx by (apply is_u_lxor; [lia|by vm_compute|done]).
  assert (x <> 0) as Hx0 by (unfold x; rewrite lxor_0_iff; congruence).
  assert (Hiff : p_iter main_prbs k r = r <-> fixed_at (mat_apply shift_matrix) x (Z.of_nat k)).
  { destruct (p_iter_plain k r Hr) as [-> _]. fold x. unfold fixed_at. rewrite Nat2Z.id. split.
    - intros E. split; [lia|]. apply (f_equal (Z.lxor (Z.ones 23))) in E.
      by rewrite <- Z.lxor_assoc, Z.lxor_nilpotent, Z.lxor_0_l in E.
    - intros [_ ->]. unfold x. by rewrite <- Z.lxor_assoc, Z.lxor_nilpotent, Z.lxor_0_l. }
  rewrite Hiff. split.
  - by apply mat_iter_period.
  - intros Hd. apply (fixed_at_divide _ _ period); [lia|done|]. by apply mat_iter_fixed_period.
Qed.

(** The bytes [send_thread] puts into its packets: [n] calls of [get_word 8]. *)
Definition words (n : nat) (p : prbs) : prbs := Nat.iter n (fun q => (get_word 8 q).2) p.

Lemma p_iter_range n r : is_u 23 r -> is_u 23 (p_iter main_prbs n r).
Proof. intros. by apply iter_is_u. Qed.

Lemma with_main_wf r : is_u 23 r -> prbs_wf (with_reg main_prbs r).
Proof. intros Hr. apply with_reg_wf; [exact main_prbs_wf|]. by apply (is_u_mono 23). Qed.

Lemma words_iter n r :
  is_u 23 r ->
  words n (with_reg main_prbs r) = with_reg main_prbs (p_iter main_prbs (8 * n) r).
Proof.
  intros Hr. induction n as [|n IH]; [done|]. unfold words in *.
  rewrite Nat.iter_succ, IH, (get_word_ok _ (with_main_wf _ (p_iter_range _ _ Hr)) 8) by (cbn; lia).
  cbn [snd m_reg with_reg]. unfold with_reg at 1 4. cbn [m_taps m_invert m_reg_mask m_high_tap m_low_tap].
  change (m_high_tap (with_reg main_prbs _)) with 23.
  rewrite wrap_small by (apply iter_is_u; [cbn; lia|by apply p_iter_range]).
  replace (8 * S n)%nat with (8 + 8 * n)%nat by lia.
  unfold p_iter. cbn [m_taps m_invert m_high_tap with_reg]. by rewrite (iter_add _ _ _ 8).
Qed.

Lemma with_reg_eq_iff p a b : with_reg p a = with_reg p b <-> a = b.
Proof. split; [intros E; exact (f_equal m_reg E)|by intros ->]. Qed.

(** C22. The test pattern has maximal period: from every register the generator
    can hold but the stuck one, [advance] comes back to it after [k] calls
    exactly when [k] is a multiple of [2^23 - 1] (so all [2^23 - 1] registers
    occur before one repeats), and the generator that fills packets a byte at a
    time repeats after a multiple of [2^23 - 1] bytes. *)
Theorem main_prbs_period r k :
  is_u 23 r -> r <> Z.ones 23 ->
  (advances k (with_reg main_prbs r) = with_reg main_prbs r <-> (2 ^ 23 - 1 | Z.of_nat k)) /\
  (words k (with_reg main_prbs r) = with_reg main_prbs r <-> (2 ^ 23 - 1 | Z.of_nat k)).
Proof.
  intros Hr Hne. change (2 ^ 23 - 1) with 8388607. split.
  - rewrite (proj1 (advances_iter k _ (with_main_wf r Hr))).
    etransitivity; [apply (with_reg_eq_iff main_prbs)|]. by apply main_prbs_fixed_iff.
  - rewrite words_iter, with_reg_eq_iff, main_prbs_fixed_iff by done.
    rewrite Nat2Z.inj_mul. split; [|by apply Z.divide_mul_r].
    intros H. apply (Z.gauss _ (Z.of_nat 8)); [exact H|reflexivity].
Qed.

Lemma main_prbs_period_witness :
  advances 1000 (with_reg main_prbs 0) <> with_reg main_prbs 0.
Proof.
  intros E. destruct (main_prbs_period 0 1000) as [[H _] _].
  - vm_compute. by split.
  - vm_compute. discriminate.
  - destruct (H E) as [q Hq]. lia.
Defined.
