(* ===== verification/PrbsVerifier.v ===== *)
(** * The PRBS verifier: [example/cpp/prbs_verifier.hpp] and [.cpp]

    A receiver-side state machine INIT -> LOCKING -> LOCKED -> LOCKING.  INIT
    fills a register from the received bits, LOCKING and LOCKED compare the
    received bits with a local [prbs] object and count the differences. *)

From S2P Require Import Prelude Prbs.

Inductive state_t := INIT | LOCKING | LOCKED.
#[export] Instance state_t_eq_dec : EqDecision state_t.
Proof. solve_decision. Defined.

Record status_t := Status {
  num_bits : Z;
  num_bit_errors : Z;
  locked : bool;
  lock_count : Z
}.

Record verifier := Verifier {
  m_state : state_t;
  m_init_reg : Z;
  m_lock_threshold : Z;
  m_unlock_threshold : Z;
  m_sucess_counter : Z;
  m_prbs : prbs;
  m_status : status_t
}.

Definition status_0 : status_t := Status 0 0 false 0.

Definition verifier_new (taps : list Z) (invert : bool) : result verifier :=
  p ← prbs_new taps 0 invert;
  Ok (Verifier INIT 0 2048 128 0 p status_0).

(** Field updates. *)
Definition with_state (s : state_t) (v : verifier) : verifier :=
  Verifier s (m_init_reg v) (m_lock_threshold v) (m_unlock_threshold v)
           (m_sucess_counter v) (m_prbs v) (m_status v).
Definition with_init_reg (r : Z) (v : verifier) : verifier :=
  Verifier (m_state v) r (m_lock_threshold v) (m_unlock_threshold v)
           (m_sucess_counter v) (m_prbs v) (m_status v).
Definition with_sucess (c : Z) (v : verifier) : verifier :=
  Verifier (m_state v) (m_init_reg v) (m_lock_threshold v) (m_unlock_threshold v)
           c (m_prbs v) (m_status v).
Definition with_prbs (p : prbs) (v : verifier) : verifier :=
  Verifier (m_state v) (m_init_reg v) (m_lock_threshold v) (m_unlock_threshold v)
           (m_sucess_counter v) p (m_status v).
Definition with_status (st : status_t) (v : verifier) : verifier :=
  Verifier (m_state v) (m_init_reg v) (m_lock_threshold v) (m_unlock_threshold v)
           (m_sucess_counter v) (m_prbs v) st.

(** [m_status.num_bits += n] and [m_status.num_bit_errors += n], on [uint64_t]. *)
Definition add_bits (n : Z) (v : verifier) : verifier :=
  let s := m_status v in
  with_status (Status (u64 (num_bits s + n)) (num_bit_errors s) (locked s) (lock_count s)) v.
Definition add_errors (n : Z) (v : verifier) : verifier :=
  let s := m_status v in
  with_status (Status (num_bits s) (u64 (num_bit_errors s + n)) (locked s) (lock_count s)) v.

(** A method call on the member [m_prbs]; its effects survive an exception. *)
Definition on_prbs {A} (m : stM prbs A) : stM verifier A := fun v =>
  let (r, p) := m (m_prbs v) in (r, with_prbs p v).

(** The tail of the INIT case. *)
Definition init_done : stM verifier unit :=
  v ← st_get;
  if reg_length_bits (m_prbs v) <=? num_bits (m_status v)
  then st_modify (fun v => with_state LOCKING (with_prbs (set_reg (m_init_reg v) (m_prbs v)) v))
  else mret tt.

(** The tail of the LOCKING case, for [errors] differences in [n] bits. *)
Definition locking_count (errors n : Z) : stM verifier unit :=
  _ ← st_modify (add_bits n);
  _ ← st_modify (fun v =>
        if negb (errors =? 0) then with_sucess 0 (add_errors errors v)
        else with_sucess (u64 (m_sucess_counter v + n)) v);
  v ← st_get;
  if m_lock_threshold v <=? m_sucess_counter v
  then
    let s := m_status v in
    st_put (with_state LOCKED
      (with_status (Status (num_bits s) (num_bit_errors s) true (u64 (lock_count s + 1))) v))
  else mret tt.

(** The tail of the LOCKED case. *)
Definition locked_count (errors : Z) : stM verifier unit :=
  _ ← st_modify (fun v => if negb (errors =? 0) then add_errors errors v else v);
  v ← st_get;
  let s := m_status v in
  if m_unlock_threshold v <=? num_bit_errors s
  then st_put (with_state LOCKING (with_status (Status 0 0 false (lock_count s)) v))
  else mret tt.

Definition push_bits (reg n : Z) : stM verifier unit :=
  reg_mask ← st_lift (int_mask n);
  let reg := Z.land reg reg_mask in
  v ← st_get;
  match m_state v with
  | INIT =>
      sh ← st_lift (shl32 (m_init_reg v) n);
      _ ← st_modify (with_init_reg (Z.lor sh reg));
      _ ← st_modify (add_bits n);
      init_done
  | LOCKING =>
      w ← on_prbs (get_word n);
      locking_count (popcount (Z.lxor reg w)) n
  | LOCKED =>
      _ ← st_modify (add_bits n);
      w ← on_prbs (get_word n);
      locked_count (popcount (Z.lxor reg w))
  end.

Definition push_bit (bit : bool) : stM verifier unit :=
  v ← st_get;
  match m_state v with
  | INIT =>
      sh ← st_lift (shl32 (m_init_reg v) 1);
      _ ← st_modify (with_init_reg (Z.lor sh (Z.b2z bit)));
      _ ← st_modify (add_bits 1);
      init_done
  | LOCKING =>
      b ← on_prbs get_bit;
      let error := negb (Z.b2z bit =? b) in
      locking_count (Z.b2z error) 1
  | LOCKED =>
      _ ← st_modify (add_bits 1);
      b ← on_prbs get_bit;
      let error := negb (Z.b2z bit =? b) in
      locked_count (Z.b2z error)
  end.

Definition reset (v : verifier) : verifier :=
  with_state INIT (with_sucess 0 (with_status status_0 v)).

Definition set_lock_threshold (n : Z) (v : verifier) : verifier :=
  Verifier (m_state v) (m_init_reg v) n (m_unlock_threshold v)
           (m_sucess_counter v) (m_prbs v) (m_status v).
Definition set_unlock_threshold (n : Z) (v : verifier) : verifier :=
  Verifier (m_state v) (m_init_reg v) (m_lock_threshold v) n
           (m_sucess_counter v) (m_prbs v) (m_status v).
Definition get_status (v : verifier) : status_t := m_status v.

(** [count] words of [n] bits produced by a generator, and a whole sequence of
    words pushed into a verifier. *)
Fixpoint get_words (count : nat) (n : Z) : stM prbs (list Z) :=
  match count with
  | O => mret []
  | S c => w ← get_word n; ws ← get_words c n; mret (w :: ws)
  end.

Fixpoint push_all (ws : list Z) (n : Z) : stM verifier unit :=
  match ws with
  | [] => mret tt
  | w :: ws' => _ ← push_bits w n; push_all ws' n
  end.

(** ** One push *)

(** The register of the local generator after [n] more bits. *)
Definition ran (n : nat) (v : verifier) : verifier :=
  let p := m_prbs v in
  with_prbs (with_reg p (wrap (m_high_tap p) (p_iter p n (m_reg p)))) v.

(** Differences between [n] received bits and the local generator. *)
Definition mismatches (reg : Z) (n : nat) (v : verifier) : Z :=
  popcount (Z.lxor (wrap (Z.of_nat n) reg) (p_word (m_prbs v) (m_reg (m_prbs v)) n)).

Definition push_fun (reg : Z) (n : nat) (v : verifier) : verifier :=
  match m_state v with
  | INIT =>
      (init_done (add_bits (Z.of_nat n) (with_init_reg
        (Z.lor (u32 (Z.shiftl (m_init_reg v) (Z.of_nat n))) (wrap (Z.of_nat n) reg)) v))).2
  | LOCKING => (locking_count (mismatches reg n v) (Z.of_nat n) (ran n v)).2
  | LOCKED => (locked_count (mismatches reg n v) (ran n (add_bits (Z.of_nat n) v))).2
  end.

Lemma init_done_ok v : init_done v = (Ok tt, (init_done v).2).
Proof. unfold init_done. st_simpl. by destruct (_ <=? _). Qed.

Lemma locking_count_ok e n v : locking_count e n v = (Ok tt, (locking_count e n v).2).
Proof. unfold locking_count. st_simpl. by destruct (m_lock_threshold _ <=? _). Qed.

Lemma locked_count_ok e v : locked_count e v = (Ok tt, (locked_count e v).2).
Proof. unfold locked_count. st_simpl. by destruct (m_unlock_threshold _ <=? _). Qed.

Lemma push_bits_ok reg n v :
  prbs_wf (m_prbs v) ->
  Z.of_nat n <= m_low_tap (m_prbs v) \/ m_state v = INIT /\ Z.of_nat n <= 30 ->
  push_bits reg (Z.of_nat n) v = (Ok tt, push_fun reg n v).
Proof.
  intros Hwf Hn. pose proof (wf_low_le_high _ Hwf). pose proof (wf_high _ Hwf).
  unfold push_bits, push_fun. st_simpl. rewrite int_mask_ok, wrap_ones by lia.
  destruct (m_state v).
  - rewrite shl32_ok by lia. apply init_done_ok.
  - destruct Hn as [Hn|[? _]]; [|discriminate].
    unfold on_prbs. rewrite get_word_ok by done. cbn iota beta. apply locking_count_ok.
  - destruct Hn as [Hn|[? _]]; [|discriminate].
    unfold on_prbs. cbn [add_bits with_status m_prbs]. rewrite get_word_ok by done.
    cbn iota beta. apply locked_count_ok.
Qed.

(** A word wider than the lowest tap, or than 30 bits. *)
Lemma push_bits_wide reg n v :
  prbs_wf (m_prbs v) -> m_low_tap (m_prbs v) < n ->
  m_state v <> INIT \/ 30 < n ->
  push_bits reg n v =
    if 30 <? n then (Err Undefined, v)
    else (throw "Too many bits requested",
          if decide (m_state v = LOCKED) then add_bits n v else v).
Proof.
  intros Hwf Hn Hst. pose proof (wf_low _ Hwf). unfold push_bits. st_simpl.
  destruct (Z.ltb_spec 30 n); [by rewrite int_mask_undef by lia|].
  destruct Hst as [Hst|]; [|lia]. rewrite int_mask_ok by lia.
  unfold on_prbs. destruct (m_state v) eqn:E; [done|..]; cbn [add_bits with_status m_prbs];
    rewrite get_word_too_many by done; cbn; by destruct v.
Qed.

(** The received word only matters modulo [2^n]. *)
Lemma push_bits_mod reg reg' n :
  0 <= n <= 30 -> wrap n reg = wrap n reg' -> push_bits reg n = push_bits reg' n.
Proof.
  intros Hn E. unfold push_bits. st_simpl. rewrite int_mask_ok, !wrap_ones, E by lia. done.
Qed.

Lemma p_word_1 p r : p_word p r 1 = Z.b2z (p_out p r 0).
Proof. unfold p_word. cbn [bits_word]. by rewrite Z.shiftl_0_r, Z.lor_0_l. Qed.

Lemma popcount_bit (b c : bool) :
  popcount (Z.lxor (Z.b2z b) (Z.b2z c)) = Z.b2z (negb (Z.b2z b =? Z.b2z c)).
Proof. by destruct b, c. Qed.

Lemma wrap_b2z (b : bool) : wrap 1 (Z.b2z b) = Z.b2z b.
Proof. by destruct b. Qed.

Lemma push_bit_eq b v :
  prbs_wf (m_prbs v) -> push_bit b v = push_bits (Z.b2z b) 1 v.
Proof.
  intros Hwf. pose proof (wf_low _ Hwf).
  rewrite (push_bits_ok _ 1) by (done || lia).
  unfold push_bit, push_fun, mismatches, ran. cbn [add_bits with_status m_prbs].
  change (Z.of_nat 1) with 1. rewrite wrap_b2z, p_word_1, popcount_bit.
  replace (wrap _ (p_iter _ 1 _)) with (p_step (m_prbs v) (m_reg (m_prbs v))).
  2: { symmetry. apply wrap_small. apply step_is_u. pose proof (wf_high_pos _ Hwf). lia. }
  st_simpl. destruct (m_state v).
  - rewrite shl32_ok by lia. apply init_done_ok.
  - unfold on_prbs. rewrite get_bit_ok by done. cbn iota beta. apply locking_count_ok.
  - unfold on_prbs. cbn [add_bits with_status m_prbs]. rewrite get_bit_ok by done.
    cbn iota beta. apply locked_count_ok.
Qed.

(** ** Reachable verifiers *)

(** The consistency of the status record with the state machine. *)
Record verifier_wf (v : verifier) : Prop := {
  vwf_prbs : prbs_wf (m_prbs v);
  vwf_init : is_u 32 (m_init_reg v);
  vwf_locked : locked (m_status v) = bool_decide (m_state v = LOCKED);
  vwf_errors : 0 <= num_bit_errors (m_status v) <= num_bits (m_status v);
  vwf_lock_count : is_u 64 (lock_count (m_status v));
  vwf_sucess : is_u 64 (m_sucess_counter v)
}.

(** Calls on a verifier. *)
Inductive verifier_op :=
  | VPushBit (b : bool)
  | VPushBits (reg : Z) (n : nat)
  | VReset
  | VSetLock (n : Z)
  | VSetUnlock (n : Z).

Definition verifier_run (o : verifier_op) : stM verifier unit :=
  match o with
  | VPushBit b => push_bit b
  | VPushBits reg n => push_bits reg (Z.of_nat n)
  | VReset => st_modify reset
  | VSetLock n => st_modify (set_lock_threshold n)
  | VSetUnlock n => st_modify (set_unlock_threshold n)
  end.

Lemma mismatches_bounds reg n v :
  0 <= mismatches reg n v <= Z.of_nat n.
Proof.
  unfold mismatches. split; [apply popcount_nonneg|]. apply popcount_le; [lia|].
  apply is_u_lxor; [lia|apply wrap_range; lia|apply bits_word_is_u].
Qed.

Lemma ran_wf n v : prbs_wf (m_prbs v) -> prbs_wf (m_prbs (ran n v)).
Proof.
  intros Hwf. pose proof (wf_high _ Hwf). pose proof (wf_high_pos _ Hwf).
  apply with_reg_wf; [done|]. apply wrap_is_u_mono. lia.
Qed.

Lemma push_fun_wf reg n v :
  verifier_wf v -> Z.of_nat n <= 30 ->
  num_bits (m_status v) + Z.of_nat n < 2 ^ 64 ->
  verifier_wf (push_fun reg n v).
Proof.
  intros [Hp Hi Hl He Hc Hs] Hn Hb.
  assert (Hi' : is_u 32 (Z.lor (u32 (Z.shiftl (m_init_reg v) (Z.of_nat n)))
                               (wrap (Z.of_nat n) reg))) by (auto with word).
  pose proof (mismatches_bounds reg n v) as Hm. pose proof (ran_wf n v Hp) as Hr.
  unfold push_fun. destruct (m_state v) eqn:Est.
  - unfold init_done. st_simpl. destruct (_ <=? _).
    + constructor; cbn; rewrite ?u64_small by lia; try (done || lia).
      by apply set_reg_wf.
    + constructor; cbn; rewrite ?Est, ?u64_small by lia; try (done || lia).
  - unfold locking_count. st_simpl.
    destruct (mismatches reg n v =? 0) eqn:E0; cbn [negb];
      destruct (_ <=? _); constructor; cbn;
      rewrite ?Est, ?u64_small by lia;
      try (exact Hr || exact Hi || done || lia || (apply wrap_range; lia)).
    all: unfold is_u; lia.
  - unfold locked_count. st_simpl.
    destruct (mismatches reg n v =? 0) eqn:E0; cbn [negb];
      destruct (_ <=? _); constructor; cbn;
      rewrite ?Est, ?u64_small by lia;
      try (exact Hr || exact Hi || done || lia).
Qed.

Lemma push_fun_num_bits reg n v :
  0 <= num_bits (m_status v) -> num_bits (m_status v) + Z.of_nat n < 2 ^ 64 ->
  num_bits (m_status (push_fun reg n v)) <= num_bits (m_status v) + Z.of_nat n.
Proof.
  intros H0 H1. unfold push_fun, init_done, locking_count, locked_count. st_simpl.
  destruct (m_state v); repeat (destruct (negb _) || destruct (_ <=? _)); cbn;
    rewrite ?u64_small by lia; lia.
Qed.

(** The bits a call hands to the verifier. *)
Definition op_bits (o : verifier_op) : Z :=
  match o with VPushBit _ => 1 | VPushBits _ n => Z.of_nat n | _ => 0 end.

Definition ops_bits (os : list verifier_op) : Z := foldr (fun o n => op_bits o + n) 0 os.

(** A sequence of calls, the caller going on after an exception. *)
Definition verifier_exec (os : list verifier_op) (v : verifier) : verifier :=
  foldl (fun v o => (verifier_run o v).2) v os.

Lemma push_bits_wf reg n v :
  verifier_wf v -> num_bits (m_status v) + Z.of_nat n < 2 ^ 64 ->
  verifier_wf (push_bits reg (Z.of_nat n) v).2 /\
  num_bits (m_status (push_bits reg (Z.of_nat n) v).2) <= num_bits (m_status v) + Z.of_nat n.
Proof.
  intros Hwf Hb. pose proof (vwf_prbs _ Hwf) as Hp. pose proof (vwf_errors _ Hwf) as He.
  pose proof (wf_low_le_high _ Hp). pose proof (wf_high _ Hp).
  destruct (decide (Z.of_nat n <= m_low_tap (m_prbs v) \/ m_state v = INIT /\ Z.of_nat n <= 30))
    as [Hok|Hbad].
  - rewrite push_bits_ok by done. cbn [snd]. split; [apply push_fun_wf; [done|lia|lia]|].
    apply push_fun_num_bits; lia.
  - rewrite push_bits_wide; [|done|lia|].
    2: { destruct (decide (m_state v = INIT)); [right|by left].
         apply Z.lt_nge. intros ?. apply Hbad. auto. }
    destruct (30 <? Z.of_nat n); cbn [snd]; [split; [done|lia]|].
    case_decide; [|split; [done|lia]]. destruct Hwf. split.
    + constructor; cbn; rewrite ?u64_small by lia; try done; lia.
    + cbn. rewrite u64_small; lia.
Qed.

Lemma ops_bits_nonneg os : 0 <= ops_bits os.
Proof. unfold ops_bits. induction os as [|o os IH]; cbn [foldr]; [lia|]. destruct o; cbn [op_bits]; lia. Qed.

Lemma verifier_exec_wf os v :
  verifier_wf v -> num_bits (m_status v) + ops_bits os < 2 ^ 64 ->
  verifier_wf (verifier_exec os v).
Proof.
  unfold verifier_exec.
  revert v. induction os as [|o os IH]; intros v Hwf Hb; [done|]. cbn [foldl ops_bits foldr] in *.
  fold (ops_bits os) in Hb.
  pose proof (ops_bits_nonneg os).
  pose proof (vwf_errors _ Hwf).
  destruct o as [b|reg n| |m|m]; cbn [verifier_run op_bits] in *.
  - rewrite push_bit_eq by apply (vwf_prbs _ Hwf).
    destruct (push_bits_wf (Z.b2z b) 1 v Hwf ltac:(lia)). change (Z.of_nat 1) with 1 in *.
    apply IH; [done|]. lia.
  - destruct (push_bits_wf reg n v Hwf ltac:(lia)). apply IH; [done|lia].
  - apply IH; [|cbn; lia]. destruct Hwf. constructor; cbn; try done; unfold is_u; lia.
  - apply IH; [|cbn; lia]. by destruct Hwf.
  - apply IH; [|cbn; lia]. by destruct Hwf.
Qed.

(** ** Receiving an error-free stream *)

(** Computes record projections and field updates only. *)
Ltac vcbn :=
  cbn [with_state with_init_reg with_sucess with_prbs with_status add_bits add_errors
       m_state m_init_reg m_lock_threshold m_unlock_threshold m_sucess_counter m_prbs
       m_status num_bits num_bit_errors locked lock_count fst snd].

Lemma push_all_app ws1 ws2 n v :
  push_all (ws1 ++ ws2) n v =
    match push_all ws1 n v with
    | (Ok _, v') => push_all ws2 n v'
    | (Err e, v') => (Err e, v')
    end.
Proof.
  revert v. induction ws1 as [|w ws IH]; intros v; cbn [push_all app]; st_simpl; [done|].
  destruct (push_bits w n v) as [[]]; [apply IH|done].
Qed.

Section Stream.
Context (g : prbs) (Hg : prbs_wf g).
Context (Hmasked : is_u (m_high_tap g) (m_reg g)).
Context (n : nat) (Hn : 1 <= Z.of_nat n <= m_low_tap g).

(** The [k]-th word of the stream that [g] emits from its current state. *)
Definition stream_word (k : nat) : Z := p_word g (p_iter g (k * n) (m_reg g)) n.

Lemma p_iter_masked k r : is_u (m_high_tap g) r -> is_u (m_high_tap g) (p_iter g k r).
Proof. apply iter_is_u. apply wf_high_pos, Hg. Qed.

Lemma get_words_ok count k :
  get_words count (Z.of_nat n) (with_reg g (p_iter g (k * n) (m_reg g))) =
    (Ok (stream_word <$> seq k count), with_reg g (p_iter g ((k + count) * n) (m_reg g))).
Proof.
  revert k. induction count as [|c IH]; intros k; cbn [get_words seq fmap list_fmap].
  - by rewrite Nat.add_0_r.
  - pose proof (p_iter_masked (k * n) _ Hmasked) as Hu. pose proof (wf_high _ Hg).
    assert (prbs_wf (with_reg g (p_iter g (k * n) (m_reg g)))).
    { apply with_reg_wf; [done|]. eapply is_u_mono; [exact Hu|lia]. }
    st_simpl. rewrite get_word_ok by (done || (cbn; lia)).
    cbn [with_reg m_reg m_high_tap]. rewrite p_iter_with_reg.
    rewrite wrap_small by (by apply p_iter_masked).
    replace (p_iter g n (p_iter g (k * n) (m_reg g))) with (p_iter g (S k * n) (m_reg g))
      by (unfold p_iter; by rewrite <- iter_add).
    change (with_reg (with_reg g _) ?r) with (with_reg g r).
    rewrite IH. by replace (S k + c)%nat with (k + S c)%nat by lia.
Qed.

(** The number of words after which INIT is left. *)
Definition sync_words : nat := Z.to_nat ((m_high_tap g + Z.of_nat n - 1) / Z.of_nat n).

Lemma sync_words_spec :
  m_high_tap g <= Z.of_nat sync_words * Z.of_nat n < m_high_tap g + Z.of_nat n.
Proof.
  pose proof (wf_high_pos _ Hg). unfold sync_words.
  pose proof (Z.div_mod (m_high_tap g + Z.of_nat n - 1) (Z.of_nat n) ltac:(lia)).
  pose proof (Z.mod_pos_bound (m_high_tap g + Z.of_nat n - 1) (Z.of_nat n) ltac:(lia)).
  pose proof (Z.div_pos (m_high_tap g + Z.of_nat n - 1) (Z.of_nat n) ltac:(lia) ltac:(lia)).
  rewrite Z2Nat.id by done. nia.
Qed.

Definition high_reached_at (k : nat) : bool := m_high_tap g <=? Z.of_nat (k * n).

Lemma high_reached_spec k : high_reached_at k = (sync_words <=? k)%nat.
Proof.
  pose proof sync_words_spec. unfold high_reached_at.
  destruct (Nat.leb_spec sync_words k); [apply Z.leb_le|apply Z.leb_gt]; nia.
Qed.

Context (thr uthr : Z) (Hthr : 1 <= thr) (Huthr : 1 <= uthr).

(** The verifier after [k] words of the stream, from a fresh or reset start. *)
Record tracking (k : nat) (v : verifier) : Prop := {
  tr_gen : exists r, m_prbs v = with_reg g r /\ is_u 32 r;
  tr_thr : m_lock_threshold v = thr;
  tr_uthr : m_unlock_threshold v = uthr;
  tr_bits : num_bits (m_status v) = Z.of_nat (k * n);
  tr_errors : num_bit_errors (m_status v) = 0;
  tr_phase :
    if (k <? sync_words)%nat then
      m_state v = INIT /\ locked (m_status v) = false /\ lock_count (m_status v) = 0 /\
      m_sucess_counter v = 0 /\
      (forall i, 0 <= i < 32 -> i < Z.of_nat (k * n) ->
         Z.testbit (m_init_reg v) i = p_out g (m_reg g) (k * n - 1 - Z.to_nat i))
    else
      m_reg (m_prbs v) = p_iter g (k * n) (m_reg g) /\
      let good := Z.of_nat ((k - sync_words) * n) in
      if thr <=? good then
        m_state v = LOCKED /\ locked (m_status v) = true /\ lock_count (m_status v) = 1
      else
        m_state v = LOCKING /\ locked (m_status v) = false /\ lock_count (m_status v) = 0 /\
        m_sucess_counter v = good
}.

(** Bits of the INIT register after one more word. *)
Lemma init_reg_bits k init reg i :
  0 <= i < 32 -> i < Z.of_nat (S k * n) ->
  wrap (Z.of_nat n) reg = stream_word k ->
  (forall i, 0 <= i < 32 -> i < Z.of_nat (k * n) ->
     Z.testbit init i = p_out g (m_reg g) (k * n - 1 - Z.to_nat i)) ->
  Z.testbit (Z.lor (u32 (Z.shiftl init (Z.of_nat n))) (wrap (Z.of_nat n) reg)) i
    = p_out g (m_reg g) (S k * n - 1 - Z.to_nat i).
Proof.
  intros Hi Hik Hreg Hinit. rewrite Hreg. unfold stream_word, p_word.
  autorewrite with zbits. zcases; cbn [andb orb].
  - rewrite Z.testbit_neg_r by lia. cbn [orb]. unfold p_out, p_iter. rewrite <- out_add.
    f_equal. lia.
  - rewrite orb_false_r, Hinit by lia. f_equal. lia.
Qed.

Lemma synced_reg r k :
  high_reached_at k = true -> 
  (forall i, 0 <= i < 32 -> i < Z.of_nat (k * n) ->
     Z.testbit r i = p_out g (m_reg g) (k * n - 1 - Z.to_nat i)) ->
  set_reg r g = with_reg g (p_iter g (k * n) (m_reg g)).
Proof.
  unfold high_reached_at. intros Hk%Z.leb_le Hr. pose proof (wf_high _ Hg). pose proof (wf_high_pos _ Hg).
  unfold set_reg. f_equal. rewrite (wf_mask _ Hg), wrap_ones by lia.
  pose proof (p_iter_masked (k * n) _ Hmasked) as Hu.
  apply Z.bits_inj'. intros i Hi. rewrite testbit_wrap by lia. zcases; cbn [andb].
  - rewrite Hr by lia. unfold p_iter. rewrite testbit_iter by lia. by zcases.
  - by rewrite (testbit_high (m_high_tap g)).
Qed.

Lemma no_mismatch k reg v :
  wrap (Z.of_nat n) reg = stream_word k ->
  (exists r, m_prbs v = with_reg g r) -> m_reg (m_prbs v) = p_iter g (k * n) (m_reg g) ->
  mismatches reg n v = 0.
Proof.
  intros Hreg [r Hr] Hm. unfold mismatches. rewrite Hm, Hreg, Hr. unfold stream_word.
  change (p_word (with_reg g r)) with (p_word g). by rewrite Z.lxor_nilpotent.
Qed.

Lemma ran_reg k v :
  (exists r, m_prbs v = with_reg g r) -> m_reg (m_prbs v) = p_iter g (k * n) (m_reg g) ->
  m_prbs (ran n v) = with_reg g (p_iter g (S k * n) (m_reg g)).
Proof.
  intros [r Hr] Hm. unfold ran. cbn [with_prbs m_prbs]. rewrite Hm, Hr.
  change (with_reg (with_reg g r) ?x) with (with_reg g x). f_equal.
  cbn [with_reg m_high_tap]. rewrite p_iter_with_reg.
  rewrite wrap_small by (by do 2 apply p_iter_masked).
  unfold p_iter. by rewrite <- iter_add.
Qed.

Lemma tracking_init_step k reg v :
  tracking k v -> (k < sync_words)%nat -> Z.of_nat (S k * n) < 2 ^ 64 ->
  wrap (Z.of_nat n) reg = stream_word k -> tracking (S k) (push_fun reg n v).
Proof.
  intros [(r & Hr & Hr32) Ht Hu Hb He Hph] Hk Hov Hreg.
  rewrite (proj2 (Nat.ltb_lt _ _)) in Hph by done.
  destruct Hph as (Hst & Hlk & Hlc & Hsu & Hbits).
  assert (Hnb : u64 (num_bits (m_status v) + Z.of_nat n) = Z.of_nat (S k * n))
    by (rewrite u64_small; lia).
  pose proof (fun i H1 H2 => init_reg_bits k (m_init_reg v) reg i H1 H2 Hreg Hbits) as Hbits'.
  unfold push_fun, init_done. rewrite Hst. st_simpl.
  cbn [add_bits with_init_reg with_status m_status num_bits m_prbs m_init_reg].
  rewrite Hnb, Hr. unfold reg_length_bits. cbn [with_reg m_high_tap].
  pose proof (high_reached_spec (S k)) as Hhr. unfold high_reached_at in Hhr. rewrite Hhr.
  destruct (Nat.leb_spec sync_words (S k)) as [Hs|Hs]; cbn [snd].
  - assert (Hset : set_reg (Z.lor (u32 (Z.shiftl (m_init_reg v) (Z.of_nat n)))
              (wrap (Z.of_nat n) reg)) (m_prbs v) = with_reg g (p_iter g (S k * n) (m_reg g))).
    { rewrite Hr. by apply (synced_reg _ (S k)). }
    pose proof (wf_high _ Hg).
    constructor; vcbn; try done.
    + rewrite Hset. eexists. split; [reflexivity|]. eapply is_u_mono; [by apply p_iter_masked|lia].
    + rewrite (proj2 (Nat.ltb_ge _ _)) by lia. split; [by rewrite Hset|].
      replace (S k - sync_words)%nat with 0%nat by lia.
      destruct (Z.leb_spec thr (Z.of_nat (0 * n))); [lia|]. done.
  - constructor; vcbn; try done; [by eauto|].
    rewrite (proj2 (Nat.ltb_lt _ _)) by lia. done.
Qed.

Lemma tracking_match_step k reg v :
  tracking k v -> (sync_words <= k)%nat -> Z.of_nat (S k * n) < 2 ^ 64 ->
  wrap (Z.of_nat n) reg = stream_word k -> tracking (S k) (push_fun reg n v).
Proof.
  intros [(r & Hr & Hr32) Ht Hu Hb He Hph] Hk Hov Hreg.
  rewrite (proj2 (Nat.ltb_ge _ _)) in Hph by done. destruct Hph as [Hm Hph].
  pose proof (no_mismatch k reg v Hreg (ex_intro _ r Hr) Hm) as Hmis.
  pose proof (ran_reg k v (ex_intro _ r Hr) Hm) as Hran. pose proof (wf_high _ Hg).
  assert (Hnb : u64 (num_bits (m_status v) + Z.of_nat n) = Z.of_nat (S k * n))
    by (rewrite u64_small; lia).
  assert (Hu32 : is_u 32 (p_iter g (S k * n) (m_reg g)))
    by (eapply is_u_mono; [by apply p_iter_masked|lia]).
  assert (Hgood : Z.of_nat ((S k - sync_words) * n) = Z.of_nat ((k - sync_words) * n) + Z.of_nat n)
    by (rewrite Nat.sub_succ_l by done; lia).
  assert (Hle : Z.of_nat ((S k - sync_words) * n) <= Z.of_nat (S k * n))
    by (apply Nat2Z.inj_le, Nat.mul_le_mono_r; lia).
  unfold push_fun. cbn zeta in Hph. destruct (Z.leb_spec thr (Z.of_nat ((k - sync_words) * n))).
  - destruct Hph as (Hst & Hlk & Hlc). rewrite Hst, Hmis. unfold locked_count. st_simpl.
    cbn [Z.eqb negb ran add_bits with_status with_prbs m_status m_unlock_threshold num_bit_errors].
    rewrite Hu, He, (proj2 (Z.leb_gt _ _)) by lia. cbn [snd].
    constructor; vcbn; try done.
    + change (m_prbs (ran n (add_bits _ v))) with (m_prbs (ran n v)). rewrite Hran. eauto.
    + rewrite (proj2 (Nat.ltb_ge _ _)) by lia.
      change (m_prbs (ran n (add_bits _ v))) with (m_prbs (ran n v)).
      split; [by rewrite Hran|].
      rewrite Hgood, (proj2 (Z.leb_le _ _)) by lia. done.
  - destruct Hph as (Hst & Hlk & Hlc & Hsu). rewrite Hst, Hmis. unfold locking_count. st_simpl.
    cbn [Z.eqb negb ran add_bits with_sucess with_status with_prbs m_status
         m_lock_threshold m_sucess_counter].
    rewrite Ht, Hsu, <- Hgood, (u64_small (Z.of_nat ((S k - sync_words) * n)))
      by (split; [apply Nat2Z.is_nonneg|by eapply Z.le_lt_trans]).
    destruct (Z.leb_spec thr (Z.of_nat ((S k - sync_words) * n))); cbn [snd];
      (constructor; vcbn; try done;
       [rewrite Hran; eauto|rewrite (proj2 (Nat.ltb_ge _ _)) by lia; split; [by rewrite Hran|]]).
    + rewrite (proj2 (Z.leb_le _ _)) by lia. rewrite Hlc. done.
    + rewrite (proj2 (Z.leb_gt _ _)) by lia. done.
Qed.

Lemma tracking_push k reg v :
  tracking k v -> Z.of_nat (S k * n) < 2 ^ 64 ->
  wrap (Z.of_nat n) reg = stream_word k ->
  push_bits reg (Z.of_nat n) v = (Ok tt, push_fun reg n v) /\ tracking (S k) (push_fun reg n v).
Proof.
  intros Hv Hov Hreg. pose proof Hv as [(r & Hr & Hr32) _ _ _ _ _]. split.
  - apply push_bits_ok; rewrite Hr; [by apply with_reg_wf|cbn; lia].
  - destruct (Nat.lt_ge_cases k sync_words); eauto using tracking_init_step, tracking_match_step.
Qed.

Lemma tracking_push_all regs k v :
  tracking k v -> Z.of_nat ((k + length regs) * n) < 2 ^ 64 ->
  (forall j reg, regs !! j = Some reg -> wrap (Z.of_nat n) reg = stream_word (k + j)) ->
  exists v', push_all regs (Z.of_nat n) v = (Ok tt, v') /\ tracking (k + length regs) v'.
Proof.
  revert k v. induction regs as [|reg regs IH]; intros k v Hv Hov Hregs.
  - exists v. rewrite Nat.add_0_r. done.
  - cbn [push_all length] in *. st_simpl.
    pose proof (Hregs 0%nat reg eq_refl) as H0. rewrite Nat.add_0_r in H0.
    destruct (tracking_push k reg v Hv ltac:(nia) H0) as [-> Hv'].
    destruct (IH (S k) _ Hv' ltac:(nia)) as (v' & E & Hv'').
    { intros j reg' Hj. rewrite Nat.add_succ_comm. by apply (Hregs (S j)). }
    exists v'. split; [done|]. by rewrite <- Nat.add_succ_comm.
Qed.
End Stream.

Lemma tracking_start g n thr uthr v :
  prbs_wf g -> (exists r, m_prbs v = with_reg g r /\ is_u 32 r) ->
  1 <= Z.of_nat n <= m_low_tap g ->
  m_lock_threshold v = thr -> m_unlock_threshold v = uthr ->
  tracking g n thr uthr 0 (reset v).
Proof.
  intros Hg Hp Hn Ht Hu. constructor; vcbn; try done.
  assert (0 < sync_words g n)%nat.
  { pose proof (sync_words_spec g Hg n Hn). pose proof (wf_high_pos _ Hg). nia. }
  rewrite (proj2 (Nat.ltb_lt _ _)) by done. repeat split. intros. lia.
Qed.

(** Leaving INIT is final (but for [reset]) and what is received afterwards
    does not influence the local generator. *)
Lemma push_fun_running reg n v :
  m_state v <> INIT ->
  m_state (push_fun reg n v) <> INIT /\ m_prbs (push_fun reg n v) = m_prbs (ran n v).
Proof.
  intros Hst. unfold push_fun, locking_count, locked_count. st_simpl.
  destruct (m_state v) eqn:E; [done|..]; destruct (negb _); destruct (_ <=? _); unfold ran;
    vcbn; by rewrite ?E.
Qed.

(** ** Properties of the verifier *)

Lemma verifier_follows g n v r count ws g' regs :
  prbs_wf g -> is_u (m_high_tap g) (m_reg g) -> 1 <= Z.of_nat n <= m_low_tap g ->
  get_words count (Z.of_nat n) g = (Ok ws, g') ->
  Forall2 (fun reg w => wrap (Z.of_nat n) reg = w) regs ws ->
  m_prbs v = with_reg g r -> is_u 32 r ->
  1 <= m_lock_threshold v -> 1 <= m_unlock_threshold v ->
  Z.of_nat (count * n) < 2 ^ 64 ->
  exists v',
    push_all regs (Z.of_nat n) (reset v) = (Ok tt, v') /\
    num_bits (m_status v') = Z.of_nat (count * n) /\
    num_bit_errors (m_status v') = 0 /\
    locked (m_status v') =
      (m_lock_threshold v <=? Z.of_nat (count * n) - Z.of_nat (sync_words g n * n)) /\
    lock_count (m_status v') = Z.b2z (locked (m_status v')) /\
    ((sync_words g n <= count)%nat -> m_reg (m_prbs v') = m_reg g').
Proof.
  intros Hg Hm Hn Hget Hregs Hv Hr Ht Hu Hov.
  pose proof (tracking_start g n _ _ v Hg (ex_intro _ r (conj Hv Hr)) Hn eq_refl eq_refl) as H0.
  pose proof (get_words_ok g Hg Hm n Hn count 0) as Hw. cbn [Nat.mul Nat.add] in Hw.
  change (p_iter g 0 (m_reg g)) with (m_reg g) in Hw.
  replace (with_reg g (m_reg g)) with g in Hw by (by destruct g).
  rewrite Hget in Hw. injection Hw as -> ->.
  assert (Hlen : length regs = count)
    by (by rewrite (Forall2_length _ _ _ Hregs), length_fmap, length_seq).
  destruct (tracking_push_all g Hg Hm n Hn _ _ Ht Hu regs 0 (reset v) H0) as (v' & E & Hv').
  { by rewrite Hlen. }
  { intros j reg Hj. pose proof (Forall2_lookup_l _ _ _ _ _ Hregs Hj) as (w & Hw & ->).
    apply list_lookup_fmap_Some in Hw as (x & -> & Hx). apply lookup_seq in Hx as [-> _]. done. }
  exists v'. rewrite Hlen in Hv'. destruct Hv' as [_ _ _ Hb He Hph]. cbn [Nat.add] in *.
  do 3 (split; [done|]).
  destruct (Nat.ltb_spec count (sync_words g n)) as [Hlt|Hge].
  - destruct Hph as (_ & -> & -> & _). rewrite (proj2 (Z.leb_gt _ _)) by nia.
    repeat split. lia.
  - destruct Hph as [-> Hph]. cbn zeta in Hph.
    replace (Z.of_nat ((count - sync_words g n) * n))
      with (Z.of_nat (count * n) - Z.of_nat (sync_words g n * n)) in Hph by nia.
    destruct (_ <=? _); [destruct Hph as (_ & -> & ->)|destruct Hph as (_ & -> & -> & _)]; done.
Qed.

(** C28. End of the receive path: a verifier that is new or was just [reset]
    (whatever its stale register held), fed the words that a generator with
    the same taps emits, counts no error; it is locked exactly when
    [m_lock_threshold] bits followed the [sync_words] words that fill its
    register; from those words on its local register is the sender's. *)
Theorem verifier_locks g n v r count ws g' regs :
  prbs_wf g -> is_u (m_high_tap g) (m_reg g) -> 1 <= Z.of_nat n <= m_low_tap g ->
  get_words count (Z.of_nat n) g = (Ok ws, g') ->
  Forall2 (fun reg w => wrap (Z.of_nat n) reg = w) regs ws ->
  m_prbs v = with_reg g r -> is_u 32 r ->
  1 <= m_lock_threshold v -> 1 <= m_unlock_threshold v ->
  Z.of_nat (count * n) < 2 ^ 64 ->
  exists v',
    push_all regs (Z.of_nat n) (reset v) = (Ok tt, v') /\
    num_bits (m_status v') = Z.of_nat (count * n) /\
    num_bit_errors (m_status v') = 0 /\
    locked (m_status v') =
      (m_lock_threshold v <=? Z.of_nat (count * n) - Z.of_nat (sync_words g n * n)) /\
    lock_count (m_status v') = Z.b2z (locked (m_status v')) /\
    ((sync_words g n <= count)%nat -> m_reg (m_prbs v') = m_reg g').
Proof. by apply verifier_follows. Qed.

(** [push_bit b] is [push_bits b 1] in every state, so the single-bit and
    the word interface of the verifier agree. *)
Theorem push_bit_push_bits b v :
  prbs_wf (m_prbs v) -> push_bit b v = push_bits (Z.b2z b) 1 v.
Proof. apply push_bit_eq. Qed.

(** C33. From construction on, whatever methods are called (also calls that
    throw), [status.locked] is set exactly in state LOCKED, the error count
    never exceeds the bit count, and the local generator stays well formed. *)
Theorem verifier_invariant t ts inv v os :
  Forall (fun t => 1 <= t <= 30) (t :: ts) ->
  verifier_new (t :: ts) inv = Ok v -> ops_bits os < 2 ^ 64 ->
  verifier_wf (verifier_exec os v).
Proof.
  intros Hts Hnew Hb. apply verifier_exec_wf.
  - destruct (prbs_new_ok t ts 0 inv Hts ltac:(unfold is_u; lia)) as (p & E & Hp & _).
    unfold verifier_new in Hnew. rewrite E in Hnew. injection Hnew as <-.
    constructor; cbn; try done; unfold is_u; lia.
  - unfold verifier_new in Hnew. apply result_bind_Ok in Hnew as (p & _ & Hnew).
    injection Hnew as <-. exact Hb.
Qed.

(** Loss of lock does not cost the evidence it should: [m_sucess_counter]
    keeps its value when LOCKED falls back to LOCKING, so one single error-free
    word locks the verifier again although [m_lock_threshold] may ask for
    thousands of good bits. *)
Theorem relock_after_one_word reg1 reg2 n v v1 :
  verifier_wf v -> 1 <= Z.of_nat n <= m_low_tap (m_prbs v) ->
  m_state v = LOCKED -> m_lock_threshold v <= m_sucess_counter v ->
  m_sucess_counter v + Z.of_nat n < 2 ^ 64 ->
  push_bits reg1 (Z.of_nat n) v = (Ok tt, v1) -> m_state v1 = LOCKING ->
  wrap (Z.of_nat n) reg2 = p_word (m_prbs v1) (m_reg (m_prbs v1)) n ->
  exists v2,
    push_bits reg2 (Z.of_nat n) v1 = (Ok tt, v2) /\ m_state v2 = LOCKED /\
    locked (m_status v2) = true.
Proof.
  intros Hwf Hn Hst Hthr Hov E1 Hst1 Hreg2. pose proof (vwf_prbs _ Hwf) as Hp.
  pose proof (vwf_sucess _ Hwf) as [Hs0 _].
  rewrite push_bits_ok in E1 by (done || left; lia). injection E1 as E1.
  assert (Hv1 : prbs_wf (m_prbs v1) /\ m_low_tap (m_prbs v1) = m_low_tap (m_prbs v) /\
          m_lock_threshold v1 = m_lock_threshold v /\ m_sucess_counter v1 = m_sucess_counter v).
  { subst v1. unfold push_fun, locked_count. st_simpl. rewrite Hst.
    pose proof (ran_wf n v Hp). destruct (negb _); destruct (_ <=? _); done. }
  destruct Hv1 as (Hp1 & Hlow & Ht1 & Hs1).
  exists (push_fun reg2 n v1). rewrite push_bits_ok by (done || left; lia). split; [done|].
  unfold push_fun. rewrite Hst1. unfold mismatches. rewrite Hreg2, Z.lxor_nilpotent.
  unfold locking_count. st_simpl. cbn [popcount Z.eqb negb ran with_prbs with_sucess add_bits
    with_status m_lock_threshold m_sucess_counter]. rewrite Ht1, Hs1.
  rewrite u64_small by lia. rewrite (proj2 (Z.leb_le _ _)) by lia. done.
Qed.

(** Outside INIT the local generator runs free: after any received words it
    is where [length regs] calls of [get_word] take it, and INIT is never
    re-entered, so a receiver that lost a packet is not resynchronised by
    anything short of [reset]. *)
Theorem verifier_runs_free regs n v :
  prbs_wf (m_prbs v) -> m_state v <> INIT -> Z.of_nat n <= m_low_tap (m_prbs v) ->
  (push_all regs (Z.of_nat n) v).1 = Ok tt /\
  m_state (push_all regs (Z.of_nat n) v).2 <> INIT /\
  m_prbs (push_all regs (Z.of_nat n) v).2
    = (get_words (length regs) (Z.of_nat n) (m_prbs v)).2.
Proof.
  revert v. induction regs as [|reg regs IH]; intros v Hwf Hst Hn; cbn [push_all get_words length];
    [done|].
  st_simpl. rewrite push_bits_ok by (done || by left).
  destruct (push_fun_running reg n v Hst) as [Hst' Hp].
  pose proof (ran_wf n v Hwf) as Hran. rewrite <- Hp in Hran.
  destruct (IH (push_fun reg n v) Hran Hst') as (E1 & E2 & E3); [by rewrite Hp|].
  rewrite get_word_ok by done. unfold ran in Hp. vcbn.
  split; [done|]. split; [done|]. rewrite E3, Hp. clear E1 E2 E3 Hp Hran. cbn [with_prbs m_prbs].
  destruct (get_words (length regs) (Z.of_nat n) _) as [[?|?] ?]; reflexivity.
Qed.

(** Words too wide for the generator: beyond 30 bits the mask expression is
    undefined; otherwise LOCKING and LOCKED throw the generator's exception, and
    LOCKED has already counted the bits it did not compare. *)
Theorem push_bits_too_wide reg n v :
  prbs_wf (m_prbs v) -> m_low_tap (m_prbs v) < n ->
  m_state v <> INIT \/ 30 < n ->
  push_bits reg n v =
    if 30 <? n then (Err Undefined, v)
    else (throw "Too many bits requested",
          if decide (m_state v = LOCKED) then add_bits n v else v).
Proof. apply push_bits_wide. Qed.

(** The transition table of [push_bits], on every branch: INIT is left when
    the register is full, LOCKING for LOCKED after enough consecutive good
    bits, LOCKED for LOCKING when the accumulated errors reach the threshold. *)
Theorem push_bits_transitions reg n v :
  verifier_wf v -> Z.of_nat n <= m_low_tap (m_prbs v) ->
  num_bits (m_status v) + Z.of_nat n < 2 ^ 64 -> m_sucess_counter v + Z.of_nat n < 2 ^ 64 ->
  exists v', push_bits reg (Z.of_nat n) v = (Ok tt, v') /\
  m_state v' =
    match m_state v with
    | INIT =>
        if m_high_tap (m_prbs v) <=? num_bits (m_status v) + Z.of_nat n then LOCKING else INIT
    | LOCKING =>
        let good := if mismatches reg n v =? 0 then m_sucess_counter v + Z.of_nat n else 0 in
        if m_lock_threshold v <=? good then LOCKED else LOCKING
    | LOCKED =>
        if m_unlock_threshold v <=? num_bit_errors (m_status v) + mismatches reg n v
        then LOCKING else LOCKED
    end.
Proof.
  intros [Hp _ _ He _ [Hs _]] Hn Hb Hsov. pose proof (mismatches_bounds reg n v) as Hm.
  exists (push_fun reg n v). rewrite push_bits_ok by (done || by left). split; [done|].
  unfold push_fun, init_done, locking_count, locked_count. st_simpl.
  destruct (m_state v) eqn:Est.
  - vcbn. rewrite u64_small by lia. unfold reg_length_bits. by destruct (_ <=? _).
  - destruct (Z.eqb_spec (mismatches reg n v) 0); cbn [negb]; unfold ran; vcbn;
      rewrite ?u64_small by lia; by destruct (_ <=? _).
  - destruct (Z.eqb_spec (mismatches reg n v) 0) as [E|E]; cbn [negb]; unfold ran; vcbn;
      rewrite ?u64_small by lia; rewrite ?E, ?Z.add_0_r; by destruct (_ <=? _).
Qed.

(** ** Witnesses *)

Definition main_verifier : verifier := Verifier INIT 0 2048 128 0 main_prbs status_0.

Lemma main_verifier_new : verifier_new main_taps true = Ok main_verifier.
Proof. reflexivity. Qed.

Lemma main_verifier_wf : verifier_wf main_verifier.
Proof. constructor; cbn; try (apply main_prbs_wf || done); unfold is_u; lia. Qed.

Lemma main_get_words :
  get_words 5 8 main_prbs = (Ok [255; 255; 193; 255; 240], with_reg main_prbs 4325360).
Proof. vm_compute. reflexivity. Qed.

Lemma verifier_locks_witness :
  exists v',
    push_all [255; 255; 193; 255; 240] 8 (reset (set_lock_threshold 16 main_verifier)) = (Ok tt, v') /\
    locked (m_status v') = true /\ num_bit_errors (m_status v') = 0.
Proof.
  destruct (verifier_locks main_prbs 8 (set_lock_threshold 16 main_verifier) 0 5
              [255; 255; 193; 255; 240] (with_reg main_prbs 4325360) [255; 255; 193; 255; 240])
    as (v' & E & _ & He & Hl & _).
  - exact main_prbs_wf.
  - unfold is_u; cbn; lia.
  - cbn; lia.
  - exact main_get_words.
  - repeat constructor.
  - reflexivity.
  - unfold is_u; lia.
  - cbn; lia.
  - cbn; lia.
  - cbn; lia.
  - exists v'. split; [exact E|]. split; [|exact He]. rewrite Hl. vm_compute. reflexivity.
Defined.

Lemma push_bit_push_bits_witness : push_bit true main_verifier = push_bits 1 1 main_verifier.
Proof. apply (push_bit_push_bits true main_verifier). exact main_prbs_wf. Defined.

Lemma verifier_invariant_witness :
  verifier_wf (verifier_exec [VPushBits 255 8; VPushBit true; VReset; VPushBits 7 25] main_verifier).
Proof.
  apply (verifier_invariant 23 [18] true main_verifier).
  - repeat constructor; lia.
  - reflexivity.
  - cbn; lia.
Defined.

(** A locked verifier whose next word has six wrong bits. *)
Definition locked_verifier : verifier :=
  Verifier LOCKED 0 2048 2 2048 main_prbs (Status 2072 0 true 1).

Lemma locked_verifier_wf : verifier_wf locked_verifier.
Proof. constructor; cbn; try (apply main_prbs_wf || done); unfold is_u; lia. Qed.

Lemma relock_after_one_word_witness :
  exists v1 v2,
    push_bits 3 8 locked_verifier = (Ok tt, v1) /\ m_state v1 = LOCKING /\
    push_bits 255 8 v1 = (Ok tt, v2) /\ locked (m_status v2) = true.
Proof.
  destruct (relock_after_one_word 3 255 8 locked_verifier (push_bits 3 8 locked_verifier).2)
    as (v2 & E & _ & Hl).
  - exact locked_verifier_wf.
  - cbn; lia.
  - reflexivity.
  - cbn; lia.
  - cbn; lia.
  - vm_compute. reflexivity.
  - vm_compute. reflexivity.
  - vm_compute. reflexivity.
  - exists (push_bits 3 8 locked_verifier).2, v2.
    split; [vm_compute; reflexivity|]. split; [vm_compute; reflexivity|]. split; [exact E|exact Hl].
Defined.

Lemma verifier_runs_free_witness :
  m_prbs (push_all [1; 2; 3] 8 locked_verifier).2 = (get_words 3 8 main_prbs).2.
Proof.
  apply (verifier_runs_free [1; 2; 3] 8 locked_verifier).
  - exact main_prbs_wf.
  - discriminate.
  - cbn; lia.
Defined.

Lemma push_bits_too_wide_witness :
  push_bits 0 20 locked_verifier
    = (throw "Too many bits requested", add_bits 20 locked_verifier).
Proof.
  apply (push_bits_too_wide 0 20 locked_verifier).
  - exact main_prbs_wf.
  - cbn; lia.
  - left. discriminate.
Defined.

Lemma push_bits_transitions_witness :
  exists v', push_bits 3 8 locked_verifier = (Ok tt, v') /\ m_state v' = LOCKING.
Proof.
  destruct (push_bits_transitions 3 8 locked_verifier) as (v' & E & Hs).
  - exact locked_verifier_wf.
  - cbn; lia.
  - cbn; lia.
  - cbn; lia.
  - exists v'. split; [exact E|]. rewrite Hs. vm_compute. reflexivity.
Defined.
