(* ===== verification/RegInterface.v ===== *)
(** * The register bus: [reg_interface.hpp] and [reg_comp.hpp]

    [reg_interface] is the virtual bus the component drivers are written
    against.  Drivers are programs over [busE]; an implementation of the
    interface is a [Handler busE].  [reg_comp] adds the component's offset and
    the identity probe. *)

From S2P Require Import Prelude Effects.

(** The two virtual functions, and the sleeps the drivers do between calls. *)
Inductive busE : Type -> Type :=
  | BusRead (address : Z) : busE (result Z)
  | BusWrite (address data : Z) : busE (result unit)
  | BusSleep (microseconds : Z) : busE unit.

Definition bus_read (a : Z) : io busE Z := call (BusRead a).
Definition bus_write (a d : Z) : io busE unit := call (BusWrite a d).
Definition bus_sleep (us : Z) : io busE unit := call_ok (BusSleep us).

(** ** [reg_comp] *)
Record reg_comp := RegComp { _offset : Z; _comp_id : Z }.

Definition reg_write (c : reg_comp) (address data : Z) : io busE unit :=
  bus_write (u32 (_offset c + address)) data.
Definition reg_read (c : reg_comp) (address : Z) : io busE Z :=
  bus_read (u32 (_offset c + address)).
Definition probe (c : reg_comp) : io busE bool :=
  id ← reg_read c 0; mret (id =? _comp_id c).

(** ** Traces *)
Inductive event :=
  | EvRead (address : Z) (r : result Z)
  | EvWrite (address data : Z) (r : result unit)
  | EvSleep (microseconds : Z).
#[export] Instance event_eq_dec : EqDecision event.
Proof. solve_decision. Defined.

(** A device in general: its answers are a function of what happened before
    (so they may change with every read, write or delay), and it may fail. *)
Class Device := {
  dev_read : list event -> Z -> result Z;
  dev_write : list event -> Z -> Z -> result unit
}.

(** The world of a device is the trace of the bus, oldest event first. *)
Definition trace := list event.

#[export] Instance trace_handler `{Device} : Handler busE trace := fun X e =>
  match e in busE Y return trace -> Y * trace with
  | BusRead a => fun t => let r := dev_read t a in (r, t ++ [EvRead a r])
  | BusWrite a d => fun t => let r := dev_write t a d in (r, t ++ [EvWrite a d r])
  | BusSleep us => fun t => (tt, t ++ [EvSleep us])
  end.

(** ** Steps of a run

    [steps P t t'] holds when [t'] extends [t] and every new event satisfies
    [P] of the trace before it. *)
Inductive steps (P : trace -> event -> Prop) : trace -> trace -> Prop :=
  | steps_refl t : steps P t t
  | steps_snoc t t' ev : steps P t t' -> P t' ev -> steps P t (t' ++ [ev]).

Lemma steps_one (P : trace -> event -> Prop) t ev : P t ev -> steps P t (t ++ [ev]).
Proof. intros. apply steps_snoc; [constructor|done]. Qed.

Lemma steps_trans P t1 t2 t3 : steps P t1 t2 -> steps P t2 t3 -> steps P t1 t3.
Proof. intros H12 H23. induction H23; eauto using steps. Qed.

Lemma steps_mono (P Q : trace -> event -> Prop) t t' :
  (forall u ev, P u ev -> Q u ev) -> steps P t t' -> steps Q t t'.
Proof. intros HPQ H. induction H; constructor; auto. Qed.

(** A function of the trace that no event of the run changes. *)
Lemma steps_keep {A} (f : trace -> A) (P : trace -> event -> Prop) t t' :
  (forall u ev, P u ev -> f (u ++ [ev]) = f u) -> steps P t t' -> f t' = f t.
Proof. intros Hf H. induction H; [done|]. by rewrite Hf. Qed.

(** Events that do not write. *)
Definition quiet (_ : trace) (ev : event) : Prop :=
  match ev with EvWrite _ _ _ => False | _ => True end.

(** ** Drivers do not swallow errors

    [stops_on_error own p]: when a bus access of [p] fails, that access is the
    last event of the run and its error is the outcome; otherwise the run only
    ends in an error of [own]. *)
Definition ev_error (ev : event) : option error :=
  match ev with
  | EvRead _ (Err e) => Some e
  | EvWrite _ _ (Err e) => Some e
  | _ => None
  end.
Definition ev_ok (_ : trace) (ev : event) : Prop := ev_error ev = None.

Definition stops_on_error {A} (own : error -> Prop) (p : io busE A) : Prop :=
  forall (D : Device) t,
    match run p t with
    | (Ok _, t') => steps ev_ok t t'
    | (Err e, t') =>
        (steps ev_ok t t' /\ own e) \/
        exists t1 ev, steps ev_ok t t1 /\ t' = t1 ++ [ev] /\ ev_error ev = Some e
    end.

Definition no_own (_ : error) : Prop := False.

Lemma stops_mono {A} (P Q : error -> Prop) (p : io busE A) :
  (forall e, P e -> Q e) -> stops_on_error P p -> stops_on_error Q p.
Proof.
  intros HPQ H D t. specialize (H D t). destruct (run p t) as [[a|e] u]; [done|]. destruct H as [[? ?]|?]; [left; auto|by right].
Qed.

Lemma stops_ret {A} own (a : A) : stops_on_error own (mret a).
Proof. intros D t. rewrite run_ret. constructor. Qed.

Lemma stops_throw {A} (own : error -> Prop) e : own e -> stops_on_error own (io_fail (A := A) e).
Proof. intros He D t. left. split; [constructor|done]. Qed.

Lemma stops_bind {A B} own (p : io busE A) (f : A -> io busE B) :
  stops_on_error own p -> (forall a, stops_on_error own (f a)) ->
  stops_on_error own (p ≫= f).
Proof.
  intros Hp Hf D t. rewrite run_bind. specialize (Hp D t).
  destruct (run p t) as [[a|e] t1]; [|done].
  specialize (Hf a D t1). destruct (run (f a) t1) as [[b|e] t2].
  - by apply steps_trans with t1.
  - destruct Hf as [[? ?]|(t3 & ev & ? & -> & ?)].
    + left. split; [by apply steps_trans with t1|done].
    + right. exists t3, ev. split_and!; [by apply steps_trans with t1|done..].
Qed.

Lemma stops_read own c r : stops_on_error own (reg_read c r).
Proof.
  intros D t. unfold reg_read, bus_read. rewrite run_call. cbn.
  destruct (dev_read t _) as [v|e] eqn:E; [by apply steps_one|].
  right. eexists t, _. split_and!; [constructor|done|done].
Qed.

Lemma stops_write own c r d : stops_on_error own (reg_write c r d).
Proof.
  intros D t. unfold reg_write, bus_write. rewrite run_call. cbn.
  destruct (dev_write t _ _) as [v|e] eqn:E; [by apply steps_one|].
  right. eexists t, _. split_and!; [constructor|done|done].
Qed.

Lemma stops_sleep own us : stops_on_error own (bus_sleep us).
Proof. intros D t. by apply steps_one. Qed.

Lemma stops_if {A} own (b : bool) (p q : io busE A) :
  stops_on_error own p -> stops_on_error own q -> stops_on_error own (if b then p else q).
Proof. by destruct b. Qed.

Create HintDb driver.
#[export] Hint Resolve stops_ret stops_read stops_write stops_sleep : driver.
#[export] Hint Extern 1 (stops_on_error _ (mbind _ _)) => apply stops_bind; [|intros ?] : driver.
#[export] Hint Extern 2 (stops_on_error _ (if _ then _ else _)) => apply stops_if : driver.

(** The same for methods that return the object's fields. *)
Definition method_stops {S A} (own : error -> Prop) (m : objM busE S A) : Prop :=
  forall s, stops_on_error own (prog_bind (m s) (fun x => Ret x.1)).

Lemma method_bind {S A B} own (m : objM busE S A) (f : A -> objM busE S B) :
  method_stops own m -> (forall a, method_stops own (f a)) -> method_stops own (m ≫= f).
Proof.
  intros Hm Hf s D t. rewrite run_prog_bind, run_obj_bind.
  specialize (Hm s D t). rewrite run_prog_bind in Hm.
  destruct (run (m s) t) as [[[a|e] s1] t1]; cbn in Hm |- *; [|done].
  specialize (Hf a s1 D t1). rewrite run_prog_bind in Hf.
  destruct (run (f a s1) t1) as [[[b|e] s2] t2]; cbn in Hf |- *.
  - by apply steps_trans with t1.
  - destruct Hf as [[? ?]|(t3 & ev & ? & -> & ?)].
    + left. split; [by apply steps_trans with t1|done].
    + right. exists t3, ev. split_and!; [by apply steps_trans with t1|done..].
Qed.

Lemma method_io {S A} own (p : io busE A) :
  stops_on_error own p -> method_stops (S := S) own (obj_io p).
Proof.
  intros Hp s D t. rewrite run_prog_bind, run_obj_io. specialize (Hp D t).
  destruct (run p t) as [[a|e] t1]; exact Hp.
Qed.

Lemma method_ret {S A} own (a : A) : method_stops (S := S) own (mret a).
Proof. intros s D t. constructor. Qed.
Lemma method_get {S} own : method_stops (S := S) own obj_get.
Proof. intros s D t. constructor. Qed.
Lemma method_modify {S} own (f : S -> S) : method_stops own (obj_modify f).
Proof. intros s D t. constructor. Qed.
Lemma method_fail {S A} (own : error -> Prop) e :
  own e -> method_stops (S := S) own (obj_fail (A := A) e).
Proof. intros He s D t. left. split; [constructor|done]. Qed.
Lemma method_if {S A} own (b : bool) (p q : objM busE S A) :
  method_stops own p -> method_stops own q -> method_stops own (if b then p else q).
Proof. by destruct b. Qed.

#[export] Hint Resolve method_io method_ret method_get method_modify : driver.
#[export] Hint Extern 1 (method_stops _ (mbind _ _)) => apply method_bind; [|intros ?] : driver.
#[export] Hint Extern 2 (method_stops _ (if _ then _ else _)) => apply method_if : driver.

(** ** A run only adds events *)
Lemma run_extends {A} `{Device} (p : prog busE A) (t : trace) : exists evs, (run p t).2 = t ++ evs.
Proof.
  apply (run_invariant (fun u => exists evs, u = t ++ evs)).
  - intros X e u [evs ->]. destruct e; cbn; eexists; by rewrite <- app_assoc.
  - exists []. by rewrite app_nil_r.
Qed.

(** ** Every world is a device *)
Section Universal.
Context {W : Type} `{!Handler busE W} (w0 : W).

(** The state of the world after a trace. *)
Definition replay_event (w : W) (ev : event) : W :=
  match ev with
  | EvRead a _ => (handle (BusRead a) w).2
  | EvWrite a d _ => (handle (BusWrite a d) w).2
  | EvSleep us => (handle (BusSleep us) w).2
  end.

Definition replay (t : trace) : W := foldl replay_event w0 t.

Definition world_device : Device := {|
  dev_read t a := (handle (BusRead a) (replay t)).1;
  dev_write t a d := (handle (BusWrite a d) (replay t)).1
|}.

Lemma world_device_simulates :
  simulates (Handler0 := @trace_handler world_device) (fun t w => replay t = w).
Proof.
  intros X e t w <-. destruct e as [a|a d|us]; cbn; unfold replay;
    rewrite foldl_snoc; cbn; split; try done.
  by destruct (handle (BusSleep us) _) as [[] ?].
Qed.

(** What is proved of a driver for every device holds in every world. *)
Theorem run_world_device {A} (p : prog busE A) :
  let H := @trace_handler world_device in
  (run p w0).1 = (run p ([] : trace)).1 /\
  (run p w0).2 = replay (run p ([] : trace)).2.
Proof.
  destruct (run_simulates _ world_device_simulates p [] w0 eq_refl) as [E1 E2]. done.
Qed.
End Universal.
