(* ===== verification/RegFile.v ===== *)
(** * Register files behind the bus

    What the memory-mapped components of the FPGA promise to the drivers: [n]
    32-bit registers at a base address, writes that always succeed and are kept
    ([component_register_block.vhd]), and read values that the component
    computes.  Drivers are proved against the class [IsRegFile]. *)

From S2P Require Import Prelude Effects RegInterface.

(** The address a driver forms for register [r]. *)
Definition reg_addr_of (base r : Z) : Z := u32 (base + r).
Definition rd (base r v : Z) : event := EvRead (reg_addr_of base r) (Ok v).
Definition wr (base r d : Z) : event := EvWrite (reg_addr_of base r) d (Ok tt).

(** [reg_wdata_out(r)]: the last word written, initially zero. *)
Definition wdata_step (base r : Z) (w : Z) (ev : event) : Z :=
  match ev with
  | EvWrite a d (Ok _) => if a =? reg_addr_of base r then d else w
  | _ => w
  end.
Definition wdata (base : Z) (t : trace) (r : Z) : Z := foldl (wdata_step base r) 0 t.

(** [rdata t r] is what the component drives on [reg_rdata_in(r)] after [t]. *)
Class IsRegFile (D : Device) (base n : Z) (rdata : trace -> Z -> Z) : Prop := {
  regs_base : 0 <= base /\ base + n <= 2 ^ 32;
  regs_read t r : 0 <= r < n -> dev_read t (reg_addr_of base r) = Ok (rdata t r);
  regs_write t r d : 0 <= r < n -> dev_write t (reg_addr_of base r) d = Ok tt
}.

(** A bus with this component only: every other address is an error. *)
Definition reg_file (base n : Z) (rdata : trace -> Z -> Z) : Device := {|
  dev_read t a :=
    if (base <=? a) && (a <? base + n) then Ok (rdata t (a - base))
    else throw "Register read failed";
  dev_write t a d :=
    if (base <=? a) && (a <? base + n) then Ok tt else throw "Register write failed"
|}.

Lemma reg_file_ok base n rdata :
  0 <= base -> base + n <= 2 ^ 32 -> IsRegFile (reg_file base n rdata) base n rdata.
Proof.
  intros Hb Hn. split; [done|..].
  all: intros; unfold reg_addr_of; rewrite wrap_small by (unfold is_u; lia);
    cbn; zcases; cbn; do 2 f_equal; lia.
Qed.

(** A bus with two components at disjoint places. *)
Definition bus_union (split_at : Z) (D1 D2 : Device) : Device := {|
  dev_read t a := if a <? split_at then dev_read (Device := D1) t a
                  else dev_read (Device := D2) t a;
  dev_write t a d := if a <? split_at then dev_write (Device := D1) t a d
                     else dev_write (Device := D2) t a d
|}.

Lemma wdata_rd base b t r r' v : wdata base (t ++ [rd b r' v]) r = wdata base t r.
Proof. unfold wdata. by rewrite foldl_snoc. Qed.

Lemma wdata_sleep base t r us : wdata base (t ++ [EvSleep us]) r = wdata base t r.
Proof. unfold wdata. by rewrite foldl_snoc. Qed.

Section RegFile.
Context {D : Device} {base n : Z} {rdata : trace -> Z -> Z} {R : IsRegFile D base n rdata}.

Lemma reg_addr_of_small r : 0 <= r < n -> reg_addr_of base r = base + r.
Proof.
  intros. unfold reg_addr_of. destruct regs_base. apply wrap_small. unfold is_u. lia.
Qed.

Lemma run_reg_read id r (t : trace) :
  0 <= r < n ->
  run (reg_read (RegComp base id) r) t = (Ok (rdata t r), t ++ [rd base r (rdata t r)]).
Proof.
  intros Hr. unfold reg_read, bus_read. rewrite run_call. cbn [handle trace_handler _offset].
  fold (reg_addr_of base r). by rewrite regs_read.
Qed.

Lemma run_reg_write id r d (t : trace) :
  0 <= r < n ->
  run (reg_write (RegComp base id) r d) t = (Ok tt, t ++ [wr base r d]).
Proof.
  intros Hr. unfold reg_write, bus_write. rewrite run_call. cbn [handle trace_handler _offset].
  fold (reg_addr_of base r). by rewrite regs_write.
Qed.

Lemma run_bus_sleep us (t : trace) : run (bus_sleep us) t = (Ok tt, t ++ [EvSleep us]).
Proof. done. Qed.

Lemma wdata_wr t r r' d :
  0 <= r < n -> 0 <= r' < n ->
  wdata base (t ++ [wr base r' d]) r = if r =? r' then d else wdata base t r.
Proof.
  intros. unfold wdata. rewrite foldl_snoc. cbn [wdata_step wr].
  rewrite !reg_addr_of_small by done. zcases; by try lia.
Qed.
End RegFile.

Create Rewrite HintDb regfile.
#[export] Hint Rewrite wdata_rd wdata_sleep : regfile.

(** [drive] executes the register accesses of a run in the goal. *)
Create HintDb regs.
Ltac reg_bounds := try autounfold with regs; lia.
Ltac drive1 :=
  first
    [ rewrite run_bind | rewrite run_ret
    | rewrite run_reg_read by reg_bounds | rewrite run_reg_write by reg_bounds
    | rewrite run_bus_sleep ]; cbn beta iota.
Ltac drive := try autounfold with regs; repeat drive1.

(** A run without writes keeps every written word. *)
Lemma wdata_quiet base t t' r : steps quiet t t' -> wdata base t' r = wdata base t r.
Proof.
  apply (steps_keep (fun u => wdata base u r)). intros u [] []; unfold wdata;
    by rewrite foldl_snoc.
Qed.

(** Events that write no other register than those of [rs]. *)
Definition writes_in (base : Z) (rs : list Z) (_ : trace) (ev : event) : Prop :=
  match ev with
  | EvWrite a _ _ => exists r, In r rs /\ a = reg_addr_of base r
  | _ => True
  end.

Lemma quiet_writes_in base rs t t' : steps quiet t t' -> steps (writes_in base rs) t t'.
Proof. apply steps_mono. by intros u []. Qed.

Lemma steps_wr base rs t r d : In r rs -> steps (writes_in base rs) t (t ++ [wr base r d]).
Proof. intros. apply steps_one. by exists r. Qed.
Lemma steps_rd base rs t r v : steps (writes_in base rs) t (t ++ [rd base r v]).
Proof. by apply steps_one. Qed.
