(* ===== verification/MacDevice.v ===== *)
(** * The register map of the RMII MAC: [src/vhdl/ethernet/rmii/rmii_mac_comp.vhd]

    What the drivers see of the hardware.  The writable fields are functions of
    the bus trace; everything the MAC and MDIO engines produce on their own
    ([mac_hw]) is an arbitrary function of the trace, so a driver theorem holds
    for every behaviour of those engines. *)

From S2P Require Import Prelude Effects RegInterface RegFile.

Definition C_COMPONENT_ID : Z := 102.
Definition C_NUM_RMII_MAC_COMP_REGISTERS : Z := 25.
#[export] Hint Unfold C_NUM_RMII_MAC_COMP_REGISTERS : regs.

(** Signals driven by the hardware. *)
Record mac_hw := MacHw {
  mdio_ready : bool;
  response_received : bool;
  mdio_read_data_r : Z;
  eth_framer_idle : bool;
  eth_deframer_idle : bool;
  overflowed_out : bool;
  num_tx_bytes : Z;
  num_tx_packets : Z;
  num_rx_bytes : Z;
  num_rx_packets : Z;
  num_bad_carrier_events : Z;
  eth_deframer_drop_count : Z;
  dropped_packets_count : Z;
  mdio_send_counter : Z;
  mdio_receive_counter : Z;
  num_mac_rx_packets : Z;
  arp_pending : bool;
  send_arp_ready : bool
}.

(** VHDL concatenation of bits, most significant first. *)
Definition cat_bits (l : list bool) : Z := foldl (fun z b => 2 * z + Z.b2z b) 0 l.

(** ** Fields the drivers write *)
Section Fields.
Variable base : Z.

Definition write_not_read (t : trace) : bool := Z.testbit (wdata base t 1) 0.
Definition phy_addr (t : trace) : Z := wrap 5 (wdata base t 3).
Definition reg_addr (t : trace) : Z := wrap 5 (wdata base t 4).
Definition write_data (t : trace) : Z := wrap 16 (wdata base t 5).
Definition eth_framer_enable (t : trace) : bool := Z.testbit (wdata base t 7) 0.
Definition eth_deframer_enable (t : trace) : bool := Z.testbit (wdata base t 7) 2.
Definition source_mac (t : trace) : Z :=
  wrap 32 (wdata base t 9) + 2 ^ 32 * wrap 16 (wdata base t 8).
Definition destination_mac (t : trace) : Z :=
  wrap 32 (wdata base t 11) + 2 ^ 32 * wrap 16 (wdata base t 10).
Definition src_ip_address (t : trace) : Z := wdata base t 12.

(** ** Read data *)
Definition mac_rdata (hw : trace -> mac_hw) (t : trace) (r : Z) : Z :=
  let h := hw t in
  match r with
  | 0 => C_COMPONENT_ID
  | 1 => cat_bits [mdio_ready h; response_received h; write_not_read t]
  | 3 => phy_addr t
  | 4 => reg_addr t
  | 5 => write_data t
  | 6 => wrap 16 (mdio_read_data_r h)
  | 7 => cat_bits [overflowed_out h; eth_deframer_idle h; eth_deframer_enable t;
                   eth_framer_idle h; eth_framer_enable t]
  | 8 => Z.shiftr (source_mac t) 32
  | 9 => wrap 32 (source_mac t)
  | 10 => Z.shiftr (destination_mac t) 32
  | 11 => wrap 32 (destination_mac t)
  | 12 => src_ip_address t
  | 14 => wrap 32 (num_tx_bytes h)
  | 15 => wrap 32 (num_tx_packets h)
  | 16 => wrap 32 (num_rx_bytes h)
  | 17 => wrap 32 (num_rx_packets h)
  | 18 => wrap 8 (num_bad_carrier_events h)
  | 19 => wrap 16 (eth_deframer_drop_count h)
  | 20 => wrap 16 (dropped_packets_count h)
  | 21 => wrap 8 (mdio_send_counter h)
  | 22 => wrap 8 (mdio_receive_counter h)
  | 23 => wrap 32 (num_mac_rx_packets h)
  | 24 => cat_bits [arp_pending h; false; false; false; send_arp_ready h]
  | _ => 0
  end.
End Fields.

(** The MAC at [base] on some bus. *)
Class IsMac (D : Device) (base : Z) (hw : trace -> mac_hw) : Prop :=
  mac_regs :: IsRegFile D base C_NUM_RMII_MAC_COMP_REGISTERS (mac_rdata base hw).

(** A bus with the MAC alone. *)
Definition mac_device (base : Z) (hw : trace -> mac_hw) : Device :=
  reg_file base C_NUM_RMII_MAC_COMP_REGISTERS (mac_rdata base hw).

Lemma mac_device_ok base hw :
  0 <= base -> base + 25 <= 2 ^ 32 -> IsMac (mac_device base hw) base hw.
Proof. intros. by apply reg_file_ok. Qed.

(** ** The configuration the drivers establish *)
Record mac_config := MacConfig {
  cfg_tx : bool;
  cfg_rx : bool;
  cfg_source_mac : Z;
  cfg_destination_mac : Z;
  cfg_source_ip : Z
}.

Definition config (base : Z) (t : trace) : mac_config := {|
  cfg_tx := eth_framer_enable base t;
  cfg_rx := eth_deframer_enable base t;
  cfg_source_mac := source_mac base t;
  cfg_destination_mac := destination_mac base t;
  cfg_source_ip := src_ip_address base t
|}.

Definition cfg_with_tx (b : bool) (c : mac_config) : mac_config :=
  MacConfig b (cfg_rx c) (cfg_source_mac c) (cfg_destination_mac c) (cfg_source_ip c).
Definition cfg_with_rx (b : bool) (c : mac_config) : mac_config :=
  MacConfig (cfg_tx c) b (cfg_source_mac c) (cfg_destination_mac c) (cfg_source_ip c).
Definition cfg_with_source_mac (m : Z) (c : mac_config) : mac_config :=
  MacConfig (cfg_tx c) (cfg_rx c) m (cfg_destination_mac c) (cfg_source_ip c).
Definition cfg_with_destination_mac (m : Z) (c : mac_config) : mac_config :=
  MacConfig (cfg_tx c) (cfg_rx c) (cfg_source_mac c) m (cfg_source_ip c).
Definition cfg_with_source_ip (ip : Z) (c : mac_config) : mac_config :=
  MacConfig (cfg_tx c) (cfg_rx c) (cfg_source_mac c) (cfg_destination_mac c) ip.

(** ** Lemmas *)
Lemma config_ext base t t' :
  (forall r, In r [7; 8; 9; 10; 11; 12] -> wdata base t' r = wdata base t r) ->
  config base t' = config base t.
Proof.
  intros E. unfold config, eth_framer_enable, eth_deframer_enable, source_mac,
    destination_mac, src_ip_address.
  rewrite (E 7), (E 8), (E 9), (E 10), (E 11), (E 12) by (cbn; tauto). done.
Qed.

Lemma config_quiet base t t' : steps quiet t t' -> config base t' = config base t.
Proof. intros H. apply config_ext. intros. by apply wdata_quiet. Qed.

Section Mac.
Context {D : Device} {base : Z} {hw : trace -> mac_hw} {M : IsMac D base hw}.

(** Writes to registers that hold no configuration. *)
Lemma config_wr_other t r d :
  0 <= r < 7 \/ 12 < r < 25 ->
  config base (t ++ [wr base r d]) = config base t.
Proof.
  intros Hr. apply config_ext. intros q Hq.
  assert (7 <= q <= 12) by (cbn in Hq; lia).
  rewrite wdata_wr by reg_bounds. by zcases.
Qed.

Lemma config_wr_7 t d :
  config base (t ++ [wr base 7 d]) =
  cfg_with_tx (Z.testbit d 0) (cfg_with_rx (Z.testbit d 2) (config base t)).
Proof.
  unfold config, eth_framer_enable, eth_deframer_enable, source_mac, destination_mac,
    src_ip_address, cfg_with_tx, cfg_with_rx.
  rewrite !wdata_wr by reg_bounds. by cbn.
Qed.

Lemma config_rd t r v : config base (t ++ [rd base r v]) = config base t.
Proof. apply config_quiet, steps_one. done. Qed.

(** The control and status bits of register 7. *)
Lemma testbit_eth_control t :
  let v := mac_rdata base hw t 7 in
  is_u 32 v /\
  Z.testbit v 0 = eth_framer_enable base t /\ Z.testbit v 1 = eth_framer_idle (hw t) /\
  Z.testbit v 2 = eth_deframer_enable base t /\ Z.testbit v 3 = eth_deframer_idle (hw t).
Proof.
  cbn [mac_rdata]. destruct (overflowed_out _), (eth_deframer_idle _), (eth_deframer_enable _ _),
    (eth_framer_idle _), (eth_framer_enable _ _); cbn; unfold is_u; repeat split; lia.
Qed.

(** The control register of the MDIO master. *)
Lemma mdio_control_bits t :
  let v := mac_rdata base hw t 1 in
  Z.testbit v 1 = response_received (hw t) /\
  (v =? 0) = negb (mdio_ready (hw t) || response_received (hw t) || write_not_read base t).
Proof.
  cbn [mac_rdata]. by destruct (mdio_ready _), (response_received _), (write_not_read _ _).
Qed.
End Mac.
