(* ===== verification/Mdio.v ===== *)
(** * MDIO driver: [example/cpp/mdio_comp.hpp] and [.cpp]

    Reads and writes PHY registers through the MAC's MDIO master and polls for
    completion.  The results are stated for every behaviour of the hardware
    polled, then for an engine that answers within a bounded number of polls. *)

From S2P Require Import Prelude Effects Utils RegInterface RegFile MacDevice.

Definition mdio_component_id : Z := 101.
Definition reg_mdio_comp_control : Z := 1.
Definition reg_mdio_comp_phy_addr : Z := 3.
Definition reg_mdio_comp_reg_addr : Z := 4.
Definition reg_mdio_comp_write_data : Z := 5.
Definition reg_mdio_comp_read_data : Z := 6.
#[export] Hint Unfold reg_mdio_comp_control reg_mdio_comp_phy_addr reg_mdio_comp_reg_addr
  reg_mdio_comp_write_data reg_mdio_comp_read_data : regs.

(** The constructor: the identity is never probed. *)
Definition mdio_comp_new (offset : Z) : reg_comp := RegComp offset mdio_component_id.

(** The [while] loop; [timeout] counts down from 10. *)
Fixpoint wait_loop (c : reg_comp) (timeout : nat) (finished : bool) : io busE bool :=
  match timeout with
  | O => mret finished
  | S timeout' =>
      if finished then mret finished
      else
        reg ← reg_read c reg_mdio_comp_control;
        _ ← bus_sleep 5000;
        wait_loop c timeout' (negb (reg =? 0))
  end.

Definition wait_for_op_complete (c : reg_comp) : io busE bool :=
  reg ← reg_read c reg_mdio_comp_control;
  wait_loop c 10 (get_bit reg 1).

(** [return_data] says whether the caller passes a pointer; the second
    component of the result is what was stored through it. *)
Definition mdio_read (c : reg_comp) (phy_address reg_address : Z) (return_data : bool)
    : io busE (bool * option Z) :=
  _ ← reg_write c reg_mdio_comp_phy_addr phy_address;
  _ ← reg_write c reg_mdio_comp_reg_addr reg_address;
  _ ← reg_write c reg_mdio_comp_control 0;
  complete ← wait_for_op_complete c;
  if (complete : bool) && return_data then
    v ← reg_read c reg_mdio_comp_read_data;
    mret (complete, Some (u16 (Z.land v 0xFFFF)))
  else mret (complete, None).

Definition mdio_write (c : reg_comp) (phy_address reg_address write_data : Z) : io busE bool :=
  _ ← reg_write c reg_mdio_comp_phy_addr phy_address;
  _ ← reg_write c reg_mdio_comp_reg_addr reg_address;
  _ ← reg_write c reg_mdio_comp_write_data write_data;
  _ ← reg_write c reg_mdio_comp_control 1;
  wait_for_op_complete c.

(** ** Polling, on any register file *)
Section Polling.
Context {D : Device} {base n : Z} {rdata : trace -> Z -> Z} {R : IsRegFile D base n rdata}.
Context (Hn : 7 <= n).

(** The trace before the [k]-th poll, and what that poll decides. *)
Fixpoint poll_trace (t : trace) (k : nat) : trace :=
  match k with
  | O => t
  | S k' =>
      let u := poll_trace t k' in
      u ++ [rd base 1 (rdata u 1)] ++ match k' with O => [] | S _ => [EvSleep 5000] end
  end.

Definition poll_done (t : trace) (k : nat) : bool :=
  let v := rdata (poll_trace t k) 1 in
  match k with O => get_bit v 1 | S _ => negb (v =? 0) end.

Lemma poll_trace_quiet t k : steps quiet t (poll_trace t k).
Proof.
  induction k as [|k IH]; [constructor|]. cbn [poll_trace]. rewrite app_assoc.
  destruct k; [rewrite app_nil_r; by apply steps_snoc|].
  apply steps_snoc; [by apply steps_snoc|done].
Qed.

Lemma poll_trace_length t k : (length (poll_trace t k) <= length t + 2 * k)%nat.
Proof.
  induction k as [|k IH]; cbn [poll_trace]; [lia|].
  rewrite !length_app. cbn [length]. destruct k; cbn [length]; lia.
Qed.

(** The loop from poll [k] on, [m] retries being left. *)
Lemma wait_loop_run id m k t :
  run (wait_loop (RegComp base id) m (poll_done t k)) (poll_trace t (S k)) =
  match list_find (fun j => poll_done t j = true) (seq k (S m)) with
  | Some (_, j) => (Ok true, poll_trace t (S j))
  | None => (Ok false, poll_trace t (S (k + m)))
  end.
Proof.
  revert k. induction m as [|m IH]; intros k.
  - cbn [wait_loop seq list_find]. rewrite run_ret. destruct (poll_done t k) eqn:E.
    + by rewrite decide_True.
    + rewrite decide_False by congruence. cbn. by rewrite Nat.add_0_r.
  - cbn [wait_loop]. change (seq k (S (S m))) with (k :: seq (S k) (S m)).
    cbn [list_find]. destruct (poll_done t k) eqn:E.
    + by rewrite decide_True.
    + rewrite decide_False by congruence. drive.
      replace ((poll_trace t (S k) ++ _) ++ _) with (poll_trace t (S (S k)))
        by (by cbn [poll_trace]; rewrite <- (app_assoc (_ ++ _))).
      change (negb _) with (poll_done t (S k)). rewrite IH.
      destruct (list_find _ _) as [[]|]; cbn; [done|]. by rewrite Nat.add_succ_r.
Qed.

Lemma wait_run id t :
  run (wait_for_op_complete (RegComp base id)) t =
  match list_find (fun j => poll_done t j = true) (seq 0 11) with
  | Some (_, j) => (Ok true, poll_trace t (S j))
  | None => (Ok false, poll_trace t 11)
  end.
Proof.
  unfold wait_for_op_complete. drive. apply (wait_loop_run id 10 0 t).
Qed.
End Polling.

(** ** On the MAC *)

(** The trace after the three writes that start a read or the four of a write. *)
Definition read_start (base : Z) (t : trace) (phy reg : Z) : trace :=
  ((t ++ [wr base 3 phy]) ++ [wr base 4 reg]) ++ [wr base 1 0].
Definition write_start (base : Z) (t : trace) (phy reg data : Z) : trace :=
  (((t ++ [wr base 3 phy]) ++ [wr base 4 reg]) ++ [wr base 5 data]) ++ [wr base 1 1].

(** An MDIO master that finishes every read within ten retries: while it works it
    shows neither ready nor a response, then it shows the response and has the
    PHY's answer latched.  [phys t p r] is the answer to a read started at [t]. *)
Class MdioEngine (base : Z) (hw : trace -> mac_hw) (phys : trace -> Z -> Z -> Z) : Prop :=
  engine_answers t p r :
    is_u 5 p -> is_u 5 r ->
    let t0 := read_start base t p r in
    let poll k := poll_trace (base := base) (rdata := mac_rdata base hw) t0 k in
    exists L, (L <= 10)%nat /\
      (forall k, (k < L)%nat ->
         mdio_ready (hw (poll k)) = false /\ response_received (hw (poll k)) = false) /\
      response_received (hw (poll L)) = true /\
      wrap 16 (mdio_read_data_r (hw (poll (S L)))) = phys t p r.

(** What [rmii_ethernet] relies on: reads of PHY registers succeed with the PHY's
    value and leave the MAC's configuration alone. *)
Class IsPhyBus (D : Device) (base : Z) (phys : trace -> Z -> Z -> Z) : Prop :=
  phy_bus_read t p r :
    is_u 5 p -> is_u 5 r ->
    exists t', run (mdio_read (mdio_comp_new base) p r true) t = (Ok (true, Some (phys t p r)), t') /\
      config base t' = config base t.

(** *** A concrete engine: the answer of [phys] after [latency] polls *)
Definition polls_since_command (base : Z) (t : trace) : nat :=
  foldl (fun k ev => match ev with
    | EvWrite a _ _ => if a =? reg_addr_of base 1 then O else k
    | EvRead _ _ => S k
    | EvSleep _ => k
    end) O t.

Definition engine_hw (base : Z) (phys : Z -> Z -> Z) (latency : nat) (t : trace) : mac_hw :=
  let answered := (latency <=? polls_since_command base t)%nat in {|
  mdio_ready := answered;
  response_received := answered;
  mdio_read_data_r := phys (phy_addr base t) (reg_addr base t);
  eth_framer_idle := true; eth_deframer_idle := true; overflowed_out := false;
  num_tx_bytes := 0; num_tx_packets := 0; num_rx_bytes := 0; num_rx_packets := 0;
  num_bad_carrier_events := 0; eth_deframer_drop_count := 0; dropped_packets_count := 0;
  mdio_send_counter := 0; mdio_receive_counter := 0; num_mac_rx_packets := 0;
  arp_pending := false; send_arp_ready := true
|}.

(** ** Lemmas *)
Lemma mdio_read_stops own c p r b : stops_on_error own (mdio_read c p r b).
Proof.
  unfold mdio_read, wait_for_op_complete.
  assert (forall m f, stops_on_error own (wait_loop c m f)) as Hl.
  { intros m. induction m as [|m IH]; intros f; cbn [wait_loop]; auto 10 with driver. }
  auto 20 with driver.
Qed.

Lemma mdio_write_stops own c p r d : stops_on_error own (mdio_write c p r d).
Proof.
  unfold mdio_write, wait_for_op_complete.
  assert (forall m f, stops_on_error own (wait_loop c m f)) as Hl.
  { intros m. induction m as [|m IH]; intros f; cbn [wait_loop]; auto 10 with driver. }
  auto 20 with driver.
Qed.
#[export] Hint Resolve mdio_read_stops mdio_write_stops : driver.

Lemma list_find_first (P : nat -> bool) k n :
  (k < n)%nat -> (forall j, (j < k)%nat -> P j = false) -> P k = true ->
  list_find (fun j => P j = true) (seq 0 n) = Some (k, k).
Proof.
  intros Hk Hj HP. apply list_find_Some. split_and!; [by apply lookup_seq|done|].
  intros j y [-> _]%lookup_seq Hlt. cbn. by rewrite Hj.
Qed.

Section OnMac.
Context {D : Device} {base : Z} {hw : trace -> mac_hw} {M : IsMac D base hw}.

Abbreviation polled := (poll_trace (base := base) (rdata := mac_rdata base hw)).
Abbreviation done_at := (poll_done (base := base) (rdata := mac_rdata base hw)).

Lemma write_not_read_poll t k : write_not_read base (polled t k) = write_not_read base t.
Proof. unfold write_not_read. by rewrite (wdata_quiet base t _ 1 (poll_trace_quiet t k)). Qed.

Lemma write_not_read_start t d : write_not_read base (t ++ [wr base 1 d]) = Z.testbit d 0.
Proof. unfold write_not_read. by rewrite wdata_wr by reg_bounds. Qed.

Lemma config_poll t k : config base (polled t k) = config base t.
Proof. apply config_quiet, poll_trace_quiet. Qed.

Lemma config_read_start t p r : config base (read_start base t p r) = config base t.
Proof. unfold read_start. by rewrite !config_wr_other by lia. Qed.

(** What each poll sees: the first one looks at the response bit, the others
    take any non-zero control word for completion. *)
Lemma done_at_spec t k :
  done_at t k =
  match k with
  | O => response_received (hw t)
  | S _ => mdio_ready (hw (polled t k)) || response_received (hw (polled t k)) || write_not_read base t
  end.
Proof.
  unfold poll_done. destruct (mdio_control_bits (base := base) (hw := hw) (polled t k)) as [H1 H2].
  destruct k as [|k].
  - by rewrite testbit_get_bit by lia.
  - by rewrite H2, negb_involutive, write_not_read_poll.
Qed.

Lemma run_mdio_read t p r b :
  run (mdio_read (mdio_comp_new base) p r b) t =
  let t0 := read_start base t p r in
  match list_find (fun j => done_at t0 j = true) (seq 0 11) with
  | Some (_, j) =>
      let u := polled t0 (S j) in
      if b then (Ok (true, Some (wrap 16 (mdio_read_data_r (hw u)))),
                 u ++ [rd base 6 (wrap 16 (mdio_read_data_r (hw u)))])
      else (Ok (true, None), u)
  | None => (Ok (false, None), polled t0 11)
  end.
Proof.
  unfold mdio_read, mdio_comp_new. drive. fold (read_start base t p r).
  rewrite (wait_run (n := C_NUM_RMII_MAC_COMP_REGISTERS)) by reg_bounds. cbn beta iota zeta.
  destruct (list_find _ _) as [[i j]|]; [|done]. destruct b; [|done]. cbn [andb].
  drive. change 0xFFFF with (Z.ones 16).
  rewrite wrap_ones, wrap_wrap by lia. change (mac_rdata _ _ _ 6) with (wrap 16 (mdio_read_data_r (hw (polled (read_start base t p r) (S j))))).
  by rewrite wrap_wrap by lia.
Qed.

Lemma run_mdio_write t p r d :
  run (mdio_write (mdio_comp_new base) p r d) t =
  let t0 := write_start base t p r d in
  match list_find (fun j => done_at t0 j = true) (seq 0 11) with
  | Some (_, j) => (Ok true, polled t0 (S j))
  | None => (Ok false, polled t0 11)
  end.
Proof.
  unfold mdio_write, mdio_comp_new. drive. fold (write_start base t p r d).
  by rewrite (wait_run (n := C_NUM_RMII_MAC_COMP_REGISTERS)) by reg_bounds.
Qed.

Lemma write_blind t p r d :
  let t0 := write_start base t p r d in
  run (mdio_write (mdio_comp_new base) p r d) t =
    (Ok true, polled t0 (if response_received (hw t0) then 1 else 2)).
Proof.
  intros t0. rewrite run_mdio_write. cbn zeta. fold t0.
  assert (Hw : write_not_read base t0 = true) by (unfold t0, write_start; by rewrite write_not_read_start).
  destruct (response_received (hw t0)) eqn:E.
  - rewrite (list_find_first _ 0); [done|lia|lia|]. by rewrite done_at_spec.
  - rewrite (list_find_first _ 1); [done|lia|..].
    + intros j Hj. assert (j = 0)%nat as -> by lia. by rewrite done_at_spec.
    + by rewrite done_at_spec, Hw, orb_true_r.
Qed.

#[export] Instance mac_phy_bus phys `{!MdioEngine base hw phys} : IsPhyBus D base phys.
Proof.
  intros t p r Hp Hr. destruct (engine_answers t p r Hp Hr) as (L & HL & Hbusy & Hresp & Hdata).
  rewrite run_mdio_read. cbn zeta.
  assert (Hwn : write_not_read base (read_start base t p r) = false)
    by (unfold read_start; by rewrite write_not_read_start).
  rewrite (list_find_first _ L).
  - rewrite Hdata. eexists. split; [done|]. by rewrite config_rd, config_poll, config_read_start.
  - lia.
  - intros j Hj. rewrite done_at_spec, Hwn. destruct (Hbusy j Hj) as [E1 E2].
    destruct j; [exact E2|]. by rewrite E1, E2.
  - rewrite done_at_spec. destruct L; [exact Hresp|]. by rewrite Hresp, orb_true_r.
Qed.
End OnMac.

Lemma polls_since_start base t p r : polls_since_command base (read_start base t p r) = O.
Proof.
  unfold polls_since_command, read_start. rewrite foldl_snoc. cbn [wr]. by rewrite Z.eqb_refl.
Qed.

Lemma polls_since_poll base rdata t k :
  polls_since_command base (poll_trace (base := base) (rdata := rdata) t k) =
  (polls_since_command base t + k)%nat.
Proof.
  induction k as [|k IH]; cbn [poll_trace]; [lia|]. rewrite app_assoc.
  unfold polls_since_command in *.
  destruct k; [rewrite app_nil_r|]; rewrite !foldl_snoc; cbn [rd]; rewrite IH; lia.
Qed.

Lemma engine_hw_engine base phys latency :
  0 <= base -> base + 25 <= 2 ^ 32 -> (latency <= 10)%nat ->
  (forall p r, is_u 16 (phys p r)) ->
  MdioEngine base (engine_hw base phys latency) (fun _ => phys).
Proof.
  intros Hb1 Hb2 HL Hphys t p r Hp Hr. cbn zeta.
  pose proof (mac_device_ok base (engine_hw base phys latency) Hb1 Hb2) as M.
  exists latency. split; [done|].
  set (hw := engine_hw base phys latency) in *.
  assert (E1 : forall u, mdio_ready (hw u) = (latency <=? polls_since_command base u)%nat) by done.
  assert (E2 : forall u, response_received (hw u) = (latency <=? polls_since_command base u)%nat) by done.
  assert (E3 : forall u, mdio_read_data_r (hw u) = phys (phy_addr base u) (reg_addr base u)) by done.
  split_and!.
  - intros k Hk. rewrite E1, E2, polls_since_poll, polls_since_start. cbn [Nat.add].
    by rewrite (proj2 (Nat.leb_gt latency k)).
  - rewrite E2, polls_since_poll, polls_since_start. by apply Nat.leb_le.
  - rewrite E3. unfold phy_addr, reg_addr. rewrite (wdata_quiet base (read_start base t p r) _ 3),
      (wdata_quiet base (read_start base t p r) _ 4) by apply poll_trace_quiet.
    unfold read_start. rewrite !(wdata_wr (D := mac_device base hw)) by reg_bounds. cbn.
    rewrite (wrap_small 5 p), (wrap_small 5 r) by done. apply wrap_small, Hphys.
Qed.

(** ** Properties *)

(** A register read, for every behaviour of the MAC hardware.  The call
    polls at most eleven times, at most twenty-six bus accesses and sleeps in
    all; if some poll shows completion it returns [true] with the data register
    of that moment, otherwise [false] without touching the caller's variable. *)
Theorem mdio_read_outcome D base hw `{!IsMac D base hw} t p r :
  let t0 := read_start base t p r in
  let polled := poll_trace (base := base) (rdata := mac_rdata base hw) t0 in
  let seen k := match k with
    | O => response_received (hw t0)
    | S _ => mdio_ready (hw (polled k)) || response_received (hw (polled k))
    end in
  exists t', (length t' <= length t + 26)%nat /\
    ((exists k, (k <= 10)%nat /\ seen k = true /\ (forall j, (j < k)%nat -> seen j = false) /\
        run (mdio_read (mdio_comp_new base) p r true) t =
          (Ok (true, Some (wrap 16 (mdio_read_data_r (hw (polled (S k)))))), t')) \/
     ((forall k, (k <= 10)%nat -> seen k = false) /\
        run (mdio_read (mdio_comp_new base) p r true) t = (Ok (false, None), t'))).
Proof.
  cbn zeta. set (t0 := read_start base t p r). rewrite run_mdio_read. cbn zeta. fold t0.
  assert (Hseen : forall k, poll_done (base := base) (rdata := mac_rdata base hw) t0 k =
    match k with
    | O => response_received (hw t0)
    | S _ => mdio_ready (hw (poll_trace (base := base) (rdata := mac_rdata base hw) t0 k))
             || response_received (hw (poll_trace (base := base) (rdata := mac_rdata base hw) t0 k))
    end).
  { intros k. rewrite done_at_spec. destruct k; [done|].
    unfold t0, read_start. by rewrite write_not_read_start, orb_false_r. }
  assert (Hlen : (length t0 = length t + 3)%nat)
    by (unfold t0, read_start; rewrite !length_app; cbn; lia).
  destruct (list_find _ _) as [[i k]|] eqn:E.
  - apply list_find_Some in E as ([-> Hk]%lookup_seq & Hd & Hbefore). rewrite Nat.add_0_l in *.
    eexists. split; [|left; exists i; split_and!; [lia|by rewrite <- Hseen| |reflexivity]].
    + rewrite length_app. cbn [length].
      pose proof (poll_trace_length (base := base) (rdata := mac_rdata base hw) t0 (S i)). lia.
    + intros j Hj. rewrite <- Hseen. apply not_true_iff_false. apply (Hbefore j); [|done].
      by apply lookup_seq; split; [|lia].
  - eexists. split; [|right; split; [|reflexivity]].
    + pose proof (poll_trace_length (base := base) (rdata := mac_rdata base hw) t0 11). lia.
    + intros k Hk. rewrite <- Hseen. apply not_true_iff_false.
      apply list_find_None in E. rewrite Forall_forall in E. apply E, elem_of_seq. lia.
Qed.

(** [mdio_write] never waits for the hardware: because a retry tests the
    whole control word and bit 0 of it reads back the write command, it reports
    success after at most two polls, whatever the MDIO master and the PHY do. *)
Theorem mdio_write_blind D base hw `{!IsMac D base hw} t p r d :
  exists t', run (mdio_write (mdio_comp_new base) p r d) t = (Ok true, t') /\
    (length t' <= length t + 8)%nat.
Proof.
  eexists. split; [apply write_blind|].
  set (t0 := write_start base t p r d).
  assert (Hlen : (length t0 = length t + 4)%nat)
    by (unfold t0, write_start; rewrite !length_app; cbn; lia).
  destruct (response_received (hw t0)); cbn [poll_trace]; rewrite !length_app; cbn [length]; lia.
Qed.

(** With an engine that answers within ten retries [mdio_read] implements the
    PHY bus: it returns the PHY's register and changes no configuration. *)
Theorem mdio_read_refines D base hw phys `{!IsMac D base hw} `{!MdioEngine base hw phys} :
  IsPhyBus D base phys.
Proof. apply (mac_phy_bus (hw := hw) phys). Qed.

(** ** Witnesses *)
Definition example_base : Z := 0x100.
Definition example_phys (p r : Z) : Z := if p =? 1 then 0x1018 else 0xFFFF.
Definition example_hw : trace -> mac_hw := engine_hw example_base example_phys 4.
#[export] Instance example_mac : IsMac (mac_device example_base example_hw) example_base example_hw.
Proof. apply mac_device_ok; unfold example_base; lia. Qed.
Lemma example_phys_u16 p r : is_u 16 (example_phys p r).
Proof. unfold example_phys, is_u. destruct (p =? 1); lia. Qed.

Lemma mdio_read_outcome_witness :
  (exists t', (length t' <= 26)%nat /\
     run (Handler0 := @trace_handler (mac_device example_base example_hw))
       (mdio_read (mdio_comp_new example_base) 1 31 true) [] = (Ok (true, Some 0x1018), t')) /\
  (run (Handler0 := @trace_handler (mac_device example_base (engine_hw example_base example_phys 11)))
     (mdio_read (mdio_comp_new example_base) 1 31 true) []).1 = Ok (false, None).
Proof.
  split; [|vm_compute; reflexivity].
  destruct (mdio_read_outcome (mac_device example_base example_hw) example_base example_hw [] 1 31)
    as (t' & Hl & [(k & Hk & Hs & Hb & Hr)|[Hn _]]).
  - exists t'. split; [exact Hl|]. rewrite Hr. f_equal. f_equal.
    assert (k = 4%nat) as ->; [|vm_compute; reflexivity].
    do 4 (destruct k as [|k]; [vm_compute in Hs; discriminate|]).
    destruct k as [|k]; [reflexivity|]. specialize (Hb 4%nat ltac:(lia)). vm_compute in Hb. discriminate.
  - specialize (Hn 4%nat ltac:(lia)). vm_compute in Hn. discriminate.
Defined.

Lemma mdio_write_blind_witness :
  exists t', run (Handler0 := @trace_handler (mac_device example_base (engine_hw example_base example_phys 1000)))
    (mdio_write (mdio_comp_new example_base) 1 0 0x1200) [] = (Ok true, t') /\ (length t' <= 8)%nat.
Proof.
  refine (mdio_write_blind (mac_device example_base (engine_hw example_base example_phys 1000)) example_base (engine_hw example_base example_phys 1000) (IsMac0 := _) [] 1 0 0x1200).
  apply mac_device_ok; unfold example_base; lia.
Defined.

Lemma mdio_read_refines_witness :
  IsPhyBus (mac_device example_base example_hw) example_base (fun _ => example_phys).
Proof.
  refine (mdio_read_refines (mac_device example_base example_hw) example_base example_hw (fun _ => example_phys) (MdioEngine0 := _)).
  apply engine_hw_engine; [unfold example_base; lia..|exact example_phys_u16].
Defined.
