(* ===== verification/MdioMaster.v ===== *)
(** * The MDIO master: [ethernet/mdio/mdio.vhd]

    The entity clock by clock, on a line with a PHY.  The PHY samples the line on rising edges of
    MDC and drives it as a function of all it has sampled.  Theorem: a
    command puts a preamble and a clause 22 frame on the line, and for a read returns the
    sixteen bits that the PHY answered. *)

From S2P Require Import Prelude.

(** ** The entity *)
Inductive mdio_state_t :=
  | S_IDLE | S_PREAMBLE | S_START_1 | S_START_2 | S_OP_1 | S_OP_2 | S_PHY_ADDRESS | S_REG_ADDRESS
  | S_TURN_AROUND_1 | S_TURN_AROUND_2 | S_WRITE_DATA | S_READ_DATA | S_DONE.

(** The latched command. *)
Record mdio_cmd := MdioCmd { op_is_write : bool; phy_address : Z; reg_address : Z; write_data : Z }.

Record mdio_regs := MdioRegs {
  cmd_r : mdio_cmd;
  op_in_progress : bool;
  op_finished_r : bool;
  op_done : bool;
  clk_div_counter : Z;
  mdc : bool;
  mdc_rising : bool;
  mdc_falling : bool;
  mdio_tristate_out : bool;
  mdio_out : bool;
  read_data_out : Z;
  load_bit_counter : option Z;
  bit_counter : Z;
  fsm_state : mdio_state_t
}.

Record mdio_in := MdioIn { reset : bool; send_msg_in : bool; cmd_in : mdio_cmd }.

(** The combinatorial process: next state, tristate, output, bit counter to load, bit of the read data
    to store. *)
Record mdio_comb := MdioComb {
  next_state : mdio_state_t;
  mdio_tristate_comb : bool;
  mdio_output_comb : bool;
  load_comb : option Z;
  read_data_en : option Z
}.

Definition mdio_fsm (q : mdio_cmd) (busy : bool) (st : mdio_state_t) (bc : Z) : mdio_comb :=
  let w := op_is_write q in
  let zero := bc =? 0 in
  match st with
  | S_IDLE => if busy then MdioComb S_PREAMBLE false true (Some 31) None else MdioComb S_IDLE false true None None
  | S_PREAMBLE => MdioComb (if zero then S_START_1 else S_PREAMBLE) false true None None
  | S_START_1 => MdioComb S_START_2 false false None None
  | S_START_2 => MdioComb S_OP_1 false true None None
  | S_OP_1 => MdioComb S_OP_2 false (negb w) None None
  | S_OP_2 => MdioComb S_PHY_ADDRESS false w (Some 4) None
  | S_PHY_ADDRESS =>
      MdioComb (if zero then S_REG_ADDRESS else S_PHY_ADDRESS) false (Z.testbit (phy_address q) bc)
        (if zero then Some 4 else None) None
  | S_REG_ADDRESS =>
      MdioComb (if zero then S_TURN_AROUND_1 else S_REG_ADDRESS) false (Z.testbit (reg_address q) bc) None None
  | S_TURN_AROUND_1 => MdioComb S_TURN_AROUND_2 (negb w) true None None
  | S_TURN_AROUND_2 => MdioComb (if w then S_WRITE_DATA else S_READ_DATA) (negb w) false (Some 15) None
  | S_WRITE_DATA => MdioComb (if zero then S_DONE else S_WRITE_DATA) false (Z.testbit (write_data q) bc) None None
  | S_READ_DATA => MdioComb (if zero then S_DONE else S_READ_DATA) true true None (Some bc)
  | S_DONE => MdioComb S_IDLE true true None None
  end.

Definition comb (s : mdio_regs) : mdio_comb := mdio_fsm (cmd_r s) (op_in_progress s) (fsm_state s) (bit_counter s).
Definition op_finished_comb (s : mdio_regs) : bool := match fsm_state s with S_DONE => true | _ => false end.
Definition ready_out (s : mdio_regs) : bool :=
  negb (op_in_progress s) && match fsm_state s with S_IDLE => true | _ => false end.
Definition mdc_out (s : mdio_regs) : bool := mdc s && op_in_progress s.

Definition store_bit (x i : Z) (b : bool) : Z := if b then Z.setbit x i else Z.clearbit x i.

Section Master.
Context (C_CLK_DIV_COUNT_N : Z).

Definition C_CLK_DIV_COUNT_HALF_N : Z := C_CLK_DIV_COUNT_N / 2.
Definition div_width : Z := log2_ceil (C_CLK_DIV_COUNT_N - 1).
Definition C_CLK_DIV_COUNT_U : Z := wrap div_width C_CLK_DIV_COUNT_N.
Definition C_CLK_DIV_COUNT_HALF_U : Z := wrap div_width C_CLK_DIV_COUNT_HALF_N.

(** A rising edge of [clk]; [pin] is [mdio_in]. *)
Definition mdio_clock (i : mdio_in) (pin : bool) (s : mdio_regs) : mdio_regs :=
  let rst := reset i in
  let start := send_msg_in i && ready_out s in
  let fin := op_finished_comb s in
  let top := clk_div_counter s =? C_CLK_DIV_COUNT_U in
  let half := clk_div_counter s =? C_CLK_DIV_COUNT_HALF_U in
  {| cmd_r := if rst then MdioCmd false 0 0 0 else if start then cmd_in i else cmd_r s;
     op_in_progress := if rst then false else if fin then false else if start then true else op_in_progress s;
     op_finished_r := fin;
     op_done := fin && negb (op_finished_r s);
     clk_div_counter := if top || rst then 0 else wrap div_width (clk_div_counter s + 1);
     mdc := if rst then false else if half then true else if top then false else mdc s;
     mdc_rising := if rst then false else half;
     mdc_falling := if rst then false else top;
     mdio_tristate_out :=
       if rst then true else if mdc_falling s then mdio_tristate_comb (comb s) else mdio_tristate_out s;
     mdio_out := if rst then false else if mdc_falling s then mdio_output_comb (comb s) else mdio_out s;
     read_data_out :=
       if rst then 0
       else if mdc_rising s
       then match read_data_en (comb s) with Some n => store_bit (read_data_out s) n pin | None => read_data_out s end
       else read_data_out s;
     load_bit_counter := if rst then None else load_comb (comb s);
     bit_counter :=
       if rst then 0
       else if mdc_rising s
       then match load_bit_counter s with Some n => n | None => wrap 5 (bit_counter s - 1) end
       else bit_counter s;
     fsm_state := if rst then S_IDLE else if mdc_rising s then next_state (comb s) else fsm_state s |}.

(** ** The line *)

(** What the PHY samples: a level, or [None] while the master does not drive. *)
Definition wire (s : mdio_regs) : option bool := if mdio_tristate_out s then None else Some (mdio_out s).

Context (phy : list (option bool) -> bool).

(** [seen] is sampled on rising edges of [mdc_out]; the PHY's level [pin] follows after one clock. *)
Record line := Line { master : mdio_regs; pin : bool; seen : list (option bool) }.

Definition line_clock (i : mdio_in) (l : line) : line :=
  let s' := mdio_clock i (pin l) (master l) in
  Line s' (phy (seen l)) (if mdc_out s' && negb (mdc_out (master l)) then seen l ++ [wire s'] else seen l).

Definition line_run (ins : list mdio_in) (l : line) : line := foldl (fun l i => line_clock i l) l ins.

(** ** One period of MDC *)
Context (HN : 4 <= C_CLK_DIV_COUNT_N) (Hfits : C_CLK_DIV_COUNT_N < 2 ^ div_width).

Abbreviation N := C_CLK_DIV_COUNT_N.
Abbreviation HALF := C_CLK_DIV_COUNT_HALF_N.

Lemma top_u : C_CLK_DIV_COUNT_U = N.
Proof. apply wrap_small. unfold is_u. lia. Qed.

Lemma half_bounds : 2 <= HALF < N.
Proof. unfold C_CLK_DIV_COUNT_HALF_N. split; [apply Z.div_le_lower_bound; lia|apply Z.div_lt_upper_bound; lia]. Qed.

Lemma half_u : C_CLK_DIV_COUNT_HALF_U = HALF.
Proof. pose proof half_bounds. apply wrap_small. unfold is_u. lia. Qed.

(** The registers at [clk_div_counter = c]. *)
Definition at_phase (q : mdio_cmd) (busy fin done : bool) (c : Z) (st : mdio_state_t) (bc : Z) (ld : option Z)
    (w : bool * bool) (rd : Z) : mdio_regs :=
  MdioRegs q busy fin done c (HALF + 1 <=? c) (c =? HALF + 1) (c =? 0) w.1 w.2 rd ld bc st.

Definition phase_next (c : Z) : Z := if c =? N then 0 else c + 1.

Definition fsm_wire (x : mdio_comb) : bool * bool := (mdio_tristate_comb x, mdio_output_comb x).
Definition wire_of (w : bool * bool) : option bool := if w.1 then None else Some w.2.

Lemma if_same {A} (b : bool) (x : A) : (if b then x else x) = x.
Proof. by destruct b. Qed.

Definition takes (i : mdio_in) (busy : bool) (st : mdio_state_t) : bool :=
  send_msg_in i && (negb busy && match st with S_IDLE => true | _ => false end).

(** One clock without a reset. *)
Lemma clock_at i p q busy fin done c st bc ld w rd :
  reset i = false -> 0 <= c <= N ->
  let x := mdio_fsm q busy st bc in
  let is_done := match st with S_DONE => true | _ => false end in
  mdio_clock i p (at_phase q busy fin done c st bc ld w rd) =
  at_phase (if takes i busy st then cmd_in i else q) ((takes i busy st || busy) && negb is_done) is_done
    (is_done && negb fin) (phase_next c)
    (if c =? HALF + 1 then next_state x else st)
    (if c =? HALF + 1 then match ld with Some n => n | None => wrap 5 (bc - 1) end else bc)
    (load_comb x)
    (if c =? 0 then fsm_wire x else w)
    (if c =? HALF + 1 then match read_data_en x with Some n => store_bit rd n p | None => rd end else rd).
Proof.
  intros Hr Hc x is_done. pose proof half_bounds. unfold mdio_clock, at_phase, comb, op_finished_comb, ready_out.
  cbn [cmd_r op_in_progress op_finished_r op_done clk_div_counter mdc mdc_rising mdc_falling mdio_tristate_out mdio_out
    read_data_out load_bit_counter bit_counter fsm_state].
  rewrite Hr, top_u, half_u. fold x. fold is_done. rewrite orb_false_r. fold (takes i busy st). unfold phase_next.
  assert (Ec : (if c =? N then 0 else wrap div_width (c + 1)) = (if c =? N then 0 else c + 1)).
  { destruct (Z.eqb_spec c N); [done|]. apply wrap_small. unfold is_u. lia. }
  rewrite Ec. f_equal.
  - by destruct is_done, (takes i busy st), busy.
  - destruct (Z.eqb_spec c HALF), (Z.eqb_spec c N), (Z.leb_spec (HALF + 1) c); lia || (symmetry; apply Z.leb_le; lia) ||
      (symmetry; apply Z.leb_gt; lia).
  - destruct (Z.eqb_spec c HALF), (Z.eqb_spec c N); symmetry; apply Z.eqb_eq || apply Z.eqb_neq; lia.
  - destruct (Z.eqb_spec c N); symmetry; apply Z.eqb_eq || apply Z.eqb_neq; lia.
  - by destruct (c =? 0).
  - by destruct (c =? 0).
Qed.

Lemma takes_not i busy st : (send_msg_in i = true -> busy = true \/ st <> S_IDLE) -> takes i busy st = false.
Proof.
  unfold takes. intros Hs. destruct (send_msg_in i); [|done]. destruct (Hs eq_refl) as [-> |Hst]; [done|].
  destruct busy, st; done.
Qed.

Definition no_reset (i : mdio_in) : Prop := reset i = false.

(** The master in the middle of a command, outside [S_DONE]. *)
Definition working (q : mdio_cmd) (c : Z) (st : mdio_state_t) (bc : Z) (ld : option Z) (w : bool * bool) (rd : Z)
    (p : bool) (h : list (option bool)) : line :=
  Line (at_phase q true false false c st bc ld w rd) p h.

Lemma line_clock_working i q c st bc ld w rd p h :
  no_reset i -> 0 <= c <= N -> st <> S_DONE ->
  let x := mdio_fsm q true st bc in
  let w' := if c =? 0 then fsm_wire x else w in
  line_clock i (working q c st bc ld w rd p h) =
  working q (phase_next c)
    (if c =? HALF + 1 then next_state x else st)
    (if c =? HALF + 1 then match ld with Some n => n | None => wrap 5 (bc - 1) end else bc)
    (load_comb x) w'
    (if c =? HALF + 1 then match read_data_en x with Some n => store_bit rd n p | None => rd end else rd)
    (phy h) (if c =? HALF then h ++ [wire_of w'] else h).
Proof.
  intros Hr Hc Hst x w'. unfold line_clock, working. cbn [master pin seen].
  rewrite (clock_at i p q true false false c st bc ld w rd Hr Hc), takes_not by auto.
  assert (match st with S_DONE => true | _ => false end = false) as -> by (by destruct st).
  cbn [andb negb]. fold x. fold w'. f_equal. unfold mdc_out, at_phase. cbn [mdc op_in_progress]. rewrite !andb_true_r.
  pose proof half_bounds. unfold phase_next.
  replace ((HALF + 1 <=? (if c =? N then 0 else c + 1)) && negb (HALF + 1 <=? c)) with (c =? HALF); [done|].
  destruct (Z.eqb_spec c HALF), (Z.eqb_spec c N), (Z.leb_spec (HALF + 1) c); try lia; cbn [negb];
    rewrite ?andb_true_r, ?andb_false_r; symmetry; (apply Z.leb_le || apply Z.leb_gt || idtac); lia || done.
Qed.

(** [m] clocks after the sampling clock. *)
Definition phase_after (m : Z) : Z := if HALF + 1 + m <=? N then HALF + 1 + m else HALF + m - N.

Definition slot_next (q : mdio_cmd) (s : mdio_state_t * Z) : mdio_state_t * Z :=
  let x := mdio_fsm q true s.1 s.2 in
  (next_state x, match load_comb x with Some n => n | None => wrap 5 (s.2 - 1) end).
Definition slot_read (q : mdio_cmd) (s : mdio_state_t * Z) (p : bool) (rd : Z) : Z :=
  match read_data_en (mdio_fsm q true s.1 s.2) with Some n => store_bit rd n p | None => rd end.
Definition slot_wire (q : mdio_cmd) (s : mdio_state_t * Z) : bool * bool := fsm_wire (mdio_fsm q true s.1 s.2).
Definition slot_load (q : mdio_cmd) (s : mdio_state_t * Z) : option Z := load_comb (mdio_fsm q true s.1 s.2).

Lemma working_prefix q s w rd p h ins :
  Forall no_reset ins -> (1 <= length ins)%nat -> Z.of_nat (length ins) <= N ->
  s.1 <> S_DONE -> (slot_next q s).1 <> S_DONE ->
  let m := Z.of_nat (length ins) in
  let s' := slot_next q s in
  line_run ins (working q (HALF + 1) s.1 s.2 (slot_load q s) w rd p h) =
  working q (phase_after m) s'.1 s'.2 (if m =? 1 then slot_load q s else slot_load q s')
    (if HALF + m <=? N then w else slot_wire q s') (slot_read q s p rd) (phy h) h.
Proof.
  pose proof half_bounds as Hh. intros Hins. induction ins as [|i ins IH] using rev_ind; intros Hne Hlen Hst Hst'; [by cbn in Hne; lia|].
  apply Forall_app in Hins as [Hins Hi]. inversion_clear Hi as [|? ? Hi' _]. rewrite length_app in *. cbn [length] in *.
  unfold line_run. rewrite foldl_app. cbn [foldl]. fold (line_run ins (working q (HALF + 1) s.1 s.2 (slot_load q s) w rd p h)).
  destruct (decide (ins = [])) as [->|Hnil].
  - cbn [line_run foldl length]. change (Z.of_nat (0 + 1) =? 1) with true. cbv iota zeta.
    rewrite line_clock_working by (done || lia). rewrite Z.eqb_refl.
    rewrite (proj2 (Z.eqb_neq (HALF + 1) 0)), (proj2 (Z.eqb_neq (HALF + 1) HALF)) by lia.
    rewrite (proj2 (Z.leb_le (HALF + Z.of_nat (0 + 1)) N)) by lia. unfold working. do 2 f_equal.
    unfold phase_next, phase_after. destruct (Z.eqb_spec (HALF + 1) N), (Z.leb_spec (HALF + 1 + Z.of_nat (0 + 1)) N); lia.
  - assert (Hpos : (1 <= length ins)%nat) by (destruct ins; [done|cbn; lia]).
    rewrite IH by (done || lia). set (m := Z.of_nat (length ins)) in *. cbv zeta.
    replace (Z.of_nat (length ins + 1)) with (m + 1) by lia.
    assert (Hp : 0 <= phase_after m <= N /\ phase_after m <> HALF + 1 /\ phase_after m <> HALF /\
                 (phase_after m = 0 <-> m = N - HALF) /\ phase_next (phase_after m) = phase_after (m + 1)).
    { unfold phase_next, phase_after. destruct (Z.leb_spec (HALF + 1 + m) N), (Z.leb_spec (HALF + 1 + (m + 1)) N);
        repeat case_match; zify; lia. }
    destruct Hp as (H1 & H2 & H3 & H4 & H5).
    rewrite line_clock_working by done. rewrite H5, (proj2 (Z.eqb_neq _ _) H2), (proj2 (Z.eqb_neq _ _) H3).
    rewrite (proj2 (Z.eqb_neq (m + 1) 1)) by lia. unfold working. do 2 f_equal.
    fold (slot_wire q (slot_next q s)).
    destruct (Z.eqb_spec (phase_after m) 0) as [E|E], (Z.leb_spec (HALF + m) N), (Z.leb_spec (HALF + (m + 1)) N); lia || done.
Qed.

(** On the clock on which the PHY has sampled slot [s]; [h] is what it had sampled before. *)
Definition slot_at (q : mdio_cmd) (s : mdio_state_t * Z) (rd : Z) (h : list (option bool)) : line :=
  working q (HALF + 1) s.1 s.2 (slot_load q s) (slot_wire q s) rd (phy h) (h ++ [wire_of (slot_wire q s)]).

Definition period : nat := Z.to_nat (N + 1).

Lemma working_period q s w rd p h ins :
  Forall no_reset ins -> length ins = period -> s.1 <> S_DONE -> (slot_next q s).1 <> S_DONE ->
  line_run ins (working q (HALF + 1) s.1 s.2 (slot_load q s) w rd p h) =
  slot_at q (slot_next q s) (slot_read q s p rd) h.
Proof.
  pose proof half_bounds as Hh. unfold period. intros Hins Hlen Hst Hst'.
  destruct ins as [|i ins _] using rev_ind; [cbn in Hlen; lia|].
  apply Forall_app in Hins as [Hins Hi]. inversion_clear Hi as [|? ? Hi' _]. rewrite length_app in Hlen. cbn [length] in Hlen.
  assert (Hm : Z.of_nat (length ins) = N) by lia.
  unfold line_run. rewrite foldl_app. cbn [foldl]. fold (line_run ins (working q (HALF + 1) s.1 s.2 (slot_load q s) w rd p h)).
  rewrite working_prefix by (done || lia). rewrite Hm. cbv zeta.
  assert (Hp : phase_after N = HALF) by (unfold phase_after; rewrite (proj2 (Z.leb_gt _ _)); lia).
  rewrite Hp, (proj2 (Z.eqb_neq N 1)), (proj2 (Z.leb_gt (HALF + N) N)) by lia.
  rewrite line_clock_working by (done || lia). rewrite Z.eqb_refl, !(proj2 (Z.eqb_neq HALF _)) by lia.
  unfold phase_next. by rewrite (proj2 (Z.eqb_neq HALF N)) by lia.
Qed.

(** [k] slots. *)
Fixpoint slots_run (q : mdio_cmd) (k : nat) (s : mdio_state_t * Z) (rd : Z) (h : list (option bool))
    : (mdio_state_t * Z) * Z * list (option bool) :=
  match k with
  | O => (s, rd, h)
  | S k' => slots_run q k' (slot_next q s) (slot_read q s (phy h) rd) (h ++ [wire_of (slot_wire q s)])
  end.

Fixpoint slots_busy (q : mdio_cmd) (k : nat) (s : mdio_state_t * Z) : Prop :=
  s.1 <> S_DONE /\ match k with O => True | S k' => slots_busy q k' (slot_next q s) end.

Lemma slots_run_line q k s rd h ins :
  Forall no_reset ins -> length ins = (k * period)%nat -> slots_busy q k s ->
  line_run ins (slot_at q s rd h) = let '(s', rd', h') := slots_run q k s rd h in slot_at q s' rd' h'.
Proof.
  revert s rd h ins. induction k as [|k IH]; intros s rd h ins Hins Hlen Hb.
  - by destruct ins.
  - destruct Hb as [Hs Hb]. cbn [slots_run].
    rewrite <- (take_drop period ins). unfold line_run. rewrite foldl_app. fold (line_run (take period ins) (slot_at q s rd h)).
    unfold slot_at at 1. rewrite working_period; [|by apply Forall_take|rewrite length_take; lia|done|by destruct k; apply Hb].
    apply IH; [by apply Forall_drop|rewrite length_drop; lia|done].
Qed.

(** Within these clocks the master works. *)
Definition is_working (q : mdio_cmd) (l : line) : Prop :=
  exists c st bc ld w rd p h, l = working q c st bc ld w rd p h /\ st <> S_DONE.

Lemma slots_run_busy q k s rd h ins :
  Forall no_reset ins -> (length ins <= k * period)%nat -> slots_busy q k s ->
  is_working q (line_run ins (slot_at q s rd h)).
Proof.
  pose proof half_bounds as Hh.
  revert s rd h ins. induction k as [|k IH]; intros s rd h ins Hins Hlen Hb.
  - destruct ins; [|cbn in Hlen; lia]. destruct Hb as [Hs _]. by repeat eexists.
  - destruct Hb as [Hs Hb]. assert (Hs' : (slot_next q s).1 <> S_DONE) by (by destruct k; apply Hb).
    destruct (decide (length ins < period)%nat) as [Hlt|Hge].
    + destruct (decide (ins = [])) as [->|Hne]; [by repeat eexists|].
      assert (1 <= length ins)%nat by (destruct ins; [done|cbn; lia]). unfold period in Hlt.
      unfold slot_at. rewrite working_prefix by (done || lia). by repeat eexists.
    + rewrite <- (take_drop period ins). unfold line_run. rewrite foldl_app. fold (line_run (take period ins) (slot_at q s rd h)).
      unfold slot_at at 1. rewrite working_period; [|by apply Forall_take|rewrite length_take; lia|done|done].
      apply IH; [by apply Forall_drop|rewrite length_drop; lia|done].
Qed.

(** ** The frame of clause 22 *)
Fixpoint bits (n : nat) (x : Z) : list (option bool) :=
  match n with O => [] | S n' => Some (Z.testbit x (Z.of_nat n')) :: bits n' x end.

Definition frame_header (q : mdio_cmd) : list (option bool) :=
  [Some false; Some true; Some (negb (op_is_write q)); Some (op_is_write q)] ++
  bits 5 (phy_address q) ++ bits 5 (reg_address q) ++
  (if op_is_write q then [Some true; Some false] else [None; None]).
Definition frame_data (q : mdio_cmd) : list (option bool) :=
  if op_is_write q then bits 16 (write_data q) else replicate 16 None.

(** The word the PHY answers: its level before each of sixteen samples after [h]. *)
Fixpoint store_bits (n : nat) (x : Z) (h : list (option bool)) : Z :=
  match n with O => x | S n' => store_bits n' (store_bit x (Z.of_nat n') (phy h)) (h ++ [None]) end.

Lemma slots_run_add q a b s rd h :
  slots_run q (a + b) s rd h = let '(s', rd', h') := slots_run q a s rd h in slots_run q b s' rd' h'.
Proof. revert s rd h. induction a as [|a IH]; intros s rd h; [done|]. cbn [Nat.add slots_run]. apply IH. Qed.

Lemma slots_busy_add q a b s :
  slots_busy q a s -> slots_busy q b (slots_run q a s 0 []).1.1 -> slots_busy q (a + b) s.
Proof.
  assert (Hs : forall k s rd h rd' h', (slots_run q k s rd h).1.1 = (slots_run q k s rd' h').1.1).
  { intros k. induction k as [|k IH]; intros; [done|]. cbn [slots_run]. apply IH. }
  revert s. induction a as [|a IH]; intros s Ha Hb; [done|]. destruct Ha as [H1 H2]. cbn [Nat.add slots_busy].
  split; [done|]. apply IH; [done|]. cbn [slots_run] in Hb. by rewrite (Hs a _ _ _ (slot_read q s (phy []) 0) ([] ++ [wire_of (slot_wire q s)])).
Qed.

Lemma run_preamble q b rd h :
  (b <= 31)%nat ->
  slots_run q b (S_PREAMBLE, Z.of_nat b) rd h = ((S_PREAMBLE, 0), rd, h ++ replicate b (Some true)) /\
  slots_busy q b (S_PREAMBLE, Z.of_nat b).
Proof.
  revert h. induction b as [|b IH]; intros h Hb; [cbn; by rewrite app_nil_r|].
  assert (En : slot_next q (S_PREAMBLE, Z.of_nat (S b)) = (S_PREAMBLE, Z.of_nat b)).
  { unfold slot_next. cbn [mdio_fsm fst snd next_state load_comb]. rewrite (proj2 (Z.eqb_neq _ 0)) by lia.
    f_equal. rewrite wrap_small; [lia|]. unfold is_u. lia. }
  cbn [slots_run slots_busy]. rewrite En. destruct (IH (h ++ [Some true])) as [E1 E2]; [lia|].
  split; [|by split]. change (wire_of _) with (Some true). change (slot_read _ _ _ _) with rd.
  rewrite E1. by rewrite <- app_assoc.
Qed.

Definition data_state (q : mdio_cmd) : mdio_state_t := if op_is_write q then S_WRITE_DATA else S_READ_DATA.

Lemma run_header q rd h :
  slots_run q 17 (S_PREAMBLE, 0) rd h = ((data_state q, 15), rd, h ++ Some true :: frame_header q) /\
  slots_busy q 17 (S_PREAMBLE, 0).
Proof.
  split.
  - destruct q as [[] p r d]; cbv -[Z.testbit app]; by rewrite <- !app_assoc.
  - destruct q as [[] p r d]; cbv -[Z.testbit]; repeat split; discriminate.
Qed.

Lemma run_data q n rd h :
  (n <= 15)%nat ->
  exists rd' h', slots_run q n (data_state q, Z.of_nat n) rd h = ((data_state q, 0), rd', h') /\
    slots_busy q n (data_state q, Z.of_nat n) /\
    h' ++ [wire_of (slot_wire q (data_state q, 0))] =
      h ++ (if op_is_write q then bits (S n) (write_data q) else replicate (S n) None) /\
    slot_read q (data_state q, 0) (phy h') rd' = (if op_is_write q then rd else store_bits (S n) rd h).
Proof.
  revert rd h. induction n as [|n IH]; intros rd h Hn.
  - exists rd, h. split; [done|]. unfold data_state. destruct q as [[] p r d]; by repeat split.
  - assert (En : slot_next q (data_state q, Z.of_nat (S n)) = (data_state q, Z.of_nat n)).
    { unfold slot_next, data_state. destruct q as [[] p r d]; cbn [op_is_write mdio_fsm fst snd next_state load_comb];
        rewrite (proj2 (Z.eqb_neq _ 0)) by lia; (f_equal; rewrite wrap_small by (unfold is_u; lia); lia). }
    cbn [slots_run slots_busy]. rewrite En.
    destruct (IH (slot_read q (data_state q, Z.of_nat (S n)) (phy h) rd)
      (h ++ [wire_of (slot_wire q (data_state q, Z.of_nat (S n)))])) as (rd' & h' & E1 & E2 & E3 & E4); [lia|].
    exists rd', h'. split; [exact E1|]. split; [split; [unfold data_state; by destruct (op_is_write q)|exact E2]|].
    rewrite E3, E4. unfold slot_read, slot_wire, data_state. destruct q as [[] p r d]; cbn [op_is_write mdio_fsm fst snd read_data_en].
    + split; [|done]. by rewrite <- app_assoc.
    + split; [|done]. by rewrite <- app_assoc.
Qed.

(** The whole command, from the first slot of the preamble to the last of the data. *)
Lemma run_command q rd h :
  exists rd' h', slots_run q 63 (S_PREAMBLE, 31) rd h = ((data_state q, 0), rd', h') /\
    slots_busy q 63 (S_PREAMBLE, 31) /\
    h' ++ [wire_of (slot_wire q (data_state q, 0))] = (h ++ replicate 32 (Some true) ++ frame_header q) ++ frame_data q /\
    slot_read q (data_state q, 0) (phy h') rd' =
      (if op_is_write q then rd else store_bits 16 rd (h ++ replicate 32 (Some true) ++ frame_header q)).
Proof.
  destruct (run_preamble q 31 rd h) as [E1 B1]; [lia|]. change (Z.of_nat 31) with 31 in *.
  destruct (run_header q rd (h ++ replicate 31 (Some true))) as [E2 B2].
  destruct (run_data q 15 rd ((h ++ replicate 31 (Some true)) ++ Some true :: frame_header q)) as (rd' & h' & E3 & B3 & E4 & E5); [lia|].
  change (Z.of_nat 15) with 15 in *.
  assert (Eh : (h ++ replicate 31 (Some true)) ++ Some true :: frame_header q = h ++ replicate 32 (Some true) ++ frame_header q).
  { by rewrite <- app_assoc. }
  rewrite Eh in *. exists rd', h'. split; [|split; [|split; [|exact E5]]].
  - change 63%nat with (31 + (17 + 15))%nat. rewrite slots_run_add, E1, slots_run_add, E2. exact E3.
  - change 63%nat with (31 + (17 + 15))%nat. apply slots_busy_add; [exact B1|].
    destruct (run_preamble q 31 0 []) as [E1' _]; [lia|]. change (Z.of_nat 31) with 31 in E1'. rewrite E1'. cbn [fst].
    apply slots_busy_add; [exact B2|]. destruct (run_header q 0 []) as [E2' _]. rewrite E2'. exact B3.
  - rewrite E4. unfold frame_data. done.
Qed.

(** ** Before and after a command *)

(** No command is under way: [S_IDLE], or the rest of [S_DONE]. *)
Definition at_rest (l : line) (st : mdio_state_t) (c rd : Z) (h : list (option bool)) : Prop :=
  (st = S_IDLE \/ st = S_DONE) /\ 0 <= c <= N /\
  exists q fin bc w p, l = Line (at_phase q false fin false c st bc None w rd) p h /\ (st = S_DONE -> fin = true).

Lemma at_rest_ready l st c rd h :
  at_rest l st c rd h -> ready_out (master l) = (match st with S_IDLE => true | _ => false end) /\
    op_done (master l) = false /\ read_data_out (master l) = rd /\ seen l = h.
Proof. intros (_ & _ & q & fin & bc & w & p & -> & _). by split. Qed.

Lemma at_rest_clock i l st c rd h :
  no_reset i -> (send_msg_in i = true -> st = S_DONE) -> at_rest l st c rd h ->
  at_rest (line_clock i l) (if c =? HALF + 1 then S_IDLE else st) (phase_next c) rd h.
Proof.
  pose proof half_bounds as Hh. intros Hr Hs ([-> | ->] & Hc & q & fin & bc & w & p & -> & Hfin);
    unfold line_clock; cbn [master pin seen]; rewrite clock_at, takes_not by (done || (intros E; specialize (Hs E); discriminate Hs || (right; discriminate))).
  - split; [left; by destruct (c =? HALF + 1)|]. split; [unfold phase_next; destruct (Z.eqb_spec c N); lia|].
    unfold mdc_out. cbn [at_phase mdc op_in_progress andb mdio_fsm next_state load_comb fsm_wire read_data_en].
    rewrite !andb_false_r. cbn [andb]. rewrite !if_same.
    by eexists _, _, _, _, _.
  - rewrite (Hfin eq_refl). split; [destruct (c =? HALF + 1); tauto|].
    split; [unfold phase_next; destruct (Z.eqb_spec c N); lia|].
    unfold mdc_out. cbn [at_phase mdc op_in_progress andb mdio_fsm next_state load_comb fsm_wire read_data_en negb].
    rewrite !andb_false_r. cbn [andb]. rewrite !if_same.
    by eexists _, _, _, _, _.
Qed.

(** A command is taken. *)
Lemma start_clock i l c rd h :
  no_reset i -> send_msg_in i = true -> at_rest l S_IDLE c rd h ->
  exists bc w p x, line_clock i l = working (cmd_in i) (phase_next c) S_IDLE bc None w rd p (h ++ x) /\ (length x <= 1)%nat.
Proof.
  pose proof half_bounds as Hh. intros Hr Hs (_ & Hc & q & fin & bc & w & p & -> & _).
  unfold line_clock, working. cbn [master pin seen].
  set (s := at_phase q false fin false c S_IDLE bc None w rd).
  assert (E : mdio_clock i p s = at_phase (cmd_in i) true false false (phase_next c) S_IDLE
    (if c =? HALF + 1 then wrap 5 (bc - 1) else bc) None (if c =? 0 then (false, true) else w) rd).
  { unfold s. rewrite clock_at by done. unfold takes. rewrite Hs. cbn [negb andb orb mdio_fsm next_state load_comb read_data_en].
    by rewrite !if_same. }
  rewrite E. change (mdc_out s) with (mdc s && false). rewrite andb_false_r. cbn [negb].
  destruct (mdc_out _); cbn [andb].
  - eexists _, _, _, [_]. split; [reflexivity|cbn; lia].
  - eexists _, _, _, []. rewrite app_nil_r. split; [reflexivity|cbn; lia].
Qed.

(** Clocks until MDC rises next. *)
Definition clocks_to_rise (c : Z) : Z := if c <=? HALF then HALF + 1 - c else N + 1 - c + (HALF + 1).

Lemma line_run_cons i ins l : line_run (i :: ins) l = line_run ins (line_clock i l).
Proof. done. Qed.

Definition idle_wire (c : Z) (w : bool * bool) : bool * bool :=
  if (1 <=? c) && (c <=? HALF) then w else (false, true).

Lemma wait_rise q ins c bc ld w rd p h :
  Forall no_reset ins -> 0 <= c <= N -> c <> HALF + 1 -> Z.of_nat (length ins) <= clocks_to_rise c ->
  is_working q (line_run ins (working q c S_IDLE bc ld w rd p h)) /\
  (Z.of_nat (length ins) = clocks_to_rise c ->
   line_run ins (working q c S_IDLE bc ld w rd p h) =
     working q (HALF + 1) S_IDLE bc (Some 31) (idle_wire c w) rd (phy h) (h ++ [wire_of (idle_wire c w)])).
Proof.
  pose proof half_bounds as Hh. intros Hins. revert c ld w p. induction Hins as [|i ins Hi Hins IH]; intros c ld w p Hc Hne Hlen.
  - cbn [length] in *. split; [by repeat eexists|]. intros E. unfold clocks_to_rise in E. destruct (Z.leb_spec c HALF); lia.
  - cbn [length] in *. rewrite line_run_cons, line_clock_working by done. rewrite (proj2 (Z.eqb_neq _ _) Hne).
    cbn [mdio_fsm load_comb]. change (fsm_wire _) with (false, true).
    destruct (Z.eqb_spec c HALF) as [->|Hch].
    + assert (clocks_to_rise HALF = 1) as El by (unfold clocks_to_rise; rewrite Z.leb_refl; lia).
      assert (ins = []) as -> by (destruct ins; [done|cbn in Hlen; lia]).
      split; [by repeat eexists|]. intros _. unfold phase_next, idle_wire. rewrite (proj2 (Z.eqb_neq HALF N)), (proj2 (Z.eqb_neq HALF 0)) by lia.
      by rewrite Z.leb_refl, (proj2 (Z.leb_le 1 HALF)) by lia.
    + assert (Hd : clocks_to_rise (phase_next c) = clocks_to_rise c - 1 /\ 0 <= phase_next c <= N /\ phase_next c <> HALF + 1 /\
        idle_wire (phase_next c) (if c =? 0 then (false, true) else w) = idle_wire c w).
      { unfold clocks_to_rise, phase_next, idle_wire.
        destruct (Z.eqb_spec c N), (Z.eqb_spec c 0), (Z.leb_spec c HALF), (Z.leb_spec (c + 1) HALF), (Z.leb_spec 1 c),
          (Z.leb_spec 1 (c + 1)), (Z.leb_spec 0 HALF), (Z.leb_spec 1 0); cbn [andb]; try lia; (split; [lia|]; split; [lia|]; split; [lia|done]). }
      destruct Hd as (Hd & H1 & H2 & H3). destruct (IH (phase_next c) (Some 31)
        (if c =? 0 then (false, true) else w) (phy h) H1 H2) as [Ha Hb]; [lia|].
      split; [exact Ha|]. intros E. rewrite Hb by lia. by rewrite H3.
Qed.

(** A command that does not start on the clock on which MDC rises, until [S_DONE]. *)
Lemma master_command i l c rd h :
  no_reset i -> send_msg_in i = true -> at_rest l S_IDLE c rd h -> c <> HALF ->
  let q := cmd_in i in
  let T := (Z.to_nat (clocks_to_rise (phase_next c)) + 64 * period)%nat in
  exists x, (length x <= 2)%nat /\
  let h' := h ++ x ++ replicate 32 (Some true) ++ frame_header q in
  forall ins, Forall no_reset ins ->
    ((length ins <= T)%nat -> is_working q (line_run ins (line_clock i l))) /\
    (length ins = S T -> exists bc ld w p, line_run ins (line_clock i l) =
       Line (at_phase q true false false (phase_next (HALF + 1)) S_DONE bc ld w
               (if op_is_write q then rd else store_bits 16 rd h')) p (h' ++ frame_data q)).
Proof.
  pose proof half_bounds as Hh. intros Hi Hs Hl Hne q T. pose proof Hl as (_ & Hc & _).
  destruct (start_clock i l c rd h Hi Hs Hl) as (bc & w & p & x1 & E1 & Hx1). fold q in E1.
  set (d := Z.to_nat (clocks_to_rise (phase_next c))) in *.
  assert (Hp : 0 <= phase_next c <= N /\ phase_next c <> HALF + 1)
    by (unfold phase_next; destruct (Z.eqb_spec c N); lia).
  assert (Hd : 0 < clocks_to_rise (phase_next c)).
  { unfold clocks_to_rise. destruct (Z.leb_spec (phase_next c) HALF); lia. }
  exists (x1 ++ [wire_of (idle_wire (phase_next c) w)]). split; [rewrite length_app; cbn; lia|]. intros h' ins Hins.
  set (h1 := (h ++ x1) ++ [wire_of (idle_wire (phase_next c) w)]).
  assert (Eh : h1 ++ replicate 32 (Some true) ++ frame_header q = h') by (unfold h1, h'; by rewrite <- !app_assoc).
  destruct (run_command q rd h1) as (rd' & hd & Er & Hbusy & Ew & Es). rewrite Eh in Ew, Es.
  assert (Hstart : forall n, (n <= d)%nat -> is_working q (line_run (take n ins) (line_clock i l))).
  { intros n Hn. rewrite E1. apply (wait_rise q (take n ins)); [by apply Forall_take|lia|lia|]. rewrite length_take. lia. }
  assert (Hrise : (d <= length ins)%nat -> line_run (take d ins) (line_clock i l) =
    working q (HALF + 1) S_IDLE bc (Some 31) (idle_wire (phase_next c) w) rd (phy (h ++ x1)) h1).
  { intros Hn. rewrite E1. apply (wait_rise q (take d ins)); [by apply Forall_take|lia|lia| |]; rewrite length_take; lia. }
  assert (Hpre : (d + period <= length ins)%nat ->
    line_run (take period (drop d ins)) (line_run (take d ins) (line_clock i l)) = slot_at q (S_PREAMBLE, 31) rd h1).
  { intros Hn. rewrite Hrise by lia.
    rewrite (working_period q (S_IDLE, bc)); [done|by apply Forall_take, Forall_drop|rewrite length_take, length_drop; lia|done|done]. }
  assert (Hsplit : forall a b, line_run (a ++ b) (line_clock i l) = line_run b (line_run a (line_clock i l))).
  { intros a b. apply foldl_app. }
  split.
  - intros Hlen. destruct (decide (length ins <= d)%nat) as [H1|H1].
    { rewrite <- (take_ge ins (length ins)) by done. by apply Hstart. }
    rewrite <- (take_drop d ins), Hsplit. destruct (decide (length ins < d + period)%nat) as [H2|H2].
    + rewrite Hrise by lia. unfold period in H2.
      rewrite (working_prefix q (S_IDLE, bc)); [by repeat eexists|by apply Forall_drop|rewrite length_drop; lia..|done|done].
    + rewrite <- (take_drop period (drop d ins)). unfold line_run at 1. rewrite foldl_app.
      fold (line_run (take period (drop d ins)) (line_run (take d ins) (line_clock i l))). rewrite Hpre by lia.
      fold (line_run (drop period (drop d ins)) (slot_at q (S_PREAMBLE, 31) rd h1)).
      apply (slots_run_busy q 63); [by apply Forall_drop, Forall_drop|rewrite !length_drop; lia|exact Hbusy].
  - intros Hlen. rewrite <- (take_drop d ins), Hsplit, <- (take_drop period (drop d ins)). unfold line_run at 1. rewrite foldl_app.
    fold (line_run (take period (drop d ins)) (line_run (take d ins) (line_clock i l))). rewrite Hpre by lia.
    set (r := drop period (drop d ins)). assert (Hr : Forall no_reset r) by (by apply Forall_drop, Forall_drop).
    assert (Hrl : length r = (63 * period + 1)%nat) by (unfold r; rewrite !length_drop; lia).
    rewrite <- (take_drop (63 * period) r), foldl_app. fold (line_run (take (63 * period) r) (slot_at q (S_PREAMBLE, 31) rd h1)).
    assert (Htl : length (take (63 * period) r) = (63 * period)%nat) by (rewrite length_take; lia).
    rewrite (slots_run_line q 63 _ _ _ _ (Forall_take _ _ _ Hr) Htl Hbusy), Er.
    assert (Hlast : length (drop (63 * period) r) = 1%nat) by (rewrite length_drop; lia).
    pose proof (Forall_drop no_reset (63 * period) r Hr) as Hi2.
    destruct (drop (63 * period) r) as [|i2 [|]]; [done| |done]. inversion_clear Hi2 as [|? ? Hi2' _]. cbn [foldl].
    clear Er Hbusy Hpre Hrise Hstart Hsplit. assert (Hds : data_state q <> S_DONE) by (unfold data_state; by destruct (op_is_write q)).
    unfold slot_at. rewrite (line_clock_working i2) by (exact Hi2' || exact Hds || lia).
    rewrite Z.eqb_refl, (proj2 (Z.eqb_neq (HALF + 1) HALF)) by lia. cbn [fst snd].
    change (match read_data_en _ with Some n => store_bit rd' n (phy hd) | None => rd' end)
      with (slot_read q (data_state q, 0) (phy hd) rd'). rewrite Es, Ew.
    assert (next_state (mdio_fsm q true (data_state q) 0) = S_DONE) as -> by (unfold data_state; by destruct (op_is_write q)).
    do 4 eexists. reflexivity.
Qed.

(** [S_DONE]: the command ends on the first clock, [op_done] is set for one. *)
Lemma done_clock i q c bc ld w rd p h :
  no_reset i -> 0 <= c <= N -> c <> HALF + 1 ->
  let l := line_clock i (Line (at_phase q true false false c S_DONE bc ld w rd) p h) in
  ready_out (master l) = false /\ op_done (master l) = true /\ read_data_out (master l) = rd /\
  forall i', no_reset i' -> exists st, at_rest (line_clock i' l) st (phase_next (phase_next c)) rd h.
Proof.
  pose proof half_bounds as Hh. intros Hi Hc Hne l.
  assert (Hc' : 0 <= phase_next c <= N) by (unfold phase_next; destruct (Z.eqb_spec c N); lia).
  assert (E : exists w', l = Line (at_phase q false true true (phase_next c) S_DONE bc None w' rd) (phy h) h).
  { unfold l, line_clock. cbn [master pin seen]. rewrite clock_at, takes_not by (done || (intros; by left)).
    rewrite (proj2 (Z.eqb_neq _ _) Hne). unfold mdc_out. cbn [at_phase op_in_progress orb negb andb]. rewrite andb_false_r. by eexists. }
  destruct E as [w' ->]. split; [done|]. split; [done|]. split; [done|]. intros i' Hi'.
  exists (if phase_next c =? HALF + 1 then S_IDLE else S_DONE).
  unfold line_clock. cbn [master pin seen]. rewrite clock_at, takes_not by (done || (intros; by right)).
  unfold mdc_out. cbn [at_phase op_in_progress orb negb andb mdio_fsm next_state load_comb read_data_en].
  rewrite !andb_false_r. cbn [andb]. rewrite !if_same. generalize dependent (phase_next c). intros c1 Hc1.
  split; [destruct (c1 =? HALF + 1); tauto|]. split; [unfold phase_next; destruct (Z.eqb_spec c1 N); lia|].
  by eexists _, _, _, _, _.
Qed.

(** At rest the master is ready again within a period. *)
Lemma rest_run ins l st c rd h :
  Forall (fun i => no_reset i /\ send_msg_in i = false) ins -> at_rest l st c rd h ->
  exists st' c', at_rest (line_run ins l) st' c' rd h /\ ((st = S_IDLE \/ (period <= length ins)%nat) -> st' = S_IDLE).
Proof.
  pose proof half_bounds as Hh. intros Hins. set (dist c := if c <=? HALF + 1 then HALF + 1 - c else N + 1 - c + (HALF + 1)).
  cut (forall l st c, at_rest l st c rd h -> exists st' c', at_rest (line_run ins l) st' c' rd h /\
    (st' = S_IDLE \/ (st <> S_IDLE /\ Z.of_nat (length ins) <= dist c))).
  { intros Hcut Hl. destruct (Hcut l st c Hl) as (st' & c' & Hl' & Hst). exists st', c'. split; [done|].
    pose proof Hl as (_ & Hc & _). unfold dist, period in *. intros [-> | Hlen]; destruct Hst as [|[Hne Hd]]; try done.
    destruct (Z.leb_spec c (HALF + 1)); lia. }
  induction Hins as [|i ins [Hi Hs] _ IH]; intros l0 st0 c0 Hl.
  - exists st0, c0. split; [done|]. pose proof Hl as ([-> | ->] & Hc & _); [by left|right]. split; [done|].
    unfold dist. cbn. destruct (Z.leb_spec c0 (HALF + 1)); lia.
  - rewrite line_run_cons. pose proof Hl as (Hst & Hc & _).
    pose proof (at_rest_clock i l0 st0 c0 rd h Hi ltac:(by rewrite Hs) Hl) as Hl1.
    destruct (IH _ _ _ Hl1) as (st' & c' & Hl' & Hst'). exists st', c'. split; [done|].
    destruct Hst' as [|[Hne Hd]]; [by left|]. right. destruct (Z.eqb_spec c0 (HALF + 1)); [done|]. split; [done|].
    cbn [length]. unfold dist, phase_next in *. destruct (Z.eqb_spec c0 N), (Z.leb_spec c0 (HALF + 1)), (Z.leb_spec (c0 + 1) (HALF + 1)),
      (Z.leb_spec 0 (HALF + 1)); lia.
Qed.

(** A reset and one clock. *)
Lemma reset_rest i i' l :
  reset i = true -> no_reset i' -> send_msg_in i' = false ->
  at_rest (line_clock i' (line_clock i l)) S_IDLE 1 0 (seen l).
Proof.
  pose proof half_bounds as Hh. intros Hi Hi' Hs. split; [by left|]. split; [lia|].
  set (s0 := MdioRegs (MdioCmd false 0 0 0) false (op_finished_comb (master l))
    (op_finished_comb (master l) && negb (op_finished_r (master l))) 0 false false false true false 0 None 0 S_IDLE).
  assert (E0 : line_clock i l = Line s0 (phy (seen l)) (seen l)).
  { unfold line_clock. assert (mdio_clock i (pin l) (master l) = s0) as ->; [|done].
    unfold mdio_clock. rewrite Hi, !orb_true_r. done. }
  assert (E1 : mdio_clock i' (phy (seen l)) s0 =
    at_phase (MdioCmd false 0 0 0) false false false 1 S_IDLE 0 None (true, false) 0).
  { unfold mdio_clock, at_phase, s0. cbn [cmd_r op_in_progress op_finished_r op_done clk_div_counter mdc mdc_rising mdc_falling
      mdio_tristate_out mdio_out read_data_out load_bit_counter bit_counter fsm_state comb op_finished_comb].
    rewrite Hi', Hs, top_u, half_u. cbn [andb orb fst snd].
    rewrite (proj2 (Z.eqb_neq 0 N)), (proj2 (Z.eqb_neq 0 HALF)), (proj2 (Z.leb_gt (HALF + 1) 1)), (proj2 (Z.eqb_neq 1 (HALF + 1))) by lia.
    change (1 =? 0) with false. cbn [orb]. f_equal. apply wrap_small. unfold is_u. lia. }
  rewrite E0. unfold line_clock. cbn [master pin seen]. rewrite E1.
  unfold mdc_out. cbn [at_phase op_in_progress]. rewrite andb_false_r. by eexists _, _, _, _, _.
Qed.
End Master.
