(* ===== verification/MdioUnit.v ===== *)
(** * The MDIO driver on the MDIO master: processes of [ethernet/rmii/rmii_mac_comp.vhd]

    The registers of the MAC that surround the master ([p_mdio_go], [p_mdio_response_latch],
    [p_mdio_receive], [p_mdio_stats]), clock by clock, with the bus accesses of
    the driver in between.  Theorems: a command finishes, with the right frame on the line; and a register read by
    [mdio_comp] returns what the PHY answers on the line. *)

From S2P Require Import Prelude Effects RegInterface RegFile MacDevice.
From S2P Require Mdio.
From S2P Require Import MdioMaster.

(** ** The registers around the master *)
Record mdio_unit := MdioUnit {
  send_msg : bool;
  response_received : bool;
  read_data : Z;
  mdio_op_done_r : bool;
  mdio_send_counter : Z;
  mdio_receive_counter : Z;
  mdio_line : line
}.

Section Unit.
Context (C_CLK_DIV_COUNT_N : Z) (phy : list (option bool) -> bool).

(** A rising edge of [clk_user]; [wen] and [rst] are [reg_wen] of the control and the reset register. *)
Definition unit_clock (rst wen : bool) (q : mdio_cmd) (s : mdio_unit) : mdio_unit :=
  let m := master (mdio_line s) in
  let starts := send_msg s && ready_out m in
  {| send_msg := if starts || rst then false else if wen then true else send_msg s;
     response_received := if send_msg s || rst then false else if op_done m then true else response_received s;
     read_data := if op_done m then read_data_out m else read_data s;
     mdio_op_done_r := op_done m;
     mdio_send_counter :=
       if rst then 0 else if starts then wrap 8 (mdio_send_counter s + 1) else mdio_send_counter s;
     mdio_receive_counter :=
       if rst then 0
       else if op_done m && negb (mdio_op_done_r s) then wrap 8 (mdio_receive_counter s + 1)
       else mdio_receive_counter s;
     mdio_line := line_clock C_CLK_DIV_COUNT_N phy (MdioIn rst (send_msg s) q) (mdio_line s) |}.

(** [n] clocks without a write. *)
Definition unit_run (n : nat) (q : mdio_cmd) (s : mdio_unit) : mdio_unit := Nat.iter n (unit_clock false false q) s.

Context (HN : 4 <= C_CLK_DIV_COUNT_N) (Hfits : C_CLK_DIV_COUNT_N < 2 ^ div_width C_CLK_DIV_COUNT_N).

Abbreviation quiet_in q := (MdioIn false false q).
Abbreviation HALF := (C_CLK_DIV_COUNT_HALF_N C_CLK_DIV_COUNT_N).
Abbreviation PERIOD := (period C_CLK_DIV_COUNT_N).
Abbreviation run_line := (line_run C_CLK_DIV_COUNT_N phy).

Lemma unit_run_S n q s : unit_run (S n) q s = unit_clock false false q (unit_run n q s).
Proof. done. Qed.

Lemma unit_run_add n n' q s : unit_run (n + n') q s = unit_run n' q (unit_run n q s).
Proof. unfold unit_run. by rewrite Nat.add_comm, Nat.iter_add. Qed.

(** While nothing is to be sent the line runs by itself. *)
Lemma unit_run_line n q s :
  send_msg s = false ->
  send_msg (unit_run n q s) = false /\ mdio_line (unit_run n q s) = run_line (replicate n (quiet_in q)) (mdio_line s).
Proof.
  intros Hs. induction n as [|n [IH1 IH2]]; [done|]. rewrite unit_run_S. unfold unit_clock. cbn [send_msg mdio_line].
  rewrite IH1, IH2. split; [done|]. rewrite replicate_S_end. unfold line_run. by rewrite foldl_app.
Qed.

Lemma unit_run_response n q s :
  send_msg s = false ->
  (forall k, (k < n)%nat -> op_done (master (run_line (replicate k (quiet_in q)) (mdio_line s))) = false) ->
  response_received (unit_run n q s) = response_received s /\ read_data (unit_run n q s) = read_data s.
Proof.
  intros Hs Hk. induction n as [|n IH]; [done|]. destruct IH as [IH1 IH2]; [intros; apply Hk; lia|].
  destruct (unit_run_line n q s Hs) as [Hs1 Hl]. rewrite unit_run_S. unfold unit_clock. cbn [response_received read_data].
  rewrite Hs1, Hl, Hk by lia. done.
Qed.

(** ** One command *)

(** No command is under way or waiting. *)
Definition settled (s : mdio_unit) (c rd : Z) (h : list (option bool)) : Prop :=
  send_msg s = false /\ at_rest C_CLK_DIV_COUNT_N (mdio_line s) S_IDLE c rd h.

Lemma is_working_busy q l : is_working C_CLK_DIV_COUNT_N q l -> ready_out (master l) = false /\ op_done (master l) = false.
Proof. by intros (c & st & bc & ld & w & rd & p & h & -> & _). Qed.

Lemma quiet_inputs q n : Forall no_reset (replicate n (quiet_in q)).
Proof. by apply Forall_replicate. Qed.

Lemma run_line_S q n l :
  run_line (replicate (S n) (quiet_in q)) l = line_clock C_CLK_DIV_COUNT_N phy (quiet_in q) (run_line (replicate n (quiet_in q)) l).
Proof. rewrite replicate_S_end. unfold line_run. by rewrite foldl_app. Qed.

Lemma run_line_add q n n' l :
  run_line (replicate (n + n') (quiet_in q)) l = run_line (replicate n' (quiet_in q)) (run_line (replicate n (quiet_in q)) l).
Proof. rewrite replicate_add. unfold line_run. by rewrite foldl_app. Qed.

Definition next_phase (c : Z) : Z := phase_next C_CLK_DIV_COUNT_N c.

(** The clocks for which a command that is written at phase [c] keeps the unit busy. *)
Definition busy_clocks (c : Z) : nat :=
  Z.to_nat (clocks_to_rise C_CLK_DIV_COUNT_N (next_phase (next_phase c))) + 64 * PERIOD + 3.

Lemma busy_clocks_bound c : 0 <= c <= C_CLK_DIV_COUNT_N -> (64 * PERIOD < busy_clocks c <= 66 * PERIOD + 3)%nat.
Proof.
  intros Hc. pose proof (half_bounds C_CLK_DIV_COUNT_N HN). unfold busy_clocks, period, clocks_to_rise.
  assert (Hp : forall x, 0 <= x <= C_CLK_DIV_COUNT_N -> 0 <= next_phase x <= C_CLK_DIV_COUNT_N).
  { intros x Hx. unfold next_phase, phase_next. destruct (Z.eqb_spec x C_CLK_DIV_COUNT_N); lia. }
  specialize (Hp _ (Hp c Hc)). destruct (Z.leb_spec (next_phase (next_phase c)) HALF); lia.
Qed.

(** The line after the clock that takes the command. *)
Lemma line_command l c rd h q :
  at_rest C_CLK_DIV_COUNT_N l S_IDLE c rd h -> c <> HALF ->
  let T := (Z.to_nat (clocks_to_rise C_CLK_DIV_COUNT_N (next_phase c)) + 64 * PERIOD)%nat in
  let l1 := line_clock C_CLK_DIV_COUNT_N phy (MdioIn false true q) l in
  let at_ k := run_line (replicate k (quiet_in q)) l1 in
  exists x, (length x <= 2)%nat /\
    let h' := h ++ x ++ replicate 32 (Some true) ++ frame_header q in
    let rd' := if op_is_write q then rd else store_bits phy 16 rd h' in
    (forall k, (k <= S T)%nat -> ready_out (master (at_ k)) = false /\ op_done (master (at_ k)) = false) /\
    (ready_out (master (at_ (S (S T)))) = false /\ op_done (master (at_ (S (S T)))) = true /\
     read_data_out (master (at_ (S (S T)))) = rd') /\
    (forall k, (S (S (S T)) <= k)%nat -> exists st c',
       at_rest C_CLK_DIV_COUNT_N (at_ k) st c' rd' (h' ++ frame_data q) /\ ((T + 3 + PERIOD <= k)%nat -> st = S_IDLE)).
Proof.
  intros Hl Hc T l1 at_. pose proof (half_bounds C_CLK_DIV_COUNT_N HN) as Hh.
  destruct (master_command C_CLK_DIV_COUNT_N phy HN Hfits (MdioIn false true q) l c rd h eq_refl eq_refl Hl Hc) as (x & Hx & Hm).
  cbn [cmd_in] in Hm. exists x. split; [done|]. intros h' rd'.
  destruct (Hm (replicate (S T) (quiet_in q)) (quiet_inputs _ _)) as [_ Hd].
  destruct Hd as (bc & ld & w & p & Ed); [by rewrite length_replicate|]. fold l1 in Ed. fold (at_ (S T)) in Ed.
  set (c1 := phase_next C_CLK_DIV_COUNT_N (HALF + 1)) in *.
  assert (Hc1 : 0 <= c1 <= C_CLK_DIV_COUNT_N /\ c1 <> HALF + 1).
  { unfold c1, phase_next. destruct (Z.eqb_spec (HALF + 1) C_CLK_DIV_COUNT_N); lia. }
  destruct Hc1 as [Hc1 Hc1'].
  destruct (done_clock C_CLK_DIV_COUNT_N phy HN Hfits (quiet_in q) q c1 bc ld w rd' p (h' ++ frame_data q) eq_refl Hc1 Hc1')
    as (R1 & R2 & R3 & Hrest).
  assert (E2 : at_ (S (S T)) = line_clock C_CLK_DIV_COUNT_N phy (quiet_in q) (at_ (S T))) by apply run_line_S.
  rewrite E2, Ed. split; [|split; [done|]].
  - intros k Hk. destruct (decide (k = S T)) as [->|Hne]; [by rewrite Ed|].
    apply (is_working_busy q). unfold at_, l1. apply Hm; [apply quiet_inputs|]. rewrite length_replicate.
    change (k <= T)%nat. lia.
  - intros k Hk. destruct (Hrest (quiet_in q) eq_refl) as [st0 H0].
    assert (E3 : at_ (S (S (S T))) = line_clock C_CLK_DIV_COUNT_N phy (quiet_in q) (at_ (S (S T)))) by apply run_line_S.
    rewrite E2, Ed in E3. fold h' rd' in E3. rewrite <- E3 in H0.
    replace k with (S (S (S T)) + (k - (T + 3)))%nat by lia. unfold at_ at 1. rewrite run_line_add. fold (at_ (S (S (S T)))).
    destruct (rest_run C_CLK_DIV_COUNT_N phy HN Hfits (replicate (k - (T + 3)) (quiet_in q)) _ _ _ _ _
      ltac:(by apply Forall_replicate) H0) as (st' & c' & Hr & Hst).
    exists st', c'. split; [exact Hr|]. intros Hge. apply Hst. right. rewrite length_replicate. lia.
Qed.

(** A write of the control register while the unit is settled. *)
Lemma unit_command q0 s c rd h q :
  settled s c rd h -> next_phase c <> HALF ->
  let s1 := unit_clock false true q0 s in
  let T := busy_clocks c in
  exists x, (length x <= 2)%nat /\
    let h' := h ++ x ++ replicate 32 (Some true) ++ frame_header q in
    let rd' := if op_is_write q then rd else store_bits phy 16 rd h' in
    (forall n, (1 <= n <= T)%nat ->
       ready_out (master (mdio_line (unit_run n q s1))) = false /\ response_received (unit_run n q s1) = false) /\
    (forall n, (T < n)%nat -> response_received (unit_run n q s1) = true /\ read_data (unit_run n q s1) = rd') /\
    (forall n, (T + PERIOD < n)%nat -> exists c', settled (unit_run n q s1) c' rd' (h' ++ frame_data q)).
Proof.
  intros [Hs Hl] Hc s1 T. pose proof (at_rest_ready _ _ _ _ _ _ Hl) as (Hrdy & Hdone & _).
  assert (Hl1 : at_rest C_CLK_DIV_COUNT_N (mdio_line s1) S_IDLE (next_phase c) rd h).
  { unfold s1, unit_clock. cbn [mdio_line]. rewrite Hs.
    pose proof (at_rest_clock C_CLK_DIV_COUNT_N phy HN Hfits (quiet_in q0) _ S_IDLE c rd h eq_refl ltac:(done) Hl) as H.
    by rewrite if_same in H. }
  assert (Hs1 : send_msg s1 = true) by (unfold s1, unit_clock; cbn [send_msg]; by rewrite Hs).
  destruct (line_command _ _ _ _ q Hl1 Hc) as (x & Hx & Hbusy & Hop & Hrest). exists x. split; [done|]. intros h' rd'.
  set (T0 := (Z.to_nat (clocks_to_rise C_CLK_DIV_COUNT_N (next_phase (next_phase c))) + 64 * PERIOD)%nat) in *.
  set (l2 := line_clock C_CLK_DIV_COUNT_N phy (MdioIn false true q) (mdio_line s1)) in *.
  set (s2 := unit_run 1 q s1).
  assert (E2 : send_msg s2 = false /\ mdio_line s2 = l2 /\ response_received s2 = false).
  { unfold s2, unit_run. cbn [Nat.iter nat_rect]. unfold unit_clock. cbn [send_msg mdio_line response_received]. rewrite Hs1.
    destruct (at_rest_ready _ _ _ _ _ _ Hl1) as (-> & _). done. }
  destruct E2 as (Hs2 & Hl2 & Hr2).
  assert (Hrun : forall n, (1 <= n)%nat -> unit_run n q s1 = unit_run (n - 1) q s2).
  { intros n Hn. unfold s2. rewrite <- unit_run_add. f_equal. lia. }
  assert (ET : T = (T0 + 3)%nat) by done.
  assert (Hline : forall k, mdio_line (unit_run k q s2) = run_line (replicate k (quiet_in q)) l2).
  { intros k. destruct (unit_run_line k q s2 Hs2) as [_ ->]. by rewrite Hl2. }
  assert (Hresp : forall k, (k <= S (S T0))%nat -> response_received (unit_run k q s2) = false).
  { intros k Hk. destruct (unit_run_response k q s2 Hs2) as [-> _]; [|done]. intros j Hj. rewrite Hl2. apply Hbusy. lia. }
  split; [|split].
  - intros n Hn. rewrite Hrun by lia. split; [|apply Hresp; lia]. rewrite Hline.
    destruct (decide (n - 1 = S (S T0))%nat) as [->|]; [apply Hop|apply Hbusy; lia].
  - intros n Hn. rewrite Hrun by lia. set (s3 := unit_run (S (S (S T0))) q s2).
    assert (E3 : send_msg s3 = false /\ response_received s3 = true /\ read_data s3 = rd').
    { split; [by apply unit_run_line|]. unfold s3. rewrite unit_run_S. unfold unit_clock. cbn [response_received read_data].
      rewrite Hline. destruct Hop as (_ & -> & ->). destruct (unit_run_line (S (S T0)) q s2 Hs2) as [-> _]. done. }
    destruct E3 as (Hs3 & Hr3 & Hd3). replace (n - 1)%nat with (S (S (S T0)) + (n - 1 - (T0 + 3)))%nat by lia.
    rewrite unit_run_add. fold s3. destruct (unit_run_response (n - 1 - (T0 + 3)) q s3 Hs3) as [-> ->]; [|done].
    intros j Hj. unfold s3. rewrite Hline, <- run_line_add. destruct (Hrest (S (S (S T0)) + j)%nat) as (st & c' & Hr & _); [lia|].
    by apply (at_rest_ready _ _ _ _ _ _ Hr).
  - intros n Hn. rewrite Hrun by lia. destruct (Hrest (n - 1)%nat) as (st & c' & Hr & Hst); [lia|].
    exists c'. split; [by apply unit_run_line|]. rewrite Hline. rewrite Hst in Hr by lia. exact Hr.
Qed.
End Unit.

(** ** The PHY's side of the contract *)

(** After a preamble and the header of a read, with [j] bits already read, the PHY holds bit [15 - j] of the register;
    what a register contains may depend on the traffic before. *)
Class IsPhy (phy : list (option bool) -> bool) (content : list (option bool) -> Z -> Z -> Z) : Prop := {
  content_range h p r : is_u 16 (content h p r);
  phy_answers h p r d j :
    is_u 5 p -> is_u 5 r -> (j < 16)%nat ->
    phy (h ++ replicate 32 (Some true) ++ frame_header (MdioCmd false p r d) ++ replicate j None) =
      Z.testbit (content h p r) (15 - Z.of_nat j)
}.

Lemma testbit_store_bit x i b n : 0 <= i -> 0 <= n -> Z.testbit (store_bit x i b) n = if n =? i then b else Z.testbit x n.
Proof.
  intros Hi Hn. unfold store_bit. destruct (Z.eqb_spec n i) as [->|Hne]; destruct b.
  - by apply Z.setbit_eq.
  - by apply Z.clearbit_eq.
  - apply Z.setbit_neq; lia.
  - apply Z.clearbit_neq; lia.
Qed.

Lemma store_bits_testbit phy n x h i :
  0 <= i -> Z.testbit (store_bits phy n x h) i =
    if i <? Z.of_nat n then phy (h ++ replicate (n - 1 - Z.to_nat i) None) else Z.testbit x i.
Proof.
  intros Hi. revert x h. induction n as [|n IH]; intros x h; cbn [store_bits].
  - by rewrite (proj2 (Z.ltb_ge i (Z.of_nat 0))) by lia.
  - rewrite IH, testbit_store_bit by lia. destruct (Z.ltb_spec i (Z.of_nat n)), (Z.ltb_spec i (Z.of_nat (S n))); try lia.
    + rewrite <- app_assoc. do 2 f_equal. change [@None bool] with (replicate 1 (@None bool)). rewrite <- replicate_add. f_equal. lia.
    + assert (i = Z.of_nat n) as -> by lia. rewrite Z.eqb_refl.
      replace (S n - 1 - Z.to_nat (Z.of_nat n))%nat with 0%nat by lia. by rewrite app_nil_r.
    + by rewrite (proj2 (Z.eqb_neq i (Z.of_nat n))) by lia.
Qed.

Lemma store_bits_word phy content `{!IsPhy phy content} h p r d x :
  is_u 5 p -> is_u 5 r ->
  wrap 16 (store_bits phy 16 x (h ++ replicate 32 (Some true) ++ frame_header (MdioCmd false p r d))) = content h p r.
Proof.
  intros Hp Hr. apply Z.bits_inj'. intros i Hi. rewrite testbit_wrap by lia. destruct (Z.ltb_spec i 16) as [Hlt|Hge]; cbn [andb].
  - rewrite store_bits_testbit by lia. rewrite (proj2 (Z.ltb_lt i (Z.of_nat 16))) by lia.
    rewrite <- !app_assoc, phy_answers by (done || lia). f_equal. lia.
  - symmetry. apply (testbit_high 16); [apply content_range|done].
Qed.

(** ** The driver *)
Section Driver.
Context (base : Z) (C_CLK_DIV_COUNT_N : Z) (phy : list (option bool) -> bool).

(** [wait t] clocks pass between the last access of [t] and the next one; [other] is the rest of the MAC. *)
Context (wait : trace -> nat) (other : trace -> mac_hw) (start : mdio_unit).

Definition cmd_at (t : trace) : mdio_cmd :=
  MdioCmd (write_not_read base t) (phy_addr base t) (reg_addr base t) (MacDevice.write_data base t).

Definition writes_to (r : Z) (e : event) : bool :=
  match e with EvWrite a _ (Ok _) => a =? reg_addr_of base r | _ => false end.

(** The access [e], the last of [t], and the clocks until the next one. *)
Definition unit_event (t : trace) (e : event) (s : mdio_unit) : mdio_unit :=
  unit_run C_CLK_DIV_COUNT_N phy (wait t) (cmd_at t)
    (unit_clock C_CLK_DIV_COUNT_N phy (writes_to 2 e) (writes_to 1 e) (cmd_at t) s).

Fixpoint unit_from (before : trace) (t : trace) (s : mdio_unit) : mdio_unit :=
  match t with
  | [] => s
  | e :: t' => unit_from (before ++ [e]) t' (unit_event (before ++ [e]) e s)
  end.
Definition unit_at (t : trace) : mdio_unit := unit_from [] t start.

Definition mdio_hw (t : trace) : mac_hw :=
  let u := unit_at t in
  let o := other t in {|
    MacDevice.mdio_ready := ready_out (master (mdio_line u));
    MacDevice.response_received := response_received u;
    mdio_read_data_r := read_data u;
    MacDevice.eth_framer_idle := eth_framer_idle o;
    MacDevice.eth_deframer_idle := eth_deframer_idle o;
    MacDevice.overflowed_out := overflowed_out o;
    MacDevice.num_tx_bytes := num_tx_bytes o;
    MacDevice.num_tx_packets := num_tx_packets o;
    MacDevice.num_rx_bytes := num_rx_bytes o;
    MacDevice.num_rx_packets := num_rx_packets o;
    MacDevice.num_bad_carrier_events := num_bad_carrier_events o;
    MacDevice.eth_deframer_drop_count := eth_deframer_drop_count o;
    MacDevice.dropped_packets_count := dropped_packets_count o;
    MacDevice.mdio_send_counter := mdio_send_counter u;
    MacDevice.mdio_receive_counter := mdio_receive_counter u;
    MacDevice.num_mac_rx_packets := num_mac_rx_packets o;
    MacDevice.arp_pending := arp_pending o;
    MacDevice.send_arp_ready := send_arp_ready o |}.

Lemma unit_from_snoc before t e s :
  unit_from before (t ++ [e]) s = unit_event (before ++ t ++ [e]) e (unit_from before t s).
Proof.
  revert before s. induction t as [|e0 t IH]; intros before s; [done|]. cbn [app unit_from].
  rewrite IH. by rewrite <- app_assoc.
Qed.

Lemma unit_at_snoc t e : unit_at (t ++ [e]) = unit_event (t ++ [e]) e (unit_at t).
Proof. apply unit_from_snoc. Qed.

Context (HN : 4 <= C_CLK_DIV_COUNT_N) (Hfits : C_CLK_DIV_COUNT_N < 2 ^ div_width C_CLK_DIV_COUNT_N).
Abbreviation PERIOD := (period C_CLK_DIV_COUNT_N).
Abbreviation HALF := (C_CLK_DIV_COUNT_HALF_N C_CLK_DIV_COUNT_N).

(** A bus access takes longer than a period of MDC, a pause of the driver longer than a command. *)
Context (Hwait : forall t, (PERIOD < wait t)%nat) (Hsleep : forall t, (67 * PERIOD <= wait (t ++ [EvSleep 5000]))%nat).

Lemma settled_run n q s c rd h :
  settled C_CLK_DIV_COUNT_N s c rd h -> exists c', settled C_CLK_DIV_COUNT_N (unit_run C_CLK_DIV_COUNT_N phy n q s) c' rd h.
Proof.
  intros [Hs Hl]. destruct (unit_run_line C_CLK_DIV_COUNT_N phy n q s Hs) as [H1 H2].
  destruct (rest_run C_CLK_DIV_COUNT_N phy HN Hfits (replicate n (MdioIn false false q)) _ _ _ _ _ ltac:(by apply Forall_replicate) Hl)
    as (st & c' & Hr & Hst).
  exists c'. split; [done|]. rewrite H2. rewrite Hst in Hr by auto. exact Hr.
Qed.

(** An access that does not touch the control and reset registers. *)
Lemma settled_event t e c rd h :
  writes_to 1 e = false -> writes_to 2 e = false -> settled C_CLK_DIV_COUNT_N (unit_at t) c rd h ->
  exists c', settled C_CLK_DIV_COUNT_N (unit_at (t ++ [e])) c' rd h.
Proof.
  intros H1 H2 Hs. rewrite unit_at_snoc. unfold unit_event. rewrite H1, H2.
  change (unit_clock _ _ false false ?q ?s) with (unit_run C_CLK_DIV_COUNT_N phy 1 q s).
  destruct (settled_run 1 (cmd_at (t ++ [e])) _ _ _ _ Hs) as [c1 Hs1]. by apply (settled_run _ _ _ c1).
Qed.

(** Accesses that do not write let the unit run on. *)
Lemma cmd_at_quiet t u : steps quiet t u -> cmd_at u = cmd_at t.
Proof.
  intros H. unfold cmd_at, write_not_read, phy_addr, reg_addr, MacDevice.write_data. by rewrite !(wdata_quiet base t u _ H).
Qed.

Lemma unit_at_quiet_event t e :
  quiet t e -> unit_at (t ++ [e]) = unit_run C_CLK_DIV_COUNT_N phy (S (wait (t ++ [e]))) (cmd_at t) (unit_at t).
Proof.
  intros He. rewrite unit_at_snoc. unfold unit_event. rewrite (cmd_at_quiet t) by (by apply steps_one).
  assert (forall r, writes_to r e = false) as Hw by (by destruct e). rewrite !Hw.
  change (S (wait (t ++ [e]))) with (1 + wait (t ++ [e]))%nat. by rewrite unit_run_add.
Qed.

Lemma unit_at_quiet t u :
  steps quiet t u -> exists n, unit_at u = unit_run C_CLK_DIV_COUNT_N phy n (cmd_at t) (unit_at t).
Proof.
  induction 1 as [t|t u e H IH He]; [by exists 0%nat|]. destruct (IH) as [n E].
  rewrite unit_at_quiet_event, (cmd_at_quiet t u H), E by done. rewrite <- unit_run_add. by eexists.
Qed.

Context {D : Device} `{!IsMac D base mdio_hw}.

Lemma writes_to_wr r r' d : 0 <= r < 25 -> 0 <= r' < 25 -> writes_to r (wr base r' d) = (r' =? r).
Proof.
  intros Hr Hr'. unfold writes_to, wr. rewrite !(reg_addr_of_small (n := C_NUM_RMII_MAC_COMP_REGISTERS)) by reg_bounds.
  zcases; done || lia.
Qed.

Abbreviation polled := (Mdio.poll_trace (base := base) (rdata := mac_rdata base mdio_hw)).
Abbreviation done_at := (Mdio.poll_done (base := base) (rdata := mac_rdata base mdio_hw)).

Lemma polled_next t k : exists n, unit_at (polled t (S k)) =
  unit_run C_CLK_DIV_COUNT_N phy n (cmd_at t) (unit_at (polled t k)).
Proof.
  rewrite <- (cmd_at_quiet t (polled t k)) by apply Mdio.poll_trace_quiet. apply unit_at_quiet.
  cbn [Mdio.poll_trace]. destruct k; [by apply steps_one|]. rewrite app_assoc. apply steps_snoc; [by apply steps_one|done].
Qed.

Lemma polled_pause t : exists n, (67 * PERIOD <= n)%nat /\
  unit_at (polled t 2) = unit_run C_CLK_DIV_COUNT_N phy n (cmd_at t) (unit_at (polled t 1)).
Proof.
  rewrite <- (cmd_at_quiet t (polled t 1)) by apply Mdio.poll_trace_quiet.
  change (polled t 2) with (polled t 1 ++ [rd base 1 (mac_rdata base mdio_hw (polled t 1) 1)] ++ [EvSleep 5000]).
  rewrite app_assoc, unit_at_quiet_event by done.
  rewrite (cmd_at_quiet (polled t 1)) by (by apply steps_one). rewrite unit_at_quiet_event by done.
  rewrite <- unit_run_add. eexists. split; [|done]. pose proof (Hsleep (polled t 1 ++ [rd base 1 (mac_rdata base mdio_hw (polled t 1) 1)])). lia.
Qed.

(** The bus writes of a read: the command is on its way. *)
Lemma read_started t c rd h p r :
  is_u 5 p -> is_u 5 r -> settled C_CLK_DIV_COUNT_N (unit_at t) c rd h ->
  let t2 := (t ++ [wr base 3 p]) ++ [wr base 4 r] in
  let t0 := Mdio.read_start base t p r in
  exists c2 d, settled C_CLK_DIV_COUNT_N (unit_at t2) c2 rd h /\ cmd_at t0 = MdioCmd false p r d /\
    unit_at t0 = unit_run C_CLK_DIV_COUNT_N phy (wait t0) (cmd_at t0)
      (unit_clock C_CLK_DIV_COUNT_N phy false true (cmd_at t0) (unit_at t2)).
Proof.
  intros Hp Hr Hs t2 t0.
  destruct (settled_event t (wr base 3 p) c rd h) as [c1 Hs1]; [by rewrite writes_to_wr by lia..|done|].
  destruct (settled_event _ (wr base 4 r) c1 rd h ltac:(by rewrite writes_to_wr by lia) ltac:(by rewrite writes_to_wr by lia) Hs1) as [c2 Hs2].
  exists c2, (MacDevice.write_data base t0). split; [done|]. split.
  - unfold cmd_at, t0, Mdio.read_start, write_not_read, phy_addr, reg_addr. rewrite !wdata_wr by reg_bounds. cbn.
    by rewrite (wrap_small 5 p), (wrap_small 5 r).
  - unfold t0 at 1, Mdio.read_start. rewrite unit_at_snoc. unfold unit_event. by rewrite !writes_to_wr by lia.
Qed.

Lemma hw_ready u : MacDevice.mdio_ready (mdio_hw u) = ready_out (master (mdio_line (unit_at u))).
Proof. done. Qed.
Lemma hw_response u : MacDevice.response_received (mdio_hw u) = response_received (unit_at u).
Proof. done. Qed.
Lemma hw_data u : mdio_read_data_r (mdio_hw u) = read_data (unit_at u).
Proof. done. Qed.

(** The clocks that have passed when each poll begins. *)
Lemma polled_clocks t0 q s1 :
  cmd_at t0 = q -> unit_at t0 = unit_run C_CLK_DIV_COUNT_N phy (wait t0) q s1 ->
  exists clocks : nat -> nat, (1 <= clocks 0)%nat /\ (67 * PERIOD <= clocks 2)%nat /\ (forall k, (clocks k <= clocks (S k))%nat) /\
    forall k, (k <= 3)%nat -> unit_at (polled t0 k) = unit_run C_CLK_DIV_COUNT_N phy (clocks k) q s1.
Proof.
  intros Eq E0. destruct (polled_next t0 0) as [m1 E1]. destruct (polled_pause t0) as (m2 & Hm2 & E2). destruct (polled_next t0 2) as [m3 E3].
  change (polled t0 0) with t0 in E1. rewrite Eq in E1, E2, E3. rewrite E0, <- unit_run_add in E1.
  rewrite E1, <- unit_run_add in E2. rewrite E2, <- unit_run_add in E3. pose proof (Hwait t0) as Hn0.
  exists (fun k => match k with O => wait t0 | 1 => wait t0 + m1 | 2 => wait t0 + m1 + m2 | _ => wait t0 + m1 + m2 + m3 end)%nat.
  split; [lia|]. split; [lia|]. split; [intros [|[|[|k]]]; lia|].
  intros [|[|[|[|k]]]] Hk; [exact E0|exact E1|exact E2|exact E3|lia].
Qed.

(** The first poll of three that sees the end of the command. *)
Lemma first_done T (clocks : nat -> nat) :
  (T < clocks 2)%nat -> exists L, (L <= 2)%nat /\ (T < clocks L)%nat /\ forall j, (j < L)%nat -> (clocks j <= T)%nat.
Proof.
  intros H2. destruct (decide (T < clocks 0)%nat); [exists 0%nat; repeat split; lia|].
  destruct (decide (T < clocks 1)%nat); [exists 1%nat|exists 2%nat]; (split; [lia|]; split; [done|]);
    intros [|[|]] Hj; lia.
Qed.

(** A poll tells whether the command has ended. *)
Lemma done_at_clocks T t0 q s1 k n :
  cmd_at t0 = q -> op_is_write q = false -> (1 <= n)%nat ->
  (forall n, (1 <= n <= T)%nat -> ready_out (master (mdio_line (unit_run C_CLK_DIV_COUNT_N phy n q s1))) = false /\
     response_received (unit_run C_CLK_DIV_COUNT_N phy n q s1) = false) ->
  (forall n, (T < n)%nat -> response_received (unit_run C_CLK_DIV_COUNT_N phy n q s1) = true) ->
  unit_at (polled t0 k) = unit_run C_CLK_DIV_COUNT_N phy n q s1 -> done_at t0 k = negb (n <=? T)%nat.
Proof.
  intros Eq Hq Hn Hbusy Hend Ek. rewrite Mdio.done_at_spec.
  assert (Hw : write_not_read base t0 = false) by (change (write_not_read base t0) with (op_is_write (cmd_at t0)); by rewrite Eq).
  rewrite Hw, orb_false_r, !hw_response, hw_ready. destruct (Nat.leb_spec n T) as [Hle|Hgt]; cbn [negb].
  - destruct (Hbusy n) as [R1 R2]; [lia|]. destruct k; [by change (polled t0 0) with t0 in Ek; rewrite Ek|]. by rewrite Ek, R1, R2.
  - specialize (Hend n Hgt). destruct k; [by change (polled t0 0) with t0 in Ek; rewrite Ek|]. by rewrite Ek, Hend, orb_true_r.
Qed.

(** A clock on which MDC does not rise. *)
Lemma phase_away u c rd h :
  settled C_CLK_DIV_COUNT_N (unit_at u) c rd h -> clk_div_counter (master (mdio_line (unit_at u))) <> HALF - 1 ->
  0 <= c <= C_CLK_DIV_COUNT_N /\ next_phase C_CLK_DIV_COUNT_N c <> HALF.
Proof.
  intros Hs Hne. pose proof (half_bounds C_CLK_DIV_COUNT_N HN) as Hh.
  assert (Hc : clk_div_counter (master (mdio_line (unit_at u))) = c) by (by destruct Hs as (_ & _ & _ & q' & fin & bc & w & pp & -> & _)).
  assert (Hr : 0 <= c <= C_CLK_DIV_COUNT_N) by apply Hs. split; [done|].
  unfold next_phase, phase_next. destruct (Z.eqb_spec c C_CLK_DIV_COUNT_N); lia.
Qed.

(** C13. A register read of [mdio_comp] on the MDIO master and a PHY on its line, with bus
    accesses longer than a period of MDC and pauses longer than a command: when no command is
    under way and the control write does not meet the clock on which MDC rises, [mdio_read] returns true and the
    content of the PHY's register; the line has then carried a preamble of 32 ones and the frame of the read, and the
    master is ready for the next command. *)
Theorem mdio_read_on_line content `{!IsPhy phy content} t c old h p r :
  is_u 5 p -> is_u 5 r -> settled C_CLK_DIV_COUNT_N (unit_at t) c old h ->
  clk_div_counter (master (mdio_line (unit_at ((t ++ [wr base 3 p]) ++ [wr base 4 r])))) <> HALF - 1 ->
  exists x t' c' old' d, (length x <= 2)%nat /\
    run (Mdio.mdio_read (Mdio.mdio_comp_new base) p r true) t = (Ok (true, Some (content (h ++ x) p r)), t') /\
    config base t' = config base t /\
    settled C_CLK_DIV_COUNT_N (unit_at t') c' old'
      ((h ++ x ++ replicate 32 (Some true) ++ frame_header (MdioCmd false p r d)) ++ replicate 16 None).
Proof.
  intros Hp Hr Hs Hphase. destruct (read_started t c old h p r Hp Hr Hs) as (c2 & d & Hs2 & Eq & E0).
  set (t2 := (t ++ [wr base 3 p]) ++ [wr base 4 r]) in *. set (t0 := Mdio.read_start base t p r) in *.
  destruct (phase_away t2 c2 old h Hs2 Hphase) as [Hc2 Hne]. rewrite Eq in E0. set (q := MdioCmd false p r d) in *.
  destruct (unit_command C_CLK_DIV_COUNT_N phy HN Hfits q (unit_at t2) c2 old h q Hs2 Hne) as (x & Hx & Hbusy & Hend & Hset).
  pose proof (busy_clocks_bound C_CLK_DIV_COUNT_N HN c2 Hc2) as HT. set (T := busy_clocks C_CLK_DIV_COUNT_N c2) in *.
  set (s1 := unit_clock C_CLK_DIV_COUNT_N phy false true q (unit_at t2)) in *.
  cbn [op_is_write q] in Hend, Hset. set (h' := h ++ x ++ replicate 32 (Some true) ++ frame_header q) in *.
  destruct (polled_clocks t0 q s1 Eq E0) as (clocks & H1 & H67 & Hmono & Ek).
  assert (HP : (5 <= PERIOD)%nat) by (unfold period; lia).
  destruct (first_done T clocks) as (L & HL & HLT & HLj); [lia|].
  assert (Hdone : forall k, (k <= 2)%nat -> done_at t0 k = negb (clocks k <=? T)%nat).
  { intros k Hk. apply (done_at_clocks T t0 q s1); [done|done| |done| |apply Ek; lia].
    - pose proof (Hmono 0%nat). pose proof (Hmono 1%nat). destruct k as [|[|[|]]]; lia.
    - intros n Hn. apply (Hend n Hn). }
  pose proof (Hmono L) as HnL. pose proof (Ek (S L) ltac:(lia)) as En. destruct (Hend (clocks (S L)) ltac:(lia)) as [_ Hdata].
  set (v := wrap 16 (mdio_read_data_r (mdio_hw (polled t0 (S L))))).
  assert (Ev : v = content (h ++ x) p r).
  { unfold v. rewrite hw_data, En, Hdata. unfold h'. rewrite (app_assoc h x). by apply store_bits_word. }
  set (t' := polled t0 (S L) ++ [rd base 6 v]).
  assert (Eu : unit_at t' = unit_run C_CLK_DIV_COUNT_N phy (clocks (S L) + S (wait t')) q s1).
  { unfold t' at 1. rewrite unit_at_quiet_event by done. rewrite (cmd_at_quiet t0) by apply Mdio.poll_trace_quiet.
    by rewrite Eq, En, <- unit_run_add. }
  destruct (Hset (clocks (S L) + S (wait t'))%nat) as [c' Hset']; [pose proof (Hwait t'); lia|].
  exists x, t', c', (store_bits phy 16 old h'), d. split; [done|]. rewrite Eu. split; [|split; [|exact Hset']].
  - rewrite Mdio.run_mdio_read. cbn zeta. fold t0. rewrite (Mdio.list_find_first _ L) by first [lia
      | intros j Hj; rewrite Hdone by lia; by rewrite (proj2 (Nat.leb_le _ _) (HLj j Hj))
      | rewrite Hdone by lia; by rewrite (proj2 (Nat.leb_gt _ _) HLT)].
    fold v. unfold t'. by rewrite Ev.
  - unfold t'. rewrite config_rd, Mdio.config_poll. apply Mdio.config_read_start.
Qed.

End Driver.

(** ** Reset *)
Lemma reset_settled N phy q q' wen s :
  4 <= N -> N < 2 ^ div_width N ->
  settled N (unit_clock N phy false false q (unit_clock N phy true wen q' s)) 1 0 (seen (mdio_line s)).
Proof.
  intros HN Hfits. split; [unfold unit_clock; cbn [send_msg]; by rewrite orb_true_r|].
  unfold unit_clock. cbn [mdio_line send_msg]. rewrite orb_true_r. by apply reset_rest.
Qed.

(** ** Witnesses and example *)

(** A PHY that finds the address of a read just before the turn-around. *)
Fixpoint undriven (h : list (option bool)) : nat := match h with None :: h' => S (undriven h') | _ => O end.
Fixpoint number (n : nat) (h : list (option bool)) : Z :=
  match n with
  | O => 0
  | S n' => match h with b :: h' => Z.b2z (default false b) + 2 * number n' h' | [] => 0 end
  end.
Definition demo_phy (content : Z -> Z -> Z) (h : list (option bool)) : bool :=
  let back := rev h in
  let u := undriven back in
  let fields := drop u back in
  Z.testbit (content (number 5 (drop 5 fields)) (number 5 fields)) (15 - (Z.of_nat u - 2)).

Lemma undriven_app n h : match h with None :: _ => False | _ => True end -> undriven (replicate n None ++ h) = n.
Proof. intros Hh. induction n as [|n IH]; cbn; [by destruct h as [|[]]|by rewrite IH]. Qed.

Lemma number_bits5 x h : is_u 5 x -> number 5 (rev (bits 5 x) ++ h) = x.
Proof.
  intros Hx. assert (Hk : forall k, (k < 32)%nat -> number 5 (rev (bits 5 (Z.of_nat k)) ++ h) = Z.of_nat k).
  { intros k Hk. do 32 (destruct k as [|k]; [reflexivity|]). lia. }
  unfold is_u in Hx. specialize (Hk (Z.to_nat x)). rewrite Z2Nat.id in Hk by lia. apply Hk. lia.
Qed.

Lemma demo_phy_ok content : (forall p r, is_u 16 (content p r)) -> IsPhy (demo_phy content) (fun _ => content).
Proof.
  intros Hc. split; [intros; apply Hc|]. intros h p r d j Hp Hr Hj. unfold demo_phy, frame_header.
  cbn [op_is_write phy_address reg_address].
  set (front := h ++ replicate 32 (Some true) ++ [Some false; Some true; Some (negb false); Some false]).
  assert (E : rev (h ++ replicate 32 (Some true) ++ ([Some false; Some true; Some (negb false); Some false] ++ bits 5 p ++ bits 5 r ++ [None; None]) ++ replicate j None)
    = replicate (2 + j) None ++ rev (bits 5 r) ++ rev (bits 5 p) ++ rev front).
  { unfold front. change [None; None] with (replicate 2 (@None bool)).
    rewrite <- (rev_involutive (replicate (2 + j) None)), <- !rev_app_distr. f_equal.
    assert (Hrev : forall n, rev (replicate n (@None bool)) = replicate n None).
    { intros n. induction n as [|n IH]; [done|]. rewrite replicate_S_end, rev_app_distr, IH. by rewrite <- replicate_S_end. }
    rewrite Hrev, replicate_add. by rewrite <- !app_assoc. }
  rewrite E. rewrite undriven_app by done.
  rewrite drop_app_length' by (by rewrite length_replicate).
  rewrite (drop_app_length' (rev (bits 5 r))) by done. rewrite !number_bits5 by done. f_equal. lia.
Qed.

Definition demo_content (p r : Z) : Z := wrap 16 (0x1234 + 32 * p + r).
Definition demo_wait (t : trace) : nat := match rev t with EvSleep _ :: _ => 469 | _ => 8 end.
Definition demo_other (t : trace) : mac_hw := Mdio.engine_hw 0x40 demo_content 0 t.
Definition demo_unit : mdio_unit :=
  unit_clock 6 (demo_phy demo_content) false false (MdioCmd false 0 0 0)
    (unit_clock 6 (demo_phy demo_content) true false (MdioCmd false 0 0 0)
      (MdioUnit false false 0 false 0 0
        (Line (MdioRegs (MdioCmd false 0 0 0) false false false 0 false false false true false 0 None 0 S_IDLE) false []))).

Abbreviation demo_hw := (mdio_hw 0x40 6 (demo_phy demo_content) demo_wait demo_other demo_unit).

Lemma demo_content_range p r : is_u 16 (demo_content p r).
Proof. by apply wrap_range. Qed.

Lemma demo_wait_access t : (period 6 < demo_wait t)%nat.
Proof. unfold demo_wait. change (period 6) with 7%nat. destruct (rev t) as [|[]]; lia. Qed.

Lemma demo_wait_pause t : (67 * period 6 <= demo_wait (t ++ [EvSleep 5000]))%nat.
Proof. unfold demo_wait. rewrite rev_app_distr. change (period 6) with 7%nat. cbn [rev app]. lia. Qed.

Lemma demo_settled : settled 6 (unit_at 0x40 6 (demo_phy demo_content) demo_wait demo_unit []) 1 0 [].
Proof. by apply reset_settled. Qed.

Lemma mdio_read_on_line_witness :
  exists t', run (Handler0 := @trace_handler (mac_device 0x40 demo_hw))
    (Mdio.mdio_read (Mdio.mdio_comp_new 0x40) 5 17 true) [] = (Ok (true, Some 0x12e5), t').
Proof.
  pose proof (mac_device_ok 0x40 demo_hw ltac:(by vm_compute) ltac:(by vm_compute)) as M.
  pose proof (demo_phy_ok demo_content demo_content_range) as P.
  destruct (mdio_read_on_line (D := mac_device 0x40 demo_hw) 0x40 6 (demo_phy demo_content) demo_wait demo_other demo_unit ltac:(by vm_compute) ltac:(by vm_compute)
    demo_wait_access demo_wait_pause (fun _ => demo_content) [] 1 0 [] 5 17
    ltac:(unfold is_u; lia) ltac:(unfold is_u; lia) demo_settled)
    as (x & t' & c' & rd' & d & _ & E & _).
  - vm_compute. discriminate.
  - exists t'. exact E.
Defined.


(** A command written on the clock before MDC rises: the preamble's length is not loaded, and the line carries
    what the idle bit counter held, here two ones, before the start of the frame. *)
Example late_command_short_preamble :
  let q := MdioCmd false 5 17 0 in
  let phy := demo_phy demo_content in
  let s := unit_run 6 phy 218 q demo_unit in
  let s' := unit_run 6 phy 600 q (unit_clock 6 phy false true q s) in
  clk_div_counter (master (mdio_line s)) = C_CLK_DIV_COUNT_HALF_N 6 - 1 /\
  seen (mdio_line s') = [Some true; Some true] ++ frame_header q ++ replicate 16 None.
Proof. vm_compute. done. Qed.
