(* ===== verification/RmiiMac.v ===== *)
(** * MAC driver: [example/cpp/rmii_mac_comp.hpp] and [.cpp]

    The register driver of the RMII MAC.  Its setters are proved to refine
    updates of an abstract configuration ([mac_config] of MacDevice.v). *)

From S2P Require Import Prelude Effects Utils RegInterface RegFile MacDevice Mdio.

Definition rmii_mac_component_id : Z := 102.
Definition reg_num_mdio_reset : Z := 2.
Definition reg_num_eth_control : Z := 7.
Definition reg_num_src_mac_upper : Z := 8.
Definition reg_num_src_mac_lower : Z := 9.
Definition reg_num_dst_mac_upper : Z := 10.
Definition reg_num_dst_mac_lower : Z := 11.
Definition reg_num_src_ip : Z := 12.
Definition reg_num_send_arp : Z := 13.
Definition reg_num_tx_bytes : Z := 14.
Definition reg_num_tx_packets : Z := 15.
Definition reg_num_rx_bytes : Z := 16.
Definition reg_num_rx_packets : Z := 17.
Definition reg_num_rx_eth_drops : Z := 19.
#[export] Hint Unfold reg_num_mdio_reset reg_num_eth_control reg_num_src_mac_upper
  reg_num_src_mac_lower reg_num_dst_mac_upper reg_num_dst_mac_lower reg_num_src_ip
  reg_num_send_arp reg_num_tx_bytes reg_num_tx_packets reg_num_rx_bytes reg_num_rx_packets
  reg_num_rx_eth_drops : regs.

Record rmii_mac_comp := RmiiMacComp { mac_regs_of : reg_comp; _mdio : reg_comp }.

(** The members of an object at [offset]; the constructor probes the first. *)
Definition rmii_mac_at (offset : Z) : rmii_mac_comp :=
  RmiiMacComp (RegComp offset rmii_mac_component_id) (mdio_comp_new offset).

Definition rmii_mac_comp_new (offset : Z) : io busE rmii_mac_comp :=
  let this := rmii_mac_at offset in
  ok ← probe (mac_regs_of this);
  if negb ok then io_throw "Failed to probe RMII MAC comp" else mret this.

Definition is_idle (reg : Z) (rx tx : bool) : bool :=
  (negb rx || get_bit reg 3) && (negb tx || get_bit reg 1).

Fixpoint idle_loop (c : reg_comp) (rx tx : bool) (retries : nat) (idle : bool) : io busE bool :=
  match retries with
  | O => mret idle
  | S retries' =>
      if idle then mret idle
      else
        _ ← bus_sleep 100;
        reg ← reg_read c reg_num_eth_control;
        idle_loop c rx tx retries' (is_idle reg rx tx)
  end.

Definition wait_for_idle (m : rmii_mac_comp) (rx tx : bool) : io busE bool :=
  reg ← reg_read (mac_regs_of m) reg_num_eth_control;
  idle_loop (mac_regs_of m) rx tx 10 (is_idle reg rx tx).

Definition reset (m : rmii_mac_comp) : io busE unit :=
  reg_write (mac_regs_of m) reg_num_mdio_reset 1.

Definition get_rx_enable (m : rmii_mac_comp) : io busE bool :=
  reg ← reg_read (mac_regs_of m) reg_num_eth_control; mret (get_bit reg 2).
Definition get_tx_enable (m : rmii_mac_comp) : io busE bool :=
  reg ← reg_read (mac_regs_of m) reg_num_eth_control; mret (get_bit reg 0).

Definition set_rx_enable (m : rmii_mac_comp) (enable : bool) : io busE unit :=
  reg ← reg_read (mac_regs_of m) reg_num_eth_control;
  reg_write (mac_regs_of m) reg_num_eth_control
    (if enable then set_bit reg 2 else clear_bit reg 2).
Definition set_tx_enable (m : rmii_mac_comp) (enable : bool) : io busE unit :=
  reg ← reg_read (mac_regs_of m) reg_num_eth_control;
  reg_write (mac_regs_of m) reg_num_eth_control
    (if enable then set_bit reg 0 else clear_bit reg 0).

(** [mac] points at (at least) six bytes. *)
Definition set_destination_mac (m : rmii_mac_comp) (mac : list Z) : io busE unit :=
  let lower := le_load (take 4 mac) in
  _ ← reg_write (mac_regs_of m) reg_num_dst_mac_lower lower;
  let upper := le_load (take 2 (drop 4 mac)) in
  reg_write (mac_regs_of m) reg_num_dst_mac_upper upper.
Definition set_source_mac (m : rmii_mac_comp) (mac : list Z) : io busE unit :=
  let lower := le_load (take 4 mac) in
  _ ← reg_write (mac_regs_of m) reg_num_src_mac_lower lower;
  let upper := le_load (take 2 (drop 4 mac)) in
  reg_write (mac_regs_of m) reg_num_src_mac_upper upper.
Definition set_source_ip (m : rmii_mac_comp) (src_ip : Z) : io busE unit :=
  reg_write (mac_regs_of m) reg_num_src_ip src_ip.
Definition send_arp (m : rmii_mac_comp) : io busE unit :=
  reg_write (mac_regs_of m) reg_num_send_arp 1.

Definition get_num_bytes_transmitted (m : rmii_mac_comp) : io busE Z :=
  reg_read (mac_regs_of m) reg_num_tx_bytes.
Definition get_num_packets_transmitted (m : rmii_mac_comp) : io busE Z :=
  reg_read (mac_regs_of m) reg_num_tx_packets.
Definition get_num_bytes_received (m : rmii_mac_comp) : io busE Z :=
  reg_read (mac_regs_of m) reg_num_rx_bytes.
Definition get_num_packets_received (m : rmii_mac_comp) : io busE Z :=
  reg_read (mac_regs_of m) reg_num_rx_packets.
(** The register is [reg_num_rx_eth_drops], as in the code. *)
Definition get_num_fcs_fails (m : rmii_mac_comp) : io busE Z :=
  v ← reg_read (mac_regs_of m) reg_num_rx_eth_drops; mret (u16 v).
Definition get_num_eth_drops (m : rmii_mac_comp) : io busE Z :=
  v ← reg_read (mac_regs_of m) reg_num_rx_eth_drops; mret (u16 v).

(** ** Abstract operations *)
Inductive mac_op :=
  | SetRxEnable (b : bool)
  | SetTxEnable (b : bool)
  | SetSourceMac (mac : list Z)
  | SetDestinationMac (mac : list Z)
  | SetSourceIp (ip : Z)
  | Reset
  | SendArp
  | WaitForIdle (rx tx : bool)
  | MdioRead (phy reg : Z)
  | MdioWrite (phy reg data : Z).

Definition op_prog (m : rmii_mac_comp) (op : mac_op) : io busE unit :=
  match op with
  | SetRxEnable b => set_rx_enable m b
  | SetTxEnable b => set_tx_enable m b
  | SetSourceMac mac => set_source_mac m mac
  | SetDestinationMac mac => set_destination_mac m mac
  | SetSourceIp ip => set_source_ip m ip
  | Reset => reset m
  | SendArp => send_arp m
  | WaitForIdle rx tx => _ ← wait_for_idle m rx tx; mret tt
  | MdioRead p r => _ ← mdio_read (_mdio m) p r true; mret tt
  | MdioWrite p r d => _ ← mdio_write (_mdio m) p r d; mret tt
  end.

Definition op_spec (op : mac_op) (c : mac_config) : mac_config :=
  match op with
  | SetRxEnable b => cfg_with_rx b c
  | SetTxEnable b => cfg_with_tx b c
  | SetSourceMac mac => cfg_with_source_mac (le_load mac) c
  | SetDestinationMac mac => cfg_with_destination_mac (le_load mac) c
  | SetSourceIp ip => cfg_with_source_ip ip c
  | _ => c
  end.

(** A MAC address argument is six bytes. *)
Definition op_ok (op : mac_op) : Prop :=
  match op with
  | SetSourceMac mac | SetDestinationMac mac => length mac = 6%nat /\ Forall (is_u 8) mac
  | _ => True
  end.

Fixpoint run_ops (m : rmii_mac_comp) (ops : list mac_op) : io busE unit :=
  match ops with
  | [] => mret tt
  | op :: ops' => _ ← op_prog m op; run_ops m ops'
  end.

(** ** Lemmas *)
Lemma idle_loop_stops own c rx tx n b : stops_on_error own (idle_loop c rx tx n b).
Proof.
  revert b. induction n as [|n IH]; intros b; cbn [idle_loop]; auto 10 with driver.
Qed.
#[export] Hint Resolve idle_loop_stops : driver.

Section OnMac.
Context {D : Device} {base : Z} {hw : trace -> mac_hw} {M : IsMac D base hw}.
Abbreviation this := (rmii_mac_at base).

(** The control bits a driver writes back. *)
Lemma eth_control_update t d f :
  (forall i, 0 <= i -> Z.testbit d i = f i (Z.testbit (mac_rdata base hw t 7) i)) ->
  config base ((t ++ [rd base 7 (mac_rdata base hw t 7)]) ++ [wr base 7 d]) =
  cfg_with_tx (f 0 (cfg_tx (config base t))) (cfg_with_rx (f 2 (cfg_rx (config base t))) (config base t)).
Proof.
  intros Hf. rewrite config_wr_7, config_rd, !Hf by lia.
  destruct (testbit_eth_control (base := base) (hw := hw) t) as (_ & -> & _ & -> & _). done.
Qed.

Lemma run_set_rx t e :
  exists t', run (set_rx_enable this e) t = (Ok tt, t') /\
    config base t' = cfg_with_rx e (config base t) /\ steps (writes_in base [7]) t t'.
Proof.
  destruct (testbit_eth_control (base := base) (hw := hw) t) as [Hu _].
  unfold set_rx_enable, rmii_mac_at; cbn [mac_regs_of]. drive. eexists. split_and!; [done| |].
  2: { eapply steps_trans; [apply steps_rd|apply steps_wr; by left]. }
  rewrite (eth_control_update t _ (fun i b => if i =? 2 then e else b)); [done|].
  intros i Hi. destruct e; [rewrite testbit_set_bit by lia|rewrite testbit_clear_bit by (done || lia)];
    by zcases.
Qed.

Lemma run_set_tx t e :
  exists t', run (set_tx_enable this e) t = (Ok tt, t') /\
    config base t' = cfg_with_tx e (config base t) /\ steps (writes_in base [7]) t t'.
Proof.
  destruct (testbit_eth_control (base := base) (hw := hw) t) as [Hu _].
  unfold set_tx_enable, rmii_mac_at; cbn [mac_regs_of]. drive. eexists. split_and!; [done| |].
  2: { eapply steps_trans; [apply steps_rd|apply steps_wr; by left]. }
  rewrite (eth_control_update t _ (fun i b => if i =? 0 then e else b)); [done|].
  intros i Hi. destruct e; [rewrite testbit_set_bit by lia|rewrite testbit_clear_bit by (done || lia)];
    by zcases.
Qed.

Lemma mac_split mac :
  length mac = 6%nat -> Forall (is_u 8) mac ->
  wrap 32 (le_load (take 4 mac)) + 2 ^ 32 * wrap 16 (le_load (take 2 (drop 4 mac))) = le_load mac.
Proof.
  intros Hl Hb. rewrite !wrap_small.
  - rewrite (take_ge (drop 4 mac) 2) by (rewrite length_drop; lia).
    rewrite <- (take_drop 4 mac) at 3. rewrite le_load_app, length_take, Hl. done.
  - eapply is_u_mono; [apply le_load_range; by apply Forall_take, Forall_drop|].
    rewrite length_take, length_drop. lia.
  - eapply is_u_mono; [apply le_load_range; by apply Forall_take|]. rewrite length_take. lia.
Qed.

Lemma run_set_source_mac t mac :
  length mac = 6%nat -> Forall (is_u 8) mac ->
  exists t', run (set_source_mac this mac) t = (Ok tt, t') /\
    config base t' = cfg_with_source_mac (le_load mac) (config base t).
Proof.
  intros Hl Hb. unfold set_source_mac, rmii_mac_at; cbn [mac_regs_of]. drive.
  eexists. split; [done|].
  unfold config, eth_framer_enable, eth_deframer_enable, source_mac, destination_mac,
    src_ip_address, cfg_with_source_mac.
  rewrite !wdata_wr by reg_bounds. cbn. by rewrite mac_split.
Qed.

Lemma run_set_destination_mac t mac :
  length mac = 6%nat -> Forall (is_u 8) mac ->
  exists t', run (set_destination_mac this mac) t = (Ok tt, t') /\
    config base t' = cfg_with_destination_mac (le_load mac) (config base t).
Proof.
  intros Hl Hb. unfold set_destination_mac, rmii_mac_at; cbn [mac_regs_of]. drive.
  eexists. split; [done|].
  unfold config, eth_framer_enable, eth_deframer_enable, source_mac, destination_mac,
    src_ip_address, cfg_with_destination_mac.
  rewrite !wdata_wr by reg_bounds. cbn. by rewrite mac_split.
Qed.

Lemma run_set_source_ip t ip :
  exists t', run (set_source_ip this ip) t = (Ok tt, t') /\
    config base t' = cfg_with_source_ip ip (config base t).
Proof.
  unfold set_source_ip, rmii_mac_at; cbn [mac_regs_of]. drive. eexists. split; [done|].
  unfold config, eth_framer_enable, eth_deframer_enable, source_mac, destination_mac,
    src_ip_address, cfg_with_source_ip.
  by rewrite !wdata_wr by reg_bounds.
Qed.

Lemma run_get_tx t :
  exists t', run (get_tx_enable this) t = (Ok (cfg_tx (config base t)), t') /\
    config base t' = config base t /\ steps quiet t t'.
Proof.
  destruct (testbit_eth_control (base := base) (hw := hw) t) as (_ & E & _).
  unfold get_tx_enable, rmii_mac_at; cbn [mac_regs_of]. drive. eexists.
  rewrite testbit_get_bit, E by lia.
  split_and!; [done|apply config_rd|by apply steps_one].
Qed.

Lemma run_get_rx t :
  exists t', run (get_rx_enable this) t = (Ok (cfg_rx (config base t)), t') /\
    config base t' = config base t /\ steps quiet t t'.
Proof.
  destruct (testbit_eth_control (base := base) (hw := hw) t) as (_ & _ & _ & E & _).
  unfold get_rx_enable, rmii_mac_at; cbn [mac_regs_of]. drive. eexists.
  rewrite testbit_get_bit, E by lia.
  split_and!; [done|apply config_rd|by apply steps_one].
Qed.

(** *** Polling for idle *)

(** What [wait_for_idle] waits for, and an unsuccessful step of the wait. *)
Definition mac_idle (rx tx : bool) (t : trace) : bool :=
  (negb rx || eth_deframer_idle (hw t)) && (negb tx || eth_framer_idle (hw t)).
Definition idle_miss (rx tx : bool) (t : trace) (ev : event) : Prop :=
  match ev with
  | EvRead _ _ => mac_idle rx tx t = false
  | EvWrite _ _ _ => False
  | EvSleep us => us = 100
  end.

Lemma is_idle_mac t rx tx : is_idle (mac_rdata base hw t 7) rx tx = mac_idle rx tx t.
Proof.
  destruct (testbit_eth_control (base := base) (hw := hw) t) as (_ & _ & E1 & _ & E3).
  unfold is_idle, mac_idle. by rewrite !testbit_get_bit, E1, E3 by lia.
Qed.

Lemma idle_loop_run rx tx n id t (u := t ++ [rd base 7 (mac_rdata base hw t 7)]) :
  exists b t',
    run (idle_loop (RegComp base id) rx tx n (mac_idle rx tx t)) u = (Ok b, t') /\
    (if b then exists t1, steps (idle_miss rx tx) t t1 /\ mac_idle rx tx t1 = true /\
                 t' = t1 ++ [rd base 7 (mac_rdata base hw t1 7)] /\
                 (length t' <= length u + 2 * n)%nat
     else steps (idle_miss rx tx) t t' /\ length t' = (length u + 2 * n)%nat).
Proof.
  subst u. revert t. induction n as [|n IH]; intros t.
  - exists (mac_idle rx tx t). eexists. split; [done|]. destruct (mac_idle rx tx t) eqn:E.
    + exists t. split_and!; [constructor|done|done|lia].
    + split; [by apply steps_one|lia].
  - cbn [idle_loop]. destruct (mac_idle rx tx t) eqn:E.
    + exists true. eexists. split; [done|]. exists t. split_and!; [constructor|done|done|lia].
    + drive. rewrite is_idle_mac.
      set (t2 := (t ++ [rd base 7 (mac_rdata base hw t 7)]) ++ [EvSleep 100]).
      assert (Hs : steps (idle_miss rx tx) t t2) by (do 2 (apply steps_snoc; [|done]); constructor).
      assert (Hl : (length t2 = length t + 2)%nat) by (unfold t2; rewrite !length_app; cbn; lia).
      destruct (IH t2) as (b & t' & Hr & Hb). exists b, t'. split; [exact Hr|].
      revert Hb. rewrite !length_app. cbn [length]. destruct b.
      * intros (t1 & ? & ? & ? & ?). exists t1. split_and!; [by apply steps_trans with t2|done..|lia].
      * intros [? ?]. split; [by apply steps_trans with t2|lia].
Qed.

Lemma run_wait_for_idle rx tx t :
  exists b t', run (wait_for_idle this rx tx) t = (Ok b, t') /\
    (if b then exists t1, steps (idle_miss rx tx) t t1 /\ mac_idle rx tx t1 = true /\
                 t' = t1 ++ [rd base 7 (mac_rdata base hw t1 7)] /\
                 (length t' <= length t + 21)%nat
     else steps (idle_miss rx tx) t t' /\ length t' = (length t + 21)%nat).
Proof.
  unfold wait_for_idle, rmii_mac_at; cbn [mac_regs_of]. drive. rewrite is_idle_mac.
  destruct (idle_loop_run rx tx 10 rmii_mac_component_id t) as (b & t' & Hr & Hb).
  exists b, t'. split; [exact Hr|]. revert Hb. rewrite length_app. cbn [length].
  destruct b; [|by intros [? ?]; split; [|lia]].
  intros (t1 & ? & ? & ? & ?). exists t1. split_and!; [done..|lia].
Qed.

Lemma idle_miss_quiet rx tx t t' : steps (idle_miss rx tx) t t' -> steps quiet t t'.
Proof. apply steps_mono. by intros u []. Qed.

Lemma run_wait_config rx tx t :
  exists b t', run (wait_for_idle this rx tx) t = (Ok b, t') /\
    config base t' = config base t /\ steps quiet t t'.
Proof.
  destruct (run_wait_for_idle rx tx t) as (b & t' & Hr & Hb). exists b, t'.
  assert (Hq : steps quiet t t').
  { destruct b.
    - destruct Hb as (t1 & H1 & _ & -> & _). apply steps_snoc; [|done].
      eapply idle_miss_quiet, H1.
    - eapply idle_miss_quiet, Hb. }
  split_and!; [done|by apply config_quiet|done].
Qed.
End OnMac.

Section Ops.
Context {D : Device} {base : Z} {hw : trace -> mac_hw} {M : IsMac D base hw}.

Lemma mdio_read_config p r b t :
  exists x t', run (mdio_read (mdio_comp_new base) p r b) t = (Ok x, t') /\
    config base t' = config base t.
Proof.
  rewrite run_mdio_read. cbn zeta.
  destruct (list_find _ _) as [[i j]|]; [destruct b|];
    eexists _, _; (split; [reflexivity|]);
    by rewrite ?config_rd, ?config_poll, ?config_read_start.
Qed.

Lemma mdio_write_config p r d t :
  exists t', run (mdio_write (mdio_comp_new base) p r d) t = (Ok true, t') /\
    config base t' = config base t.
Proof.
  eexists. split; [apply write_blind|]. rewrite config_poll. unfold write_start.
  by rewrite !config_wr_other by lia.
Qed.

Lemma run_op op t :
  op_ok op ->
  exists t', run (op_prog (rmii_mac_at base) op) t = (Ok tt, t') /\
    config base t' = op_spec op (config base t).
Proof.
  destruct op as [b|b|mac|mac|ip| | |rx tx|p r|p r d]; cbn [op_prog op_spec op_ok].
  - intros _. destruct (run_set_rx (base := base) t b) as (t' & ? & ? & _). by exists t'.
  - intros _. destruct (run_set_tx (base := base) t b) as (t' & ? & ? & _). by exists t'.
  - intros [? ?]. by apply run_set_source_mac.
  - intros [? ?]. by apply run_set_destination_mac.
  - intros _. apply run_set_source_ip.
  - intros _. unfold reset, rmii_mac_at; cbn [mac_regs_of]. drive. eexists. split; [done|].
    by rewrite config_wr_other by lia.
  - intros _. unfold send_arp, rmii_mac_at; cbn [mac_regs_of]. drive. eexists. split; [done|].
    by rewrite config_wr_other by lia.
  - intros _. destruct (run_wait_config (base := base) rx tx t) as (b & t' & Hr & Hc & _).
    exists t'. split; [|done]. by rewrite run_bind, Hr.
  - intros _. destruct (mdio_read_config p r true t) as (x & t' & Hr & Hc).
    exists t'. split; [|done]. cbn [rmii_mac_at _mdio]. by rewrite run_bind, Hr.
  - intros _. destruct (mdio_write_config p r d t) as (t' & Hr & Hc).
    exists t'. split; [|done]. cbn [rmii_mac_at _mdio]. by rewrite run_bind, Hr.
Qed.
End Ops.

(** ** Properties *)

(** C29. The driver refines the abstract configuration: any sequence of calls
    succeeds on a MAC and leaves enables, MAC addresses and source address as
    the corresponding sequence of abstract updates does, whatever the hardware
    shows meanwhile.  In particular the read-modify-write of the control
    register disturbs neither enable bit, and a six-byte address reaches the two
    address registers in little-endian order. *)
Theorem mac_ops_refine D base hw `{!IsMac D base hw} ops t :
  Forall op_ok ops ->
  exists t', run (run_ops (rmii_mac_at base) ops) t = (Ok tt, t') /\
    config base t' = foldl (fun c op => op_spec op c) (config base t) ops.
Proof.
  intros H. revert t. induction H as [|op ops Hop Hops IH]; intros t; cbn [run_ops foldl].
  - by exists t.
  - destruct (run_op (base := base) op t Hop) as (t1 & Hr & Hc).
    destruct (IH t1) as (t' & Hr' & Hc'). exists t'.
    by rewrite run_bind, Hr, <- Hc.
Qed.

(** [wait_for_idle] terminates after at most eleven polls.  It returns [true]
    at the first poll that finds every requested direction idle, and [false] only
    after eleven polls none of which did; it writes nothing. *)
Theorem wait_for_idle_spec D base hw `{!IsMac D base hw} rx tx t :
  exists b t', run (wait_for_idle (rmii_mac_at base) rx tx) t = (Ok b, t') /\
    (if b then exists t1, steps (idle_miss (hw := hw) rx tx) t t1 /\
                 mac_idle (hw := hw) rx tx t1 = true /\
                 t' = t1 ++ [rd base 7 (mac_rdata base hw t1 7)] /\
                 (length t' <= length t + 21)%nat
     else steps (idle_miss (hw := hw) rx tx) t t' /\ length t' = (length t + 21)%nat).
Proof. apply run_wait_for_idle. Qed.

(** The counters: each getter returns the counter it names, except
    [get_num_fcs_fails], which returns the drop counter again and never the
    hardware's count of FCS failures. *)
Theorem mac_counters D base hw `{!IsMac D base hw} t :
  let get (p : io busE Z) := (run p t).1 in
  let this := rmii_mac_at base in
  get (get_num_bytes_transmitted this) = Ok (wrap 32 (num_tx_bytes (hw t))) /\
  get (get_num_packets_transmitted this) = Ok (wrap 32 (num_tx_packets (hw t))) /\
  get (get_num_bytes_received this) = Ok (wrap 32 (num_rx_bytes (hw t))) /\
  get (get_num_packets_received this) = Ok (wrap 32 (num_rx_packets (hw t))) /\
  get (get_num_eth_drops this) = Ok (wrap 16 (eth_deframer_drop_count (hw t))) /\
  get (get_num_fcs_fails this) = Ok (wrap 16 (eth_deframer_drop_count (hw t))) /\
  (get (get_num_fcs_fails this) = Ok (wrap 16 (dropped_packets_count (hw t))) <->
     wrap 16 (dropped_packets_count (hw t)) = wrap 16 (eth_deframer_drop_count (hw t))).
Proof.
  cbn zeta. unfold get_num_bytes_transmitted, get_num_packets_transmitted,
    get_num_bytes_received, get_num_packets_received, get_num_eth_drops, get_num_fcs_fails,
    rmii_mac_at; cbn [mac_regs_of].
  drive. cbn [fst mac_rdata]. rewrite !wrap_wrap by lia.
  split_and!; try done. split; [by intros [= ->]|by intros ->].
Qed.

(** The constructor, on every bus: it makes one read, and yields an object
    exactly when that read returns the MAC's identity. *)
Theorem rmii_mac_comp_new_outcome (D : Device) offset t :
  run (rmii_mac_comp_new offset) t =
    let a := u32 (offset + 0) in
    let r := dev_read t a in
    (match r with
     | Ok id => if id =? 102 then Ok (rmii_mac_at offset) else throw "Failed to probe RMII MAC comp"
     | Err e => Err e
     end, t ++ [EvRead a r]).
Proof.
  unfold rmii_mac_comp_new, probe, reg_read, bus_read, rmii_mac_at; cbn [mac_regs_of _offset _comp_id].
  rewrite !run_bind, run_call. cbn [handle trace_handler].
  destruct (dev_read t _) as [id|e]; [|done]. rewrite run_ret. cbn beta iota.
  unfold rmii_mac_component_id. by destruct (id =? 102).
Qed.

(** ** Witnesses *)
Lemma mac_ops_refine_witness :
  exists t', run (Handler0 := @trace_handler (mac_device example_base example_hw))
    (run_ops (rmii_mac_at example_base)
       [SetTxEnable true; SetSourceMac [0xe9; 0xd6; 0x85; 0x0c; 0x47; 0x5a]; MdioRead 1 31; SetRxEnable true])
    [] = (Ok tt, t') /\
    config example_base t' = MacConfig true true 0x5a470c85d6e9 0 0.
Proof.
  destruct (mac_ops_refine (mac_device example_base example_hw) example_base example_hw
       [SetTxEnable true; SetSourceMac [0xe9; 0xd6; 0x85; 0x0c; 0x47; 0x5a]; MdioRead 1 31; SetRxEnable true] [])
    as (t' & Hr & Hc).
  - repeat constructor; unfold is_u; lia.
  - exists t'. split; [exact Hr|]. rewrite Hc. vm_compute. reflexivity.
Defined.

Lemma wait_for_idle_spec_witness :
  exists b t', run (Handler0 := @trace_handler (mac_device example_base example_hw))
    (wait_for_idle (rmii_mac_at example_base) true true) [] = (Ok b, t') /\ b = true.
Proof.
  destruct (wait_for_idle_spec (mac_device example_base example_hw) example_base example_hw true true [])
    as (b & t' & Hr & Hb).
  exists b, t'. split; [exact Hr|]. destruct b; [reflexivity|].
  pose proof (f_equal fst Hr) as E. vm_compute in E. discriminate.
Defined.

Lemma mac_counters_witness :
  (run (Handler0 := @trace_handler (mac_device example_base example_hw))
     (get_num_fcs_fails (rmii_mac_at example_base)) []).1 = Ok 0.
Proof.
  destruct (mac_counters (mac_device example_base example_hw) example_base example_hw [])
    as (_ & _ & _ & _ & _ & E & _). exact E.
Defined.
