(* ===== verification/RmiiEthernet.v ===== *)
(** * Interface bring-up: [example/cpp/rmii_ethernet.hpp] and [.cpp]

    The class that owns the MAC driver and the PHY's address: initialisation,
    auto-negotiation, address changes and the status record.  Two hosts of
    loops: [find_phy_address] is a bounded scan; the wait of
    [phy_autonegotiate] is unbounded in the code (its retry count never
    changes) and takes fuel. *)

From S2P Require Import Prelude Effects Utils Lan8720 RegInterface RegFile MacDevice Mdio RmiiMac.

Record rmii_ethernet := RmiiEthernet { _mac : rmii_mac_comp; _phy_address : Z }.
Definition with_phy_address (a : Z) (e : rmii_ethernet) : rmii_ethernet :=
  RmiiEthernet (_mac e) a.

Record status_t := Status {
  bytes_sent : Z;
  packets_sent : Z;
  bytes_received : Z;
  packets_received : Z;
  fcs_fails : Z;
  ethernet_packets_dropped : Z;
  link_speed : speed_t;
  link_up : bool
}.
Definition status_0 : status_t := Status 0 0 0 0 0 0 UNKNOWN false.

Abbreviation ethM := (objM busE rmii_ethernet).

Definition rmii_ethernet_new (offset : Z) : io busE rmii_ethernet :=
  mac ← rmii_mac_comp_new offset; mret (RmiiEthernet mac 0).

(** A call on the MAC member. *)
Definition on_mac {A} (f : rmii_mac_comp -> io busE A) : ethM A :=
  this ← (obj_get : ethM _); obj_io (f (_mac this)).

(** [mdio_read] into a local [read_data]; a completed read has stored it. *)
Definition read_phy (phy_addr reg_addr : Z) : ethM (option Z) :=
  '(ok, data) ← on_mac (fun mac => mdio_read (_mdio mac) phy_addr reg_addr true);
  mret (if (ok : bool) then data else None).

(** [for (i = ...; i < 31; ++i)]; [n] iterations are left. *)
Fixpoint find_phy_loop (n : nat) (i : Z) : ethM bool :=
  match n with
  | O => mret false
  | S n' =>
      read_data ← read_phy i 0;
      match read_data with
      | None => mret false
      | Some read_data =>
          if negb (read_data =? 0xFFFF) then
            _ ← obj_modify (with_phy_address i); mret true
          else find_phy_loop n' (i + 1)
      end
  end.
Definition find_phy_address : ethM bool := find_phy_loop 31 0.

Definition is_autonegotiation_complete : ethM bool :=
  this ← (obj_get : ethM _);
  read_data ← read_phy (_phy_address this) SPECIAL_STATUS_REG_NUM;
  match read_data with
  | None => mret false
  | Some read_data => mret (auto_negotiation_done (special_status_of_u16 read_data))
  end.

(** [while ((retries > 0) && !is_autonegotiation_complete())]: the body only
    sleeps, [retries] keeps its value. *)
Fixpoint autonegotiate_loop (fuel : nat) (retries : Z) : ethM unit :=
  match fuel with
  | O => obj_fail OutOfFuel
  | S fuel' =>
      if 0 <? retries then
        complete ← is_autonegotiation_complete;
        if (complete : bool) then mret tt
        else
          _ ← obj_io (bus_sleep 100000);
          autonegotiate_loop fuel' retries
      else mret tt
  end.

Definition restart_negotiation_word : Z :=
  let write_val := basic_control_of_u16 0 in
  to_u16 (BasicControl (soft_reset write_val) (loopback write_val) (speed_select write_val)
            true (power_down write_val) (isolate write_val) true (duplex_mode write_val)).

Definition phy_autonegotiate (fuel : nat) : ethM bool :=
  complete ← is_autonegotiation_complete;
  if (complete : bool) then mret true
  else
    this ← (obj_get : ethM _);
    ok ← on_mac (fun mac =>
           mdio_write (_mdio mac) (_phy_address this) BASIC_CONTROL_REG_NUM restart_negotiation_word);
    if negb ok then mret false
    else
      _ ← autonegotiate_loop fuel 5;
      is_autonegotiation_complete.

Definition init (fuel : nat) (auto_negotiate : bool) : ethM bool :=
  _ ← on_mac (fun mac => set_rx_enable mac false);
  _ ← on_mac (fun mac => set_tx_enable mac false);
  _ ← on_mac reset;
  _ ← on_mac (fun mac => set_rx_enable mac true);
  _ ← on_mac (fun mac => set_tx_enable mac true);
  _ ← on_mac (fun mac => wait_for_idle mac true true);
  found ← find_phy_address;
  if negb found then mret false
  else if auto_negotiate then
    negotiated ← phy_autonegotiate fuel;
    if negb negotiated then mret false else mret true
  else mret true.

Definition send_arp : ethM unit := on_mac RmiiMac.send_arp.

Definition set_source_mac (addr : list Z) : ethM unit :=
  was_tx_enabled ← on_mac get_tx_enable;
  was_rx_enabled ← on_mac get_tx_enable;
  _ ← on_mac (fun mac => set_rx_enable mac false);
  _ ← on_mac (fun mac => set_tx_enable mac false);
  _ ← on_mac (fun mac => wait_for_idle mac was_rx_enabled was_tx_enabled);
  _ ← on_mac (fun mac => RmiiMac.set_source_mac mac addr);
  _ ← on_mac (fun mac => set_tx_enable mac was_tx_enabled);
  on_mac (fun mac => set_rx_enable mac was_rx_enabled).

Definition set_destination_mac (addr : list Z) : ethM unit :=
  was_enabled ← on_mac get_tx_enable;
  _ ← (if (was_enabled : bool) then
         _ ← on_mac (fun mac => set_tx_enable mac false);
         _ ← on_mac (fun mac => wait_for_idle mac false true);
         mret tt
       else mret tt);
  _ ← on_mac (fun mac => RmiiMac.set_destination_mac mac addr);
  if (was_enabled : bool) then on_mac (fun mac => set_tx_enable mac true) else mret tt.

Definition set_source_ip (ip : Z) : ethM unit := on_mac (fun mac => RmiiMac.set_source_ip mac ip).

(** Early returns give the fields read so far. *)
Definition get_status : ethM status_t :=
  this ← (obj_get : ethM _);
  basic ← read_phy (_phy_address this) BASIC_STATUS_REG_NUM;
  match basic with
  | None => mret status_0
  | Some read_data =>
      let up := link_status (basic_status_of_u16 read_data) in
      special ← read_phy (_phy_address this) SPECIAL_STATUS_REG_NUM;
      match special with
      | None => mret (Status 0 0 0 0 0 0 UNKNOWN up)
      | Some read_data =>
          let link_speed := speed (special_status_of_u16 read_data) in
          bytes_sent ← on_mac get_num_bytes_transmitted;
          packets_sent ← on_mac get_num_packets_transmitted;
          bytes_received ← on_mac get_num_bytes_received;
          packets_received ← on_mac get_num_packets_received;
          fcs_fails ← on_mac get_num_fcs_fails;
          dropped ← on_mac get_num_eth_drops;
          mret (Status bytes_sent packets_sent bytes_received packets_received
                  fcs_fails dropped link_speed up)
      end
  end.

(** The records that [dump_phy_regs] prints. *)
Definition dump_phy_regs :
    ethM (option basic_control_reg_t * option basic_status_reg_t * option special_status_reg_t) :=
  this ← (obj_get : ethM _);
  control ← read_phy (_phy_address this) BASIC_CONTROL_REG_NUM;
  status ← read_phy (_phy_address this) BASIC_STATUS_REG_NUM;
  special ← read_phy (_phy_address this) SPECIAL_STATUS_REG_NUM;
  mret (basic_control_of_u16 <$> control, basic_status_of_u16 <$> status,
        special_status_of_u16 <$> special).

(** ** Notions the properties use *)

(** How many of the 100 ms waits of the negotiation loop have passed. *)
Fixpoint naps (t : trace) : nat :=
  match t with
  | [] => O
  | ev :: t' => if decide (ev = EvSleep 100000) then S (naps t') else naps t'
  end.

(** Auto-negotiation is done, as the PHY reports it in special status bit 12. *)
Definition negotiated (w : Z) : bool := Z.testbit w 12.

(** Every write to a register of [rs] happens in a configuration of [P]. *)
Definition guarded (base : Z) (rs : list Z) (P : mac_config -> Prop) (t : trace) (ev : event)
    : Prop :=
  match ev with
  | EvWrite a _ _ => forall r, In r rs -> a = reg_addr_of base r -> P (config base t)
  | _ => True
  end.

(** ** Lemmas *)
Lemma naps_app t1 t2 : naps (t1 ++ t2) = (naps t1 + naps t2)%nat.
Proof. induction t1 as [|ev t1 IH]; cbn; [done|]. rewrite IH. by destruct (decide _). Qed.

Lemma naps_run {A} `{Device} (p : prog busE A) t : (naps t <= naps (run p t).2)%nat.
Proof. destruct (run_extends p t) as [evs ->]. rewrite naps_app. lia. Qed.

Lemma negotiated_decode w : auto_negotiation_done (special_status_of_u16 w) = negotiated w.
Proof. cbn. by apply testbit_get_bit. Qed.

Lemma run_on_mac `{Device} {A} (f : rmii_mac_comp -> io busE A) this t :
  run (on_mac f this) t = let (r, t') := run (f (_mac this)) t in ((r, this), t').
Proof. unfold on_mac. by repeat obj1. Qed.

Lemma on_mac_stops {A} own (f : rmii_mac_comp -> io busE A) :
  (forall m, stops_on_error own (f m)) -> method_stops own (on_mac f).
Proof. intros Hf. unfold on_mac. auto with driver. Qed.

Lemma read_phy_stops own p r : method_stops own (read_phy p r).
Proof.
  unfold read_phy. apply method_bind; [|intros []; auto with driver].
  apply on_mac_stops. auto with driver.
Qed.
#[export] Hint Resolve read_phy_stops : driver.

Section Phy.
Context {D : Device} {base : Z} {phys : trace -> Z -> Z -> Z} {B : IsPhyBus D base phys}.
Abbreviation this_at a := (RmiiEthernet (rmii_mac_at base) a).

Lemma run_read_phy p r a t :
  is_u 5 p -> is_u 5 r ->
  exists t', run (read_phy p r (this_at a)) t = ((Ok (Some (phys t p r)), this_at a), t') /\
    config base t' = config base t /\ (naps t <= naps t')%nat.
Proof.
  intros Hp Hr. destruct (phy_bus_read t p r Hp Hr) as (t' & Hrun & Hc).
  exists t'. split_and!; [|done|].
  - unfold read_phy. obj1. rewrite run_on_mac. cbn [_mac rmii_mac_at _mdio]. by rewrite Hrun.
  - pose proof (naps_run (mdio_read (mdio_comp_new base) p r true) t) as Hn. by rewrite Hrun in Hn.
Qed.

Lemma run_is_complete a t :
  is_u 5 a ->
  exists t', run (is_autonegotiation_complete (this_at a)) t =
      ((Ok (negotiated (phys t a 31)), this_at a), t') /\
    config base t' = config base t /\ (naps t <= naps t')%nat.
Proof.
  intros Ha. destruct (run_read_phy a SPECIAL_STATUS_REG_NUM a t) as (t' & Hr & Hc & Hn);
    [done|unfold SPECIAL_STATUS_REG_NUM, is_u; lia|].
  exists t'. split; [|done]. unfold is_autonegotiation_complete. repeat obj1. cbn [_phy_address].
  rewrite Hr. cbn beta iota. by rewrite run_obj_ret, negotiated_decode.
Qed.

(** The loop ends as soon as the PHY is done, and it has only that exit. *)
Lemma autonegotiate_loop_ends N fuel a t :
  is_u 5 a -> (forall u, (N <= naps u)%nat -> negotiated (phys u a 31) = true) ->
  (0 < fuel)%nat -> (N < naps t + fuel)%nat ->
  exists t', run (autonegotiate_loop fuel 5 (this_at a)) t = ((Ok tt, this_at a), t') /\
    config base t' = config base t /\
    (exists u, negotiated (phys u a 31) = true /\ (naps u <= naps t')%nat).
Proof.
  intros Ha HN. revert t. induction fuel as [|fuel IH]; intros t Hf0 Hf; [lia|].
    cbn [autonegotiate_loop]. change (0 <? 5) with true. cbn iota. obj1. destruct (run_is_complete a t Ha) as (t1 & Hr & Hc & Hn).
    rewrite Hr. cbn beta iota. destruct (negotiated (phys t a 31)) eqn:E.
    + exists t1. split_and!; [done|done|by exists t].
    + assert (naps t < N)%nat.
      { destruct (Nat.lt_ge_cases (naps t) N) as [|Hge]; [done|]. rewrite HN in E; done. }
      obj1. rewrite run_obj_io, run_bus_sleep. cbn beta iota.
      destruct (IH (t1 ++ [EvSleep 100000])) as (t' & Hr' & Hc' & Hu); [lia| |].
      { rewrite naps_app. change (naps [EvSleep 100000]) with 1%nat. lia. }
      exists t'. split_and!; [done| |done]. rewrite Hc', <- Hc. apply config_quiet, steps_one. done.
Qed.

Lemma autonegotiate_loop_stuck fuel a t :
  is_u 5 a -> (forall u, negotiated (phys u a 31) = false) ->
  exists t', run (autonegotiate_loop fuel 5 (this_at a)) t = ((Err OutOfFuel, this_at a), t') /\
    config base t' = config base t /\ (naps t + fuel <= naps t')%nat.
Proof.
  intros Ha HN. revert t. induction fuel as [|fuel IH]; intros t.
  - exists t. split_and!; [done..|lia].
  - cbn [autonegotiate_loop]. change (0 <? 5) with true. cbn iota. obj1. destruct (run_is_complete a t Ha) as (t1 & Hr & Hc & Hn).
    rewrite Hr. cbn beta iota. rewrite HN.
    obj1. rewrite run_obj_io, run_bus_sleep. cbn beta iota.
    destruct (IH (t1 ++ [EvSleep 100000])) as (t' & Hr' & Hc' & Hn').
    exists t'. split_and!; [done| |].
    + rewrite Hc', <- Hc. apply config_quiet, steps_one. done.
    + rewrite naps_app in Hn'. change (naps [EvSleep 100000]) with 1%nat in Hn'. lia.
Qed.
End Phy.

Section Mac.
Context {D : Device} {base : Z} {hw : trace -> mac_hw} {M : IsMac D base hw}.

Lemma writes_in_guarded rs rs' P t t' :
  (forall r, In r rs -> 0 <= r < 25) -> (forall r, In r rs' -> 0 <= r < 25) ->
  (forall r, In r rs -> ~ In r rs') ->
  steps (writes_in base rs) t t' -> steps (guarded base rs' P) t t'.
Proof.
  intros Hb Hb' Hd. apply steps_mono. intros u [|a d res|]; cbn; [done| |done].
  intros (q & Hq & ->) r Hr E. exfalso. apply (Hd q Hq).
  rewrite !reg_addr_of_small in E by (reg_bounds || auto). by assert (q = r) as -> by lia.
Qed.

Lemma enables_wr t r d :
  0 <= r < 25 -> r <> 7 ->
  cfg_tx (config base (t ++ [wr base r d])) = cfg_tx (config base t) /\
  cfg_rx (config base (t ++ [wr base r d])) = cfg_rx (config base t).
Proof.
  intros Hr Hr7. cbn. unfold eth_framer_enable, eth_deframer_enable.
  rewrite wdata_wr by reg_bounds. by zcases.
Qed.

Lemma run_source_mac_guarded P t mac :
  (forall c c', cfg_tx c = cfg_tx c' -> cfg_rx c = cfg_rx c' -> P c -> P c') ->
  P (config base t) ->
  steps (guarded base [8; 9] P) t (run (RmiiMac.set_source_mac (rmii_mac_at base) mac) t).2.
Proof.
  intros HP Hc. unfold RmiiMac.set_source_mac, rmii_mac_at; cbn [mac_regs_of]. drive. cbn [snd].
  apply steps_snoc; [apply steps_one|]; intros r _ _; [done|].
  eapply HP; [..|exact Hc]; symmetry; apply enables_wr; lia.
Qed.

Lemma run_destination_mac_guarded P t mac :
  (forall c c', cfg_tx c = cfg_tx c' -> cfg_rx c = cfg_rx c' -> P c -> P c') ->
  P (config base t) ->
  steps (guarded base [10; 11] P) t (run (RmiiMac.set_destination_mac (rmii_mac_at base) mac) t).2.
Proof.
  intros HP Hc. unfold RmiiMac.set_destination_mac, rmii_mac_at; cbn [mac_regs_of]. drive. cbn [snd].
  apply steps_snoc; [apply steps_one|]; intros r _ _; [done|].
  eapply HP; [..|exact Hc]; symmetry; apply enables_wr; lia.
Qed.
End Mac.

Ltac mac_call H := rewrite ?run_obj_bind, run_on_mac; cbn [_mac]; rewrite H; cbn beta iota.
Ltac no_clash := cbn [In]; intros; lia.

(** ** Properties *)

Lemma run_eth_set_source_mac D base hw `{!IsMac D base hw} a addr t :
  length addr = 6%nat -> Forall (is_u 8) addr ->
  let this := RmiiEthernet (rmii_mac_at base) a in
  let c := config base t in
  exists t', run (set_source_mac addr this) t = ((Ok tt, this), t') /\
    config base t' = MacConfig (cfg_tx c) (cfg_tx c) (le_load addr)
                       (cfg_destination_mac c) (cfg_source_ip c) /\
    steps (guarded base [8; 9] (fun c => cfg_tx c = false /\ cfg_rx c = false)) t t'.
Proof.
  intros Hl Hb this c. subst this c. unfold set_source_mac.
  destruct (run_get_tx (base := base) t) as (t1 & H1 & C1 & S1).
  destruct (run_get_tx (base := base) t1) as (t2 & H2 & C2 & S2).
  destruct (run_set_rx (base := base) t2 false) as (t3 & H3 & C3 & S3).
  destruct (run_set_tx (base := base) t3 false) as (t4 & H4 & C4 & S4).
  destruct (run_wait_config (base := base) (cfg_tx (config base t1)) (cfg_tx (config base t)) t4)
    as (b & t5 & H5 & C5 & S5).
  destruct (run_set_source_mac (base := base) t5 addr Hl Hb) as (t6 & H6 & C6).
  destruct (run_set_tx (base := base) t6 (cfg_tx (config base t))) as (t7 & H7 & C7 & S7).
  destruct (run_set_rx (base := base) t7 (cfg_tx (config base t1))) as (t8 & H8 & C8 & S8).
  exists t8. split_and!.
  - mac_call H1. mac_call H2. mac_call H3. mac_call H4. mac_call H5. mac_call H6. mac_call H7.
    by mac_call H8.
  - by rewrite C8, C7, C6, C5, C4, C3, C2, C1.
  - set (P := fun c : mac_config => _).
    assert (Hw : forall u u', steps (writes_in base [7]) u u' -> steps (guarded base [8; 9] P) u u').
    { intros u u'. apply writes_in_guarded; no_clash. }
    assert (Hq : forall u u', steps quiet u u' -> steps (guarded base [8; 9] P) u u').
    { intros u u' H. apply Hw. by apply quiet_writes_in. }
    assert (S6 : steps (guarded base [8; 9] P) t5 t6).
    { pose proof (run_source_mac_guarded (base := base) P t5 addr) as Hg. rewrite H6 in Hg.
      apply Hg; [intros ? ? E1 E2; unfold P; by rewrite E1, E2|]. by rewrite C5, C4, C3. }
    eauto 12 using steps_trans.
Qed.

(** Changing the source address: the six bytes reach the MAC, every write to
    the address registers happens with both directions switched off, and both
    enables are set at the end to what the transmit enable was before: a receiver
    that was on while the transmitter was off is left off. *)
Theorem set_source_mac_spec D base hw `{!IsMac D base hw} a addr t :
  length addr = 6%nat -> Forall (is_u 8) addr ->
  let this := RmiiEthernet (rmii_mac_at base) a in
  let c := config base t in
  exists t', run (set_source_mac addr this) t = ((Ok tt, this), t') /\
    config base t' = MacConfig (cfg_tx c) (cfg_tx c) (le_load addr)
                       (cfg_destination_mac c) (cfg_source_ip c) /\
    steps (guarded base [8; 9] (fun c => cfg_tx c = false /\ cfg_rx c = false)) t t'.
Proof. by apply (run_eth_set_source_mac D base hw). Qed.

Lemma run_eth_set_destination_mac D base hw `{!IsMac D base hw} a addr t :
  length addr = 6%nat -> Forall (is_u 8) addr ->
  let this := RmiiEthernet (rmii_mac_at base) a in
  exists t', run (set_destination_mac addr this) t = ((Ok tt, this), t') /\
    config base t' = cfg_with_destination_mac (le_load addr) (config base t) /\
    steps (guarded base [10; 11] (fun c => cfg_tx c = false)) t t'.
Proof.
  intros Hl Hb this. subst this. unfold set_destination_mac.
  set (P := fun c : mac_config => _).
  assert (Hw : forall u u', steps (writes_in base [7]) u u' -> steps (guarded base [10; 11] P) u u').
  { intros u u'. apply writes_in_guarded; no_clash. }
  assert (Hq : forall u u', steps quiet u u' -> steps (guarded base [10; 11] P) u u').
  { intros u u' H. apply Hw. by apply quiet_writes_in. }
  assert (Hm : forall u u', run (RmiiMac.set_destination_mac (rmii_mac_at base) addr) u = (Ok tt, u') ->
             cfg_tx (config base u) = false -> steps (guarded base [10; 11] P) u u').
  { intros u u' Hr Htx. pose proof (run_destination_mac_guarded (base := base) P u addr) as Hg.
    rewrite Hr in Hg. apply Hg; [|done]. intros c c' E _. unfold P. by rewrite E. }
  destruct (run_get_tx (base := base) t) as (t1 & H1 & C1 & S1).
  destruct (cfg_tx (config base t)) eqn:Etx.
  - destruct (run_set_tx (base := base) t1 false) as (t2 & H2 & C2 & S2).
    destruct (run_wait_config (base := base) false true t2) as (b & t3 & H3 & C3 & S3).
    destruct (run_set_destination_mac (base := base) t3 addr Hl Hb) as (t4 & H4 & C4).
    destruct (run_set_tx (base := base) t4 true) as (t5 & H5 & C5 & S5).
    exists t5. split_and!.
    + mac_call H1. rewrite run_obj_bind. mac_call H2. mac_call H3. rewrite run_obj_ret. cbn beta iota.
      mac_call H4. by mac_call H5.
    + rewrite C5, C4, C3, C2, C1. unfold cfg_with_tx, cfg_with_destination_mac. by rewrite <- Etx.
    + assert (steps (guarded base [10; 11] P) t3 t4) by (apply Hm; [done|]; by rewrite C3, C2).
      eauto 12 using steps_trans.
  - destruct (run_set_destination_mac (base := base) t1 addr Hl Hb) as (t4 & H4 & C4).
    exists t4. split_and!.
    + mac_call H1. rewrite run_obj_bind, run_obj_ret. cbn beta iota. by mac_call H4.
    + by rewrite C4, C1.
    + assert (steps (guarded base [10; 11] P) t1 t4) by (apply Hm; [done|]; by rewrite C1).
      eauto using steps_trans.
Qed.

(** Changing the destination address keeps every enable as it was and writes
    the address registers only while the transmitter is off. *)
Theorem set_destination_mac_spec D base hw `{!IsMac D base hw} a addr t :
  length addr = 6%nat -> Forall (is_u 8) addr ->
  let this := RmiiEthernet (rmii_mac_at base) a in
  exists t', run (set_destination_mac addr this) t = ((Ok tt, this), t') /\
    config base t' = cfg_with_destination_mac (le_load addr) (config base t) /\
    steps (guarded base [10; 11] (fun c => cfg_tx c = false)) t t'.
Proof. by apply (run_eth_set_destination_mac D base hw). Qed.

(** *** The PHY scan *)
Lemma run_find_phy_loop D base phys `{!IsPhyBus D base (fun _ => phys)} n i a t :
  0 <= i -> i + Z.of_nat n <= 31 ->
  exists t',
    run (find_phy_loop n i (RmiiEthernet (rmii_mac_at base) a)) t =
      match list_find (fun j => phys j 0 <> 0xFFFF) (seqZ i (Z.of_nat n)) with
      | Some (_, j) => ((Ok true, RmiiEthernet (rmii_mac_at base) j), t')
      | None => ((Ok false, RmiiEthernet (rmii_mac_at base) a), t')
      end /\ config base t' = config base t.
Proof.
  revert i t. induction n as [|n IH]; intros i t Hi Hn.
  - exists t. done.
  - cbn [find_phy_loop]. rewrite seqZ_cons by lia.
    replace (Z.pred (Z.of_nat (S n))) with (Z.of_nat n) by lia. cbn [list_find].
    destruct (run_read_phy (base := base) i 0 a t) as (t1 & Hr & Hc & _);
      [unfold is_u; lia..|].
    rewrite run_obj_bind, Hr. cbn beta iota. destruct (Z.eqb_spec (phys i 0) 0xFFFF) as [E|E]; cbn [negb].
    + rewrite decide_False by auto. destruct (IH (Z.succ i) t1) as (t' & Hr' & Hc'); [lia..|].
      exists t'. split; [|by rewrite Hc', Hc]. change (i + 1) with (Z.succ i). rewrite Hr'.
      by destruct (list_find _ _) as [[]|].
    + rewrite decide_True by done. exists t1. split; [|done]. by repeat obj1.
Qed.

(** The scan for the PHY: on a bus whose PHYs answer, [find_phy_address]
    returns [true] with the lowest address below 31 whose control register does
    not read all ones, and [false] (keeping the old address) when there is none;
    a PHY strapped to address 31 is never found. *)
Theorem find_phy_lowest D base phys `{!IsPhyBus D base (fun _ => phys)} a t :
  let at_addr j := RmiiEthernet (rmii_mac_at base) j in
  exists t',
    ((exists j, 0 <= j < 31 /\ phys j 0 <> 0xFFFF /\ (forall k, 0 <= k < j -> phys k 0 = 0xFFFF) /\
        run (find_phy_address (at_addr a)) t = ((Ok true, at_addr j), t')) \/
     ((forall k, 0 <= k < 31 -> phys k 0 = 0xFFFF) /\
        run (find_phy_address (at_addr a)) t = ((Ok false, at_addr a), t'))) /\
    config base t' = config base t.
Proof.
  cbn zeta. destruct (run_find_phy_loop D base phys 31 0 a t) as (t' & Hr & Hc); [lia..|].
  exists t'. split; [|done]. unfold find_phy_address. rewrite Hr.
  destruct (list_find _ _) as [[i j]|] eqn:E.
  - left. apply list_find_Some in E as (Hj%lookup_seqZ & Hne & Hb). exists j.
    split_and!; [lia|lia|done| |done].
    intros k Hk. destruct (decide (phys k 0 = 0xFFFF)) as [|Hk0]; [done|].
    exfalso. apply (Hb (Z.to_nat k) k); [apply lookup_seqZ; lia|lia|done].
  - right. split; [|done]. apply list_find_None in E. rewrite Forall_forall in E.
    intros k Hk. destruct (decide (phys k 0 = 0xFFFF)) as [|Hk0]; [done|].
    exfalso. apply (E k); [apply elem_of_seqZ; lia|done].
Qed.

(** *** Auto-negotiation *)

(** Auto-negotiation, when the PHY completes it once [N] of the loop's 100 ms
    waits have passed: with fuel above [N] the call returns [true]. *)
Theorem phy_autonegotiate_completes D base hw phys `{!IsMac D base hw} `{!IsPhyBus D base phys}
    N fuel a t :
  is_u 5 a -> (forall u, (N <= naps u)%nat -> negotiated (phys u a 31) = true) ->
  (N < fuel)%nat ->
  (forall u v, (naps u <= naps v)%nat -> negotiated (phys u a 31) = true ->
     negotiated (phys v a 31) = true) ->
  let this := RmiiEthernet (rmii_mac_at base) a in
  exists t', run (phy_autonegotiate fuel this) t = ((Ok true, this), t') /\
    config base t' = config base t.
Proof.
  intros Ha HN Hf Hmono this. subst this. unfold phy_autonegotiate.
  destruct (run_is_complete (base := base) a t Ha) as (t1 & H1 & C1 & N1).
  rewrite run_obj_bind, H1. cbn beta iota. destruct (negotiated (phys t a 31)) eqn:E.
  - by exists t1.
  - repeat obj1. destruct (mdio_write_config (base := base) a BASIC_CONTROL_REG_NUM
      restart_negotiation_word t1) as (t2 & H2 & C2).
    rewrite run_on_mac. cbn [_mac _phy_address rmii_mac_at _mdio]. rewrite H2. cbn [negb].
    obj1. destruct (autonegotiate_loop_ends (base := base) N fuel a t2)
      as (t3 & H3 & C3 & u & Eu & Nu); [done..|lia|lia|].
    rewrite H3. cbn beta iota. destruct (run_is_complete (base := base) a t3 Ha) as (t4 & H4 & C4 & _).
    exists t4. rewrite H4, (Hmono u t3) by done. split; [done|]. by rewrite C4, C3, C2, C1.
Qed.

Lemma run_autonegotiate_stuck D base hw phys `{!IsMac D base hw} `{!IsPhyBus D base phys}
    fuel a t :
  is_u 5 a -> (forall u, negotiated (phys u a 31) = false) ->
  let this := RmiiEthernet (rmii_mac_at base) a in
  exists t', run (phy_autonegotiate fuel this) t = ((Err OutOfFuel, this), t') /\
    config base t' = config base t /\ (naps t + fuel <= naps t')%nat.
Proof.
  intros Ha HN this. subst this. unfold phy_autonegotiate.
  destruct (run_is_complete (base := base) a t Ha) as (t1 & H1 & C1 & N1).
  rewrite run_obj_bind, H1. cbn beta iota. rewrite HN.
  repeat obj1. destruct (mdio_write_config (base := base) a BASIC_CONTROL_REG_NUM
    restart_negotiation_word t1) as (t2 & H2 & C2).
  pose proof (naps_run (mdio_write (mdio_comp_new base) a BASIC_CONTROL_REG_NUM
    restart_negotiation_word) t1) as N2. rewrite H2 in N2. cbn [snd] in N2.
  rewrite run_on_mac. cbn [_mac _phy_address rmii_mac_at _mdio]. rewrite H2. cbn [negb].
  obj1. destruct (autonegotiate_loop_stuck (base := base) fuel a t2) as (t3 & H3 & C3 & N3); [done..|].
  rewrite H3. exists t3. split_and!; [done|by rewrite C3, C2, C1|lia].
Qed.

(** Auto-negotiation never gives up: against a PHY that does not complete it
    the call does not return for any amount of fuel (the code's [retries] is
    never decremented), and it keeps sleeping: [fuel] waits pass in that time. *)
Theorem phy_autonegotiate_diverges D base hw phys `{!IsMac D base hw} `{!IsPhyBus D base phys}
    fuel a t :
  is_u 5 a -> (forall u, negotiated (phys u a 31) = false) ->
  let this := RmiiEthernet (rmii_mac_at base) a in
  exists t', run (phy_autonegotiate fuel this) t = ((Err OutOfFuel, this), t') /\
    (naps t + fuel <= naps t')%nat.
Proof.
  intros Ha HN this. destruct (run_autonegotiate_stuck D base hw phys fuel a t Ha HN) as (t' & ? & _ & ?).
  by exists t'.
Qed.

(** *** Initialisation *)
Definition first_phy (phys : Z -> Z -> Z) : option Z :=
  snd <$> list_find (fun j => phys j 0 <> 0xFFFF) (seqZ 0 31).

Lemma first_phy_u5 phys j : first_phy phys = Some j -> is_u 5 j.
Proof.
  unfold first_phy. intros H. destruct (list_find _ _) as [[i x]|] eqn:E; [|done].
  apply list_find_Some in E as [E _]. apply list_elem_of_lookup_2, elem_of_seqZ in E.
  injection H as <-. unfold is_u. cbn [snd]. lia.
Qed.

Lemma run_op_on_mac D base hw `{!IsMac D base hw} op a t :
  op_ok op ->
  exists t', run (on_mac (fun mac => op_prog mac op) (RmiiEthernet (rmii_mac_at base) a)) t
      = ((Ok tt, RmiiEthernet (rmii_mac_at base) a), t') /\
    config base t' = op_spec op (config base t).
Proof.
  intros Hop. destruct (run_op (base := base) op t Hop) as (t' & Hr & Hc).
  exists t'. by rewrite run_on_mac; cbn [_mac]; rewrite Hr.
Qed.

Lemma run_init D base hw phys `{!IsMac D base hw} `{!IsPhyBus D base (fun _ => phys)}
    fuel auto a t :
  let at_addr j := RmiiEthernet (rmii_mac_at base) j in
  exists t',
    run (init fuel auto (at_addr a)) t =
      (match first_phy phys with
       | None => (Ok false, at_addr a)
       | Some j =>
           (if auto && negb (negotiated (phys j 31)) then Err OutOfFuel else Ok true, at_addr j)
       end, t') /\
    config base t' = cfg_with_tx true (cfg_with_rx true (config base t)).
Proof.
  cbn zeta. unfold init.
  destruct (run_set_rx (base := base) t false) as (t1 & H1 & C1 & _).
  destruct (run_set_tx (base := base) t1 false) as (t2 & H2 & C2 & _).
  destruct (run_op (base := base) Reset t2) as (t3 & H3 & C3); [done|].
  cbn [op_prog op_spec] in H3, C3.
  destruct (run_set_rx (base := base) t3 true) as (t4 & H4 & C4 & _).
  destruct (run_set_tx (base := base) t4 true) as (t5 & H5 & C5 & _).
  destruct (run_wait_config (base := base) true true t5) as (b & t6 & H6 & C6 & _).
  destruct (run_find_phy_loop D base phys 31 0 a t6) as (t7 & H7 & C7); [lia..|].
  assert (C : config base t7 = cfg_with_tx true (cfg_with_rx true (config base t)))
    by (by rewrite C7, C6, C5, C4, C3, C2, C1).
  mac_call H1. mac_call H2. mac_call H3. mac_call H4. mac_call H5. mac_call H6.
  rewrite run_obj_bind. unfold find_phy_address. rewrite H7. unfold first_phy.
  destruct (list_find _ _) as [[i j]|] eqn:E; cbn [fmap option_fmap option_map snd]; [|by exists t7].
  assert (Hj : is_u 5 j).
  { apply list_find_Some in E as (Hj%lookup_seqZ & _). unfold is_u. lia. }
  cbn beta iota. destruct auto; cbn [negb andb]; [|by exists t7].
  destruct (negotiated (phys j 31)) eqn:En; cbn [negb].
  - destruct (run_is_complete (base := base) j t7 Hj) as (t8 & H8 & C8 & _).
    exists t8. rewrite C8. split; [|done]. unfold phy_autonegotiate.
    rewrite !run_obj_bind, H8. cbn beta iota. by rewrite En.
  - destruct (run_autonegotiate_stuck D base hw (fun _ => phys) fuel j t7 Hj) as (t8 & H8 & C8 & _);
      [done|].
    exists t8. rewrite C8. split; [|done]. by rewrite run_obj_bind, H8.
Qed.

(** [init] on a MAC whose PHYs answer: it returns [false] when the scan finds
    none; otherwise it keeps the lowest address found and returns [true], except
    that with auto-negotiation requested and never completed by the PHY it does
    not return.  In every case both directions end up enabled and nothing else
    of the configuration changes. *)
Theorem init_spec D base hw phys `{!IsMac D base hw} `{!IsPhyBus D base (fun _ => phys)}
    fuel auto a t :
  let at_addr j := RmiiEthernet (rmii_mac_at base) j in
  exists t',
    run (init fuel auto (at_addr a)) t =
      (match first_phy phys with
       | None => (Ok false, at_addr a)
       | Some j =>
           (if auto && negb (negotiated (phys j 31)) then Err OutOfFuel else Ok true, at_addr j)
       end, t') /\
    config base t' = cfg_with_tx true (cfg_with_rx true (config base t)).
Proof. by apply (run_init D base hw phys). Qed.

(** *** Status *)

(** The trace after reading registers [rs] one after the other. *)
Definition after_reads (base : Z) (hw : trace -> mac_hw) (u : trace) (rs : list Z) : trace :=
  foldl (fun u r => u ++ [rd base r (mac_rdata base hw u r)]) u rs.

Lemma run_get_status D base hw phys `{!IsMac D base hw} `{!IsPhyBus D base (fun _ => phys)} a t :
  is_u 5 a ->
  let this := RmiiEthernet (rmii_mac_at base) a in
  exists u s t',
    run (get_status this) t = ((Ok s, this), t') /\
    config base t' = config base t /\
    link_up s = Z.testbit (phys a 1) 2 /\
    link_speed s = speed (special_status_of_u16 (phys a 31)) /\
    bytes_sent s = wrap 32 (num_tx_bytes (hw u)) /\
    packets_sent s = wrap 32 (num_tx_packets (hw (after_reads base hw u [14]))) /\
    bytes_received s = wrap 32 (num_rx_bytes (hw (after_reads base hw u [14; 15]))) /\
    packets_received s = wrap 32 (num_rx_packets (hw (after_reads base hw u [14; 15; 16]))) /\
    fcs_fails s =
      wrap 16 (eth_deframer_drop_count (hw (after_reads base hw u [14; 15; 16; 17]))) /\
    ethernet_packets_dropped s =
      wrap 16 (eth_deframer_drop_count (hw (after_reads base hw u [14; 15; 16; 17; 19]))).
Proof.
  intros Ha this. subst this.
  destruct (run_read_phy (base := base) a BASIC_STATUS_REG_NUM a t) as (t1 & H1 & C1 & _);
    [done|unfold BASIC_STATUS_REG_NUM, is_u; lia|].
  destruct (run_read_phy (base := base) a SPECIAL_STATUS_REG_NUM a t1) as (u & H2 & C2 & _);
    [done|unfold SPECIAL_STATUS_REG_NUM, is_u; lia|].
  eexists u, _, _. split_and!.
  - unfold get_status. repeat obj1. cbn [_phy_address]. rewrite H1. cbn beta iota.
    rewrite run_obj_bind, H2. cbn beta iota.
    unfold get_num_bytes_transmitted, get_num_packets_transmitted, get_num_bytes_received,
      get_num_packets_received, get_num_fcs_fails, get_num_eth_drops.
    repeat first [rewrite run_obj_bind | rewrite run_on_mac | progress cbn [_mac rmii_mac_at mac_regs_of] | drive1
      | rewrite run_reg_read by reg_bounds ].
    reflexivity.
  - autounfold with regs. by rewrite !config_rd, C2, C1.
  - cbn. by apply testbit_get_bit.
  - done.
  - cbn. by rewrite ?wrap_wrap by lia.
  - done.
  - done.
  - done.
  - cbn [fcs_fails]. autounfold with regs. cbn [mac_rdata]. by rewrite wrap_wrap by lia.
  - cbn [ethernet_packets_dropped]. autounfold with regs. cbn [mac_rdata]. by rewrite wrap_wrap by lia.
Qed.

(** The status record: link state and speed come from the PHY's two status
    registers, the counters from the hardware at the moment of each read; the
    FCS field is a second reading of the drop counter, and the call changes no
    configuration. *)
Theorem get_status_spec D base hw phys `{!IsMac D base hw} `{!IsPhyBus D base (fun _ => phys)} a t :
  is_u 5 a ->
  let this := RmiiEthernet (rmii_mac_at base) a in
  exists u s t',
    run (get_status this) t = ((Ok s, this), t') /\
    config base t' = config base t /\
    link_up s = Z.testbit (phys a 1) 2 /\
    link_speed s = speed (special_status_of_u16 (phys a 31)) /\
    bytes_sent s = wrap 32 (num_tx_bytes (hw u)) /\
    packets_sent s = wrap 32 (num_tx_packets (hw (after_reads base hw u [14]))) /\
    bytes_received s = wrap 32 (num_rx_bytes (hw (after_reads base hw u [14; 15]))) /\
    packets_received s = wrap 32 (num_rx_packets (hw (after_reads base hw u [14; 15; 16]))) /\
    fcs_fails s =
      wrap 16 (eth_deframer_drop_count (hw (after_reads base hw u [14; 15; 16; 17]))) /\
    ethernet_packets_dropped s =
      wrap 16 (eth_deframer_drop_count (hw (after_reads base hw u [14; 15; 16; 17; 19]))).
Proof. apply run_get_status; done. Qed.

(** *** Errors *)
Lemma op_prog_stops own m op : stops_on_error own (op_prog m op).
Proof.
  destruct op; cbn [op_prog]; unfold set_rx_enable, set_tx_enable, RmiiMac.set_source_mac,
    RmiiMac.set_destination_mac, RmiiMac.set_source_ip, RmiiMac.reset, RmiiMac.send_arp,
    wait_for_idle; auto 10 with driver.
Qed.

Lemma wait_for_idle_stops own m rx tx : stops_on_error own (wait_for_idle m rx tx).
Proof. unfold wait_for_idle. auto with driver. Qed.

Lemma find_phy_stops own n i : method_stops own (find_phy_loop n i).
Proof.
  revert i. induction n as [|n IH]; intros i; cbn [find_phy_loop]; [auto with driver|].
  apply method_bind; [auto with driver|]. intros [d|]; auto with driver.
Qed.

Lemma is_complete_stops own : method_stops own is_autonegotiation_complete.
Proof.
  unfold is_autonegotiation_complete. apply method_bind; [auto with driver|]. intros this.
  apply method_bind; [auto with driver|]. intros [d|]; auto with driver.
Qed.
#[export] Hint Resolve wait_for_idle_stops find_phy_stops is_complete_stops on_mac_stops : driver.

Lemma autonegotiate_loop_stops fuel n :
  method_stops (fun e => e = OutOfFuel) (autonegotiate_loop fuel n).
Proof.
  induction fuel as [|fuel IH]; cbn [autonegotiate_loop].
  - by apply method_fail.
  - auto 10 with driver.
Qed.
#[export] Hint Resolve autonegotiate_loop_stops : driver.

Ltac mac_stops :=
  unfold on_mac, set_rx_enable, set_tx_enable, get_tx_enable, RmiiMac.set_source_mac,
    RmiiMac.set_destination_mac, RmiiMac.reset, get_num_bytes_transmitted,
    get_num_packets_transmitted, get_num_bytes_received, get_num_packets_received,
    get_num_fcs_fails, get_num_eth_drops;
  auto 40 with driver.

(** For the MAC driver's operations and for the methods below: an exception of a
    register access ends the running call with that exception, and the class
    raises none of its own (a call of [init] can only be cut short by its fuel). *)
Theorem ethernet_stops_on_error :
  (forall m op, stops_on_error no_own (op_prog m op)) /\
  (forall addr, method_stops no_own (set_source_mac addr)) /\
  (forall addr, method_stops no_own (set_destination_mac addr)) /\
  method_stops no_own get_status /\
  method_stops no_own dump_phy_regs /\
  method_stops no_own find_phy_address /\
  (forall fuel auto, method_stops (fun e => e = OutOfFuel) (init fuel auto)).
Proof.
  split_and!.
  - intros. apply op_prog_stops.
  - intros. unfold set_source_mac. mac_stops.
  - intros. unfold set_destination_mac. mac_stops.
  - unfold get_status. apply method_bind; [auto with driver|]. intros this.
    apply method_bind; [auto with driver|]. intros [d|]; [|auto with driver].
    apply method_bind; [auto with driver|]. intros [d'|]; [|auto with driver]. mac_stops.
  - unfold dump_phy_regs. auto 20 with driver.
  - unfold find_phy_address. auto with driver.
  - intros. unfold init, find_phy_address, phy_autonegotiate. mac_stops.
Qed.

(** ** Witnesses *)
#[export] Instance example_bus :
  IsPhyBus (mac_device example_base example_hw) example_base (fun _ => example_phys).
Proof.
  apply (mac_phy_bus (hw := example_hw)).
  apply engine_hw_engine; [unfold example_base; lia..|exact example_phys_u16].
Defined.
Definition example_mac_addr : list Z := [0xe9; 0xd6; 0x85; 0x0c; 0x47; 0x5a].
Lemma example_mac_addr_bytes : Forall (is_u 8) example_mac_addr.
Proof. repeat constructor; unfold is_u; lia. Qed.

(** A receiver that runs alone does not survive [set_source_mac]. *)
Lemma set_source_mac_spec_witness :
  let D := mac_device example_base example_hw in
  let t := [wr example_base 7 4] in
  exists t', (run (Handler0 := @trace_handler D) (set_source_mac example_mac_addr
      (RmiiEthernet (rmii_mac_at example_base) 1)) t).2 = t' /\
    cfg_rx (config example_base t) = true /\ cfg_rx (config example_base t') = false /\
    cfg_source_mac (config example_base t') = 0x5a470c85d6e9.
Proof.
  intros D t.
  destruct (set_source_mac_spec D example_base example_hw 1 example_mac_addr t eq_refl
              example_mac_addr_bytes) as (t' & Hr & Hc & _).
  exists t'. rewrite Hr, Hc. split; [reflexivity|]. vm_compute. auto.
Defined.

Lemma set_destination_mac_spec_witness :
  let D := mac_device example_base example_hw in
  exists t', (run (Handler0 := @trace_handler D) (set_destination_mac example_mac_addr
      (RmiiEthernet (rmii_mac_at example_base) 1)) [wr example_base 7 5]).2 = t' /\
    config example_base t' = MacConfig true true 0 0x5a470c85d6e9 0.
Proof.
  intros D.
  destruct (set_destination_mac_spec D example_base example_hw 1 example_mac_addr
              [wr example_base 7 5] eq_refl example_mac_addr_bytes) as (t' & Hr & Hc & _).
  exists t'. rewrite Hr, Hc. split; [reflexivity|]. vm_compute. reflexivity.
Defined.

Lemma find_phy_lowest_witness :
  let D := mac_device example_base example_hw in
  exists t', run (Handler0 := @trace_handler D) (find_phy_address
      (RmiiEthernet (rmii_mac_at example_base) 0)) [] =
    ((Ok true, RmiiEthernet (rmii_mac_at example_base) 1), t').
Proof.
  intros D.
  destruct (find_phy_lowest D example_base example_phys 0 [])
    as (t' & [(j & Hj & Hne & Hb & Hr)|[Hn _]] & _).
  - exists t'. assert (j = 1) as ->; [|exact Hr].
    unfold example_phys in Hne. destruct (Z.eqb_spec j 1); [done|]. exfalso. by apply Hne.
  - specialize (Hn 1 ltac:(lia)). vm_compute in Hn. discriminate.
Defined.

Lemma phy_autonegotiate_completes_witness :
  let D := mac_device example_base example_hw in
  exists t', run (Handler0 := @trace_handler D) (phy_autonegotiate 1
      (RmiiEthernet (rmii_mac_at example_base) 1)) [] =
    ((Ok true, RmiiEthernet (rmii_mac_at example_base) 1), t').
Proof.
  intros D.
  destruct (phy_autonegotiate_completes D example_base example_hw (fun _ => example_phys) 0 1 1 [])
    as (t' & Hr & _).
  - unfold is_u. lia.
  - intros u _. reflexivity.
  - lia.
  - intros u v _ _. reflexivity.
  - exists t'. exact Hr.
Defined.

(** A PHY at every address that never completes auto-negotiation. *)
Definition silent_phys (p r : Z) : Z := 0.
Lemma phy_autonegotiate_diverges_witness :
  let hw := engine_hw example_base silent_phys 0 in
  let D := mac_device example_base hw in
  exists t', run (Handler0 := @trace_handler D) (phy_autonegotiate 1000
      (RmiiEthernet (rmii_mac_at example_base) 0)) [] =
    ((Err OutOfFuel, RmiiEthernet (rmii_mac_at example_base) 0), t') /\ (1000 <= naps t')%nat.
Proof.
  intros hw D.
  assert (M : IsMac D example_base hw) by (apply mac_device_ok; unfold example_base; lia).
  assert (B : IsPhyBus D example_base (fun _ => silent_phys)).
  { apply (mac_phy_bus (hw := hw)). apply engine_hw_engine; [unfold example_base; lia..|].
    intros p r. unfold silent_phys, is_u. lia. }
  apply (phy_autonegotiate_diverges D example_base hw (fun _ => silent_phys) 1000 0 []).
  - unfold is_u. lia.
  - intros u. reflexivity.
Defined.

Lemma init_spec_witness :
  let D := mac_device example_base example_hw in
  exists t', run (Handler0 := @trace_handler D) (init 1 true
      (RmiiEthernet (rmii_mac_at example_base) 0)) [] =
    ((Ok true, RmiiEthernet (rmii_mac_at example_base) 1), t') /\
    config example_base t' = MacConfig true true 0 0 0.
Proof.
  intros D.
  destruct (init_spec D example_base example_hw example_phys 1 true 0 []) as (t' & Hr & Hc).
  exists t'. rewrite Hr, Hc. split; vm_compute; reflexivity.
Defined.

Lemma get_status_spec_witness :
  let D := mac_device example_base example_hw in
  exists s t', run (Handler0 := @trace_handler D) (get_status
      (RmiiEthernet (rmii_mac_at example_base) 1)) [] =
    ((Ok s, RmiiEthernet (rmii_mac_at example_base) 1), t') /\
    link_speed s = HUNDRED_BASE_TX_FULL_DUPLEX.
Proof.
  intros D.
  destruct (get_status_spec D example_base example_hw example_phys 1 [])
    as (u & s & t' & Hr & _ & _ & Hs & _); [unfold is_u; lia|].
  exists s, t'. split; [exact Hr|]. rewrite Hs. vm_compute. reflexivity.
Defined.
