(* ===== verification/UdpDevice.v ===== *)
(** * Register maps of the UDP framer and deframer

    [src/vhdl/udp/framer/udp_ip_framer_comp.vhd] and
    [src/vhdl/udp/deframer/udp_ip_deframer_comp.vhd], and the IP header the
    framer emits ([udp_ip_framer.vhd]).  Status signals are arbitrary functions
    of the trace. *)

From S2P Require Import Prelude Effects RegInterface RegFile MacDevice.

Definition C_UDP_IP_FRAMER_COMP_NUM_REGS : Z := 7.
Definition C_UDP_IP_DEFRAMER_COMP_NUM_REGS : Z := 9.
#[export] Hint Unfold C_UDP_IP_FRAMER_COMP_NUM_REGS C_UDP_IP_DEFRAMER_COMP_NUM_REGS : regs.

(** Both components have the same control word: [reset & idle & enable]. *)
Definition control_word (base : Z) (idle : bool) (t : trace) : Z :=
  cat_bits [Z.testbit (wdata base t 1) 2; idle; Z.testbit (wdata base t 1) 0].

Definition framer_rdata (base : Z) (idle : trace -> bool) (t : trace) (r : Z) : Z :=
  match r with
  | 0 => 105
  | 1 => control_word base (idle t) t
  | 2 => wrap 16 (wdata base t 2)
  | 3 => wrap 16 (wdata base t 3)
  | 4 => wdata base t 4
  | 5 => wdata base t 5
  | 6 => wrap 16 (wdata base t 6)
  | _ => 0
  end.

(** Signals of the deframer. *)
Record deframer_hw := DeframerHw {
  deframer_idle : bool;
  valid_packets_count : Z;
  dropped_packets : Z;
  drop_mask : Z
}.

Definition deframer_rdata (base : Z) (hw : trace -> deframer_hw) (t : trace) (r : Z) : Z :=
  match r with
  | 0 => 106
  | 1 => control_word base (deframer_idle (hw t)) t
  | 2 => wrap 16 (wdata base t 2)
  | 3 => wrap 16 (wdata base t 3)
  | 4 => wdata base t 4
  | 5 => wdata base t 5
  | 6 => wrap 16 (valid_packets_count (hw t))
  | 7 => wrap 16 (dropped_packets (hw t))
  | 8 => wrap 8 (drop_mask (hw t))
  | _ => 0
  end.

Class IsFramer (D : Device) (base : Z) (idle : trace -> bool) : Prop :=
  framer_regs :: IsRegFile D base C_UDP_IP_FRAMER_COMP_NUM_REGS (framer_rdata base idle).
Class IsDeframer (D : Device) (base : Z) (hw : trace -> deframer_hw) : Prop :=
  deframer_regs :: IsRegFile D base C_UDP_IP_DEFRAMER_COMP_NUM_REGS (deframer_rdata base hw).

(** ** What the components are configured to *)
Record framer_config := FramerConfig {
  framer_enable : bool; framer_reset : bool;
  source_port : Z; destination_port : Z;
  src_address : Z; destination_address : Z;
  ip_checksum_init : Z
}.
Definition framer_cfg (base : Z) (t : trace) : framer_config := {|
  framer_enable := Z.testbit (wdata base t 1) 0;
  framer_reset := Z.testbit (wdata base t 1) 2;
  source_port := wrap 16 (wdata base t 2);
  destination_port := wrap 16 (wdata base t 3);
  src_address := wdata base t 4;
  destination_address := wdata base t 5;
  ip_checksum_init := wrap 16 (wdata base t 6)
|}.

Record deframer_config := DeframerConfig {
  deframer_enable : bool; deframer_reset : bool;
  deframer_port : Z; deframer_address : Z; broadcast_address : Z
}.
Definition deframer_cfg (base : Z) (t : trace) : deframer_config := {|
  deframer_enable := Z.testbit (wdata base t 1) 0;
  deframer_reset := Z.testbit (wdata base t 1) 2;
  deframer_port := wrap 16 (wdata base t 3);
  deframer_address := wdata base t 4;
  broadcast_address := wdata base t 5
|}.

(** ** The IP header of a datagram

    The sixteen-bit additions drop the carry; [payload] is the 11-bit payload
    length popped from the length queue. *)
Definition framer_ip_length (payload : Z) : Z := wrap 16 (payload + 28).
Definition framer_checksum (c : framer_config) (ip_length : Z) : Z :=
  wrap 16 (Z.lnot (wrap 16 (ip_checksum_init c + ip_length))).

Definition framer_ip_header (c : framer_config) (payload : Z) : list Z :=
  let ip_length := framer_ip_length payload in
  let checksum := framer_checksum c ip_length in
  [ 0x45; 0;
    slice ip_length 15 8; slice ip_length 7 0;
    0; 0; 0; 0; 0x80; 0x11;
    slice checksum 15 8; slice checksum 7 0;
    slice (src_address c) 31 24; slice (src_address c) 23 16;
    slice (src_address c) 15 8; slice (src_address c) 7 0;
    slice (destination_address c) 31 24; slice (destination_address c) 23 16;
    slice (destination_address c) 15 8; slice (destination_address c) 7 0 ].

(** ** Lemmas shared by the two drivers *)
Lemma control_word_bits base idle t :
  let v := control_word base idle t in
  is_u 32 v /\ Z.testbit v 0 = Z.testbit (wdata base t 1) 0 /\ Z.testbit v 1 = idle /\
  Z.testbit v 2 = Z.testbit (wdata base t 1) 2.
Proof.
  unfold control_word.
  destruct (Z.testbit (wdata base t 1) 2), idle, (Z.testbit (wdata base t 1) 0); cbn;
    unfold is_u; repeat split; lia.
Qed.

(** A 16-bit word from its two bytes. *)
Lemma slice_word x : is_u 16 x -> 256 * slice x 15 8 + slice x 7 0 = x.
Proof.
  unfold slice, wrap, is_u. intros Hx. rewrite !Z.shiftr_div_pow2 by lia.
  change (15 - 8 + 1) with 8. change (7 - 0 + 1) with 8. rewrite Z.div_1_r by lia.
  rewrite (Z.mod_small (x / 2 ^ 8)).
  - pose proof (Z.div_mod x (2 ^ 8) ltac:(lia)). lia.
  - split; [apply Z.div_pos; lia|]. apply Z.div_lt_upper_bound; lia.
Qed.

Lemma slice_double x :
  256 * slice x 31 24 + slice x 23 16 = slice x 31 16 /\
  256 * slice x 15 8 + slice x 7 0 = slice x 15 0.
Proof.
  assert (H : forall y, is_u 16 (wrap 16 y)) by (intros; apply wrap_range; lia).
  split.
  - rewrite <- (slice_word (slice x 31 16)) by apply H. unfold slice. f_equal; [f_equal|]; zbits.
  - rewrite <- (slice_word (slice x 15 0)) by apply H. unfold slice. f_equal; [f_equal|]; zbits.
Qed.
