(* ===== verification/UdpFramer.v ===== *)
(** * UDP framer driver: [example/cpp/udp_framer_comp.hpp] and [.cpp]

    Control, configuration and the IP checksum seed, with the seed checked
    against the one's-complement sum and against the header the hardware
    builds from it. *)

From S2P Require Import Prelude Effects Utils RegInterface RegFile MacDevice UdpDevice.

Definition udp_ip_framer_component_id : Z := 105.
Definition reg_num_control : Z := 1.
Definition reg_num_src_port : Z := 2.
Definition reg_num_dst_port : Z := 3.
Definition reg_num_src_addr : Z := 4.
Definition reg_num_dst_addr : Z := 5.
Definition reg_num_ip_checksum_seed : Z := 6.
#[export] Hint Unfold reg_num_control reg_num_src_port reg_num_dst_port reg_num_src_addr
  reg_num_dst_addr reg_num_ip_checksum_seed : regs.

Record config_t := Config { src_ip : Z; dst_ip : Z; src_port : Z; dst_port : Z }.

Definition udp_framer_at (offset : Z) : reg_comp := RegComp offset udp_ip_framer_component_id.
Definition udp_framer_comp_new (offset : Z) : io busE reg_comp :=
  let this := udp_framer_at offset in
  ok ← probe this;
  if negb ok then io_throw "Failed to probe UDP IP framercomp" else mret this.

Definition reset (c : reg_comp) : io busE unit :=
  reg ← reg_read c reg_num_control;
  _ ← reg_write c reg_num_control (set_bit reg 2);
  _ ← bus_sleep 100;
  reg_write c reg_num_control (clear_bit reg 2).

Definition set_enable (c : reg_comp) (enable : bool) : io busE unit :=
  reg ← reg_read c reg_num_control;
  let reg := if enable then set_bit reg 0 else clear_bit reg 0 in
  reg_write c reg_num_control reg.

Definition get_idle (c : reg_comp) : io busE bool :=
  reg ← reg_read c reg_num_control; mret (get_bit reg 1).

(** *** The checksum seed *)
Definition header_bytes (src_ip dest_ip : Z) : list Z :=
  [ 0x45; 0; 0; 0; 0; 0; 0; 0; 0x80; 0x11; 0; 0;
    Z.land (Z.shiftr src_ip 24) 0xFF; Z.land (Z.shiftr src_ip 16) 0xFF;
    Z.land (Z.shiftr src_ip 8) 0xFF; Z.land (Z.shiftr src_ip 0) 0xFF;
    Z.land (Z.shiftr dest_ip 24) 0xFF; Z.land (Z.shiftr dest_ip 16) 0xFF;
    Z.land (Z.shiftr dest_ip 8) 0xFF; Z.land (Z.shiftr dest_ip 0) 0xFF ].

(** [for (i = 0; i < 20; i += 2)]. *)
Fixpoint header_words (bytes : list Z) : list Z :=
  match bytes with
  | a :: b :: rest => u16 (Z.lor (Z.shiftl a 8) b) :: header_words rest
  | _ => []
  end.

Definition seed_step (seed w : Z) : Z :=
  let seed := u32 (seed + w) in
  if 0xFFFF <? seed then u32 (Z.land seed 0xFFFF + 1) else seed.

Definition calculate_checksum_seed (src_ip dest_ip : Z) : result Z :=
  let seed := foldl seed_step 0 (header_words (header_bytes src_ip dest_ip)) in
  if seed <=? 0xFFFF then Ok (u16 seed) else Err AssertFail.

Definition set_config (c : reg_comp) (config : config_t) : io busE unit :=
  _ ← reg_write c reg_num_src_port (src_port config);
  _ ← reg_write c reg_num_dst_port (dst_port config);
  _ ← reg_write c reg_num_src_addr (src_ip config);
  _ ← reg_write c reg_num_dst_addr (dst_ip config);
  seed ← Ret (calculate_checksum_seed (src_ip config) (dst_ip config));
  reg_write c reg_num_ip_checksum_seed seed.

(** ** The one's-complement sum

    The sum of 16-bit words with end-around carry: the representative of the
    plain sum modulo 65535 that is zero only for an all-zero input.  A header is
    valid when the sum of its words, checksum included, is 0xFFFF. *)
Definition ones_sum (words : list Z) : Z :=
  let s := foldr Z.add 0 words in
  if s =? 0 then 0 else (s - 1) mod 65535 + 1.

Definition header_valid (bytes : list Z) : bool := ones_sum (header_words bytes) =? 0xFFFF.

(** ** Lemmas *)
Definition osum (s : Z) : Z := if s =? 0 then 0 else (s - 1) mod 65535 + 1.

Lemma osum_range s : 0 <= s -> 0 <= osum s <= 65535.
Proof.
  intros Hs. unfold osum. pose proof (Z.mod_pos_bound (s - 1) 65535 ltac:(lia)).
  destruct (s =? 0); lia.
Qed.

Lemma osum_unique s r : 0 < s -> 1 <= r <= 65535 -> (s - r) mod 65535 = 0 -> osum s = r.
Proof.
  intros Hs Hr H. unfold osum. destruct (Z.eqb_spec s 0); [lia|].
  apply Z.mod_divide in H as [q Hq]; [|lia].
  rewrite <- (Z.mod_unique_pos (s - 1) 65535 q (r - 1)); lia.
Qed.

Lemma osum_mod s : 0 < s -> exists q, s = osum s + 65535 * q.
Proof.
  intros Hs. unfold osum. destruct (Z.eqb_spec s 0); [lia|].
  exists ((s - 1) / 65535). pose proof (Z.div_mod (s - 1) 65535 ltac:(lia)). lia.
Qed.

(** One addition with end-around carry. *)
Lemma seed_step_osum s w :
  0 <= s -> is_u 16 w -> seed_step (osum s) w = osum (s + w).
Proof.
  unfold is_u. intros Hs Hw. pose proof (osum_range s Hs) as Hr. unfold seed_step.
  change (2 ^ 16) with 65536 in Hw.
  rewrite (wrap_small 32 (osum s + w)) by (unfold is_u; lia).
  destruct (Z.eq_dec s 0) as [->|Hs0].
  - change (osum 0) with 0. rewrite !Z.add_0_l. destruct (Z.ltb_spec 0xFFFF w); [lia|].
    destruct (Z.eq_dec w 0) as [->|]; [done|]. symmetry. apply osum_unique; [lia..|].
    by rewrite Z.sub_diag.
  - assert (Hp : 1 <= osum s).
    { unfold osum. pose proof (Z.mod_pos_bound (s - 1) 65535 ltac:(lia)).
      destruct (Z.eqb_spec s 0); lia. }
    destruct (osum_mod s ltac:(lia)) as [q Hq].
    symmetry. destruct (Z.ltb_spec 0xFFFF (osum s + w)).
    + change 0xFFFF with (Z.ones 16). rewrite wrap_ones by lia.
      assert (E : wrap 16 (osum s + w) = osum s + w - 65536).
      { unfold wrap. symmetry. apply Z.mod_unique_pos with 1; lia. }
      rewrite E, (wrap_small 32) by (unfold is_u; lia).
      apply osum_unique; [lia..|]. apply Z.mod_divide; [lia|]. exists (q + 1). lia.
    + apply osum_unique; [lia..|]. apply Z.mod_divide; [lia|]. exists q. lia.
Qed.

Lemma seed_fold s ws :
  0 <= s -> Forall (is_u 16) ws -> foldl seed_step (osum s) ws = osum (s + foldr Z.add 0 ws).
Proof.
  intros Hs Hw. revert s Hs. induction Hw as [|w ws Hw Hws IH]; intros s Hs; cbn [foldl foldr].
  - by rewrite Z.add_0_r.
  - rewrite seed_step_osum by done. unfold is_u in Hw. rewrite IH by lia. f_equal. lia.
Qed.

Lemma header_words_u16 bytes : Forall (is_u 16) (header_words bytes).
Proof.
  revert bytes. fix IH 1. intros [|a [|b rest]]; cbn [header_words]; [constructor..|].
  constructor; [apply wrap_range; lia|]. apply IH.
Qed.

(** The sum of the words the driver adds up. *)
Definition header_sum (src_ip dest_ip : Z) : Z :=
  foldr Z.add 0 (header_words (header_bytes src_ip dest_ip)).

Lemma header_sum_pos src dst : 0 < header_sum src dst.
Proof.
  unfold header_sum, header_bytes. cbn [header_words foldr].
  change (u16 (Z.lor (Z.shiftl 0x45 8) 0)) with 0x4500.
  pose proof (header_words_u16 (header_bytes src dst)) as Hw.
  unfold header_bytes in Hw. cbn [header_words] in Hw. unfold is_u in Hw.
  repeat (apply Forall_cons in Hw as [? Hw]). lia.
Qed.

Lemma seed_value src dst :
  calculate_checksum_seed src dst = Ok (osum (header_sum src dst)).
Proof.
  pose proof (header_words_u16 (header_bytes src dst)) as Hw.
  pose proof (header_sum_pos src dst) as Hs.
  assert (E : foldl seed_step 0 (header_words (header_bytes src dst)) = osum (header_sum src dst)).
  { change 0 with (osum 0) at 1. by rewrite seed_fold by (done || lia). }
  unfold calculate_checksum_seed. cbn zeta. rewrite E. pose proof (osum_range (header_sum src dst) ltac:(lia)).
  destruct (Z.leb_spec (osum (header_sum src dst)) 0xFFFF); [|lia].
  by rewrite wrap_small by (unfold is_u; lia).
Qed.

(** Words made of two bytes. *)
Lemma word_of_bytes a b : is_u 8 a -> is_u 8 b -> u16 (Z.lor (Z.shiftl a 8) b) = 256 * a + b.
Proof.
  intros Ha Hb. assert (Hd : Z.land (Z.shiftl a 8) b = 0).
  { apply Z.bits_inj'. intros i Hi. rewrite Z.land_spec, testbit_shiftl, Z.bits_0.
    destruct (Z.lt_ge_cases i 8).
    - by rewrite (Z.testbit_neg_r a), andb_false_r by lia.
    - by rewrite (testbit_high 8 b), andb_false_r. }
  assert (E : Z.lor (Z.shiftl a 8) b = 256 * a + b).
  { rewrite <- Z.lxor_lor, <- Z.add_nocarry_lxor by done.
    rewrite Z.shiftl_mul_pow2 by lia. change (2 ^ 8) with 256. lia. }
  rewrite E. apply wrap_small. unfold is_u in *. change (2 ^ 16) with 65536. change (2 ^ 8) with 256 in *. lia.
Qed.

(** The words of the header the hardware emits, and their sum. *)
Lemma slice_byte x hi lo : hi - lo = 7 -> is_u 8 (slice x hi lo).
Proof. intros E. apply slice_range; lia. Qed.

Lemma framer_header_sum c payload :
  foldr Z.add 0 (header_words (framer_ip_header c payload)) =
  header_sum (src_address c) (destination_address c) + framer_ip_length payload
    + framer_checksum c (framer_ip_length payload).
Proof.
  unfold header_sum, framer_ip_header, header_bytes. cbn [header_words foldr].
  rewrite !land_ff.
  assert (H : forall y w, 0 <= w -> is_u w (wrap w y)) by (intros; by apply wrap_range).
  change (wrap 8 (Z.shiftr ?x ?k)) with (slice x (k + 7) k).
  change (24 + 7) with 31. change (16 + 7) with 23. change (8 + 7) with 15. change (0 + 7) with 7.
  pose proof (slice_word (framer_ip_length payload) ltac:(apply H; lia)).
  pose proof (slice_word (framer_checksum c (framer_ip_length payload)) ltac:(apply H; lia)).
  rewrite !word_of_bytes by (first [by apply slice_byte | apply H; lia | unfold is_u; lia]).
  lia.
Qed.

(** The 16-bit complement, and when it cancels the sum it was made from. *)
Lemma lnot16 x : wrap 16 (Z.lnot (wrap 16 x)) = 65535 - wrap 16 x.
Proof.
  pose proof (wrap_range 16 x ltac:(lia)) as Hx. unfold Z.lnot, is_u in *.
  unfold wrap at 1. symmetry. apply Z.mod_unique_pos with (-1); lia.
Qed.

Lemma checksum_verifies s len :
  0 < s -> 0 <= len <= 65535 ->
  osum (s + len + (65535 - wrap 16 (osum s + len))) = 65535 <-> osum s + len <= 65535.
Proof.
  intros Hs Hl. destruct (osum_mod s Hs) as [q Hq]. pose proof (osum_range s ltac:(lia)) as Hr.
  destruct (Z.le_gt_cases (osum s + len) 65535) as [Hle|Hgt].
  - rewrite (wrap_small 16) by (unfold is_u; lia). split; [done|intros _].
    apply osum_unique; [lia|lia|]. apply Z.mod_divide; [lia|]. exists q. lia.
  - assert (E : wrap 16 (osum s + len) = osum s + len - 65536).
    { unfold wrap. symmetry. apply Z.mod_unique_pos with 1; lia. }
    rewrite E. split; [|lia]. intros Hv. exfalso.
    rewrite (osum_unique _ 1) in Hv; [lia|lia|lia|].
    apply Z.mod_divide; [lia|]. exists (q + 2). lia.
Qed.

(** A configuration whose seed fits its addresses. *)
Lemma header_valid_cfg c payload :
  ip_checksum_init c = ones_sum (header_words (header_bytes (src_address c) (destination_address c))) ->
  0 <= payload < 2048 ->
  header_valid (framer_ip_header c payload) = true <-> ip_checksum_init c + (payload + 28) <= 0xFFFF.
Proof.
  intros Hc Hp. unfold header_valid, ones_sum. rewrite framer_header_sum.
  change (ones_sum (header_words (header_bytes (src_address c) (destination_address c))))
    with (osum (header_sum (src_address c) (destination_address c))) in Hc.
  set (s := header_sum (src_address c) (destination_address c)) in *.
  assert (Hs : 0 < s) by apply header_sum_pos.
  assert (Hlen : framer_ip_length payload = payload + 28)
    by (apply wrap_small; unfold is_u; lia).
  rewrite Hlen. unfold framer_checksum. rewrite Hc, lnot16.
  rewrite Z.eqb_eq. apply (checksum_verifies s (payload + 28)); lia.
Qed.

(** *** The control register, for both drivers *)
Section Control.
Context {D : Device} {base n : Z} {rdata : trace -> Z -> Z} {R : IsRegFile D base n rdata}.
Context (idle : trace -> bool) (Hn : 1 < n)
        (Hcontrol : forall t, rdata t 1 = control_word base (idle t) t).

(** Writing a control word back with bit [k] changed. *)
Lemma control_update t b k u :
  0 <= k < 32 ->
  let v := rdata t 1 in
  let d := if b : bool then set_bit v k else clear_bit v k in
  wdata base (u ++ [wr base 1 d]) 1 = d /\
  (forall i, i = 0 \/ i = 2 -> Z.testbit d i = if i =? k then b else Z.testbit (wdata base t 1) i).
Proof.
  intros Hk v d. split.
  - rewrite wdata_wr by lia. done.
  - intros i Hi. destruct (control_word_bits base (idle t) t) as (Hu & H0 & _ & H2).
    rewrite <- Hcontrol in Hu, H0, H2. fold v in Hu, H0, H2. subst d.
    destruct b; [rewrite testbit_set_bit by lia|rewrite testbit_clear_bit by (done || lia)];
      destruct Hi as [-> | ->]; rewrite ?H0, ?H2; zcases; done.
Qed.

(** Registers other than the control register are not touched. *)
Lemma wdata_control_other t r d : 0 <= r < n -> r <> 1 -> wdata base (t ++ [wr base 1 d]) r = wdata base t r.
Proof. intros. rewrite wdata_wr by lia. by zcases. Qed.
End Control.

(** ** Abstract operations *)
Inductive framer_op := FramerReset | FramerEnable (b : bool) | FramerSetConfig (c : config_t).

Definition framer_prog (this : reg_comp) (op : framer_op) : io busE unit :=
  match op with
  | FramerReset => reset this
  | FramerEnable b => set_enable this b
  | FramerSetConfig c => set_config this c
  end.

Definition framer_spec (op : framer_op) (f : framer_config) : framer_config :=
  match op with
  | FramerReset =>
      FramerConfig (framer_enable f) false (source_port f) (destination_port f)
        (src_address f) (destination_address f) (ip_checksum_init f)
  | FramerEnable b =>
      FramerConfig b (framer_reset f) (source_port f) (destination_port f)
        (src_address f) (destination_address f) (ip_checksum_init f)
  | FramerSetConfig c =>
      FramerConfig (framer_enable f) (framer_reset f) (u16 (src_port c)) (u16 (dst_port c))
        (src_ip c) (dst_ip c) (ones_sum (header_words (header_bytes (src_ip c) (dst_ip c))))
  end.

Fixpoint framer_ops (this : reg_comp) (ops : list framer_op) : io busE unit :=
  match ops with
  | [] => mret tt
  | op :: ops' => _ ← framer_prog this op; framer_ops this ops'
  end.

Section OnFramer.
Context {D : Device} {base : Z} {idle : trace -> bool} {F : IsFramer D base idle}.

Lemma framer_control t : framer_rdata base idle t 1 = control_word base (idle t) t.
Proof. done. Qed.

Lemma framer_set_control t u b k (v := framer_rdata base idle t 1)
    (d := if b : bool then set_bit v k else clear_bit v k) :
  0 <= k < 32 -> (forall r, wdata base u r = wdata base t r) ->
  framer_cfg base (u ++ [wr base 1 d]) =
  FramerConfig (if k =? 0 then b else framer_enable (framer_cfg base t))
    (if k =? 2 then b else framer_reset (framer_cfg base t)) (source_port (framer_cfg base t))
    (destination_port (framer_cfg base t)) (src_address (framer_cfg base t))
    (destination_address (framer_cfg base t)) (ip_checksum_init (framer_cfg base t)).
Proof.
  intros Hk Hu.
  destruct (control_update (n := C_UDP_IP_FRAMER_COMP_NUM_REGS) idle ltac:(reg_bounds) framer_control
              t b k u Hk) as [Hw Hb].
  unfold framer_cfg. cbn [framer_enable framer_reset source_port destination_port src_address
    destination_address ip_checksum_init].
  fold v in Hw, Hb. fold d in Hw, Hb. rewrite Hw, !(wdata_control_other (n := C_UDP_IP_FRAMER_COMP_NUM_REGS) ltac:(reg_bounds) u _ d) by reg_bounds.
  rewrite !Hu, !Hb by tauto.
  by rewrite (Z.eqb_sym 0 k), (Z.eqb_sym 2 k).
Qed.

Lemma run_framer_reset t :
  let v := framer_rdata base idle t 1 in
  run (reset (udp_framer_at base)) t =
    (Ok tt, (((t ++ [rd base 1 v]) ++ [wr base 1 (set_bit v 2)]) ++ [EvSleep 100])
              ++ [wr base 1 (clear_bit v 2)]).
Proof. unfold reset, udp_framer_at. by drive. Qed.

Lemma run_framer_op op t :
  exists t', run (framer_prog (udp_framer_at base) op) t = (Ok tt, t') /\
    framer_cfg base t' = framer_spec op (framer_cfg base t).
Proof.
  destruct op as [|b|c]; cbn [framer_prog framer_spec].
  - rewrite run_framer_reset. eexists. split; [reflexivity|].
    set (v := framer_rdata base idle t 1).
    set (u := ((t ++ [rd base 1 v]) ++ [wr base 1 (set_bit v 2)]) ++ [EvSleep 100]).
    (* the last write depends only on the word read first *)
    assert (E : forall d, framer_cfg base (u ++ [wr base 1 d]) = framer_cfg base (t ++ [wr base 1 d])).
    { intros d. unfold framer_cfg, u. rewrite !wdata_wr by reg_bounds. cbn [Z.eqb Pos.eqb].
      by rewrite !wdata_sleep, !wdata_wr, !wdata_rd by reg_bounds. }
    rewrite E. by apply (framer_set_control t t false 2).
  - unfold set_enable, udp_framer_at. drive. eexists. split; [reflexivity|].
    apply (framer_set_control t _ b 0); [lia|]. intros r. by rewrite wdata_rd.
  - unfold set_config, udp_framer_at. drive. rewrite seed_value. cbn [run]. drive.
    eexists. split; [reflexivity|]. unfold framer_cfg. rewrite !wdata_wr by reg_bounds.
    cbn [Z.eqb Pos.eqb framer_enable framer_reset]. f_equal.
    pose proof (header_sum_pos (src_ip c) (dst_ip c)).
    apply wrap_small. pose proof (osum_range (header_sum (src_ip c) (dst_ip c)) ltac:(lia)) as Hr.
    unfold osum, header_sum in Hr |- *. unfold ones_sum, is_u. lia.
Qed.
End OnFramer.

(** ** Properties *)

(** C31. [calculate_checksum_seed] is the one's-complement sum of the header
    words with length and checksum zero, for all addresses: folding the carry
    after each addition is enough, and the assertion never fails. *)
Theorem checksum_seed_correct src dst :
  calculate_checksum_seed src dst = Ok (ones_sum (header_words (header_bytes src dst))).
Proof. apply seed_value. Qed.

(** C30. Driver and hardware together: after [set_config] the IP header the framer
    builds for a payload is valid exactly when seed and total length add up
    without a carry out of sixteen bits.  The hardware drops that carry, so for
    the remaining lengths every datagram carries a wrong header checksum. *)
Theorem framed_header_valid_iff D base idle `{!IsFramer D base idle} cfg t payload :
  0 <= payload < 2048 ->
  exists t' seed,
    run (set_config (udp_framer_at base) cfg) t = (Ok tt, t') /\
    calculate_checksum_seed (src_ip cfg) (dst_ip cfg) = Ok seed /\
    (header_valid (framer_ip_header (framer_cfg base t') payload) = true <->
       seed + (payload + 28) <= 0xFFFF).
Proof.
  intros Hp. destruct (run_framer_op (base := base) (FramerSetConfig cfg) t) as (t' & Hr & Hc).
  exists t', (osum (header_sum (src_ip cfg) (dst_ip cfg))).
  split; [exact Hr|]. split; [apply seed_value|].
  rewrite Hc. by apply header_valid_cfg.
Qed.

(** The framer driver refines its abstract configuration over any sequence of
    calls, and [reset] pulses the reset bit: it is set for the 100 us wait and
    clear afterwards, with enable, ports and addresses unchanged throughout. *)
Theorem framer_driver_refines D base idle `{!IsFramer D base idle} t :
  (forall ops, exists t', run (framer_ops (udp_framer_at base) ops) t = (Ok tt, t') /\
     framer_cfg base t' = foldl (fun c op => framer_spec op c) (framer_cfg base t) ops) /\
  (exists t1 d, run (reset (udp_framer_at base)) t = (Ok tt, (t1 ++ [EvSleep 100]) ++ [wr base 1 d]) /\
     let c := framer_cfg base t in
     framer_cfg base t1 = FramerConfig (framer_enable c) true (source_port c) (destination_port c)
                            (src_address c) (destination_address c) (ip_checksum_init c)).
Proof.
  split.
  - intros ops. revert t. induction ops as [|op ops IH]; intros t; cbn [framer_ops foldl].
    + by exists t.
    + destruct (run_framer_op (base := base) op t) as (t1 & Hr & Hc).
      destruct (IH t1) as (t' & Hr' & Hc'). exists t'. by rewrite run_bind, Hr, <- Hc.
  - eexists _, _. split; [apply run_framer_reset|]. cbn zeta.
    apply (framer_set_control t _ true 2); [lia|]. intros r. by rewrite wdata_rd.
Qed.

(** ** Witnesses *)
Definition example_framer : Device := reg_file 0x200 7 (framer_rdata 0x200 (fun _ => true)).
#[export] Instance example_framer_ok : IsFramer example_framer 0x200 (fun _ => true).
Proof. apply reg_file_ok; reg_bounds. Qed.

(** From 192.168.0.1 to 10.0.111.224 a 100-byte payload gets a broken header. *)
Lemma framed_header_valid_iff_witness :
  exists t' seed,
    run (Handler0 := @trace_handler example_framer)
      (set_config (udp_framer_at 0x200) (Config 0xC0A80001 0x0A006FE0 6000 6000)) [] = (Ok tt, t') /\
    calculate_checksum_seed 0xC0A80001 0x0A006FE0 = Ok seed /\ seed = 0xFF9B /\
    header_valid (framer_ip_header (framer_cfg 0x200 t') 100) = false.
Proof.
  destruct (framed_header_valid_iff example_framer 0x200 (fun _ => true)
    (Config 0xC0A80001 0x0A006FE0 6000 6000) [] 100 ltac:(lia)) as (t' & seed & Hr & Hs & Hv).
  exists t', seed. split; [exact Hr|]. split; [exact Hs|].
  vm_compute in Hs. injection Hs as <-. split; [vm_compute; reflexivity|].
  apply not_true_iff_false. intros H. apply Hv in H. lia.
Defined.

Lemma framer_driver_refines_witness :
  exists t', run (Handler0 := @trace_handler example_framer)
      (framer_ops (udp_framer_at 0x200)
         [FramerReset; FramerSetConfig (Config 0xC0A80002 0xC0A80001 6000 6001); FramerEnable true]) []
      = (Ok tt, t') /\
    framer_cfg 0x200 t' = FramerConfig true false 6000 6001 0xC0A80002 0xC0A80001 0x4666.
Proof.
  destruct (proj1 (framer_driver_refines example_framer 0x200 (fun _ => true) [])
    [FramerReset; FramerSetConfig (Config 0xC0A80002 0xC0A80001 6000 6001); FramerEnable true])
    as (t' & Hr & Hc).
  exists t'. split; [exact Hr|]. rewrite Hc. vm_compute. reflexivity.
Defined.
