(* ===== verification/UdpDeframer.v ===== *)
(** * UDP deframer driver: [example/cpp/udp_deframer_comp.hpp] and [.cpp]

    Control, configuration and counters of the deframer, refining
    [deframer_config] of UdpDevice.v. *)

From S2P Require Import Prelude Effects Utils RegInterface RegFile MacDevice UdpDevice UdpFramer.

Definition udp_ip_deframer_component_id : Z := 106.
Definition reg_num_control : Z := 1.
Definition reg_num_dst_port : Z := 3.
Definition reg_num_dst_addr : Z := 4.
Definition reg_num_broadcast_addr : Z := 5.
Definition reg_num_valid_pkt_count : Z := 6.
Definition reg_num_dropped_pkt_count : Z := 7.
#[export] Hint Unfold reg_num_control reg_num_dst_port reg_num_dst_addr reg_num_broadcast_addr
  reg_num_valid_pkt_count reg_num_dropped_pkt_count : regs.

Record config_t := Config { ip : Z; broadcast_ip : Z; port : Z }.

Definition udp_deframer_at (offset : Z) : reg_comp := RegComp offset udp_ip_deframer_component_id.
Definition udp_deframer_comp_new (offset : Z) : io busE reg_comp :=
  let this := udp_deframer_at offset in
  ok ← probe this;
  if negb ok then io_throw "Failed to probe UDP IP framercomp" else mret this.

Definition reset (c : reg_comp) : io busE unit :=
  reg ← reg_read c reg_num_control;
  _ ← reg_write c reg_num_control (set_bit reg 2);
  _ ← bus_sleep 100;
  reg_write c reg_num_control (clear_bit reg 2).

Definition set_enable (c : reg_comp) (enable : bool) : io busE unit :=
  reg ← reg_read c reg_num_control;
  let reg := if enable then set_bit reg 0 else clear_bit reg 0 in
  reg_write c reg_num_control reg.

Definition get_idle (c : reg_comp) : io busE bool :=
  reg ← reg_read c reg_num_control; mret (get_bit reg 1).

Definition set_config (c : reg_comp) (config : config_t) : io busE unit :=
  _ ← reg_write c reg_num_dst_port (port config);
  _ ← reg_write c reg_num_dst_addr (ip config);
  reg_write c reg_num_broadcast_addr (broadcast_ip config).

Definition get_valid_packet_count (c : reg_comp) : io busE Z :=
  v ← reg_read c reg_num_valid_pkt_count; mret (u16 v).
Definition get_dropped_packet_count (c : reg_comp) : io busE Z :=
  v ← reg_read c reg_num_dropped_pkt_count; mret (u16 v).

(** ** Abstract operations *)
Inductive deframer_op := DeframerReset | DeframerEnable (b : bool) | DeframerSetConfig (c : config_t).

Definition deframer_prog (this : reg_comp) (op : deframer_op) : io busE unit :=
  match op with
  | DeframerReset => reset this
  | DeframerEnable b => set_enable this b
  | DeframerSetConfig c => set_config this c
  end.

Definition deframer_spec (op : deframer_op) (f : deframer_config) : deframer_config :=
  match op with
  | DeframerReset =>
      DeframerConfig (deframer_enable f) false (deframer_port f) (deframer_address f)
        (broadcast_address f)
  | DeframerEnable b =>
      DeframerConfig b (deframer_reset f) (deframer_port f) (deframer_address f)
        (broadcast_address f)
  | DeframerSetConfig c =>
      DeframerConfig (deframer_enable f) (deframer_reset f) (u16 (port c)) (ip c) (broadcast_ip c)
  end.

Fixpoint deframer_ops (this : reg_comp) (ops : list deframer_op) : io busE unit :=
  match ops with
  | [] => mret tt
  | op :: ops' => _ ← deframer_prog this op; deframer_ops this ops'
  end.

(** ** Lemmas *)
Section OnDeframer.
Context {D : Device} {base : Z} {hw : trace -> deframer_hw} {F : IsDeframer D base hw}.

Lemma deframer_control t :
  deframer_rdata base hw t 1 = control_word base (deframer_idle (hw t)) t.
Proof. done. Qed.

Lemma deframer_set_control t u b k (v := deframer_rdata base hw t 1)
    (d := if b : bool then set_bit v k else clear_bit v k) :
  0 <= k < 32 -> (forall r, wdata base u r = wdata base t r) ->
  deframer_cfg base (u ++ [wr base 1 d]) =
  DeframerConfig (if k =? 0 then b else deframer_enable (deframer_cfg base t))
    (if k =? 2 then b else deframer_reset (deframer_cfg base t))
    (deframer_port (deframer_cfg base t)) (deframer_address (deframer_cfg base t))
    (broadcast_address (deframer_cfg base t)).
Proof.
  intros Hk Hu.
  destruct (control_update (n := C_UDP_IP_DEFRAMER_COMP_NUM_REGS) (fun t => deframer_idle (hw t))
              ltac:(reg_bounds) deframer_control t b k u Hk) as [Hw Hb].
  unfold deframer_cfg. cbn [deframer_enable deframer_reset deframer_port deframer_address
    broadcast_address].
  fold v in Hw, Hb. fold d in Hw, Hb.
  rewrite Hw, !(wdata_control_other (n := C_UDP_IP_DEFRAMER_COMP_NUM_REGS) ltac:(reg_bounds) u _ d)
    by reg_bounds.
  rewrite !Hu, !Hb by tauto. by rewrite (Z.eqb_sym 0 k), (Z.eqb_sym 2 k).
Qed.

Lemma run_deframer_reset t :
  let v := deframer_rdata base hw t 1 in
  run (reset (udp_deframer_at base)) t =
    (Ok tt, (((t ++ [rd base 1 v]) ++ [wr base 1 (set_bit v 2)]) ++ [EvSleep 100])
              ++ [wr base 1 (clear_bit v 2)]).
Proof. unfold reset, udp_deframer_at. by drive. Qed.

Lemma run_deframer_op op t :
  exists t', run (deframer_prog (udp_deframer_at base) op) t = (Ok tt, t') /\
    deframer_cfg base t' = deframer_spec op (deframer_cfg base t).
Proof.
  destruct op as [|b|c]; cbn [deframer_prog deframer_spec].
  - rewrite run_deframer_reset. eexists. split; [reflexivity|].
    set (v := deframer_rdata base hw t 1).
    set (u := ((t ++ [rd base 1 v]) ++ [wr base 1 (set_bit v 2)]) ++ [EvSleep 100]).
    assert (E : forall d, deframer_cfg base (u ++ [wr base 1 d]) = deframer_cfg base (t ++ [wr base 1 d])).
    { intros d. unfold deframer_cfg, u. rewrite !wdata_wr by reg_bounds. cbn [Z.eqb Pos.eqb].
      by rewrite !wdata_sleep, !wdata_wr, !wdata_rd by reg_bounds. }
    rewrite E. by apply (deframer_set_control t t false 2).
  - unfold set_enable, udp_deframer_at. drive. eexists. split; [reflexivity|].
    apply (deframer_set_control t _ b 0); [lia|]. intros r. by rewrite wdata_rd.
  - unfold set_config, udp_deframer_at. drive. eexists. split; [reflexivity|].
    unfold deframer_cfg. by rewrite !wdata_wr by reg_bounds.
Qed.
End OnDeframer.

(** ** Properties *)

(** C39. On a component whose registers hold what is written, the deframer driver refines its
    abstract configuration over any sequence of calls; [reset] holds the reset bit for its 100 us wait and clears it with
    the enable unchanged; the two counters are the hardware's. *)
Theorem deframer_driver_refines D base hw `{!IsDeframer D base hw} t :
  (forall ops, exists t', run (deframer_ops (udp_deframer_at base) ops) t = (Ok tt, t') /\
     deframer_cfg base t' = foldl (fun c op => deframer_spec op c) (deframer_cfg base t) ops) /\
  (exists t1 d, run (reset (udp_deframer_at base)) t =
       (Ok tt, (t1 ++ [EvSleep 100]) ++ [wr base 1 d]) /\
     deframer_reset (deframer_cfg base t1) = true /\
     deframer_enable (deframer_cfg base t1) = deframer_enable (deframer_cfg base t)) /\
  (run (get_valid_packet_count (udp_deframer_at base)) t).1 =
    Ok (wrap 16 (valid_packets_count (hw t))) /\
  (run (get_dropped_packet_count (udp_deframer_at base)) t).1 =
    Ok (wrap 16 (dropped_packets (hw t))).
Proof.
  split_and!.
  - intros ops. revert t. induction ops as [|op ops IH]; intros t; cbn [deframer_ops foldl].
    + by exists t.
    + destruct (run_deframer_op (base := base) op t) as (t1 & Hr & Hc).
      destruct (IH t1) as (t' & Hr' & Hc'). exists t'. by rewrite run_bind, Hr, <- Hc.
  - eexists _, _. split; [apply run_deframer_reset|].
    rewrite (deframer_set_control t _ true 2); [done|lia|]. intros r. by rewrite wdata_rd.
  - unfold get_valid_packet_count, udp_deframer_at. drive. cbn. by rewrite wrap_wrap by lia.
  - unfold get_dropped_packet_count, udp_deframer_at. drive. cbn. by rewrite wrap_wrap by lia.
Qed.

(** ** Witnesses *)
Definition example_deframer_hw (t : trace) : deframer_hw := DeframerHw true 7 (Z.of_nat (length t)) 0.
Definition example_deframer : Device := reg_file 0x300 9 (deframer_rdata 0x300 example_deframer_hw).
#[export] Instance example_deframer_ok : IsDeframer example_deframer 0x300 example_deframer_hw.
Proof. apply reg_file_ok; reg_bounds. Qed.

Lemma deframer_driver_refines_witness :
  exists t', run (Handler0 := @trace_handler example_deframer)
      (deframer_ops (udp_deframer_at 0x300)
         [DeframerReset; DeframerSetConfig (Config 0xC0A80001 0xC0A800FF 6001); DeframerEnable true]) []
      = (Ok tt, t') /\
    deframer_cfg 0x300 t' = DeframerConfig true false 6001 0xC0A80001 0xC0A800FF.
Proof.
  destruct (proj1 (deframer_driver_refines example_deframer 0x300 example_deframer_hw [])
    [DeframerReset; DeframerSetConfig (Config 0xC0A80001 0xC0A800FF 6001); DeframerEnable true])
    as (t' & Hr & Hc).
  exists t'. split; [exact Hr|]. rewrite Hc. vm_compute. reflexivity.
Defined.
