(* ===== verification/UartRegInterface.v ===== *)
(** * Registers over a serial line: [example/cpp/uart_reg_interface.hpp] and [.cpp]

    The implementation of [reg_interface] on a file descriptor.  The operating
    system answers the events [osE]; nothing is assumed of its answers in the
    properties of this file. *)

From S2P Require Import Prelude Effects RegInterface.

(** ** The operating system *)
Record termios := Termios {
  c_iflag : Z; c_oflag : Z; c_cflag : Z; c_lflag : Z; cc_vtime : Z; cc_vmin : Z
}.

(** Values of [<termios.h>] and [<linux/serial.h>], which are the platform's. *)
Record serial_constants := SerialConstants {
  IXON : Z; IXOFF : Z; IXANY : Z; IGNBRK : Z; BRKINT : Z; PARMRK : Z; ISTRIP : Z; INLCR : Z;
  IGNCR : Z; ICRNL : Z; PARENB : Z; CSTOPB : Z; CSIZE : Z; CS8 : Z; CRTSCTS : Z; CREAD : Z;
  CLOCAL : Z; ICANON : Z; ECHO : Z; ECHOE : Z; ECHONL : Z; ISIG : Z; OPOST : Z; ONLCR : Z;
  ASYNC_LOW_LATENCY : Z
}.

Inductive osE : Type -> Type :=
  | OsOpen (dev_name : string) : osE Z
  | OsClose (fd : Z) : osE unit
  | OsTcgetattr (fd : Z) : osE (Z * termios)
  | OsCfsetispeed (tty : termios) (baud : Z) : osE (Z * termios)
  | OsCfsetospeed (tty : termios) (baud : Z) : osE (Z * termios)
  | OsTcsetattr (fd : Z) (tty : termios) : osE Z
  | OsGetSerialFlags (fd : Z) : osE (Z * Z)
  | OsSetSerialFlags (fd flags : Z) : osE Z
  | OsWrite (fd : Z) (bytes : list Z) : osE Z
  | OsRead (fd count : Z) : osE (Z * list Z)
  | OsSleep (microseconds : Z) : osE unit.

Definition os {X} (e : osE X) : io osE X := call_ok e.

(** ** The class *)
Record uart_reg_interface := UartRegInterface { _fd : Z }.

Definition clear_flags (w mask : Z) : Z := Z.land w (not32 mask).

(** The raw 8N1 mode of the constructor. *)
Definition configure_tty (k : serial_constants) (tty : termios) : termios :=
  let i := clear_flags (c_iflag tty) (Z.lor (IXON k) (Z.lor (IXOFF k) (IXANY k))) in
  let i := clear_flags i (Z.lor (IGNBRK k) (Z.lor (BRKINT k) (Z.lor (PARMRK k)
             (Z.lor (ISTRIP k) (Z.lor (INLCR k) (Z.lor (IGNCR k) (ICRNL k))))))) in
  let c := clear_flags (c_cflag tty) (PARENB k) in
  let c := clear_flags c (CSTOPB k) in
  let c := clear_flags c (CSIZE k) in
  let c := Z.lor c (CS8 k) in
  let c := clear_flags c (CRTSCTS k) in
  let c := Z.lor c (Z.lor (CREAD k) (CLOCAL k)) in
  let l := clear_flags (c_lflag tty) (ICANON k) in
  let l := clear_flags l (ECHO k) in
  let l := clear_flags l (ECHOE k) in
  let l := clear_flags l (ECHONL k) in
  let l := clear_flags l (ISIG k) in
  let o := clear_flags (c_oflag tty) (OPOST k) in
  let o := clear_flags o (ONLCR k) in
  Termios i o c l 0 4.

(** [close(_fd); throw] on every failure after [open]. *)
Definition close_and_throw {A} (fd : Z) (what : string) : io osE A :=
  _ ← os (OsClose fd); io_throw what.

Definition uart_new (k : serial_constants) (dev_name : string) (baud_rate : Z)
    : io osE uart_reg_interface :=
  fd ← os (OsOpen dev_name);
  if fd <? 0 then io_throw "Failed to open device" else
  '(r, tty) ← os (OsTcgetattr fd);
  if negb (r =? 0) then close_and_throw fd "tcgetattr error" else
  let tty := configure_tty k tty in
  '(r, tty) ← os (OsCfsetispeed tty baud_rate);
  if negb (r =? 0) then close_and_throw fd "cfsetispeed error" else
  '(r, tty) ← os (OsCfsetospeed tty baud_rate);
  if negb (r =? 0) then close_and_throw fd "cfsetospeed error" else
  r ← os (OsTcsetattr fd tty);
  if negb (r =? 0) then close_and_throw fd "tcsetattr error" else
  '(r, flags) ← os (OsGetSerialFlags fd);
  if negb (r =? 0) then close_and_throw fd "ioctl TIOCGSERIAL error" else
  let flags := Z.lor flags (ASYNC_LOW_LATENCY k) in
  r ← os (OsSetSerialFlags fd flags);
  if negb (r =? 0) then close_and_throw fd "ioctl TIOCSSERIAL error" else
  mret (UartRegInterface fd).

Definition uart_delete (u : uart_reg_interface) : io osE unit := os (OsClose (_fd u)).

(** A 4-byte variable, initially zero, after [read] stored [bytes] at its start. *)
Definition load32 (bytes : list Z) : Z := le_load (take 4 (bytes ++ [0; 0; 0; 0])).

Definition uart_read (u : uart_reg_interface) (address : Z) : io osE Z :=
  let reg := Z.lor 0 (Z.land address (Z.shiftr 0xFFFFFFFF 1)) in
  ret ← os (OsWrite (_fd u) (le_store 4 reg));
  if negb (ret =? 4) then io_throw "Failed to write read address" else
  '(ret, response) ← os (OsRead (_fd u) 4);
  if negb (ret =? 4) then io_throw "Failed to read response" else
  mret (load32 response).

Definition uart_write (u : uart_reg_interface) (address data : Z) : io osE unit :=
  let reg := Z.lor (u32 (Z.shiftl 1 31)) address in
  ret ← os (OsWrite (_fd u) (le_store 4 reg));
  if negb (ret =? 4) then io_throw "Failed to send write address" else
  ret ← os (OsWrite (_fd u) (le_store 4 data));
  if negb (ret =? 4) then io_throw "Failed to send write data" else
  '(ret, response) ← os (OsRead (_fd u) 4);
  if negb (ret =? 4) then io_throw "Failed to read write response" else
  if negb (data =? load32 response) then io_throw "Failed to read back expected value"
  else mret tt.

(** The virtual calls of the drivers; arguments are converted to [uint32_t]. *)
Definition uart_interp (u : uart_reg_interface) : Interp busE osE := fun X e =>
  match e in busE Y return prog osE Y with
  | BusRead a => uart_read u (u32 a)
  | BusWrite a d => uart_write u (u32 a) (u32 d)
  | BusSleep us => trigger (OsSleep us)
  end.

(** ** Any operating system *)
Inductive os_event : Type :=
  | OsEv (X : Type) (e : osE X) (x : X).
Arguments OsEv {X} e x.
Class Os := os_answer : forall X, list os_event -> osE X -> X.
#[export] Instance os_handler `{Os} : Handler osE (list os_event) := fun X e t =>
  let x := os_answer X t e in (x, t ++ [OsEv e x]).

(** What happens to file descriptors. *)
Inductive fd_event := FdOpen (fd : Z) | FdClose (fd : Z).
Definition fd_events (ev : os_event) : list fd_event :=
  match ev with
  | OsEv e x =>
      (match e in osE Y return Y -> list fd_event with
       | OsOpen _ => fun fd => if fd <? 0 then [] else [FdOpen fd]
       | OsClose fd => fun _ => [FdClose fd]
       | _ => fun _ => []
       end) x
  end.
Definition fd_log (t : list os_event) : list fd_event := flat_map fd_events t.

(** ** Lemmas *)
Lemma run_os `{Os} {X} (e : osE X) t :
  run (os e) t = (Ok (os_answer X t e), t ++ [OsEv e (os_answer X t e)]).
Proof. done. Qed.

Lemma fd_log_snoc t ev : fd_log (t ++ [ev]) = fd_log t ++ fd_events ev.
Proof. unfold fd_log. rewrite flat_map_app. cbn. by rewrite app_nil_r. Qed.

Ltac os_step := rewrite run_bind, run_os; cbn beta iota.

(** Worlds that record the system calls, and what the class does there with
    descriptors. *)
Class OsLog (W : Type) `{!Handler osE W} (log : W -> list os_event) : Prop :=
  os_logged X (e : osE X) w : log (handle e w).2 = log w ++ [OsEv e (handle e w).1].
#[export] Instance os_handler_log `{Os} : OsLog (list os_event) (fun t => t).
Proof. done. Qed.

Section Descriptors.
Context {W : Type} `{!Handler osE W} {log : W -> list os_event} {OL : OsLog W log}.

Lemma run_call_fds {X} (e : osE X) w :
  exists x w', run (os e) w = (Ok x, w') /\ fd_log (log w') = fd_log (log w) ++ fd_events (OsEv e x).
Proof.
  unfold os. rewrite run_call_ok. pose proof (os_logged X e w) as E.
  destruct (handle e w) as [x w']. cbn [fst snd] in E. exists x, w'. by rewrite E, fd_log_snoc.
Qed.

(** How the constructor may end: [open] failed; or it closed what it opened. *)
Definition constructor_fds (fds : list fd_event) (o : result uart_reg_interface * W) : Prop :=
  match o with
  | (Ok u, w) => 0 <= _fd u /\ fd_log (log w) = fds ++ [FdOpen (_fd u)]
  | (Err e, w) =>
      (e = Exn "Failed to open device" /\ fd_log (log w) = fds) \/
      (exists fd, 0 <= fd /\ fd_log (log w) = fds ++ [FdOpen fd; FdClose fd])
  end.

Lemma close_fds fds fd what w :
  0 <= fd -> fd_log (log w) = fds ++ [FdOpen fd] ->
  constructor_fds fds (run (close_and_throw fd what) w).
Proof.
  intros Hfd Hw. unfold close_and_throw. destruct (run_call_fds (OsClose fd) w) as (x & w' & R & L).
  rewrite run_bind, R. right. exists fd. split; [done|].
  rewrite L, Hw, <- app_assoc. done.
Qed.

(** One call that neither opens nor closes; [H] says which descriptors are open. *)
Ltac os_call H :=
  match goal with |- context [run (mbind _ (os ?e)) ?w] =>
    let x := fresh "x" in let w' := fresh "w" in let R := fresh "R" in let L := fresh "L" in
    destruct (run_call_fds e w) as (x & w' & R & L); rewrite run_bind, R; cbn beta iota;
    cbn [fd_events] in L; rewrite H, ?app_nil_r in L; clear R H; rename L into H
  end.

Lemma uart_new_fds k dev baud w : constructor_fds (fd_log (log w)) (run (uart_new k dev baud) w).
Proof.
  unfold uart_new. generalize (eq_refl (fd_log (log w))).
  generalize (fd_log (log w)) at 2 3 as fds. intros fds Hw. os_call Hw.
  destruct (Z.ltb_spec x 0) as [Hneg|Hpos]; [left; by rewrite Hw, ?app_nil_r|].
  do 3 (os_call Hw; destruct (_ : Z * _) as [??]; destruct (_ =? 0); [|by apply close_fds];
        cbn [negb]).
  os_call Hw; destruct (_ =? 0); [|by apply close_fds]; cbn [negb].
  os_call Hw; destruct (_ : Z * _) as [??]; destruct (_ =? 0); [|by apply close_fds]; cbn [negb].
  os_call Hw; destruct (_ =? 0); [|by apply close_fds]; cbn [negb]. by split.
Qed.

Lemma uart_delete_fds u w :
  exists w', run (uart_delete u) w = (Ok tt, w') /\
    fd_log (log w') = fd_log (log w) ++ [FdClose (_fd u)].
Proof. destruct (run_call_fds (OsClose (_fd u)) w) as ([] & w' & R & L). by exists w'. Qed.

(** Register accesses leave descriptors alone. *)
Lemma uart_interp_fds u X (e : busE X) w :
  fd_log (log (run (uart_interp u X e) w).2) = fd_log (log w).
Proof.
  generalize (eq_refl (fd_log (log w))). generalize (fd_log (log w)) at 2 3 as fds. intros fds Hw.
  destruct e as [a|a d|us]; cbn [uart_interp]; unfold uart_read, uart_write.
  - os_call Hw. destruct (negb _); [done|]. os_call Hw. destruct (_ : Z * _) as [r bytes].
    by destruct (negb _).
  - os_call Hw. destruct (negb _); [done|]. os_call Hw. destruct (negb _); [done|]. os_call Hw.
    destruct (_ : Z * _) as [r bytes]. destruct (negb _); [done|]. by destruct (negb _).
  - cbn. pose proof (os_logged _ (OsSleep us) w) as L. destruct (handle (OsSleep us) w) as [x w'].
    cbn [fst snd] in *. by rewrite L, fd_log_snoc, Hw, app_nil_r.
Qed.
End Descriptors.

(** ** Properties *)

(** No descriptor leaks.  For every behaviour of the operating system the
    constructor either returns an object owning the one descriptor it opened, or
    throws after closing the descriptor it opened (if any) exactly once; the
    destructor closes the object's descriptor. *)
Theorem uart_new_no_leak `{Os} k dev baud t :
  match run (uart_new k dev baud) t with
  | (Ok u, t') =>
      0 <= _fd u /\ fd_log t' = fd_log t ++ [FdOpen (_fd u)] /\
      fd_log (run (uart_delete u) t').2 = fd_log t ++ [FdOpen (_fd u); FdClose (_fd u)]
  | (Err e, t') =>
      (e = Exn "Failed to open device" /\ fd_log t' = fd_log t) \/
      (exists fd, 0 <= fd /\ fd_log t' = fd_log t ++ [FdOpen fd; FdClose fd])
  end.
Proof.
  pose proof (uart_new_fds (log := fun t => t) k dev baud t) as Hf.
  destruct (run (uart_new k dev baud) t) as [[u|e] t']; [|exact Hf].
  destruct Hf as [Hu Hl]. split; [done|]. split; [exact Hl|].
  unfold uart_delete. rewrite run_os. cbn [snd]. rewrite fd_log_snoc, Hl, <- app_assoc. done.
Qed.

(** C37. What a normal return means, for every behaviour of the operating system: a
    read sent the four address bytes, low byte first and with bit 31 clear, and
    got exactly four bytes back; a write sent address (bit 31 set) and data and
    got its data echoed.  Short transfers and failed echoes always throw. *)
Theorem uart_success_means `{Os} u a d t :
  (forall v t', run (uart_read u a) t = (Ok v, t') ->
     exists bytes, v = load32 bytes /\
       t' = t ++ [OsEv (OsWrite (_fd u) (le_store 4 (wrap 31 a))) 4;
                  OsEv (OsRead (_fd u) 4) (4, bytes)]) /\
  (forall t', run (uart_write u a d) t = (Ok tt, t') ->
     exists bytes, load32 bytes = d /\
       t' = t ++ [OsEv (OsWrite (_fd u) (le_store 4 (Z.lor (2 ^ 31) a))) 4;
                  OsEv (OsWrite (_fd u) (le_store 4 d)) 4;
                  OsEv (OsRead (_fd u) 4) (4, bytes)]).
Proof.
  split.
  - intros v t'. unfold uart_read. change (Z.shiftr 0xFFFFFFFF 1) with (Z.ones 31).
    rewrite wrap_ones by lia. change (Z.lor 0 (wrap 31 a)) with (wrap 31 a). os_step.
    destruct (Z.eqb_spec (os_answer Z t (OsWrite (_fd u) (le_store 4 (wrap 31 a)))) 4) as [->|];
      cbn [negb]; [|discriminate].
    os_step. destruct (os_answer (Z * list Z) _ _) as [r bytes].
    destruct (Z.eqb_spec r 4) as [->|]; cbn [negb]; [|discriminate].
    rewrite run_ret. intros [= <- <-]. exists bytes. by rewrite <- app_assoc.
  - intros t'. unfold uart_write. change (u32 (Z.shiftl 1 31)) with (2 ^ 31). os_step.
    destruct (Z.eqb_spec (os_answer Z t (OsWrite (_fd u) (le_store 4 (Z.lor (2 ^ 31) a)))) 4) as [->|];
      cbn [negb]; [|discriminate].
    os_step.
    match goal with |- context [os_answer Z ?t1 ?e =? 4] =>
      destruct (Z.eqb_spec (os_answer Z t1 e) 4) as [->|] end; cbn [negb]; [|discriminate].
    os_step. destruct (os_answer (Z * list Z) _ _) as [r bytes].
    destruct (Z.eqb_spec r 4) as [->|]; cbn [negb]; [|discriminate].
    destruct (Z.eqb_spec d (load32 bytes)) as [->|]; cbn [negb]; [|discriminate].
    rewrite run_ret. intros [= <-]. exists bytes. by rewrite <- !app_assoc.
Qed.

(** ** Witnesses *)

(** A system on which every call succeeds and reads return the bytes 1, 2, 3, 4. *)
Definition example_os : Os := fun X t e =>
  match e in osE Y return Y with
  | OsOpen _ => 3
  | OsClose _ => tt
  | OsTcgetattr _ => (0, Termios 0 0 0 0 0 0)
  | OsCfsetispeed tty _ => (0, tty)
  | OsCfsetospeed tty _ => (0, tty)
  | OsTcsetattr _ _ => 0
  | OsGetSerialFlags _ => (0, 0)
  | OsSetSerialFlags _ _ => 0
  | OsWrite _ bytes => Z.of_nat (length bytes)
  | OsRead _ _ => (4, [1; 2; 3; 4])
  | OsSleep _ => tt
  end.

Lemma uart_success_means_witness :
  (exists bytes, 0x04030201 = load32 bytes) /\
  fst (run (Handler0 := @os_handler example_os) (uart_write (UartRegInterface 3) 0x307 0x04030201) [])
    = Ok tt.
Proof.
  split; [|vm_compute; reflexivity].
  destruct (proj1 (@uart_success_means example_os (UartRegInterface 3) 0x300 0 []) 0x04030201
    (snd (run (Handler0 := @os_handler example_os) (uart_read (UartRegInterface 3) 0x300) [])))
    as (bytes & E & _).
  - vm_compute. reflexivity.
  - exists bytes. exact E.
Defined.
