(* ===== verification/UartLink.v ===== *)
(** * The serial link end to end

    The FPGA end of the link ([src/vhdl/uart_apb_bridge/uart_apb_bridge.vhd]) at
    the granularity of received bytes, and the proof that the host class and
    the bridge together are a register bus. *)

From S2P Require Import Prelude Effects RegInterface UartRegInterface.

(** ** The APB side *)

(** Components on the APB bus answer every access and may change with it. *)
Class Apb (W : Type) := {
  apb_read : Z -> W -> Z * W;
  apb_write : Z -> Z -> W -> W;
  apb_wait : Z -> W -> W
}.

(** ** The bridge

    [rx_buffer] holds the bytes of the word being received ([rx_counter_u] is
    its length); [fsm_state] is kept between words, where the machine is either
    idle or waits for write data with the latched slave and register. *)
Inductive state_t :=
  | S_IDLE
  | S_WAIT_FOR_WRITE_DATA (addr : Z).
Record bridge := Bridge { rx_buffer : list Z; fsm_state : state_t }.
Definition bridge_reset : bridge := Bridge [] S_IDLE.

Section Bridge.
(** [C_LOG2_NUM_SLAVES + G_ADDR_BITS_PER_SLAVE]. *)
Variable addr_bits : Z.
Context {W : Type} `{!Apb W}.

(** Slave select and register address, as one number. *)
Definition bridge_addr (word : Z) : Z := wrap addr_bits word.

(** A received word: new state, transmitted bytes, new APB world. *)
Definition bridge_word (s : state_t) (word : Z) (w : W) : state_t * list Z * W :=
  match s with
  | S_IDLE =>
      if Z.testbit word 31 then (S_WAIT_FOR_WRITE_DATA (bridge_addr word), [], w)
      else let (data, w') := apb_read (bridge_addr word) w in (S_IDLE, le_store 4 data, w')
  | S_WAIT_FOR_WRITE_DATA addr => (S_IDLE, le_store 4 word, apb_write addr word w)
  end.

Definition bridge_byte (b : bridge) (byte : Z) (w : W) : bridge * list Z * W :=
  let rx := rx_buffer b ++ [byte] in
  if (length rx =? 4)%nat then
    let '(s, tx, w') := bridge_word (fsm_state b) (le_load rx) w in (Bridge [] s, tx, w')
  else (Bridge rx (fsm_state b), [], w).

(** ** The link as the host sees it *)
Record link := Link { l_bridge : bridge; l_tx : list Z; l_bus : W }.

Definition link_byte (l : link) (byte : Z) : link :=
  let '(b, tx, w) := bridge_byte (l_bridge l) byte (l_bus l) in Link b (l_tx l ++ tx) w.
Definition link_bytes (l : link) (bytes : list Z) : link := foldl link_byte l bytes.

#[export] Instance link_os : Handler osE link := fun X e =>
  match e in osE Y return link -> Y * link with
  | OsOpen _ => fun l => (3, l)
  | OsClose _ => fun l => (tt, l)
  | OsTcgetattr _ => fun l => ((0, Termios 0 0 0 0 0 0), l)
  | OsCfsetispeed tty _ => fun l => ((0, tty), l)
  | OsCfsetospeed tty _ => fun l => ((0, tty), l)
  | OsTcsetattr _ _ => fun l => (0, l)
  | OsGetSerialFlags _ => fun l => ((0, 0), l)
  | OsSetSerialFlags _ _ => fun l => (0, l)
  | OsWrite _ bytes => fun l => (Z.of_nat (length bytes), link_bytes l bytes)
  | OsRead _ count => fun l =>
      let n := Nat.min (Z.to_nat count) (length (l_tx l)) in
      ((Z.of_nat n, take n (l_tx l)), Link (l_bridge l) (drop n (l_tx l)) (l_bus l))
  | OsSleep us => fun l => (tt, Link (l_bridge l) (l_tx l) (apb_wait us (l_bus l)))
  end.

(** Between transactions nothing is in flight. *)
Definition in_sync (l : link) : Prop := l_bridge l = bridge_reset /\ l_tx l = [].

(** ** The bus the drivers should see: APB accesses with the address truncated to
    the decoded bits and 32-bit data. *)
#[export] Instance apb_bus : Handler busE W := fun X e =>
  match e in busE Y return W -> Y * W with
  | BusRead a => fun w => let (v, w') := apb_read (bridge_addr a) w in (Ok (u32 v), w')
  | BusWrite a d => fun w => (Ok tt, apb_write (bridge_addr a) (u32 d) w)
  | BusSleep us => fun w => (tt, apb_wait us w)
  end.

(** ** Lemmas *)
Lemma link_word s word l :
  l_bridge l = Bridge [] s ->
  link_bytes l (le_store 4 word) =
    let '(s', tx, w') := bridge_word s (u32 word) (l_bus l) in
    Link (Bridge [] s') (l_tx l ++ tx) w'.
Proof.
  intros Hl. destruct l as [b tx w]. cbn [l_bridge l_tx l_bus] in *. subst b.
  pose proof (le_load_store 4 word) as E. change (8 * Z.of_nat 4) with 32 in E.
  remember (le_store 4 word) as bytes eqn:Hb. pose proof (le_store_length 4 word) as Hlen.
  rewrite <- Hb in Hlen.
  destruct bytes as [|b0 [|b1 [|b2 [|b3 []]]]]; try discriminate.
  unfold link_bytes. cbn [foldl]. unfold link_byte, bridge_byte.
  cbn [l_bridge rx_buffer fsm_state app length Nat.eqb l_tx l_bus].
  rewrite !app_nil_r, E. by destruct (bridge_word s (u32 word) w) as [[s' out] w'].
Qed.

Lemma load32_store x : load32 (le_store 4 x) = u32 x.
Proof.
  unfold load32. pose proof (le_store_length 4 x) as Hl.
  rewrite take_app_le, take_ge by lia. by rewrite (le_load_store 4 x).
Qed.

Lemma os_read_four tx b w :
  length tx = 4%nat ->
  handle (OsRead 3 4) (Link b tx w) = ((4, tx), Link b [] w).
Proof. intros Hl. cbn. rewrite Hl. cbn. by rewrite take_ge, drop_ge by lia. Qed.

Context (Haddr : 0 <= addr_bits <= 31).

Lemma bridge_addr_31 a : bridge_addr (wrap 31 a) = bridge_addr a.
Proof. unfold bridge_addr. zbits. Qed.
Lemma bridge_addr_32 a : bridge_addr (u32 a) = bridge_addr a.
Proof. unfold bridge_addr. zbits. Qed.
Lemma bridge_addr_write a : bridge_addr (u32 (Z.lor (2 ^ 31) (u32 a))) = bridge_addr a.
Proof.
  unfold bridge_addr. change (2 ^ 31) with (Z.shiftl 1 31). zbits_at i.
Qed.

Lemma testbit_31_clear a : Z.testbit (u32 (wrap 31 a)) 31 = false.
Proof. rewrite !testbit_wrap by lia. reflexivity. Qed.
Lemma testbit_31_set a : Z.testbit (u32 (Z.lor (2 ^ 31) a)) 31 = true.
Proof. rewrite testbit_wrap, Z.lor_spec by lia. reflexivity. Qed.

Abbreviation dev := (UartRegInterface 3).

(** One transaction of each kind on an idle link. *)
Lemma uart_read_link a w :
  run (uart_read dev a) (Link bridge_reset [] w) =
    let (v, w') := apb_read (bridge_addr a) w in (Ok (u32 v), Link bridge_reset [] w').
Proof.
  unfold uart_read. change (Z.shiftr 0xFFFFFFFF 1) with (Z.ones 31). rewrite wrap_ones by lia.
  change (Z.lor 0 (wrap 31 a)) with (wrap 31 a). rewrite run_bind. unfold os. rewrite run_call_ok.
  cbn [handle link_os _fd]. rewrite le_store_length, (link_word S_IDLE) by done.
  cbn [l_tx l_bus app]. unfold bridge_word. rewrite testbit_31_clear.
  rewrite bridge_addr_32, bridge_addr_31.
  destruct (apb_read (bridge_addr a) w) as [v w']. cbn beta iota.
  change (negb (Z.of_nat 4 =? 4)) with false. cbn iota.
  rewrite run_bind, run_call_ok, os_read_four by apply le_store_length.
  cbn beta iota. change (negb (4 =? 4)) with false. cbn iota. by rewrite run_ret, load32_store.
Qed.

Lemma uart_write_link a d w :
  is_u 32 d ->
  run (uart_write dev (u32 a) d) (Link bridge_reset [] w) =
    (Ok tt, Link bridge_reset [] (apb_write (bridge_addr a) d w)).
Proof.
  intros Hd. unfold uart_write. change (u32 (Z.shiftl 1 31)) with (2 ^ 31).
  rewrite run_bind. unfold os. rewrite run_call_ok.
  cbn [handle link_os _fd]. rewrite le_store_length, (link_word S_IDLE) by done.
  cbn [l_tx l_bus app]. unfold bridge_word at 1. rewrite testbit_31_set, bridge_addr_write.
  cbn beta iota. change (negb (Z.of_nat 4 =? 4)) with false. cbn iota.
  rewrite run_bind, run_call_ok. cbn [handle link_os _fd].
  rewrite le_store_length, (link_word (S_WAIT_FOR_WRITE_DATA (bridge_addr a))) by done.
  cbn [l_tx l_bus app bridge_word]. cbn beta iota. change (negb (Z.of_nat 4 =? 4)) with false. cbn iota.
  rewrite run_bind, run_call_ok, os_read_four by apply le_store_length.
  cbn beta iota. change (negb (4 =? 4)) with false. cbn iota.
  rewrite load32_store, !(wrap_small 32 d) by done. rewrite Z.eqb_refl. cbn [negb].
  by rewrite run_ret.
Qed.

#[local] Instance dev_interp : Interp busE osE := uart_interp dev.

(** The link answers every bus event as the APB bus does, and stays in sync. *)
Lemma link_simulates :
  simulates (Handler0 := via) (Handler1 := apb_bus) (fun l w => in_sync l /\ l_bus l = w).
Proof.
  intros X e [b tx w0] w [[Hb Ht] Hw]. cbn [l_bridge l_tx l_bus] in *. subst b tx w0.
  destruct e as [a|a d|us].
  - change (handle (BusRead a) (Link bridge_reset [] w)) with
      (run (uart_read dev (u32 a)) (Link bridge_reset [] w)).
    rewrite uart_read_link, bridge_addr_32. cbn [handle apb_bus].
    destruct (apb_read (bridge_addr a) w) as [v w']. done.
  - change (handle (BusWrite a d) (Link bridge_reset [] w)) with
      (run (uart_write dev (u32 a) (u32 d)) (Link bridge_reset [] w)).
    by rewrite uart_write_link by (apply wrap_range; lia).
  - done.
Qed.
End Bridge.
Arguments Link {W}.

(** ** Properties *)

(** C24. The serial register interface implements the bus: a driver run over the
    host class, the byte stream and the bridge gives the same outcome and the
    same component state as the driver run directly on the APB components, and
    leaves no byte and no half-finished transaction on the link. *)
Theorem uart_refines_bus {W} `{!Apb W} addr_bits {A} (p : prog busE A) (w : W) :
  0 <= addr_bits <= 31 ->
  let l := run (Handler0 := link_os addr_bits)
             (translate (Interp0 := uart_interp (UartRegInterface 3)) p) (Link bridge_reset [] w) in
  let b := run (Handler0 := apb_bus addr_bits) p w in
  l.1 = b.1 /\ in_sync l.2 /\ l_bus l.2 = b.2.
Proof.
  intros Ha. cbn zeta. rewrite (run_translate (Interp0 := uart_interp (UartRegInterface 3))).
  destruct (run_simulates _ (link_simulates addr_bits Ha) p (Link bridge_reset [] w) w)
    as (E1 & E2 & E3); [done|].
  by rewrite <- E1, <- E3.
Qed.

(** ** Witnesses *)

(** A memory of registers, as in the component register block. *)
#[export] Instance memory_apb : Apb (gmap Z Z) := {|
  apb_read a m := (default 0 (m !! a), m);
  apb_write a d m := <[a := d]> m;
  apb_wait _ m := m
|}.

Lemma uart_refines_bus_witness :
  (run (Handler0 := link_os 10)
     (translate (Interp0 := uart_interp (UartRegInterface 3))
        (_ ← bus_write 0x307 5; bus_read 0x307)) (Link bridge_reset [] (∅ : gmap Z Z))).1 = Ok 5.
Proof.
  rewrite (proj1 (uart_refines_bus (W := gmap Z Z) 10 (_ ← bus_write 0x307 5; bus_read 0x307) ∅ ltac:(lia))).
  vm_compute. reflexivity.
Defined.
