(* ===== verification/UartFrame.v ===== *)
(** * What the two UARTs share: the baud generator and frames on the line

    The constants and the baud process of [uart/axi_uart_tx.vhd] and [uart/axi_uart_rx.vhd] (the text is
    the same in both), and the levels of a frame: a start bit, eight data bits from the lowest on, a
    stop bit. *)

From S2P Require Import Prelude.

(** ** The baud generator *)
Section Baud.
(** [G_CLK_RATE_Hz / G_BAUD_RATE_Hz]. *)
Context (C_BAUD_PERIOD_INT : Z).

Definition C_BAUD_HALF_PERIOD_INT : Z := C_BAUD_PERIOD_INT / 2.
Definition baud_width : Z := log2_ceil C_BAUD_PERIOD_INT.
Definition half_width : Z := log2_ceil C_BAUD_HALF_PERIOD_INT.
(** [to_unsigned] cuts a value that does not fit. *)
Definition C_BAUD_PERIOD_U : Z := wrap baud_width C_BAUD_PERIOD_INT.
Definition C_BAUD_HALF_PERIOD_U : Z := wrap half_width C_BAUD_HALF_PERIOD_INT.

Record baud := Baud { baud_counter_u : Z; baud_en : bool }.

Definition baud_clock (rst : bool) (s : baud) : baud :=
  let top := baud_counter_u s =? C_BAUD_PERIOD_U in
  {| baud_counter_u := if rst || top then 0 else wrap baud_width (baud_counter_u s + 1);
     baud_en := negb rst && top |}.

(** The generics give constants that fit their registers. *)
Definition baud_fits : Prop :=
  2 <= C_BAUD_PERIOD_INT /\ C_BAUD_PERIOD_INT < 2 ^ baud_width /\ C_BAUD_HALF_PERIOD_INT < 2 ^ half_width.

Context (Hfits : baud_fits).

Lemma baud_half_bounds : 1 <= C_BAUD_HALF_PERIOD_INT /\ 2 * C_BAUD_HALF_PERIOD_INT <= C_BAUD_PERIOD_INT <= 2 * C_BAUD_HALF_PERIOD_INT + 1.
Proof.
  destruct Hfits as [H2 _]. unfold C_BAUD_HALF_PERIOD_INT.
  pose proof (Z.div_mod C_BAUD_PERIOD_INT 2 ltac:(lia)). pose proof (Z.mod_pos_bound C_BAUD_PERIOD_INT 2 ltac:(lia)). lia.
Qed.

Lemma C_BAUD_PERIOD_U_eq : C_BAUD_PERIOD_U = C_BAUD_PERIOD_INT.
Proof. apply wrap_small. destruct Hfits as (? & ? & _). unfold is_u. lia. Qed.

Lemma C_BAUD_HALF_PERIOD_U_eq : C_BAUD_HALF_PERIOD_U = C_BAUD_HALF_PERIOD_INT.
Proof. apply wrap_small. pose proof baud_half_bounds. destruct Hfits as (_ & _ & ?). unfold is_u. lia. Qed.

Lemma baud_count c en :
  0 <= c < C_BAUD_PERIOD_INT -> baud_clock false (Baud c en) = Baud (c + 1) false.
Proof.
  intros Hc. unfold baud_clock. cbn [baud_counter_u negb andb orb]. rewrite C_BAUD_PERIOD_U_eq.
  destruct (Z.eqb_spec c C_BAUD_PERIOD_INT) as [|_]; [lia|]. f_equal.
  apply wrap_small. destruct Hfits as (_ & H & _). unfold is_u. lia.
Qed.

Lemma baud_top en : baud_clock false (Baud C_BAUD_PERIOD_INT en) = Baud 0 true.
Proof. unfold baud_clock. cbn [baud_counter_u negb andb orb]. by rewrite C_BAUD_PERIOD_U_eq, Z.eqb_refl. Qed.

Lemma baud_restart s : baud_clock true s = Baud 0 false.
Proof. done. Qed.
End Baud.

(** The registers have no room for a power of two: the comparison is then with zero. *)
Lemma baud_fits_iff P :
  4 <= P -> baud_fits P <-> (forall k, 0 <= k -> P <> 2 ^ k) /\ (forall k, 0 <= k -> P / 2 <> 2 ^ k).
Proof.
  intros HP. unfold baud_fits, baud_width, half_width, C_BAUD_HALF_PERIOD_INT, log2_ceil.
  assert (Hh : 2 <= P / 2) by (apply Z.div_le_lower_bound; lia).
  assert (Hlt : forall v, 2 <= v -> v < 2 ^ Z.log2_up v <-> forall k, 0 <= k -> v <> 2 ^ k).
  { intros v Hv. pose proof (Z.log2_up_spec v ltac:(lia)) as [_ H]. split.
    - intros Hl k Hk ->. rewrite Z.log2_up_pow2 in Hl by done. lia.
    - intros Hk. specialize (Hk (Z.log2_up v) (Z.log2_up_nonneg v)). lia. }
  rewrite (Hlt P), (Hlt (P / 2)) by lia. split; [intros (_ & H1 & H2)|intros [H1 H2]]; repeat split; done || lia.
Qed.

(** The example design: 100 MHz and 115200 baud. *)
Lemma design_baud_fits : baud_fits (100000000 / 115200).
Proof. repeat split; done. Qed.

(** ** Frames *)
Definition frame_bits (b : Z) : list bool := [false] ++ (Z.testbit b <$> seqZ 0 8) ++ [true].

(** Bit [i] held for [ds !! i] clocks. *)
Definition hold (ds : list nat) (l : list bool) : list bool := concat (zip_with replicate ds l).

Lemma frame_bits_data b i : (i < 8)%nat -> frame_bits b !! S i = Some (Z.testbit b (Z.of_nat i)).
Proof. intros Hi. do 8 (destruct i as [|i]; [done|]). lia. Qed.

Lemma sum_list_cons (d : nat) ds : sum_list (d :: ds) = (d + sum_list ds)%nat.
Proof. done. Qed.

Lemma hold_lookup ds l k j :
  length ds = length l -> (sum_list (take k ds) <= j < sum_list (take (S k) ds))%nat -> hold ds l !! j = l !! k.
Proof.
  revert l k j. induction ds as [|d ds IH]; intros [|x l] k j Hlen Hj; try discriminate; [destruct k; cbn in Hj; lia|].
  injection Hlen as Hlen. unfold hold in *. cbn [zip_with concat]. destruct k as [|k].
  - change (take 1 (d :: ds)) with (d :: take 0 ds) in Hj. rewrite sum_list_cons, !take_0 in Hj. change (sum_list []) with 0%nat in Hj. rewrite lookup_app_l by (rewrite length_replicate; lia). apply lookup_replicate_2. lia.
  - change (take (S (S k)) (d :: ds)) with (d :: take (S k) ds) in Hj. change (take (S k) (d :: ds)) with (d :: take k ds) in Hj.
    rewrite !sum_list_cons in Hj. rewrite lookup_app_r by (rewrite length_replicate; lia).
    rewrite length_replicate. change ((x :: l) !! S k) with (l !! k). apply IH; [done|lia].
Qed.

Lemma hold_length ds l : length ds = length l -> length (hold ds l) = sum_list ds.
Proof.
  revert l. induction ds as [|d ds IH]; intros [|x l] Hlen; try discriminate; [done|]. injection Hlen as Hlen.
  unfold hold in *. cbn [zip_with concat]. rewrite length_app, length_replicate, IH by done. done.
Qed.

Lemma sum_list_between lo hi ds :
  Forall (fun d => lo <= d <= hi)%nat ds -> (length ds * lo <= sum_list ds <= length ds * hi)%nat.
Proof. induction 1 as [|d ds Hd _ IH]; cbn [length]; [cbn; lia|]. rewrite sum_list_cons. lia. Qed.

Lemma sum_take_between lo hi ds k :
  Forall (fun d => lo <= d <= hi)%nat ds -> (k <= length ds)%nat -> (k * lo <= sum_list (take k ds) <= k * hi)%nat.
Proof.
  intros H Hk. pose proof (sum_list_between lo hi (take k ds)) as Hs. rewrite length_take, Nat.min_l in Hs by lia.
  apply Hs. by apply Forall_take.
Qed.

(** Frames whose bits last from [lo] to [hi] clocks, between idle times of any length. *)
Inductive uart_line (lo hi : nat) : list Z -> list bool -> Prop :=
  | line_idle k : uart_line lo hi [] (replicate k true)
  | line_frame bs l ds b k :
      uart_line lo hi bs l -> length ds = 10%nat -> Forall (fun d => lo <= d <= hi)%nat ds ->
      uart_line lo hi (bs ++ [b]) (l ++ hold ds (frame_bits b) ++ replicate k true).

Lemma uart_line_idle lo hi bs l k : uart_line lo hi bs l -> uart_line lo hi bs (l ++ replicate k true).
Proof.
  intros [k'|bs' l' ds b k' Hl Hds HD].
  - rewrite <- replicate_add. constructor.
  - rewrite <- !app_assoc, <- replicate_add. by constructor.
Qed.

Lemma uart_line_mono lo hi lo' hi' bs l :
  (lo' <= lo)%nat -> (hi <= hi')%nat -> uart_line lo hi bs l -> uart_line lo' hi' bs l.
Proof.
  intros Hlo Hhi. induction 1 as [k|bs l ds b k Hl IH Hds HD]; [constructor|]. constructor; [done|done|].
  eapply Forall_impl; [exact HD|]. cbn. lia.
Qed.

Lemma uart_line_app lo hi bs1 l1 bs2 l2 :
  uart_line lo hi bs1 l1 -> uart_line lo hi bs2 l2 -> uart_line lo hi (bs1 ++ bs2) (l1 ++ l2).
Proof.
  intros H1. induction 1 as [k|bs l ds b k Hl IH Hlen Hds].
  - rewrite app_nil_r. by apply uart_line_idle.
  - rewrite (app_assoc bs1 bs), (app_assoc l1 l). by constructor.
Qed.

(** Frames without gaps. *)
Definition frames (D : nat) (bytes : list Z) : list bool := concat ((fun b => hold (replicate 10 D) (frame_bits b)) <$> bytes).

Lemma frames_line D bytes : uart_line D D bytes (frames D bytes).
Proof.
  induction bytes as [|b bytes IH]; [apply (line_idle _ _ 0)|].
  apply (uart_line_app _ _ [b] (hold (replicate 10 D) (frame_bits b))); [|exact IH].
  pose proof (line_frame D D [] [] (replicate 10 D) b 0 (line_idle _ _ 0) eq_refl) as H. cbn [app replicate] in H.
  rewrite app_nil_r in H. apply H. repeat constructor.
Qed.
