(* ===== verification/UartTx.v ===== *)
(** * The serial transmitter: [uart/axi_uart_tx.vhd]

    The entity clock by clock with frames of eight bits.  Theorem: whatever is offered when, the line carries the bytes taken,
    in order, each in a frame with bits of one baud period and one clock. *)

From S2P Require Import Prelude UartFrame.

Inductive uart_tx_state_t := S_IDLE | S_START_BIT | S_DATA | S_STOP_BIT.

Record uart_tx_regs := TxRegs {
  tx_data : Z;
  tx_data_valid : bool;
  tx_done : bool;
  tx_baud : baud;
  state : uart_tx_state_t;
  tx_bit_count_u : Z;
  tx_out : bool
}.

Definition tready_out (s : uart_tx_regs) : bool := tx_done s || negb (tx_data_valid s).

(** The input stream on a clock. *)
Record tx_in := TxIn { tx_tdata : Z; tx_tvalid : bool }.

Section Tx.
Context (C_BAUD_PERIOD_INT : Z).

Definition uart_tx_clock (rst : bool) (i : tx_in) (s : uart_tx_regs) : uart_tx_regs :=
  let en := baud_en (tx_baud s) in
  let last := en && (tx_bit_count_u s =? 7) in
  {| tx_data := if tready_out s then tx_tdata i else tx_data s;
     tx_data_valid := if rst then false else if tready_out s then tx_tvalid i else tx_data_valid s;
     tx_done := match state s with S_DATA => negb rst && last | _ => false end;
     tx_baud := baud_clock C_BAUD_PERIOD_INT rst (tx_baud s);
     state :=
       if rst then S_IDLE
       else match state s with
            | S_IDLE => if en && tx_data_valid s then S_START_BIT else S_IDLE
            | S_START_BIT => if en then S_DATA else S_START_BIT
            | S_DATA => if last then S_STOP_BIT else S_DATA
            | S_STOP_BIT => if en then S_IDLE else S_STOP_BIT
            end;
     tx_bit_count_u :=
       match state s with
       | S_IDLE => 0
       | S_DATA => if en then wrap 3 (tx_bit_count_u s + 1) else tx_bit_count_u s
       | _ => tx_bit_count_u s
       end;
     tx_out :=
       match state s with
       | S_IDLE | S_STOP_BIT => true
       | S_START_BIT => false
       | S_DATA => Z.testbit (tx_data s) (tx_bit_count_u s)
       end |}.

(** A run: the bytes taken and the levels of the line. *)
Fixpoint uart_tx_run (ins : list tx_in) (s : uart_tx_regs) : uart_tx_regs * list Z * list bool :=
  match ins with
  | [] => (s, [], [])
  | i :: ins' =>
      let s' := uart_tx_clock false i s in
      let '(s'', bs, line) := uart_tx_run ins' s' in
      (s'', (if tready_out s && tx_tvalid i then [tx_tdata i] else []) ++ bs, tx_out s' :: line)
  end.

(** ** The rest of the line *)
Context (Hfits : baud_fits C_BAUD_PERIOD_INT).

Definition bit_clocks : nat := Z.to_nat (C_BAUD_PERIOD_INT + 1).
Definition slow (l : list bool) : list bool := hold (replicate (length l) bit_clocks) l.
Definition rest_bits (b n : Z) : list bool := (Z.testbit b <$> seqZ n (8 - n)) ++ [true].

(** Clocks for which the present state still lasts. *)
Definition left_in (b : baud) : nat :=
  if baud_en b then 1%nat else Z.to_nat (C_BAUD_PERIOD_INT + 2 - baud_counter_u b).

(** What the line carries from here on if nothing more is offered. *)
Definition pending (s : uart_tx_regs) : list bool :=
  let n := left_in (tx_baud s) in
  match state s with
  | S_IDLE => if tx_data_valid s then replicate n true ++ slow (frame_bits (tx_data s)) else []
  | S_START_BIT => replicate n false ++ slow (rest_bits (tx_data s) 0)
  | S_DATA => replicate n (Z.testbit (tx_data s) (tx_bit_count_u s)) ++ slow (rest_bits (tx_data s) (tx_bit_count_u s + 1))
  | S_STOP_BIT =>
      replicate n true ++
      (if tx_data_valid s && negb (tx_done s) then replicate bit_clocks true ++ slow (frame_bits (tx_data s)) else [])
  end.

Definition baud_ok (b : baud) : Prop :=
  0 <= baud_counter_u b <= C_BAUD_PERIOD_INT /\ (baud_en b = true -> baud_counter_u b = 0).

Definition tx_ok (s : uart_tx_regs) : Prop :=
  baud_ok (tx_baud s) /\ 0 <= tx_bit_count_u s <= 7 /\
  match state s with
  | S_IDLE => tx_done s = false
  | S_START_BIT => tx_done s = false /\ tx_data_valid s = true /\ tx_bit_count_u s = 0
  | S_DATA => tx_done s = false /\ tx_data_valid s = true
  | S_STOP_BIT => tx_done s = true -> tx_data_valid s = true
  end.

(** No frame under way, none waiting. *)
Definition tx_idle (s : uart_tx_regs) : Prop := tx_ok s /\ state s = S_IDLE /\ tx_data_valid s = false.

Lemma slow_cons x l : slow (x :: l) = replicate bit_clocks x ++ slow l.
Proof. done. Qed.

Lemma left_in_step b :
  baud_ok b ->
  baud_ok (baud_clock C_BAUD_PERIOD_INT false b) /\
  left_in (baud_clock C_BAUD_PERIOD_INT false b) = if baud_en b then bit_clocks else pred (left_in b).
Proof.
  destruct b as [c en]. intros [Hc Hen]. cbn [baud_counter_u baud_en] in *. pose proof (proj1 Hfits) as HP.
  destruct (Z.eq_dec c C_BAUD_PERIOD_INT) as [->|Hne].
  - rewrite baud_top by done. destruct en; [by specialize (Hen eq_refl); lia|].
    split; [split; cbn; lia|]. unfold left_in. cbn. lia.
  - rewrite baud_count by (done || lia). split; [split; cbn; [lia|done]|].
    unfold left_in, bit_clocks. cbn. destruct en; [rewrite Hen by done; f_equal; lia|lia].
Qed.

Lemma left_in_pos b : baud_ok b -> (1 <= left_in b <= S bit_clocks)%nat /\ (baud_en b = false -> (2 <= left_in b)%nat).
Proof.
  intros [Hc _]. pose proof (proj1 Hfits) as HP. unfold left_in, bit_clocks. destruct (baud_en b); lia.
Qed.

Lemma left_in_split (x : bool) b l :
  baud_ok b -> replicate (left_in b) x ++ l =
    x :: (if baud_en b then l else replicate (left_in (baud_clock C_BAUD_PERIOD_INT false b)) x ++ l).
Proof.
  intros Hb. destruct (left_in_step b Hb) as [_ E]. destruct (left_in_pos b Hb) as [Hp _]. rewrite E.
  destruct (baud_en b) eqn:Een; [by unfold left_in; rewrite Een|]. by destruct (left_in b); [lia|].
Qed.

Lemma rest_bits_cons b n : 0 <= n <= 7 -> rest_bits b n = Z.testbit b n :: rest_bits b (n + 1).
Proof. intros Hn. unfold rest_bits. rewrite seqZ_cons by lia. cbn. do 3 f_equal. unfold Z.succ. f_equal; lia. Qed.

Lemma frame_bits_rest b : frame_bits b = false :: rest_bits b 0.
Proof. done. Qed.

Local Ltac tx_ok_split := split; [split; [assumption|]; split; [lia|]; repeat split; done|].

Local Ltac tx_adds k :=
  exists k; (split; [done|]); rewrite ?app_nil_r, <- ?app_assoc; try done.

(** What a clock adds to the line: nothing while the line is busy and nothing is taken. *)
Lemma tx_clock_pending i s :
  tx_ok s ->
  let s' := uart_tx_clock false i s in
  let takes := tready_out s && tx_tvalid i in
  tx_ok s' /\ exists k, (takes = false -> k = match pending s with [] => 1%nat | _ => 0%nat end) /\
    tx_out s' :: pending s' = pending s ++ replicate k true ++ (if takes then slow (frame_bits (tx_tdata i)) else []).
Proof.
  destruct s as [d v dn b st n o]. intros (Hb & Hn & Hst). cbn [tx_data tx_data_valid tx_done tx_baud state tx_bit_count_u] in *.
  destruct (left_in_step b Hb) as [Hb' El]. unfold uart_tx_clock, tready_out, pending, tx_ok.
  cbn [tx_data tx_data_valid tx_done tx_baud state tx_bit_count_u tx_out].
  set (b' := baud_clock C_BAUD_PERIOD_INT false b) in *. destruct st.
  - (* idle *)
    subst dn. cbn [orb]. destruct v; cbn [negb andb].
    + rewrite (left_in_split _ b), andb_true_r by done. fold b'. destruct (baud_en b); tx_ok_split; tx_adds 0%nat.
      by rewrite El, frame_bits_rest, slow_cons.
    + rewrite andb_false_r. tx_ok_split. destruct (tx_tvalid i); [tx_adds (S (left_in b'))|tx_adds 1%nat].
  - (* start bit *)
    destruct Hst as (-> & -> & ->). cbn [orb negb andb]. rewrite (left_in_split _ b) by done. fold b'.
    destruct (baud_en b); tx_ok_split; tx_adds 0%nat.
    by rewrite El, (rest_bits_cons d 0), slow_cons by lia.
  - (* data *)
    destruct Hst as (-> & ->). cbn [orb negb andb]. rewrite (left_in_split _ b) by done. fold b'.
    destruct (baud_en b); cbn [andb]; [|tx_ok_split; tx_adds 0%nat]. destruct (Z.eqb_spec n 7) as [->|Hne].
    + change (wrap 3 (7 + 1)) with 0. tx_ok_split. tx_adds 0%nat. cbn [negb]. rewrite El, ?app_nil_r.
      change (slow (rest_bits d (7 + 1))) with (replicate bit_clocks true ++ []). by rewrite app_nil_r.
    + assert (E : wrap 3 (n + 1) = n + 1) by (apply wrap_small; unfold is_u; lia).
      tx_ok_split. tx_adds 0%nat. by rewrite El, E, (rest_bits_cons d (n + 1)), slow_cons by lia.
  - (* stop bit *)
    rewrite (left_in_split _ b) by done. fold b'. destruct dn; cbn [orb negb andb]; [rewrite (Hst eq_refl); cbn [andb]|destruct v; cbn [negb andb]].
    2: destruct (baud_en b); tx_ok_split; tx_adds 0%nat; by rewrite El.
    all: destruct (baud_en b); tx_ok_split; destruct (tx_tvalid i);
      [tx_adds (left_in b')|tx_adds 0%nat|tx_adds bit_clocks|tx_adds 0%nat].
Qed.

Definition no_in : tx_in := TxIn 0 false.

Lemma tx_clock_quiet i s :
  tx_ok s -> tready_out s && tx_tvalid i = false ->
  tx_ok (uart_tx_clock false i s) /\
  tx_out (uart_tx_clock false i s) :: pending (uart_tx_clock false i s) = match pending s with [] => [true] | l => l end.
Proof.
  intros Hs Hi. destruct (tx_clock_pending i s Hs) as (Hs' & k & Hk & E). rewrite Hi in Hk, E. split; [done|].
  rewrite E, (Hk eq_refl), app_nil_r. destruct (pending s); [done|]. by rewrite app_nil_r.
Qed.

Lemma slow_frame b : slow (frame_bits b) = hold (replicate 10 bit_clocks) (frame_bits b).
Proof. done. Qed.

Lemma tx_run_line ins s bs0 l0 :
  tx_ok s -> uart_line bit_clocks bit_clocks bs0 (l0 ++ pending s) ->
  let '(s', bs, line) := uart_tx_run ins s in
  tx_ok s' /\ length line = length ins /\ uart_line bit_clocks bit_clocks (bs0 ++ bs) ((l0 ++ line) ++ pending s').
Proof.
  revert s bs0 l0. induction ins as [|i ins IH]; intros s bs0 l0 Hs Hl; cbn [uart_tx_run].
  - by rewrite !app_nil_r.
  - destruct (tx_clock_pending i s Hs) as (Hs' & k & _ & E). set (s1 := uart_tx_clock false i s) in *.
    set (taken := if tready_out s && tx_tvalid i then [tx_tdata i] else []).
    destruct (uart_tx_run ins s1) as [[s' bs] line] eqn:Er.
    specialize (IH s1 (bs0 ++ taken) (l0 ++ [tx_out s1])). rewrite Er in IH.
    destruct IH as (Hok & Hlen & Hline); [done| |].
    + rewrite <- app_assoc. cbn [app]. rewrite E, app_assoc. unfold taken. destruct (tready_out s && tx_tvalid i).
      * pose proof (line_frame _ _ _ _ (replicate 10 bit_clocks) (tx_tdata i) 0 (uart_line_idle _ _ _ _ k Hl) eq_refl) as H.
        rewrite app_nil_r, <- app_assoc in H. rewrite slow_frame. apply H. by apply Forall_replicate.
      * rewrite app_nil_r, app_nil_r. by apply uart_line_idle.
    + split; [done|]. cbn [length]. rewrite Hlen. split; [done|].
      rewrite <- !app_assoc in *. exact Hline.
Qed.

(** With nothing more offered the line carries what is pending, then stays high. *)
Lemma tx_run_drains ins s :
  tx_ok s -> Forall (fun i => tx_tvalid i = false) ins ->
  let '(s', bs, line) := uart_tx_run ins s in
  tx_ok s' /\ bs = [] /\ pending s' = drop (length ins) (pending s) /\
  line = take (length ins) (pending s) ++ replicate (length ins - length (pending s)) true.
Proof.
  intros Hs Hins. revert s Hs. induction Hins as [|i ins Hi _ IH]; intros s Hs; cbn [length uart_tx_run].
  - rewrite drop_0. done.
  - destruct (tx_clock_quiet i s Hs) as [Hs' E]; [by rewrite Hi, andb_false_r|].
    set (s1 := uart_tx_clock false i s) in *. specialize (IH s1 Hs'). clearbody s1.
    destruct (uart_tx_run ins s1) as [[s' bs] line]. destruct IH as (Hok & -> & Hp & ->).
    rewrite Hi, andb_false_r. split; [done|]. split; [done|].
    destruct (pending s) as [|x l]; injection E as -> E; rewrite E in Hp |- *; rewrite Hp; cbn.
    + by rewrite drop_nil, take_nil, Nat.sub_0_r.
    + done.
Qed.

Lemma uart_tx_run_app ins1 ins2 s :
  uart_tx_run (ins1 ++ ins2) s =
    let '(s1, b1, l1) := uart_tx_run ins1 s in let '(s2, b2, l2) := uart_tx_run ins2 s1 in (s2, b1 ++ b2, l1 ++ l2).
Proof.
  revert s. induction ins1 as [|i ins1 IH]; intros s; cbn [app uart_tx_run]; [by destruct (uart_tx_run ins2 s) as [[]]|].
  rewrite IH. destruct (uart_tx_run ins1 _) as [[s1 b1] l1]. destruct (uart_tx_run ins2 s1) as [[s2 b2] l2]. by rewrite app_assoc.
Qed.

Lemma tx_run_taken (Q : Z -> Prop) ins s :
  Forall (fun i => Q (tx_tdata i)) ins -> let '(_, bs, _) := uart_tx_run ins s in Forall Q bs.
Proof.
  intros H. revert s. induction H as [|i ins Hi _ IH]; intros s; cbn [uart_tx_run]; [constructor|].
  specialize (IH (uart_tx_clock false i s)). destruct (uart_tx_run ins _) as [[s' bs] line].
  apply Forall_app. split; [|done]. destruct (tready_out s && tx_tvalid i); [by constructor|constructor].
Qed.

Lemma pending_bound s : tx_ok s -> (length (pending s) <= 12 * bit_clocks + 1)%nat.
Proof.
  intros (Hb & Hn & _). pose proof (left_in_pos _ Hb) as [Hl _].
  assert (Hslow : forall l, length (slow l) = (length l * bit_clocks)%nat).
  { induction l as [|x l IH]; [done|]. rewrite slow_cons, length_app, length_replicate, IH. cbn [length]. lia. }
  assert (Hr : forall b n, 0 <= n <= 8 -> (length (rest_bits b n) <= 9)%nat).
  { intros b n H. unfold rest_bits. rewrite length_app, length_fmap, length_seqZ. cbn. lia. }
  assert (H9 : forall b n, 0 <= n <= 8 -> (length (slow (rest_bits b n)) <= 9 * bit_clocks)%nat).
  { intros b n H. rewrite Hslow. specialize (Hr b n H). nia. }
  pose proof (H9 (tx_data s) 0 ltac:(lia)). pose proof (H9 (tx_data s) (tx_bit_count_u s + 1) ltac:(lia)).
  assert (Hf : length (slow (frame_bits (tx_data s))) = (10 * bit_clocks)%nat) by (rewrite Hslow; reflexivity).
  unfold pending. repeat case_match; rewrite ?length_app, ?length_replicate, ?Hf; cbn [length]; lia.
Qed.
End Tx.

(** ** Properties *)

(** The transmitter: whatever bytes are offered on whatever clocks, what the line has carried is at
    any time the beginning of the frames of the bytes taken, in order, each bit held for one clock more
    than [C_BAUD_PERIOD_INT], with the line high in between; the rest follows within twelve bits' time. *)
Theorem tx_sends P ins s :
  baud_fits P -> tx_idle P s ->
  let '(s', bs, line) := uart_tx_run P ins s in
  exists rest, (length rest <= 12 * bit_clocks P + 1)%nat /\ uart_line (bit_clocks P) (bit_clocks P) bs (line ++ rest) /\
    forall n, (length rest <= n)%nat -> (uart_tx_run P (replicate n no_in) s').2 = rest ++ replicate (n - length rest) true.
Proof.
  intros Hfits (Hs & Hst & Hv). pose proof (tx_run_line P Hfits ins s [] [] Hs) as H.
  destruct (uart_tx_run P ins s) as [[s' bs] line]. destruct H as (Hs' & _ & Hl).
  { unfold pending. rewrite Hst, Hv. apply (line_idle _ _ 0). }
  exists (pending P s'). split; [by apply pending_bound|]. split; [exact Hl|].
  intros n Hn. pose proof (tx_run_drains P Hfits (replicate n no_in) s' Hs' ltac:(by apply Forall_replicate)) as Hd.
  rewrite length_replicate in Hd.
  destruct (uart_tx_run P (replicate n no_in) s') as [[s2 bs2] line2]. destruct Hd as (_ & _ & _ & ->).
  cbn [snd]. by rewrite take_ge by done.
Qed.
