(* ===== verification/UartRx.v ===== *)
(** * The serial receiver: [uart/axi_uart_rx.vhd]

    The entity clock by clock with frames of eight bits.  Theorem: it delivers the bytes of every line whose bits last neither too
    short nor too long, once and in order, and nothing else. *)

From S2P Require Import Prelude UartFrame.
From S2P Require UartTx.

Inductive uart_rx_state_t := S_IDLE | S_DATA | S_STOP_BIT.

(** The registers behind the synchroniser. *)
Record uart_rx_regs := RxRegs {
  rx_baud : baud;
  baud_reset : bool;
  state : uart_rx_state_t;
  start_counter_u : Z;
  rx_bit_count_u : Z;
  rx_buffer : Z;
  tvalid_out : bool
}.

Record uart_rx := UartRx { rx_in_r : bool; rx_in_rr : bool; rx_in_rrr : bool; rx_core : uart_rx_regs }.

Section Rx.
Context (C_BAUD_PERIOD_INT : Z).

(** The processes that look at the synchronised level. *)
Definition rx_core_clock (rst : bool) (level : bool) (s : uart_rx_regs) : uart_rx_regs :=
  let en := baud_en (rx_baud s) in
  let half := start_counter_u s =? C_BAUD_HALF_PERIOD_U C_BAUD_PERIOD_INT in
  let last := en && (rx_bit_count_u s =? 7) in
  {| rx_baud := baud_clock C_BAUD_PERIOD_INT (rst || baud_reset s) (rx_baud s);
     baud_reset := match state s with S_IDLE => level || negb half | _ => false end;
     state :=
       if rst then S_IDLE
       else match state s with
            | S_IDLE => if negb level && half then S_DATA else S_IDLE
            | S_DATA => if last then S_STOP_BIT else S_DATA
            | S_STOP_BIT => if en then S_IDLE else S_STOP_BIT
            end;
     start_counter_u :=
       match state s with
       | S_IDLE => if level then 0 else wrap (half_width C_BAUD_PERIOD_INT) (start_counter_u s + 1)
       | _ => start_counter_u s
       end;
     rx_bit_count_u :=
       match state s with
       | S_IDLE => 0
       | S_DATA => if en then wrap 3 (rx_bit_count_u s + 1) else rx_bit_count_u s
       | S_STOP_BIT => rx_bit_count_u s
       end;
     rx_buffer :=
       match state s with
       | S_DATA => if en then Z.lor (Z.shiftl (Z.b2z level) 7) (slice (rx_buffer s) 7 1) else rx_buffer s
       | _ => rx_buffer s
       end;
     tvalid_out := match state s with S_DATA => negb rst && last | _ => false end |}.

(** A rising edge of [clk]. *)
Definition uart_rx_clock (rst : bool) (rx_in : bool) (s : uart_rx) : uart_rx :=
  {| rx_in_r := rx_in;
     rx_in_rr := rx_in_r s;
     rx_in_rrr := rx_in_rr s;
     rx_core := rx_core_clock rst (rx_in_rrr s) (rx_core s) |}.

(** The output stream on a clock. *)
Definition rx_bytes (s : uart_rx_regs) : list Z := if tvalid_out s then [rx_buffer s] else [].

Fixpoint uart_rx_run (line : list bool) (s : uart_rx) : uart_rx * list Z :=
  match line with
  | [] => (s, [])
  | x :: line' =>
      let s' := uart_rx_clock false x s in
      let '(s'', bs) := uart_rx_run line' s' in (s'', rx_bytes (rx_core s') ++ bs)
  end.

(** The same for the registers behind the synchroniser. *)
Fixpoint rx_core_run (line : list bool) (s : uart_rx_regs) : uart_rx_regs * list Z :=
  match line with
  | [] => (s, [])
  | x :: line' =>
      let s' := rx_core_clock false x s in
      let '(s'', bs) := rx_core_run line' s' in (s'', rx_bytes s' ++ bs)
  end.

Lemma rx_core_run_app l1 l2 s :
  rx_core_run (l1 ++ l2) s =
    let '(s1, b1) := rx_core_run l1 s in let '(s2, b2) := rx_core_run l2 s1 in (s2, b1 ++ b2).
Proof.
  revert s. induction l1 as [|x l1 IH]; intros s; cbn [app rx_core_run]; [by destruct (rx_core_run l2 s)|].
  rewrite IH. destruct (rx_core_run l1 _) as [s1 b1]. destruct (rx_core_run l2 s1) as [s2 b2]. by rewrite app_assoc.
Qed.

(** The synchroniser delays the line by three clocks. *)
Definition delayed (s : uart_rx) : list bool := [rx_in_rrr s; rx_in_rr s; rx_in_r s].

Lemma rx_run_core line s :
  let '(s', bs) := uart_rx_run line s in
  rx_core_run (take (length line) (delayed s ++ line)) (rx_core s) = (rx_core s', bs) /\
  delayed s' = drop (length line) (delayed s ++ line).
Proof.
  revert s. induction line as [|x line IH]; intros s; cbn [uart_rx_run length].
  - split; [done|]. by rewrite drop_0, app_nil_r.
  - specialize (IH (uart_rx_clock false x s)). destruct (uart_rx_run line _) as [s' bs]. destruct IH as [IH1 IH2].
    change (delayed s ++ x :: line) with (rx_in_rrr s :: delayed (uart_rx_clock false x s) ++ line).
    cbn [take drop rx_core_run]. change (rx_core_clock false (rx_in_rrr s) (rx_core s)) with (rx_core (uart_rx_clock false x s)).
    by rewrite IH1.
Qed.

(** ** One frame *)
Context (Hfits : baud_fits C_BAUD_PERIOD_INT).
Abbreviation HALF := (Z.to_nat (C_BAUD_HALF_PERIOD_INT C_BAUD_PERIOD_INT)).
Abbreviation PERIOD := (Z.to_nat C_BAUD_PERIOD_INT).

(** Waiting for a start bit; within a frame, with [n] bits received. *)
Definition resting (s : uart_rx_regs) : Prop := state s = S_IDLE /\ start_counter_u s = 0.
Definition within (st : uart_rx_state_t) (n c : Z) (en : bool) (buf : Z) (s : uart_rx_regs) : Prop :=
  rx_baud s = Baud c en /\ baud_reset s = false /\ state s = st /\ rx_bit_count_u s = n /\ rx_buffer s = buf.

Definition shifted_in (level : bool) (buf : Z) : Z := Z.lor (Z.shiftl (Z.b2z level) 7) (slice buf 7 1).

(** A low level of at most [HALF] clocks does not start a frame. *)
Lemma core_low n s :
  resting s -> (n <= HALF)%nat ->
  let '(s', bs) := rx_core_run (replicate n false) s in
  state s' = S_IDLE /\ start_counter_u s' = Z.of_nat n /\ ((1 <= n)%nat -> baud_reset s' = true) /\ bs = [].
Proof.
  intros [Hst Hc]. pose proof (baud_half_bounds _ Hfits) as Hh. induction n as [|n IH]; intros Hn; [cbn; repeat split; done || lia|].
  rewrite replicate_S_end, rx_core_run_app. destruct (rx_core_run (replicate n false) s) as [s1 b1].
  destruct IH as (Es & Ec & _ & ->); [lia|]. cbn [rx_core_run app]. unfold rx_bytes, rx_core_clock.
  cbn [state start_counter_u baud_reset tvalid_out]. rewrite Es, Ec, C_BAUD_HALF_PERIOD_U_eq by done.
  destruct (Z.eqb_spec (Z.of_nat n) (C_BAUD_HALF_PERIOD_INT C_BAUD_PERIOD_INT)) as [|_]; [lia|]. cbn [negb andb orb].
  split; [done|]. split; [|done]. destruct Hfits as (_ & _ & Hw). rewrite wrap_small by (unfold is_u; lia). lia.
Qed.

Lemma core_high s : resting s -> let s' := rx_core_clock false true s in resting s' /\ rx_bytes s' = [].
Proof. intros [Hst Hc]. unfold resting, rx_bytes, rx_core_clock. cbn. by rewrite Hst. Qed.

Lemma core_idle n s :
  resting s -> let '(s', bs) := rx_core_run (replicate n true) s in resting s' /\ bs = [].
Proof.
  revert s. induction n as [|n IH]; intros s Hs; cbn [replicate rx_core_run]; [done|].
  destruct (core_high s Hs) as [Hs' Eb]. rewrite Eb. specialize (IH _ Hs'). by destruct (rx_core_run (replicate n true) _).
Qed.

(** The middle of the start bit. *)
Lemma core_start s :
  resting s ->
  let '(s', bs) := rx_core_run (replicate (S HALF) false) s in
  bs = [] /\ exists buf, within S_DATA 0 0 false buf s'.
Proof.
  intros Hs. pose proof (core_low HALF s Hs ltac:(lia)) as H. pose proof (baud_half_bounds _ Hfits) as Hh.
  rewrite replicate_S_end, rx_core_run_app. destruct (rx_core_run (replicate HALF false) s) as [s1 b1].
  destruct H as (Es & Ec & Er & ->). cbn [rx_core_run app]. unfold rx_bytes, within, rx_core_clock.
  cbn [state start_counter_u baud_reset tvalid_out rx_baud rx_bit_count_u rx_buffer].
  rewrite Es, Ec, Er, C_BAUD_HALF_PERIOD_U_eq, Z2Nat.id, Z.eqb_refl by (done || lia). cbn. split; [done|]. by eexists.
Qed.

(** Between two ticks of the baud generator. *)
Lemma within_count l st n c buf s :
  st <> S_IDLE -> within st n c false buf s -> 0 <= c -> c + Z.of_nat (length l) <= C_BAUD_PERIOD_INT ->
  let '(s', bs) := rx_core_run l s in within st n (c + Z.of_nat (length l)) false buf s' /\ bs = [].
Proof.
  intros Hst. revert c s. induction l as [|x l IH]; intros c s Hs H0 Hc; cbn [rx_core_run length] in *.
  { by rewrite Z.add_0_r. }
  assert (H1 : within st n (c + 1) false buf (rx_core_clock false x s) /\ rx_bytes (rx_core_clock false x s) = []).
  { destruct Hs as (Eb & Er & Es & En & Ebuf). unfold within, rx_bytes, rx_core_clock.
    cbn [state start_counter_u baud_reset tvalid_out rx_baud rx_bit_count_u rx_buffer].
    rewrite Eb, Er, Es, En, Ebuf. cbn [orb baud_en]. rewrite baud_count by (done || lia). by destruct st. }
  destruct H1 as [H1 ->]. specialize (IH (c + 1) _ H1 ltac:(lia) ltac:(lia)).
  destruct (rx_core_run l _) as [s' bs]. destruct IH as [IH ->]. split; [|done].
  by replace (c + Z.of_nat (S (length l))) with (c + 1 + Z.of_nat (length l)) by lia.
Qed.

(** The tick itself. *)
Lemma within_top x st n buf s :
  st <> S_IDLE -> within st n C_BAUD_PERIOD_INT false buf s ->
  within st n 0 true buf (rx_core_clock false x s) /\ rx_bytes (rx_core_clock false x s) = [].
Proof.
  intros Hst (Eb & Er & Es & En & Ebuf). unfold within, rx_bytes, rx_core_clock.
  cbn [state start_counter_u baud_reset tvalid_out rx_baud rx_bit_count_u rx_buffer].
  rewrite Eb, Er, Es, En, Ebuf. cbn [orb baud_en]. rewrite baud_top by done. by destruct st.
Qed.

Lemma within_wait l st n c buf s :
  st <> S_IDLE -> within st n c false buf s -> 0 <= c -> c <= C_BAUD_PERIOD_INT -> c + Z.of_nat (length l) = C_BAUD_PERIOD_INT + 1 ->
  let '(s', bs) := rx_core_run l s in within st n 0 true buf s' /\ bs = [].
Proof.
  intros Hst Hs H0 Hc Hl. destruct l as [|x l _] using rev_ind; [cbn in Hl; lia|].
  rewrite length_app in Hl. cbn [length] in Hl. rewrite rx_core_run_app.
  pose proof (within_count l st n c buf s Hst Hs H0 ltac:(lia)) as H. destruct (rx_core_run l s) as [s1 b1].
  destruct H as [H ->]. replace (c + Z.of_nat (length l)) with C_BAUD_PERIOD_INT in H by lia.
  destruct (within_top x st n buf s1 Hst H) as [H1 Eb]. cbn [rx_core_run]. by rewrite Eb.
Qed.

(** A data bit is taken from the level on the clock after a tick. *)
Lemma within_sample x n buf s :
  0 <= n <= 7 -> within S_DATA n 0 true buf s ->
  let s' := rx_core_clock false x s in
  within (if n =? 7 then S_STOP_BIT else S_DATA) (wrap 3 (n + 1)) 1 false (shifted_in x buf) s' /\
  rx_bytes s' = if n =? 7 then [shifted_in x buf] else [].
Proof.
  intros Hn (Eb & Er & Es & En & Ebuf). pose proof (proj1 Hfits). unfold within, rx_bytes, rx_core_clock.
  cbn [state start_counter_u baud_reset tvalid_out rx_baud rx_bit_count_u rx_buffer].
  rewrite Eb, Er, Es, En, Ebuf. cbn [orb baud_en]. rewrite baud_count by (done || lia). unfold shifted_in.
  by destruct (n =? 7); repeat split.
Qed.

(** From one data bit to the next tick. *)
Lemma within_bit x l n buf s :
  0 <= n <= 7 -> within S_DATA n 0 true buf s -> length l = PERIOD ->
  let '(s', bs) := rx_core_run (x :: l) s in
  within (if n =? 7 then S_STOP_BIT else S_DATA) (wrap 3 (n + 1)) 0 true (shifted_in x buf) s' /\
  bs = if n =? 7 then [shifted_in x buf] else [].
Proof.
  intros Hn Hs Hl. pose proof (proj1 Hfits). cbn [rx_core_run]. destruct (within_sample x n buf s Hn Hs) as [H1 ->].
  assert (Hne : (if n =? 7 then S_STOP_BIT else S_DATA) <> S_IDLE) by (by destruct (n =? 7)).
  pose proof (within_wait l _ _ _ _ _ Hne H1 ltac:(lia) ltac:(lia) ltac:(lia)) as H2.
  destruct (rx_core_run l _) as [s' bs]. destruct H2 as [H2 ->]. split; [done|]. by rewrite app_nil_r.
Qed.

(** The end of the stop bit. *)
Lemma within_stop x n buf s : within S_STOP_BIT n 0 true buf s -> state (rx_core_clock false x s) = S_IDLE /\ rx_bytes (rx_core_clock false x s) = [].
Proof. intros (Eb & Er & Es & En & Ebuf). unfold rx_bytes, rx_core_clock. cbn. by rewrite Eb, Es. Qed.

Lemma core_settle s : state s = S_IDLE -> resting (rx_core_clock false true s) /\ rx_bytes (rx_core_clock false true s) = [].
Proof. intros Hst. unfold resting, rx_bytes, rx_core_clock. cbn. by rewrite Hst. Qed.

(** The levels of a line on which the receiver finds the byte [b]: low up to the middle of the start bit, the
    data bits where the receiver samples them, high from the middle of the stop bit. *)
Definition first_sample : nat := (HALF + PERIOD + 2)%nat.
Record carries (b : Z) (fr : list bool) : Prop := {
  carries_start j : (j <= HALF)%nat -> fr !! j = Some false;
  carries_data i : (i < 8)%nat -> fr !! (first_sample + i * S PERIOD)%nat = Some (Z.testbit b (Z.of_nat i));
  carries_stop j : (first_sample + 8 * S PERIOD < j < length fr)%nat -> fr !! j = Some true;
  carries_length : (first_sample + 8 * S PERIOD + 1 < length fr)%nat
}.

Lemma take_segment {A} (l : list A) n m x :
  l !! n = Some x -> (n + S m <= length l)%nat -> exists l', take (n + S m) l = take n l ++ x :: l' /\ length l' = m.
Proof.
  intros Hx Hl. exists (take m (drop (S n) l)). split; [|rewrite length_take, length_drop; lia].
  by rewrite <- take_take_drop, (drop_S l x n Hx).
Qed.

Lemma carries_low b fr : carries b fr -> take (S HALF) fr = replicate (S HALF) false.
Proof.
  intros Hc. pose proof (carries_length b fr Hc) as Hlen. unfold first_sample in Hlen.
  apply list_eq_same_length with (S HALF); [by rewrite length_replicate|rewrite length_take; lia|].
  intros j x y Hj. rewrite lookup_take_lt, (carries_start b fr Hc), lookup_replicate_2 by lia. congruence.
Qed.

(** The data bits, one after the other. *)
Lemma core_data b fr s i :
  carries b fr -> resting s -> (i <= 7)%nat ->
  let '(s', bs) := rx_core_run (take (first_sample + i * S PERIOD) fr) s in
  bs = [] /\ exists buf, within S_DATA (Z.of_nat i) 0 true buf s' /\
    forall j, (j < i)%nat -> Z.testbit buf (8 - Z.of_nat i + Z.of_nat j) = Z.testbit b (Z.of_nat j).
Proof.
  intros Hc Hs. pose proof (carries_length b fr Hc) as Hlen. pose proof (proj1 Hfits) as HP. induction i as [|i IH]; intros Hi.
  - rewrite Nat.mul_0_l, Nat.add_0_r. replace first_sample with (S HALF + S PERIOD)%nat by (unfold first_sample; lia).
    rewrite <- take_take_drop, (carries_low b fr Hc), rx_core_run_app.
    pose proof (core_start s Hs) as H. destruct (rx_core_run (replicate (S HALF) false) s) as [s1 b1].
    destruct H as [-> [buf H]].
    assert (Hl : length (take (S PERIOD) (drop (S HALF) fr)) = S PERIOD) by (rewrite length_take, length_drop; unfold first_sample in *; lia).
    pose proof (within_wait (take (S PERIOD) (drop (S HALF) fr)) S_DATA 0 0 buf s1 ltac:(done) H ltac:(lia) ltac:(lia) ltac:(lia)) as H1.
    destruct (rx_core_run _ s1) as [s' bs]. destruct H1 as [H1 ->]. split; [done|]. exists buf. split; [exact H1|lia].
  - destruct (take_segment fr (first_sample + i * S PERIOD) PERIOD (Z.testbit b (Z.of_nat i))) as (l & El & Hl);
      [apply (carries_data b fr Hc); lia|nia|].
    replace (first_sample + S i * S PERIOD)%nat with (first_sample + i * S PERIOD + S PERIOD)%nat by lia.
    rewrite El, rx_core_run_app. specialize (IH ltac:(lia)). destruct (rx_core_run (take _ fr) s) as [s1 b1].
    destruct IH as (-> & buf & H & Hbits). pose proof (within_bit (Z.testbit b (Z.of_nat i)) l (Z.of_nat i) buf s1 ltac:(lia) H Hl) as H1.
    destruct (rx_core_run (_ :: l) s1) as [s' bs]. destruct H1 as [H1 ->].
    destruct (Z.eqb_spec (Z.of_nat i) 7) as [|_]; [lia|]. split; [done|].
    rewrite wrap_small in H1 by (unfold is_u; lia).
    exists (shifted_in (Z.testbit b (Z.of_nat i)) buf). split; [by replace (Z.of_nat (S i)) with (Z.of_nat i + 1) by lia|].
    intros j Hj. unfold shifted_in. rewrite Z.lor_spec, testbit_shiftl, testbit_b2z, testbit_slice by lia.
    destruct (decide (j = i)) as [->|Hne].
    + replace (8 - Z.of_nat (S i) + Z.of_nat i) with 7 by lia. zcases; by rewrite ?orb_false_r.
    + rewrite <- (Hbits j) by lia. replace (8 - Z.of_nat i + Z.of_nat j) with (8 - Z.of_nat (S i) + Z.of_nat j + 1) by lia.
      zcases; done.
Qed.

Lemma shifted_in_range x buf : is_u 8 (shifted_in x buf).
Proof.
  unfold shifted_in. apply is_u_lor; [lia|by destruct x|]. apply (is_u_mono 7); [|lia]. by apply slice_range.
Qed.

(** A whole frame. *)
Lemma core_frame b fr s :
  is_u 8 b -> carries b fr -> resting s -> let '(s', bs) := rx_core_run fr s in resting s' /\ bs = [b].
Proof.
  intros Hb Hc Hs. pose proof (carries_length b fr Hc) as Hlen. pose proof (proj1 Hfits) as HP.
  set (n8 := (first_sample + 8 * S PERIOD)%nat) in *.
  destruct (take_segment fr (first_sample + 7 * S PERIOD) PERIOD (Z.testbit b 7)) as (l & El & Hl);
    [apply (carries_data b fr Hc 7); lia|lia|].
  replace (first_sample + 7 * S PERIOD + S PERIOD)%nat with n8 in El by (unfold n8; lia).
  destruct (lookup_lt_is_Some_2 fr n8) as [y Hy]; [lia|].
  assert (Hz : drop (S n8) fr = replicate (length fr - S n8) true).
  { apply list_eq_same_length with (length fr - S n8)%nat; [by rewrite length_replicate|by rewrite length_drop|].
    intros j x z Hj. rewrite lookup_drop, (carries_stop b fr Hc), lookup_replicate_2 by (fold n8; lia). congruence. }
  rewrite <- (take_drop_middle fr n8 y Hy), El, Hz, <- app_assoc, rx_core_run_app.
  pose proof (core_data b fr s 7 Hc Hs ltac:(lia)) as H. destruct (rx_core_run (take _ fr) s) as [s1 b1].
  destruct H as (-> & buf & H & Hbits).
  change ((Z.testbit b 7 :: l) ++ ?r) with ([Z.testbit b 7] ++ l ++ r). rewrite app_assoc, rx_core_run_app.
  pose proof (within_bit (Z.testbit b 7) l 7 buf s1 ltac:(lia) H Hl) as H1.
  cbn [app]. destruct (rx_core_run (_ :: l) s1) as [s2 b2]. destruct H1 as [H1 ->]. change (7 =? 7) with true in *. cbn iota in *.
  assert (Eb : shifted_in (Z.testbit b 7) buf = b).
  { pose proof (shifted_in_range (Z.testbit b 7) buf) as Hr. zbits_at i. destruct (decide (8 <= i)).
    { by rewrite !(testbit_high 8) by (done || lia). }
    unfold shifted_in. rewrite Z.lor_spec, testbit_shiftl, testbit_b2z, testbit_slice by lia.
    destruct (Z.eq_dec i 7) as [->|Hne]; [cbn; by rewrite orb_false_r|].
    specialize (Hbits (Z.to_nat i) ltac:(lia)). rewrite Z2Nat.id in Hbits by lia.
    replace (8 - Z.of_nat 7 + i) with (i + 1) in Hbits by lia. rewrite <- Hbits. zcases; done. }
  cbn [rx_core_run]. destruct (within_stop y _ _ s2 H1) as [Hi Ey]. rewrite Ey.
  destruct (length fr - S n8)%nat as [|k] eqn:Ek; [lia|]. cbn [replicate rx_core_run].
  destruct (core_settle _ Hi) as [Hr Er]. rewrite Er. pose proof (core_idle k _ Hr) as H2.
  destruct (rx_core_run (replicate k true) _) as [s' bs]. destruct H2 as [H2 ->]. by rewrite Eb.
Qed.

(** ** Lines *)

(** Bits of [lo] to [hi] clocks are sampled within their time. *)
Definition in_tolerance (lo hi : nat) : Prop :=
  (HALF < lo /\ hi <= first_sample < 2 * lo /\ 8 * hi <= first_sample + 7 * S PERIOD < 9 * lo /\
   9 * hi <= first_sample + 8 * S PERIOD + 1 < 10 * lo)%nat.

Lemma hold_carries lo hi ds b :
  in_tolerance lo hi -> length ds = 10%nat -> Forall (fun d => lo <= d <= hi)%nat ds -> carries b (hold ds (frame_bits b)).
Proof.
  intros (H1 & H2 & H3 & H4) Hlen Hds. assert (Hl : length ds = length (frame_bits b)) by done.
  pose proof (fun k (Hk : (k <= 10)%nat) => sum_take_between lo hi ds k Hds ltac:(lia)) as Hb.
  assert (Hfr : length (hold ds (frame_bits b)) = sum_list (take 10 ds)) by (rewrite hold_length by done; by rewrite take_ge by lia).
  split.
  - intros j Hj. rewrite (hold_lookup ds _ 0) by (done || (pose proof (Hb 0%nat ltac:(lia)); pose proof (Hb 1%nat ltac:(lia)); lia)). done.
  - intros i Hi. rewrite (hold_lookup ds _ (S i)) by (done || (pose proof (Hb (S i) ltac:(lia)); pose proof (Hb (S (S i)) ltac:(lia)); nia)).
    by apply frame_bits_data.
  - intros j Hj. rewrite Hfr in Hj. pose proof (Hb 9%nat ltac:(lia)). rewrite (hold_lookup ds _ 9) by (done || lia). done.
  - rewrite Hfr. pose proof (Hb 10%nat ltac:(lia)). lia.
Qed.

Lemma core_line lo hi bs line s :
  in_tolerance lo hi -> uart_line lo hi bs line -> Forall (is_u 8) bs -> resting s ->
  let '(s', out) := rx_core_run line s in resting s' /\ out = bs.
Proof.
  intros Ht. induction 1 as [k|bs l ds b k Hl IH Hlen Hds]; intros Hbs Hs; [by apply core_idle|].
  apply Forall_app in Hbs as [Hbs Hb]. rewrite Forall_singleton in Hb.
  rewrite rx_core_run_app. specialize (IH Hbs Hs). destruct (rx_core_run l s) as [s1 b1]. destruct IH as [H1 ->].
  rewrite rx_core_run_app. pose proof (core_frame b _ s1 Hb (hold_carries lo hi ds b Ht Hlen Hds) H1) as H.
  destruct (rx_core_run (hold _ _) s1) as [s2 b2]. destruct H as [H2 ->].
  pose proof (core_idle k s2 H2) as H. destruct (rx_core_run (replicate k true) s2) as [s3 b3]. destruct H as [H3 ->].
  by rewrite app_nil_r.
Qed.

(** The receiver with a line that has been high. *)
Definition rx_idle (s : uart_rx) : Prop :=
  rx_in_r s = true /\ rx_in_rr s = true /\ rx_in_rrr s = true /\ resting (rx_core s).
End Rx.

Lemma uart_rx_line P lo hi bs line s s' out :
  baud_fits P -> in_tolerance P lo hi -> uart_line lo hi bs line -> Forall (is_u 8) bs -> rx_idle s ->
  uart_rx_run P (line ++ replicate 3 true) s = (s', out) -> out = bs /\ rx_idle s'.
Proof.
  intros Hfits Ht Hl Hbs (E1 & E2 & E3 & Hs) Erun. pose proof (rx_run_core P (line ++ replicate 3 true) s) as H.
  rewrite Erun in H. destruct H as [H Hd]. unfold delayed in H, Hd. rewrite E1, E2, E3 in H, Hd.
  rewrite app_assoc in H, Hd. rewrite length_app in H, Hd. cbn [length replicate] in H, Hd.
  change ([true; true; true] ++ line) with (replicate 3 true ++ line) in H, Hd.
  rewrite take_app_length' in H by (rewrite length_app; cbn; lia).
  rewrite drop_app_length' in Hd by (rewrite length_app; cbn; lia). injection Hd as D1 D2 D3.
  rewrite rx_core_run_app in H. pose proof (core_idle P 3 (rx_core s) Hs) as Hi. cbn [replicate] in *.
  destruct (rx_core_run P [true; true; true] (rx_core s)) as [s1 b1]. destruct Hi as [H1 ->].
  pose proof (core_line P Hfits lo hi bs line s1 Ht Hl Hbs H1) as H2. destruct (rx_core_run P line s1) as [s2 b2].
  destruct H2 as [H2 ->]. injection H as -> <-. unfold rx_idle. repeat split; done || apply H2.
Qed.

(** A transmitter with the same baud period is within the tolerance. *)
Lemma same_rate_in_tolerance P : 3 <= P -> in_tolerance P (UartTx.bit_clocks P) (UartTx.bit_clocks P).
Proof.
  intros HP. unfold in_tolerance, first_sample, UartTx.bit_clocks, C_BAUD_HALF_PERIOD_INT.
  pose proof (Z.div_mod P 2 ltac:(lia)). pose proof (Z.mod_pos_bound P 2 ltac:(lia)). lia.
Qed.

(** The example design accepts bits that are 4.8 % too short or 5.6 % too long. *)
Lemma design_tolerance lo hi : (826 <= lo)%nat -> (hi <= 917)%nat -> in_tolerance (100000000 / 115200) lo hi.
Proof.
  intros Hlo Hhi. change (100000000 / 115200) with 868. unfold in_tolerance, first_sample.
  change (Z.to_nat (C_BAUD_HALF_PERIOD_INT 868)) with 434%nat. change (Z.to_nat 868) with 868%nat. lia.
Qed.

(** ** Properties *)

(** C26. The receiver: when every bit on the line lasts from [lo] to [hi] clocks, within the tolerance of the
    baud period, then for all idle times between the frames the receiver delivers their bytes once
    and in order, and nothing else, and three clocks after the line waits for the next start bit. *)
Theorem uart_receives P lo hi bs line s :
  baud_fits P -> in_tolerance P lo hi -> uart_line lo hi bs line -> Forall (is_u 8) bs -> rx_idle s ->
  let '(s', out) := uart_rx_run P (line ++ replicate 3 true) s in out = bs /\ rx_idle s'.
Proof.
  intros. destruct (uart_rx_run P _ s) as [s' out] eqn:E. by eapply uart_rx_line.
Qed.

(** C27. Transmitter and receiver on one line: the receiver delivers every byte that the transmitter
    takes, once and in order, whenever they are offered; the last of them
    within twelve bits' time. *)
Theorem uart_roundtrip P ins n s r :
  baud_fits P -> 3 <= P -> UartTx.tx_idle P s -> rx_idle r -> Forall (fun i => is_u 8 (UartTx.tx_tdata i)) ins ->
  (12 * UartTx.bit_clocks P + 4 <= n)%nat ->
  let '(_, bs, line) := UartTx.uart_tx_run P (ins ++ replicate n UartTx.no_in) s in (uart_rx_run P line r).2 = bs.
Proof.
  intros Hfits HP (Hs & Hst & Hv) Hr Hu Hn. rewrite UartTx.uart_tx_run_app.
  pose proof (UartTx.tx_run_line P Hfits ins s [] [] Hs) as H. pose proof (UartTx.tx_run_taken P (is_u 8) ins s Hu) as Hb.
  destruct (UartTx.uart_tx_run P ins s) as [[s1 b1] l1]. destruct H as (Hs1 & _ & Hl).
  { unfold UartTx.pending. rewrite Hst, Hv. apply (line_idle _ _ 0). }
  pose proof (UartTx.tx_run_drains P Hfits (replicate n UartTx.no_in) s1 Hs1 ltac:(by apply Forall_replicate)) as H.
  rewrite length_replicate in H. pose proof (UartTx.pending_bound P Hfits s1 Hs1) as Hp.
  destruct (UartTx.uart_tx_run P (replicate n UartTx.no_in) s1) as [[s2 b2] l2]. destruct H as (_ & -> & _ & ->).
  rewrite take_ge, app_nil_r by lia. set (k := (n - length (UartTx.pending P s1))%nat) in *.
  replace (replicate k true) with (replicate (k - 3) true ++ replicate 3 true) by (rewrite <- replicate_add; f_equal; lia).
  rewrite !app_assoc. destruct (uart_rx_run P _ r) as [r' out] eqn:E.
  eapply uart_rx_line in E as [E _]; [exact E|done|by apply same_rate_in_tolerance| |done|done].
  by apply (uart_line_idle _ _ _ _ (k - 3)) in Hl.
Qed.

(** ** Witnesses and examples *)
Definition rx_reset : uart_rx := UartRx true true true (RxRegs (Baud 0 false) true S_IDLE 0 0 0 false).

(** A baud period that is a power of two does not fit its constant: each bit then lasts one clock. *)
Example power_of_two_period :
  let tx := UartTx.TxRegs 0 false false (Baud 0 false) UartTx.S_IDLE 0 true in
  (UartTx.uart_tx_run 8 (UartTx.TxIn 5 true :: replicate 12 UartTx.no_in) tx).2 = [true; true] ++ frame_bits 5 ++ [true].
Proof. vm_compute. reflexivity. Qed.

(** A low stop bit is not noticed. *)
Example framing_error_accepted :
  (uart_rx_run 10 (hold (replicate 10 11%nat) (false :: replicate 8 true ++ [false]) ++ replicate 30 true) rx_reset).2 = [0xff].
Proof. vm_compute. reflexivity. Qed.

(** A break is received as zeros. *)
Example break_received : (uart_rx_run 10 (replicate 300 false) rx_reset).2 = [0; 0].
Proof. vm_compute. reflexivity. Qed.

Lemma uart_receives_witness :
  (uart_rx_run 868 ((hold (replicate 10 868%nat) (frame_bits 0x55) ++ replicate 40 true) ++ replicate 3 true) rx_reset).2 = [0x55].
Proof.
  pose proof (uart_receives 868 868 868 [0x55] (hold (replicate 10 868%nat) (frame_bits 0x55) ++ replicate 40 true) rx_reset
    design_baud_fits (design_tolerance 868 868 ltac:(lia) ltac:(lia))
    (line_frame 868 868 [] [] (replicate 10 868%nat) 0x55 40 (line_idle 868 868 0) eq_refl ltac:(apply Forall_replicate; lia))
    ltac:(constructor; [unfold is_u; lia|constructor]) ltac:(done)) as H.
  destruct (uart_rx_run 868 _ rx_reset) as [s' out]. apply H.
Defined.

Definition demo_ins : list UartTx.tx_in := [UartTx.TxIn 0x41 true; UartTx.TxIn 0x42 true].
Definition tx_reset : UartTx.uart_tx_regs := UartTx.TxRegs 0 false false (Baud 0 false) UartTx.S_IDLE 0 true.

Lemma uart_roundtrip_witness : (uart_rx_run 10 (UartTx.uart_tx_run 10 (demo_ins ++ replicate 136 UartTx.no_in) tx_reset).2 rx_reset).2 = [0x41].
Proof.
  pose proof (uart_roundtrip 10 demo_ins 136 tx_reset rx_reset ltac:(repeat split; done) ltac:(lia)
    ltac:(repeat split; done) ltac:(repeat split)
    ltac:(constructor; [unfold is_u; cbn; lia|constructor; [unfold is_u; cbn; lia|constructor]]) ltac:(vm_compute; lia)) as H.
  assert (E : (UartTx.uart_tx_run 10 (demo_ins ++ replicate 136 UartTx.no_in) tx_reset).1.2 = [0x41]) by (vm_compute; reflexivity).
  destruct (UartTx.uart_tx_run 10 _ tx_reset) as [[s' bs] line]. cbn [fst snd] in *. by rewrite H.
Defined.
