(* ===== verification/RegBlock.v ===== *)
(** * The register block and the APB masters: [apb_component/component_register_block.vhd]

    The register block clock by clock, with the master of [uart_apb_bridge/uart_apb_bridge.vhd] (the
    generated block [g_slaves]) that drives it.  Lemmas: a read passes on what the component drives on the clock
    of its read enable; a write changes one register, once. *)

From S2P Require Import Prelude.

(** ** The bus *)
Record apb_cmd_t := ApbCmd { paddr : Z; psel : bool; penable : bool; pwrite : bool; pwdata : Z }.

(** ** The register block

    One-hot vectors are given by the place of their one. *)
Record regblock := RegBlock {
  pready : bool;
  pready_r : bool;
  reg_sel : Z;
  reg_ren_sig : option Z;
  reg_wen_out : option Z;
  prdata : Z;
  reg_wdata_out : list Z
}.

Section RegBlock.
Context (G_NUM_REGISTERS : Z).

Definition reg_select_int (c : apb_cmd_t) : Z := wrap (log2_ceil G_NUM_REGISTERS) (paddr c).

(** A place beyond the vector selects nothing. *)
Definition selected (s : regblock) : option Z := if reg_sel s <? G_NUM_REGISTERS then Some (reg_sel s) else None.

(** A rising edge; [rdata] is [reg_rdata_in]. *)
Definition block_clock (c : apb_cmd_t) (rdata : Z -> Z) (s : regblock) : regblock :=
  let stall := psel c && negb (penable c) && negb (pwrite c) in
  let writes := psel c && penable c && pwrite c in
  {| pready := negb stall;
     pready_r := if stall then false else pready s;
     reg_sel := reg_select_int c;
     reg_ren_sig := if psel c && negb (pready s) && negb (pready_r s) && negb (pwrite c) then selected s else None;
     reg_wen_out := if writes then selected s else None;
     prdata := match reg_ren_sig s with Some i => rdata i | None => prdata s end;
     reg_wdata_out :=
       if writes
       then match selected s with Some i => <[Z.to_nat i := pwdata c]> (reg_wdata_out s) | None => reg_wdata_out s end
       else reg_wdata_out s |}.

(** ** A master and its register block *)
Inductive apb_state_t := A_IDLE | A_SETUP | A_ACCESS.

Record slave := Slave {
  apb_master_state : apb_state_t;
  apb_cmd : apb_cmd_t;
  response_pending : bool;
  response_data : Z;
  block : regblock
}.

(** What the bridge's state machine sends to a master. *)
Record request := Request { clear : bool; do_read : bool; do_write : bool; req_addr : Z; req_data : Z }.

Definition slave_clock (rst : bool) (r : request) (rdata : Z -> Z) (s : slave) : slave :=
  let c := apb_cmd s in
  let done := pready_r (block s) in
  let st := apb_master_state s in
  {| apb_master_state :=
       if rst then A_IDLE
       else match st with
            | A_IDLE => if do_read r || do_write r then A_SETUP else A_IDLE
            | A_SETUP => A_ACCESS
            | A_ACCESS => if done then A_IDLE else A_ACCESS
            end;
     apb_cmd :=
       {| paddr := req_addr r;
          psel := match st with A_IDLE => do_read r || do_write r | A_SETUP => psel c | A_ACCESS => psel c && negb done end;
          penable := match st with A_IDLE => false | A_SETUP => true | A_ACCESS => penable c && negb done end;
          pwrite := match st with A_IDLE => do_write r | _ => pwrite c end;
          pwdata := match st with A_IDLE => req_data r | _ => pwdata c end |};
     response_pending :=
       match st with A_ACCESS => if done then true else response_pending s && negb (clear r) | _ => response_pending s && negb (clear r) end;
     response_data := match st with A_ACCESS => if done then prdata (block s) else response_data s | _ => response_data s end;
     block := block_clock c rdata (block s) |}.

Definition wdata_of (s : slave) : list Z := reg_wdata_out (block s).

(** ** The handshake *)

(** The registers of the handshake; they follow from the requests alone. *)
Definition handshake : Type := apb_state_t * (bool * bool * bool) * bool * (bool * bool).
Definition view (s : slave) : handshake :=
  (apb_master_state s, (psel (apb_cmd s), penable (apb_cmd s), pwrite (apb_cmd s)), response_pending s,
   (pready (block s), pready_r (block s))).

(** Nothing under way; [pw] is left from the last access. *)
Definition at_rest (pw : bool) : handshake := (A_IDLE, (false, false, pw), false, (true, true)).
Definition slave_rest (s : slave) : Prop := reg_ren_sig (block s) = None /\ exists pw, view s = at_rest pw.

Local Ltac slave_clocks s :=
  destruct s as [ms [pa ps pe pwr pd] pend rdat [pr prr sel ren wen prd wd]]; unfold view, wdata_of in *;
  cbn [apb_master_state apb_cmd response_pending response_data block psel penable pwrite paddr pwdata pready pready_r
       reg_sel reg_ren_sig prdata reg_wdata_out] in *.

Lemma slave_rest_clock r rdata s :
  do_read r = false -> do_write r = false -> slave_rest s ->
  slave_rest (slave_clock false r rdata s) /\ wdata_of (slave_clock false r rdata s) = wdata_of s.
Proof.
  intros Hr Hw [Hren [pw Hv]]. slave_clocks s. injection Hv as -> -> -> -> -> -> ->. subst ren.
  unfold slave_rest, slave_clock, block_clock, view. cbn. rewrite Hr, Hw. split; [|done]. split; [done|]. by exists false.
Qed.

(** *** A read, from its request on *)
Definition reading (k : nat) (a : Z) (v : Z) (w : list Z) (s : slave) : Prop :=
  wdata_of s = w /\ paddr (apb_cmd s) = a /\
  match k with
  | 0 => slave_rest s
  | 1 => view s = (A_SETUP, (true, false, false), false, (true, true)) /\ reg_sel (block s) = reg_select_int (apb_cmd s) /\ reg_ren_sig (block s) = None
  | 2 => view s = (A_ACCESS, (true, true, false), false, (false, false)) /\ reg_sel (block s) = reg_select_int (apb_cmd s) /\ reg_ren_sig (block s) = None
  | 3 => view s = (A_ACCESS, (true, true, false), false, (true, false)) /\ reg_ren_sig (block s) = Some (reg_select_int (apb_cmd s))
  | 4 => view s = (A_ACCESS, (true, true, false), false, (true, true)) /\ prdata (block s) = v /\ reg_ren_sig (block s) = None
  | _ => view s = (A_IDLE, (false, false, false), true, (true, true)) /\ response_data s = v /\ reg_ren_sig (block s) = None
  end%nat.

Lemma reading_step k a v w r rdata s :
  (k <= 4)%nat -> wrap (log2_ceil G_NUM_REGISTERS) a < G_NUM_REGISTERS ->
  req_addr r = a -> do_read r = (k =? 0)%nat -> do_write r = false -> (k = 3%nat -> v = rdata (wrap (log2_ceil G_NUM_REGISTERS) a)) ->
  reading k a v w s -> reading (S k) a v w (slave_clock false r rdata s).
Proof.
  intros Hk Ha Hra Hr Hw Hv (Ew & Ea & H). unfold reading, reg_select_int in *.
  destruct k as [|[|[|[|[|k]]]]]; [..|lia]; cbn [Nat.eqb] in *.
  - destruct H as [Hren [pw H]]. slave_clocks s. injection H as -> -> -> -> -> -> ->. subst.
    unfold slave_clock, block_clock. cbn. by rewrite Hr, Hw.
  - destruct H as (H & Hs & Hren). slave_clocks s. injection H as -> -> -> -> -> -> ->. subst.
    unfold slave_clock, block_clock. cbn. done.
  - destruct H as (H & Hs & Hren). slave_clocks s. injection H as -> -> -> -> -> -> ->. subst.
    unfold slave_clock, block_clock, selected. cbn. by rewrite (proj2 (Z.ltb_lt _ _) Ha).
  - destruct H as (H & Hren). slave_clocks s. injection H as -> -> -> -> -> -> ->. subst.
    unfold slave_clock, block_clock. cbn. by rewrite <- Hv.
  - destruct H as (H & Hd & Hren). slave_clocks s. injection H as -> -> -> -> -> -> ->. subst.
    unfold slave_clock, block_clock. cbn. done.
Qed.

Lemma reading_pending k a v w s : (k <= 4)%nat -> reading k a v w s -> response_pending s = false.
Proof.
  intros Hk (_ & _ & H). destruct k as [|[|[|[|[|k]]]]]; [..|lia].
  1: destruct H as [_ [pw H]]. 2-5: destruct H as [H _]. all: slave_clocks s; by injection H.
Qed.

(** The answer stands for one clock. *)
Lemma reading_end a v w r rdata s :
  do_read r = false -> do_write r = false -> clear r = true -> reading 5 a v w s ->
  response_pending s = true /\ response_data s = v /\ slave_rest (slave_clock false r rdata s) /\
  wdata_of (slave_clock false r rdata s) = w.
Proof.
  intros Hr Hw Hc (Ew & Ea & H & Hd & Hren). slave_clocks s. injection H as -> -> -> -> -> -> ->. subst.
  unfold slave_rest, slave_clock, block_clock, view, at_rest. cbn. rewrite Hr, Hw, Hc. repeat split; by exists false.
Qed.

(** *** A write *)
Definition writing (k : nat) (a d : Z) (w : list Z) (s : slave) : Prop :=
  paddr (apb_cmd s) = a /\
  match k with
  | 0 => slave_rest s /\ wdata_of s = w
  | 1 => view s = (A_SETUP, (true, false, true), false, (true, true)) /\ pwdata (apb_cmd s) = d /\
         reg_sel (block s) = reg_select_int (apb_cmd s) /\ reg_ren_sig (block s) = None /\ wdata_of s = w
  | 2 => view s = (A_ACCESS, (true, true, true), false, (true, true)) /\ pwdata (apb_cmd s) = d /\
         reg_sel (block s) = reg_select_int (apb_cmd s) /\ reg_ren_sig (block s) = None /\ wdata_of s = w
  | _ => view s = (A_IDLE, (false, false, true), true, (true, true)) /\ reg_ren_sig (block s) = None /\
         wdata_of s = <[Z.to_nat (reg_select_int (apb_cmd s)) := d]> w
  end%nat.

Lemma writing_step k a d w r rdata s :
  (k <= 2)%nat -> wrap (log2_ceil G_NUM_REGISTERS) a < G_NUM_REGISTERS ->
  req_addr r = a -> req_data r = d -> do_read r = false -> do_write r = (k =? 0)%nat ->
  writing k a d w s -> writing (S k) a d w (slave_clock false r rdata s).
Proof.
  intros Hk Ha Hra Hrd Hr Hw (Ea & H). unfold writing, reg_select_int in *.
  destruct k as [|[|[|k]]]; [..|lia]; cbn [Nat.eqb] in *.
  - destruct H as [[Hren [pw H]] Ew]. slave_clocks s. injection H as -> -> -> -> -> -> ->. subst.
    unfold slave_clock, block_clock. cbn. by rewrite Hr, Hw.
  - destruct H as (H & Hd & Hs & Hren & Ew). slave_clocks s. injection H as -> -> -> -> -> -> ->. subst.
    unfold slave_clock, block_clock. cbn. done.
  - destruct H as (H & Hd & Hs & Hren & Ew). slave_clocks s. injection H as -> -> -> -> -> -> ->. subst.
    unfold slave_clock, block_clock, selected. cbn. by rewrite (proj2 (Z.ltb_lt _ _) Ha).
Qed.

Lemma writing_pending k a d w s : (k <= 2)%nat -> writing k a d w s -> response_pending s = false.
Proof.
  intros Hk (_ & H). destruct k as [|[|[|k]]]; [..|lia].
  1: destruct H as [[_ [pw H]] _]. 2-3: destruct H as [H _]. all: slave_clocks s; by injection H.
Qed.

Lemma writing_end a d w r rdata s :
  do_read r = false -> do_write r = false -> clear r = true -> writing 3 a d w s ->
  response_pending s = true /\ slave_rest (slave_clock false r rdata s) /\
  wdata_of (slave_clock false r rdata s) = <[Z.to_nat (wrap (log2_ceil G_NUM_REGISTERS) a) := d]> w.
Proof.
  intros Hr Hw Hc (Ea & H & Hren & Ew). unfold reg_select_int in Ew. slave_clocks s. injection H as -> -> -> -> -> -> ->. subst.
  unfold slave_rest, slave_clock, block_clock, view, at_rest. cbn. rewrite Hr, Hw, Hc. repeat split; by exists false.
Qed.
End RegBlock.
