(* ===== verification/ApbBridge.v ===== *)
(** * The state machine of [uart_apb_bridge/uart_apb_bridge.vhd] with its slaves

    The processes between the received words and the words to send, clock by clock, with the masters and
    the register blocks of the components.  Theorems of the next file build on the lemmas that a received read or
    write request is answered after a fixed number of clocks, with the register's value or with the data
    written, and that nothing else changes. *)

From S2P Require Import Prelude RegBlock.

Inductive state_t := S_IDLE | S_START | S_WAIT_FOR_WRITE_DATA | S_WAIT_FOR_RESPONSE.

Record core := Core {
  fsm_state : state_t;
  is_write_op_r : bool;
  slave_addr_r : Z;
  active_slave_r : nat;
  write_data : Z;
  slave_do_read : option nat;
  slave_do_write : option nat;
  clear_response_pending : bool;
  tx_valid : bool;
  tx_data : Z;
  slaves : list slave
}.

Section Core.
(** [G_ADDR_BITS_PER_SLAVE], and the number of registers of each component. *)
Context (G_ADDR_BITS_PER_SLAVE : Z) (components : list Z).

Definition C_LOG2_NUM_SLAVES : Z := log2_ceil (Z.of_nat (length components)).
Definition registers (j : nat) : Z := default 0 (components !! j).

Definition slave_sel_int (rx_buffer : Z) : nat :=
  Z.to_nat (slice rx_buffer (C_LOG2_NUM_SLAVES + G_ADDR_BITS_PER_SLAVE - 1) G_ADDR_BITS_PER_SLAVE).

Definition is_slave (o : option nat) (j : nat) : bool := match o with Some i => (i =? j)%nat | None => false end.
Definition request_to (s : core) (j : nat) : request :=
  Request (clear_response_pending s) (is_slave (slave_do_read s) j) (is_slave (slave_do_write s) j) (slave_addr_r s) (write_data s).

(** What the components drive on their read data ports. *)
Definition readings : Type := nat -> Z -> Z.

Definition slaves_clock (rst : bool) (req : nat -> request) (rdata : readings) (l : list slave) : list slave :=
  imap (fun j => slave_clock (registers j) rst (req j) (rdata j)) l.

(** A rising edge; [rx] is [rx_buffer] when [rx_valid] is set. *)
Definition core_clock (rst : bool) (rx : option Z) (rdata : readings) (s : core) : core :=
  let active := slaves s !! active_slave_r s in
  let pending := match active with Some sl => response_pending sl | None => false end in
  let idle := match fsm_state s with S_IDLE => true | _ => false end in
  let starts := match fsm_state s with S_START => true | _ => false end in
  let waits_data := match fsm_state s with S_WAIT_FOR_WRITE_DATA => true | _ => false end in
  let waits := match fsm_state s with S_WAIT_FOR_RESPONSE => true | _ => false end in
  {| fsm_state :=
       if rst then S_IDLE
       else match fsm_state s, rx with
            | S_IDLE, Some _ => S_START
            | S_START, _ => if is_write_op_r s then S_WAIT_FOR_WRITE_DATA else S_WAIT_FOR_RESPONSE
            | S_WAIT_FOR_WRITE_DATA, Some _ => S_WAIT_FOR_RESPONSE
            | S_WAIT_FOR_RESPONSE, _ => if pending then S_IDLE else S_WAIT_FOR_RESPONSE
            | st, None => st
            end;
     is_write_op_r := match rx with Some w => if idle then Z.testbit w 31 else is_write_op_r s | None => is_write_op_r s end;
     slave_addr_r := match rx with Some w => if idle then wrap G_ADDR_BITS_PER_SLAVE w else slave_addr_r s | None => slave_addr_r s end;
     active_slave_r := match rx with Some w => if idle then slave_sel_int w else active_slave_r s | None => active_slave_r s end;
     write_data := match rx with Some w => if waits_data then w else write_data s | None => write_data s end;
     slave_do_read := if starts && negb (is_write_op_r s) then Some (active_slave_r s) else None;
     slave_do_write := match rx with Some _ => if waits_data then Some (active_slave_r s) else None | None => None end;
     clear_response_pending := true;
     tx_valid := waits && pending;
     tx_data :=
       if waits && pending
       then if is_write_op_r s then write_data s else match active with Some sl => response_data sl | None => tx_data s end
       else tx_data s;
     slaves := slaves_clock rst (request_to s) rdata (slaves s) |}.

(** The word to send on a clock. *)
Definition tx_word (s : core) : option Z := if tx_valid s then Some (tx_data s) else None.

Fixpoint core_run (ins : list (option Z * readings)) (s : core) : core * list (option Z) :=
  match ins with
  | [] => (s, [])
  | (rx, rdata) :: ins' =>
      let s' := core_clock false rx rdata s in
      let '(s'', out) := core_run ins' s' in (s'', tx_word s' :: out)
  end.

Lemma core_run_app l1 l2 s :
  core_run (l1 ++ l2) s = let '(s1, o1) := core_run l1 s in let '(s2, o2) := core_run l2 s1 in (s2, o1 ++ o2).
Proof.
  revert s. induction l1 as [|[rx rdata] l1 IH]; intros s; cbn [app core_run]; [by destruct (core_run l2 s)|].
  rewrite IH. destruct (core_run l1 _) as [s1 o1]. by destruct (core_run l2 s1) as [s2 o2].
Qed.

(** ** The slaves while one of them is served *)

(** All at rest, with the register contents [ws]. *)
Definition all_rest (ws : list (list Z)) (l : list slave) : Prop := Forall slave_rest l /\ wdata_of <$> l = ws.

Definition serving (i : nat) (ws : list (list Z)) (P : slave -> Prop) (l : list slave) : Prop :=
  length l = length ws /\ (exists sl, l !! i = Some sl /\ P sl) /\
  forall j sl, j <> i -> l !! j = Some sl -> slave_rest sl /\ ws !! j = Some (wdata_of sl).

Lemma serving_weaken i ws (P P' : slave -> Prop) l : (forall sl, P sl -> P' sl) -> serving i ws P l -> serving i ws P' l.
Proof. intros H (Hl & (sl & Hi & HP) & Ho). split; [done|]. split; [by eexists; eauto|done]. Qed.

Lemma serving_step i ws (P P' : slave -> Prop) req rdata l :
  (forall j, j <> i -> do_read (req j) = false /\ do_write (req j) = false) ->
  (forall sl, P sl -> P' (slave_clock (registers i) false (req i) (rdata i) sl)) ->
  serving i ws P l -> serving i ws P' (slaves_clock false req rdata l).
Proof.
  intros Hreq HP (Hl & (sl & Hi & Hsl) & Ho). unfold slaves_clock. split; [by rewrite length_imap|]. split.
  - eexists. rewrite list_lookup_imap, Hi. cbn. split; [done|]. by apply HP.
  - intros j sl' Hj Hsl'. rewrite list_lookup_imap in Hsl'. destruct (l !! j) as [s0|] eqn:E; [|done].
    injection Hsl' as <-. destruct (Hreq j Hj) as [Hr Hw]. destruct (Ho j s0 Hj E) as [Hs0 Ew].
    destruct (slave_rest_clock (registers j) (req j) (rdata j) s0 Hr Hw Hs0) as [H1 H2]. by rewrite H2.
Qed.

Lemma all_rest_serving i w ws l :
  all_rest ws l -> ws !! i = Some w -> serving i ws (fun sl => slave_rest sl /\ wdata_of sl = w) l.
Proof.
  intros [Hr <-] Hi. split; [by rewrite length_fmap|]. rewrite list_lookup_fmap in Hi. split.
  - destruct (l !! i) as [sl|] eqn:E; [|done]. injection Hi as Hi. exists sl. split; [done|]. split; [|done]. by eapply Forall_lookup_1.
  - intros j sl _ Hsl. split; [by eapply Forall_lookup_1|]. by rewrite list_lookup_fmap, Hsl.
Qed.

Lemma serving_all_rest i w ws l :
  serving i ws (fun sl => slave_rest sl /\ wdata_of sl = w) l -> all_rest (<[i := w]> ws) l.
Proof.
  intros (Hl & (sl & Hi & Hr & Hw) & Ho). split.
  - apply Forall_lookup. intros j sl' Hj. destruct (decide (j = i)) as [->|Hne]; [congruence|by apply (Ho j)].
  - apply list_eq. intros j. rewrite list_lookup_fmap. destruct (decide (j = i)) as [->|Hne].
    + rewrite Hi, list_lookup_insert_eq by (apply lookup_lt_Some in Hi; lia). cbn. by rewrite Hw.
    + rewrite list_lookup_insert_ne by done. destruct (l !! j) as [sl'|] eqn:E; cbn.
      * symmetry. by apply Ho.
      * symmetry. apply lookup_ge_None. apply lookup_ge_None in E. lia.
Qed.

Lemma all_rest_step ws req rdata l :
  (forall j, do_read (req j) = false /\ do_write (req j) = false) ->
  all_rest ws l -> all_rest ws (slaves_clock false req rdata l).
Proof.
  intros Hreq [Hr Hw]. unfold slaves_clock. split.
  - apply Forall_lookup. intros j sl Hj. rewrite list_lookup_imap in Hj. destruct (l !! j) as [s0|] eqn:E; [|done].
    injection Hj as <-. apply slave_rest_clock; [apply Hreq|apply Hreq|by eapply Forall_lookup_1].
  - rewrite <- Hw. apply list_eq. intros j. rewrite !list_lookup_fmap, list_lookup_imap.
    destruct (l !! j) as [s0|] eqn:E; [|done]. cbn [fmap option_fmap option_map]. f_equal.
    refine (proj2 (slave_rest_clock _ _ _ _ (proj1 (Hreq j)) (proj2 (Hreq j)) _)). by eapply Forall_lookup_1.
Qed.

(** ** The state machine *)
Definition core_rest (ws : list (list Z)) (s : core) : Prop :=
  fsm_state s = S_IDLE /\ slave_do_read s = None /\ slave_do_write s = None /\ clear_response_pending s = true /\
  all_rest ws (slaves s).

(** A request is under way for register [a] of slave [i]; [st] tells how far. *)
Definition requested (st : state_t) (wr : bool) (a : Z) (i : nat) (dr dw : option nat) (s : core) : Prop :=
  fsm_state s = st /\ is_write_op_r s = wr /\ slave_addr_r s = a /\ active_slave_r s = i /\
  slave_do_read s = dr /\ slave_do_write s = dw /\ clear_response_pending s = true.

Local Ltac core_simpl :=
  cbn [fsm_state is_write_op_r slave_addr_r active_slave_r write_data slave_do_read slave_do_write clear_response_pending
       tx_valid tx_data slaves].

Lemma core_rest_clock ws rdata s :
  core_rest ws s -> core_rest ws (core_clock false None rdata s) /\ tx_word (core_clock false None rdata s) = None.
Proof.
  intros (E1 & E2 & E3 & E4 & Hr). unfold core_rest, tx_word, core_clock. core_simpl. rewrite E1. cbn [andb].
  split; [|done]. do 4 (split; [done|]). apply all_rest_step; [|done]. intros j. cbn. by rewrite E2, E3.
Qed.

Lemma core_rest_run ws n rds s :
  core_rest ws s -> length rds = n ->
  let '(s', out) := core_run (zip (replicate n None) rds) s in core_rest ws s' /\ out = replicate n None.
Proof.
  revert n s. induction rds as [|rdata rds IH]; intros n s Hs <-; cbn [length replicate zip zip_with core_run]; [done|].
  destruct (core_rest_clock ws rdata s Hs) as [Hs' ->]. specialize (IH _ _ Hs' eq_refl).
  fold (zip (replicate (length rds) (@None Z)) rds). by destruct (core_run _ _) as [s' out]; destruct IH as [IH ->].
Qed.

(** A word in the idle state. *)
Lemma core_accepts ws w0 word rdata s :
  core_rest ws s -> ws !! slave_sel_int word = Some w0 ->
  let s' := core_clock false (Some word) rdata s in
  requested S_START (Z.testbit word 31) (wrap G_ADDR_BITS_PER_SLAVE word) (slave_sel_int word) None None s' /\ tx_word s' = None /\
  serving (slave_sel_int word) ws (fun sl => slave_rest sl /\ wdata_of sl = w0) (slaves s').
Proof.
  intros (E1 & E2 & E3 & E4 & Hr) Hw. unfold requested, tx_word, core_clock. core_simpl. rewrite E1. cbn [andb].
  split; [done|]. split; [done|]. apply all_rest_serving; [|done]. apply all_rest_step; [|done]. intros j. cbn. by rewrite E2, E3.
Qed.

(** *** A read *)
Section Read.
Context (ws : list (list Z)) (i : nat) (a v : Z) (w : list Z).
Context (Hi : ws !! i = Some w) (Ha : wrap (log2_ceil (registers i)) a < registers i).

Definition awaits_read (k : nat) (s : core) : Prop :=
  requested S_WAIT_FOR_RESPONSE false a i (if (k =? 0)%nat then Some i else None) None s /\
  serving i ws (reading (registers i) k a v w) (slaves s).

Lemma is_slave_ne j dr : j <> i -> is_slave (if dr : bool then Some i else None) j = false.
Proof. intros Hj. destruct dr; [|done]. cbn. by apply Nat.eqb_neq. Qed.

Lemma core_read_starts rx rdata s :
  requested S_START false a i None None s -> serving i ws (fun sl => slave_rest sl /\ wdata_of sl = w) (slaves s) ->
  awaits_read 0 (core_clock false rx rdata s) /\ tx_word (core_clock false rx rdata s) = None.
Proof.
  intros (E1 & E2 & E3 & E4 & E5 & E6 & E7) Hs. unfold awaits_read, requested, tx_word, core_clock. core_simpl.
  rewrite E1, E2, E3, E4. cbn [andb negb]. split; [|by destruct rx]. split; [by destruct rx|].
  eapply serving_step; [| |exact Hs].
  - intros j _. cbn. by rewrite E5, E6.
  - intros sl [Hsl Hw]. destruct (slave_rest_clock (registers i) (request_to s i) (rdata i) sl) as [H1 H2];
      [cbn; by rewrite E5|cbn; by rewrite E6|done|]. split; [by rewrite H2|]. split; [exact E3|done].
Qed.

Lemma core_read_step k rx rdata s :
  (k <= 4)%nat -> (k = 3%nat -> v = rdata i (wrap (log2_ceil (registers i)) a)) -> awaits_read k s ->
  awaits_read (S k) (core_clock false rx rdata s) /\ tx_word (core_clock false rx rdata s) = None.
Proof.
  intros Hk Hv [(E1 & E2 & E3 & E4 & E5 & E6 & E7) Hs].
  assert (Hp : match slaves s !! i with Some sl => response_pending sl | None => false end = false).
  { destruct Hs as (_ & (sl & -> & Hsl) & _). by eapply reading_pending. }
  unfold awaits_read, requested, tx_word, core_clock. core_simpl. rewrite E1, E2, E3, E4, Hp. cbn [andb negb].
  split; [|done]. split; [by destruct rx|]. eapply serving_step; [| |exact Hs].
  - intros j Hj. unfold request_to. cbn [do_read do_write]. rewrite E5, E6. split; [by apply is_slave_ne|done].
  - intros sl Hsl. apply reading_step; try done; unfold request_to; cbn [do_read do_write]; rewrite ?E5, ?E6; [|done].
    destruct k; cbn; [by rewrite Nat.eqb_refl|done].
Qed.

Lemma core_read_ends rx rdata s :
  awaits_read 5 s ->
  core_rest ws (core_clock false rx rdata s) /\ tx_word (core_clock false rx rdata s) = Some v.
Proof.
  intros [(E1 & E2 & E3 & E4 & E5 & E6 & E7) Hs]. pose proof Hs as (_ & (sl & Hsl & Hv) & _).
  destruct (reading_end (registers i) a v w (request_to s i) (rdata i) sl ltac:(cbn; by rewrite E5) ltac:(cbn; by rewrite E6) E7 Hv)
    as (Hp & Hd & _).
  unfold core_rest, tx_word, core_clock. core_simpl. rewrite E1, E2, E4, Hsl, Hp, Hd. cbn [andb]. split; [|done].
  do 4 (split; [by destruct rx|]). rewrite <- (list_insert_id ws i w Hi). apply serving_all_rest.
  eapply serving_step; [| |exact Hs].
  - intros j _. cbn. by rewrite E5, E6.
  - intros sl' Hsl'. apply (reading_end (registers i) a v w); [cbn; by rewrite E5|cbn; by rewrite E6|done|done].
Qed.
End Read.

(** *** A write *)
Section Write.
Context (ws : list (list Z)) (i : nat) (a : Z) (w : list Z).
Context (Hi : ws !! i = Some w) (Ha : wrap (log2_ceil (registers i)) a < registers i).

(** The address is latched, the data still to come. *)
Definition awaits_data (s : core) : Prop :=
  requested S_WAIT_FOR_WRITE_DATA true a i None None s /\
  serving i ws (fun sl => slave_rest sl /\ wdata_of sl = w /\ paddr (apb_cmd sl) = a) (slaves s).

Definition awaits_write (k : nat) (d : Z) (s : core) : Prop :=
  requested S_WAIT_FOR_RESPONSE true a i None (if (k =? 0)%nat then Some i else None) s /\ write_data s = d /\
  serving i ws (writing (registers i) k a d w) (slaves s).

Lemma rest_at_address rdata s sl :
  requested (fsm_state s) true a i None None s -> slave_rest sl -> wdata_of sl = w ->
  let sl' := slave_clock (registers i) false (request_to s i) rdata sl in
  slave_rest sl' /\ wdata_of sl' = w /\ paddr (apb_cmd sl') = a.
Proof.
  intros (_ & _ & E3 & _ & E5 & E6 & _) Hsl Hw.
  destruct (slave_rest_clock (registers i) (request_to s i) rdata sl) as [H1 H2];
    [cbn; by rewrite E5|cbn; by rewrite E6|done|]. split; [done|]. split; [by rewrite H2|exact E3].
Qed.

Lemma core_write_starts rx rdata s :
  requested S_START true a i None None s -> serving i ws (fun sl => slave_rest sl /\ wdata_of sl = w) (slaves s) ->
  awaits_data (core_clock false rx rdata s) /\ tx_word (core_clock false rx rdata s) = None.
Proof.
  intros Hq Hs. pose proof Hq as (E1 & E2 & E3 & E4 & E5 & E6 & E7). unfold awaits_data, requested, tx_word, core_clock. core_simpl.
  rewrite E1, E2, E3, E4. cbn [andb negb]. split; [|by destruct rx]. split; [by destruct rx|].
  eapply serving_step; [| |exact Hs].
  - intros j _. cbn. by rewrite E5, E6.
  - intros sl [Hsl Hw]. apply rest_at_address; [by rewrite E1|done|done].
Qed.

Lemma core_data_waits rdata s :
  awaits_data s -> awaits_data (core_clock false None rdata s) /\ tx_word (core_clock false None rdata s) = None.
Proof.
  intros [Hq Hs]. pose proof Hq as (E1 & E2 & E3 & E4 & E5 & E6 & E7). unfold awaits_data, requested, tx_word, core_clock. core_simpl.
  rewrite E1, E2, E3, E4. cbn [andb negb]. split; [|done]. split; [done|]. eapply serving_step; [| |exact Hs].
  - intros j _. cbn. by rewrite E5, E6.
  - intros sl (Hsl & Hw & _). apply rest_at_address; [by rewrite E1|done|done].
Qed.

Lemma core_data_comes d rdata s :
  awaits_data s -> awaits_write 0 d (core_clock false (Some d) rdata s) /\ tx_word (core_clock false (Some d) rdata s) = None.
Proof.
  intros [Hq Hs]. pose proof Hq as (E1 & E2 & E3 & E4 & E5 & E6 & E7). unfold awaits_write, requested, tx_word, core_clock. core_simpl.
  rewrite E1, E2, E3, E4. cbn [andb negb]. split; [|done]. split; [done|]. split; [done|]. eapply serving_step; [| |exact Hs].
  - intros j _. cbn. by rewrite E5, E6.
  - intros sl (Hsl & Hw & _). destruct (rest_at_address (rdata i) s sl) as (H1 & H2 & H3); [by rewrite E1|done|done|]. done.
Qed.

Lemma core_write_step k d rx rdata s :
  (k <= 2)%nat -> awaits_write k d s ->
  awaits_write (S k) d (core_clock false rx rdata s) /\ tx_word (core_clock false rx rdata s) = None.
Proof.
  intros Hk [(E1 & E2 & E3 & E4 & E5 & E6 & E7) [Ed Hs]].
  assert (Hp : match slaves s !! i with Some sl => response_pending sl | None => false end = false).
  { destruct Hs as (_ & (sl & -> & Hsl) & _). by eapply writing_pending. }
  unfold awaits_write, requested, tx_word, core_clock. core_simpl. rewrite E1, E2, E3, E4, Hp. cbn [andb negb].
  split; [|done]. split; [by destruct rx|]. split; [by destruct rx|]. eapply serving_step; [| |exact Hs].
  - intros j Hj. unfold request_to. cbn [do_read do_write]. rewrite E5, E6. split; [done|by apply is_slave_ne].
  - intros sl Hsl. apply writing_step; try done; unfold request_to; cbn [do_read do_write]; rewrite ?E5, ?E6; [done|].
    destruct k; cbn; [by rewrite Nat.eqb_refl|done].
Qed.

Lemma core_write_ends d rx rdata s :
  awaits_write 3 d s ->
  core_rest (<[i := <[Z.to_nat (wrap (log2_ceil (registers i)) a) := d]> w]> ws) (core_clock false rx rdata s) /\
  tx_word (core_clock false rx rdata s) = Some d.
Proof.
  intros [(E1 & E2 & E3 & E4 & E5 & E6 & E7) [Ed Hs]]. pose proof Hs as (_ & (sl & Hsl & Hv) & _).
  destruct (writing_end (registers i) a d w (request_to s i) (rdata i) sl ltac:(cbn; by rewrite E5) ltac:(cbn; by rewrite E6) E7 Hv)
    as (Hp & _).
  unfold core_rest, tx_word, core_clock. core_simpl. rewrite E1, E2, E4, Hsl, Hp, Ed. cbn [andb]. split; [|done].
  do 4 (split; [by destruct rx|]). apply serving_all_rest. eapply serving_step; [| |exact Hs].
  - intros j _. cbn. by rewrite E5, E6.
  - intros sl' Hsl'. apply (writing_end (registers i) a d w); [cbn; by rewrite E5|cbn; by rewrite E6|done|done].
Qed.
End Write.

(** ** Whole requests *)

Lemma core_reads ws w word n rds s :
  core_rest ws s -> Z.testbit word 31 = false -> ws !! slave_sel_int word = Some w ->
  let i := slave_sel_int word in
  let r := wrap (log2_ceil (registers i)) (wrap G_ADDR_BITS_PER_SLAVE word) in
  r < registers i -> length rds = (8 + n)%nat ->
  let '(s', out) := core_run (zip (Some word :: replicate (7 + n) None) rds) s in
  core_rest ws s' /\ exists rdata, rds !! 5%nat = Some rdata /\ out = replicate 7 None ++ Some (rdata i r) :: replicate n None.
Proof.
  intros Hs Hb Hw i r Hr Hl. destruct rds as [|q0 [|q1 [|q2 [|q3 [|q4 [|q5 [|q6 [|q7 rds]]]]]]]]; try discriminate.
  injection Hl as Hl. set (a := wrap G_ADDR_BITS_PER_SLAVE word) in *.
  destruct (core_accepts ws w word q0 s Hs Hw) as (H1 & O1 & V1). rewrite Hb in H1. set (s1 := core_clock false (Some word) q0 s) in *.
  destruct (core_read_starts ws i a (q5 i r) w None q1 s1 H1 V1) as [H2 O2]. set (s2 := core_clock false None q1 s1) in *.
  destruct (core_read_step ws i a (q5 i r) w Hr 0 None q2 s2 ltac:(lia) ltac:(lia) H2) as [H3 O3]. set (s3 := core_clock false None q2 s2) in *.
  destruct (core_read_step ws i a (q5 i r) w Hr 1 None q3 s3 ltac:(lia) ltac:(lia) H3) as [H4 O4]. set (s4 := core_clock false None q3 s3) in *.
  destruct (core_read_step ws i a (q5 i r) w Hr 2 None q4 s4 ltac:(lia) ltac:(lia) H4) as [H5 O5]. set (s5 := core_clock false None q4 s4) in *.
  destruct (core_read_step ws i a (q5 i r) w Hr 3 None q5 s5 ltac:(lia) ltac:(done) H5) as [H6 O6]. set (s6 := core_clock false None q5 s5) in *.
  destruct (core_read_step ws i a (q5 i r) w Hr 4 None q6 s6 ltac:(lia) ltac:(lia) H6) as [H7 O7]. set (s7 := core_clock false None q6 s6) in *.
  destruct (core_read_ends ws i a (q5 i r) w Hw None q7 s7 H7) as [H8 O8]. set (s8 := core_clock false None q7 s7) in *.
  cbn [zip zip_with replicate core_run Nat.add]. fold s1 s2 s3 s4 s5 s6 s7 s8. rewrite O1, O2, O3, O4, O5, O6, O7, O8.
  pose proof (core_rest_run ws n rds s8 H8 Hl) as Hrun. unfold zip in Hrun. destruct (core_run _ s8) as [s' out]. destruct Hrun as [Hr' ->].
  split; [done|]. by exists q5.
Qed.

Lemma core_data_waits_run ws i a w m rds s :
  awaits_data ws i a w s -> length rds = m ->
  let '(s', out) := core_run (zip (replicate m None) rds) s in awaits_data ws i a w s' /\ out = replicate m None.
Proof.
  revert m s. induction rds as [|rdata rds IH]; intros m s Hs <-; cbn [length replicate zip zip_with core_run]; [done|].
  destruct (core_data_waits ws i a w rdata s Hs) as [Hs' ->]. specialize (IH _ _ Hs' eq_refl). unfold zip in IH.
  by destruct (core_run _ _) as [s' out]; destruct IH as [IH ->].
Qed.

Lemma core_writes ws w word d m n rds1 rds2 s :
  core_rest ws s -> Z.testbit word 31 = true -> ws !! slave_sel_int word = Some w ->
  let i := slave_sel_int word in
  let r := wrap (log2_ceil (registers i)) (wrap G_ADDR_BITS_PER_SLAVE word) in
  r < registers i -> length rds1 = (2 + m)%nat -> length rds2 = (5 + n)%nat ->
  let '(s', out) := core_run (zip (Some word :: replicate (1 + m) None) rds1 ++ zip (Some d :: replicate (4 + n) None) rds2) s in
  core_rest (<[i := <[Z.to_nat r := d]> w]> ws) s' /\ out = replicate (6 + m) None ++ Some d :: replicate n None.
Proof.
  intros Hs Hb Hw i r Hr Hl1 Hl2. destruct rds1 as [|p0 [|p1 rds1]]; try discriminate. injection Hl1 as Hl1.
  destruct rds2 as [|q0 [|q1 [|q2 [|q3 [|q4 rds2]]]]]; try discriminate. injection Hl2 as Hl2.
  set (a := wrap G_ADDR_BITS_PER_SLAVE word) in *. rewrite core_run_app.
  destruct (core_accepts ws w word p0 s Hs Hw) as (H1 & O1 & V1). rewrite Hb in H1. set (s1 := core_clock false (Some word) p0 s) in *.
  destruct (core_write_starts ws i a w None p1 s1 H1 V1) as [H2 O2]. set (s2 := core_clock false None p1 s1) in *.
  assert (E1 : exists t, core_run (zip (Some word :: replicate (1 + m) None) (p0 :: p1 :: rds1)) s = (t, replicate (2 + m) None) /\
    awaits_data ws i a w t).
  { pose proof (core_data_waits_run ws i a w m rds1 s2 H2 Hl1) as Hm. cbn [zip zip_with replicate core_run Nat.add].
    fold s1 s2. rewrite O1, O2. destruct (core_run _ s2) as [t outm]. destruct Hm as [Ht ->]. by exists t. }
  destruct E1 as (t & -> & Ht).
  destruct (core_data_comes ws i a w d q0 t Ht) as [H3 O3]. set (s3 := core_clock false (Some d) q0 t) in *.
  destruct (core_write_step ws i a w Hr 0 d None q1 s3 ltac:(lia) H3) as [H4 O4]. set (s4 := core_clock false None q1 s3) in *.
  destruct (core_write_step ws i a w Hr 1 d None q2 s4 ltac:(lia) H4) as [H5 O5]. set (s5 := core_clock false None q2 s4) in *.
  destruct (core_write_step ws i a w Hr 2 d None q3 s5 ltac:(lia) H5) as [H6 O6]. set (s6 := core_clock false None q3 s5) in *.
  destruct (core_write_ends ws i a w d None q4 s6 H6) as [H7 O7]. set (s7 := core_clock false None q4 s6) in *.
  cbn [zip zip_with replicate core_run Nat.add]. fold s3 s4 s5 s6 s7. rewrite O3, O4, O5, O6, O7.
  pose proof (core_rest_run _ n rds2 s7 H7 Hl2) as Hrun. unfold zip in Hrun. destruct (core_run _ s7) as [s' out]. destruct Hrun as [Hr' ->].
  split; [done|]. change ((replicate (2 + m) (@None Z) ++ replicate 4 None ++ Some d :: replicate n None) = replicate (6 + m) None ++ Some d :: replicate n None).
  rewrite app_assoc, <- replicate_add. do 2 f_equal. lia.
Qed.
End Core.
