(* ===== verification/BridgeWords.v ===== *)
(** * Words on the serial line: the outer processes of [uart_apb_bridge/uart_apb_bridge.vhd]

    The process that collects four received bytes into a word and the one that sends a word as four
    bytes, each with its UART, clock by clock.  Lemmas: what each does with the
    bytes of whole words. *)

From S2P Require Import Prelude UartFrame.
From S2P Require UartTx UartRx.

(** ** Receiving *)
Record rx_side := RxSide {
  i_axi_uart_rx : UartRx.uart_rx;
  rx_counter_u : nat;
  rx_buffer : list Z;
  rx_valid : bool
}.

Section Receive.
Context (C_BAUD_PERIOD_INT : Z).

(** The collecting process on a byte of the receiver; [rx_buffer] is given by its four bytes. *)
Definition collect (byte : option Z) (c : nat) (buf : list Z) : nat * list Z * bool :=
  match byte with
  | Some b => (if (c =? 3)%nat then O else S c, <[c := b]> buf, (c =? 3)%nat)
  | None => (c, buf, false)
  end.

Definition rx_byte (s : UartRx.uart_rx) : option Z :=
  if UartRx.tvalid_out (UartRx.rx_core s) then Some (UartRx.rx_buffer (UartRx.rx_core s)) else None.

Definition rx_side_clock (rst uart_rx : bool) (s : rx_side) : rx_side :=
  let '(c, buf, v) := collect (rx_byte (i_axi_uart_rx s)) (rx_counter_u s) (rx_buffer s) in
  {| i_axi_uart_rx := UartRx.uart_rx_clock C_BAUD_PERIOD_INT rst uart_rx (i_axi_uart_rx s);
     rx_counter_u := if rst then O else c;
     rx_buffer := buf;
     rx_valid := negb rst && v |}.

(** The received word on a clock. *)
Definition rx_word (s : rx_side) : option Z := if rx_valid s then Some (le_load (rx_buffer s)) else None.

Fixpoint rx_side_run (line : list bool) (s : rx_side) : rx_side * list (option Z) :=
  match line with
  | [] => (s, [])
  | x :: line' =>
      let s' := rx_side_clock false x s in
      let '(s'', out) := rx_side_run line' s' in (s'', rx_word s' :: out)
  end.

(** A stream of registered outputs as the next process sees it: one clock later. *)
Definition delay {A} (x : A) (l : list A) : list A := take (length l) (x :: l).

Lemma delay_cons {A} (x y : A) l : delay x (y :: l) = x :: delay y l.
Proof. done. Qed.

Lemma delay_snoc {A} (x y : A) l : delay x (l ++ [y]) = x :: l.
Proof. unfold delay. rewrite length_app, Nat.add_1_r. cbn [take]. by rewrite take_app_length. Qed.

(** The collecting process on a stream of bytes. *)
Fixpoint collect_run (us : list (option Z)) (c : nat) (buf : list Z) : nat * list Z * list (option Z) :=
  match us with
  | [] => (c, buf, [])
  | u :: us' =>
      let '(c1, buf1, v) := collect u c buf in
      let '(c2, buf2, out) := collect_run us' c1 buf1 in
      (c2, buf2, (if v then Some (le_load buf1) else None) :: out)
  end.

Fixpoint rx_stream (line : list bool) (s : UartRx.uart_rx) : list (option Z) :=
  match line with
  | [] => []
  | x :: line' => let s' := UartRx.uart_rx_clock C_BAUD_PERIOD_INT false x s in rx_byte s' :: rx_stream line' s'
  end.

Lemma rx_stream_length line s : length (rx_stream line s) = length line.
Proof. revert s. induction line as [|x line IH]; intros s; [done|]. cbn [rx_stream length]. by rewrite IH. Qed.

Lemma rx_stream_bytes line s : omap id (rx_stream line s) = (UartRx.uart_rx_run C_BAUD_PERIOD_INT line s).2.
Proof.
  revert s. induction line as [|x line IH]; intros s; [done|]. cbn [rx_stream UartRx.uart_rx_run].
  specialize (IH (UartRx.uart_rx_clock C_BAUD_PERIOD_INT false x s)). destruct (UartRx.uart_rx_run _ line _) as [s' bs]. cbn [snd] in *.
  rewrite <- IH. unfold UartRx.rx_bytes. set (s1 := UartRx.uart_rx_clock C_BAUD_PERIOD_INT false x s). clearbody s1.
  change (omap id (rx_byte s1 :: rx_stream line s1)) with
    (match rx_byte s1 with Some b => b :: omap id (rx_stream line s1) | None => omap id (rx_stream line s1) end).
  unfold rx_byte. by destruct (UartRx.tvalid_out (UartRx.rx_core s1)).
Qed.

Lemma rx_side_run_parts line s :
  let '(s', out) := rx_side_run line s in
  let '(c, buf, ws) := collect_run (delay (rx_byte (i_axi_uart_rx s)) (rx_stream line (i_axi_uart_rx s))) (rx_counter_u s) (rx_buffer s) in
  i_axi_uart_rx s' = (UartRx.uart_rx_run C_BAUD_PERIOD_INT line (i_axi_uart_rx s)).1 /\ rx_counter_u s' = c /\ rx_buffer s' = buf /\ out = ws.
Proof.
  revert s. induction line as [|x line IH]; intros s; [done|]. cbn [rx_side_run rx_stream]. rewrite delay_cons. cbn [collect_run UartRx.uart_rx_run].
  specialize (IH (rx_side_clock false x s)). unfold rx_side_clock in *.
  destruct (collect _ _ _) as [[c1 buf1] v]. cbn [i_axi_uart_rx rx_counter_u rx_buffer negb andb] in *.
  destruct (rx_side_run line _) as [s' out]. destruct (UartRx.uart_rx_run _ line _) as [u' bs]. cbn [fst] in *.
  destruct (collect_run _ c1 buf1) as [[c2 buf2] ws]. destruct IH as (-> & -> & -> & ->). done.
Qed.

Lemma collect_run_app us1 us2 c buf :
  collect_run (us1 ++ us2) c buf =
    let '(c1, buf1, o1) := collect_run us1 c buf in
    let '(c2, buf2, o2) := collect_run us2 c1 buf1 in (c2, buf2, o1 ++ o2).
Proof.
  revert c buf. induction us1 as [|u us1 IH]; intros c buf; cbn [app collect_run]; [by destruct (collect_run us2 c buf) as [[]]|].
  destruct (collect u c buf) as [[c0 buf0] v]. rewrite IH. destruct (collect_run us1 c0 buf0) as [[c1 buf1] o1].
  by destruct (collect_run us2 c1 buf1) as [[c2 buf2] o2].
Qed.

Lemma collect_none us c buf : omap id us = [] -> collect_run us c buf = (c, buf, replicate (length us) None).
Proof.
  revert c buf. induction us as [|[b|] us IH]; intros c buf H; [done|done|]. cbn [collect_run collect length replicate].
  cbn in H. by rewrite IH.
Qed.

(** Up to the next byte. *)
Lemma collect_next us b bs c buf :
  omap id us = b :: bs ->
  exists n us', us = replicate n None ++ Some b :: us' /\ omap id us' = bs /\
    collect_run us c buf =
      let '(c2, buf2, out) := collect_run us' (if (c =? 3)%nat then O else S c) (<[c := b]> buf) in
      (c2, buf2, replicate n None ++ (if (c =? 3)%nat then Some (le_load (<[c := b]> buf)) else None) :: out).
Proof.
  revert c buf. induction us as [|[b'|] us IH]; intros c buf H; [done| |].
  - cbn in H. injection H as -> H. exists O, us. split; [done|]. split; [done|]. cbn [collect_run collect replicate app].
    by destruct (collect_run us _ _) as [[]].
  - cbn in H. destruct (IH c buf H) as (n & us' & -> & E & Er). exists (S n), us'. split; [done|]. split; [done|].
    cbn [collect_run collect replicate app]. rewrite Er. by destruct (collect_run us' _ _) as [[]].
Qed.

Lemma replicate_gap {A} (x : A) n m l : replicate n x ++ x :: replicate m x ++ l = replicate (n + S m) x ++ l.
Proof. rewrite replicate_add. cbn [replicate]. by rewrite <- app_assoc. Qed.

(** The next four bytes make a word. *)
Lemma collect_word us b0 b1 b2 b3 bs buf :
  omap id us = b0 :: b1 :: b2 :: b3 :: bs -> length buf = 4%nat ->
  exists n us', omap id us' = bs /\ (3 <= n)%nat /\ length us = (n + S (length us'))%nat /\
    collect_run us 0 buf =
      let '(c2, buf2, out) := collect_run us' 0 [b0; b1; b2; b3] in
      (c2, buf2, replicate n None ++ Some (le_load [b0; b1; b2; b3]) :: out).
Proof.
  intros H Hb. destruct buf as [|x0 [|x1 [|x2 [|x3 []]]]]; try discriminate.
  destruct (collect_next us _ _ 0 [x0; x1; x2; x3] H) as (n0 & us0 & -> & H0 & ->).
  destruct (collect_next us0 _ _ 1 [b0; x1; x2; x3] H0) as (n1 & us1 & -> & H1 & E1).
  destruct (collect_next us1 _ _ 2 [b0; b1; x2; x3] H1) as (n2 & us2 & -> & H2 & E2).
  destruct (collect_next us2 _ _ 3 [b0; b1; b2; x3] H2) as (n3 & us3 & -> & H3 & E3).
  exists (n0 + S (n1 + S (n2 + S n3)))%nat, us3. split; [done|]. split; [lia|]. split.
  { rewrite !length_app. cbn [length]. rewrite !length_app. cbn [length]. rewrite !length_app, !length_replicate. cbn [length].
    rewrite length_app, length_replicate. cbn [length]. lia. }
  cbn [Nat.eqb insert list_insert] in *. rewrite E1. cbn [Nat.eqb insert list_insert] in *. rewrite E2.
  cbn [Nat.eqb insert list_insert] in *. rewrite E3. destruct (collect_run us3 _ _) as [[c2 buf2] out].
  rewrite !replicate_gap. do 3 f_equal. lia.
Qed.

(** *** Bytes from an idle line *)
Definition rx_quiet (s : rx_side) : Prop :=
  UartRx.rx_idle (i_axi_uart_rx s) /\ rx_byte (i_axi_uart_rx s) = None /\ rx_counter_u s = O /\ length (rx_buffer s) = 4%nat /\
  rx_valid s = false.

Lemma rx_stream_app l1 l2 s :
  rx_stream (l1 ++ l2) s = rx_stream l1 s ++ rx_stream l2 (UartRx.uart_rx_run C_BAUD_PERIOD_INT l1 s).1.
Proof.
  revert s. induction l1 as [|x l1 IH]; intros s; [done|]. cbn [app rx_stream UartRx.uart_rx_run]. rewrite IH.
  by destruct (UartRx.uart_rx_run _ l1 _) as [s' bs].
Qed.

Lemma uart_rx_run_app l1 l2 s :
  (UartRx.uart_rx_run C_BAUD_PERIOD_INT (l1 ++ l2) s).1 =
  (UartRx.uart_rx_run C_BAUD_PERIOD_INT l2 (UartRx.uart_rx_run C_BAUD_PERIOD_INT l1 s).1).1.
Proof.
  revert s. induction l1 as [|x l1 IH]; intros s; [done|]. cbn [app UartRx.uart_rx_run].
  specialize (IH (UartRx.uart_rx_clock C_BAUD_PERIOD_INT false x s)).
  destruct (UartRx.uart_rx_run _ (l1 ++ l2) _) as [s1 b1]. by destruct (UartRx.uart_rx_run _ l1 _) as [s2 b2].
Qed.

Lemma no_bytes us : omap id us = [] :> list Z -> us = replicate (length us) None.
Proof. induction us as [|[b|] us IH]; intros H; [done|done|]. cbn in H. cbn [length replicate]. by rewrite <- IH. Qed.

Lemma no_words n : omap id (replicate n (@None Z)) = [].
Proof. by induction n. Qed.

Lemma rx_stream_last line s : line <> [] -> last (rx_stream line s) = Some (rx_byte (UartRx.uart_rx_run C_BAUD_PERIOD_INT line s).1).
Proof.
  destruct line as [|x line _] using rev_ind; [done|]. intros _. rewrite rx_stream_app, uart_rx_run_app. cbn [rx_stream UartRx.uart_rx_run]. by rewrite last_snoc.
Qed.

Lemma rx_side_run_last line s :
  line <> [] -> let '(s', out) := rx_side_run line s in last out = Some (rx_word s').
Proof.
  revert s. induction line as [|x line IH]; intros s Hne; [done|]. cbn [rx_side_run].
  destruct line as [|y line]; [done|]. specialize (IH (rx_side_clock false x s) ltac:(done)).
  remember (y :: line) as l. destruct (rx_side_run l _) as [s' out]. destruct out; [done|exact IH].
Qed.

Context (Hfits : baud_fits C_BAUD_PERIOD_INT) (lo hi : nat) (Htol : UartRx.in_tolerance C_BAUD_PERIOD_INT lo hi).

Lemma rx_side_bytes bytes line n s :
  uart_line lo hi bytes line -> Forall (is_u 8) bytes -> rx_quiet s -> (6 <= n)%nat ->
  let '(s', out) := rx_side_run (line ++ replicate n true) s in
  exists us c, omap id us = bytes /\ (S (length us) = length line + 5)%nat /\
    collect_run us 0 (rx_buffer s) = c /\ rx_counter_u s' = c.1.1 /\ rx_buffer s' = c.1.2 /\
    out = c.2 ++ replicate (n - 4) None /\
    UartRx.rx_idle (i_axi_uart_rx s') /\ rx_byte (i_axi_uart_rx s') = None /\ rx_valid s' = false.
Proof.
  intros Hl Hb (Hi & Hby & Hc & Hbuf & Hv) Hn. set (L := line ++ replicate n true).
  pose proof (rx_side_run_parts L s) as Hp. pose proof (rx_side_run_last L s) as Hlast.
  assert (HL : L = (line ++ replicate 3 true) ++ replicate (n - 3) true).
  { unfold L. rewrite <- app_assoc, <- replicate_add. do 2 f_equal. lia. }
  destruct (UartRx.uart_rx_run C_BAUD_PERIOD_INT (line ++ replicate 3 true) (i_axi_uart_rx s)) as [u1 b1] eqn:E1.
  destruct (UartRx.uart_rx_line _ _ _ _ _ _ _ _ Hfits Htol Hl Hb Hi E1) as [-> Hi1].
  destruct (UartRx.uart_rx_run C_BAUD_PERIOD_INT (replicate (n - 3) true) u1) as [u2 b2] eqn:E2.
  assert (H2 : b2 = [] /\ UartRx.rx_idle u2).
  { replace (n - 3)%nat with (n - 6 + 3)%nat in E2 by lia. rewrite replicate_add in E2.
    by eapply UartRx.uart_rx_line in E2; [exact E2|done|exact Htol|apply line_idle|constructor|done]. }
  destruct H2 as [-> Hi2].
  pose proof (rx_stream_bytes (line ++ replicate 3 true) (i_axi_uart_rx s)) as S1. rewrite E1 in S1. cbn [snd] in S1.
  pose proof (rx_stream_bytes (replicate (n - 3) true) u1) as S2. rewrite E2 in S2. apply no_bytes in S2.
  rewrite rx_stream_length, length_replicate in S2.
  assert (HS : rx_stream L (i_axi_uart_rx s) = rx_stream (line ++ replicate 3 true) (i_axi_uart_rx s) ++ replicate (n - 4) None ++ [None]).
  { rewrite HL, rx_stream_app, E1. cbn [fst]. rewrite S2. f_equal. replace (n - 3)%nat with (n - 4 + 1)%nat by lia. by rewrite replicate_add. }
  rewrite HS, Hby, app_assoc, delay_snoc in Hp.
  assert (Hu : (UartRx.uart_rx_run C_BAUD_PERIOD_INT L (i_axi_uart_rx s)).1 = u2) by (rewrite HL, uart_rx_run_app, E1; cbn [fst]; by rewrite E2).
  pose proof (rx_stream_last L (i_axi_uart_rx s)) as Hlb. rewrite Hu, HS, app_assoc, last_snoc in Hlb.
  rewrite app_comm_cons, collect_run_app in Hp.
  set (us := None :: rx_stream (line ++ replicate 3 true) (i_axi_uart_rx s)) in *.
  destruct (collect_run us (rx_counter_u s) (rx_buffer s)) as [[c1 buf1] o1] eqn:Ec. rewrite collect_none in Hp by apply no_words.
  rewrite length_replicate in Hp. destruct (rx_side_run L s) as [s' out]. destruct Hp as (P1 & P2 & P3 & ->).
  assert (HLne : L <> []) by (unfold L; destruct n; [lia|]; by destruct line).
  specialize (Hlast HLne). specialize (Hlb HLne). injection Hlb as Hlb.
  replace (n - 4)%nat with (n - 5 + 1)%nat in Hlast by lia. rewrite replicate_add, app_assoc in Hlast.
  change (replicate 1 (@None Z)) with [@None Z] in Hlast. rewrite last_snoc in Hlast. injection Hlast as Hw.
  exists us, (c1, buf1, o1). rewrite P1, Hu, <- Hlb. split; [done|]. split; [unfold us; cbn [length]; rewrite rx_stream_length, length_app; cbn [length replicate]; lia|].
  rewrite <- Hc. do 5 (split; [done|]). split; [done|]. unfold rx_word in Hw. by destruct (rx_valid s').
Qed.

(** *** Words *)
Lemma word_bytes w : is_u 32 w -> exists b0 b1 b2 b3, le_store 4 w = [b0; b1; b2; b3] /\ le_load [b0; b1; b2; b3] = w.
Proof.
  intros Hw. pose proof (le_store_length 4 w) as Hl. pose proof (le_load_store 4 w) as E.
  destruct (le_store 4 w) as [|b0 [|b1 [|b2 [|b3 []]]]]; try discriminate. exists b0, b1, b2, b3. split; [done|].
  rewrite E. by apply wrap_small.
Qed.

Lemma rx_side_word w line n s :
  is_u 32 w -> uart_line lo hi (le_store 4 w) line -> rx_quiet s -> (6 <= n)%nat ->
  let '(s', out) := rx_side_run (line ++ replicate n true) s in
  rx_quiet s' /\ exists p q, out = replicate p None ++ Some w :: replicate q None /\ (n - 4 <= q)%nat /\
    (p + S q = length line + n)%nat.
Proof.
  intros Hw Hl Hs Hn. pose proof Hs as (_ & _ & _ & Hbuf & _). destruct (word_bytes w Hw) as (b0 & b1 & b2 & b3 & E & Ew).
  pose proof (rx_side_bytes _ line n s Hl (le_store_bytes 4 w) Hs Hn) as H. destruct (rx_side_run _ s) as [s' out].
  destruct H as (us & c & Hus & Hlen & Hc & E1 & E2 & -> & Hi & Hb & Hv). rewrite E in Hus.
  destruct (collect_word us b0 b1 b2 b3 [] _ Hus Hbuf) as (p & us' & Hus' & _ & Hlen' & Er). rewrite (collect_none us') in Er by done.
  rewrite Hc in Er. subst c. cbn [fst snd] in *. rewrite Er in *. cbn [fst snd] in *.
  split; [split; [done|]; split; [done|]; split; [done|]; by rewrite E2|].
  exists p, (length us' + (n - 4))%nat. rewrite Ew, <- app_assoc, replicate_add. cbn [app]. split; [done|]. lia.
Qed.

Lemma rx_side_two_words w w' line n s :
  is_u 32 w -> is_u 32 w' -> uart_line lo hi (le_store 4 w ++ le_store 4 w') line -> rx_quiet s -> (6 <= n)%nat ->
  let '(s', out) := rx_side_run (line ++ replicate n true) s in
  rx_quiet s' /\ exists p m q, out = replicate p None ++ Some w :: replicate (3 + m) None ++ Some w' :: replicate q None /\
    (n - 4 <= q)%nat /\ (p + S (3 + m + S q) = length line + n)%nat.
Proof.
  intros Hw Hw' Hl Hs Hn. pose proof Hs as (_ & _ & _ & Hbuf & _).
  destruct (word_bytes w Hw) as (b0 & b1 & b2 & b3 & E & Ew). destruct (word_bytes w' Hw') as (c0 & c1 & c2 & c3 & E' & Ew').
  assert (Hbytes : Forall (is_u 8) (le_store 4 w ++ le_store 4 w')) by (apply Forall_app; split; apply le_store_bytes).
  pose proof (rx_side_bytes _ line n s Hl Hbytes Hs Hn) as H. destruct (rx_side_run _ s) as [s' out].
  destruct H as (us & c & Hus & Hlen & Hc & E1 & E2 & -> & Hi & Hb & Hv). rewrite E, E' in Hus.
  destruct (collect_word us b0 b1 b2 b3 [c0; c1; c2; c3] _ Hus Hbuf) as (p & us1 & Hus1 & _ & Hlen1 & Er).
  destruct (collect_word us1 c0 c1 c2 c3 [] [b0; b1; b2; b3] Hus1 eq_refl) as (m & us2 & Hus2 & Hm & Hlen2 & Er2).
  rewrite (collect_none us2) in Er2 by done. rewrite Er2 in Er. rewrite Hc in Er. subst c. rewrite Er in *. cbn [fst snd] in *.
  split; [split; [done|]; split; [done|]; split; [done|]; by rewrite E2|].
  exists p, (m - 3)%nat, (length us2 + (n - 4))%nat. replace (3 + (m - 3))%nat with m by lia.
  rewrite Ew, Ew', <- app_assoc, replicate_add. cbn [app]. rewrite <- app_assoc. cbn [app]. split; [done|]. lia.
Qed.
End Receive.

(** ** Sending *)
Record tx_side := TxSide {
  i_axi_uart_tx : UartTx.uart_tx_regs;
  tx_valid_l : bool;
  tx_data_r : Z;
  tx_counter_u : nat;
  uart_tx_data : Z;
  uart_tx_valid : bool
}.

Section Send.
Context (C_BAUD_PERIOD_INT : Z).

(** Byte [k] of a word. *)
Definition byte_of (w : Z) (k : nat) : Z := slice w (8 * Z.of_nat k + 7) (8 * Z.of_nat k).

Definition tx_side_in (s : tx_side) : UartTx.tx_in := UartTx.TxIn (uart_tx_data s) (uart_tx_valid s).

(** A rising edge; [word] is [tx_data] when [tx_valid] is set. *)
Definition tx_side_clock (rst : bool) (word : option Z) (s : tx_side) : tx_side :=
  let takes := tx_valid_l s && UartTx.tready_out (i_axi_uart_tx s) && uart_tx_valid s in
  let last := takes && (tx_counter_u s =? 3)%nat in
  {| i_axi_uart_tx := UartTx.uart_tx_clock C_BAUD_PERIOD_INT rst (tx_side_in s) (i_axi_uart_tx s);
     tx_valid_l := if rst || last then false else match word with Some _ => true | None => tx_valid_l s end;
     tx_data_r := match word with Some w => w | None => tx_data_r s end;
     tx_counter_u :=
       if rst then O else if takes then if (tx_counter_u s =? 3)%nat then O else S (tx_counter_u s) else tx_counter_u s;
     uart_tx_data := if tx_valid_l s then byte_of (tx_data_r s) (tx_counter_u s) else uart_tx_data s;
     uart_tx_valid := if rst || last then false else if tx_valid_l s then true else uart_tx_valid s |}.

(** A run: the bytes handed to the UART and the levels of the line. *)
Fixpoint tx_side_run (words : list (option Z)) (s : tx_side) : tx_side * list Z * list bool :=
  match words with
  | [] => (s, [], [])
  | w :: words' =>
      let s' := tx_side_clock false w s in
      let '(s'', bs, line) := tx_side_run words' s' in
      (s'', (if UartTx.tready_out (i_axi_uart_tx s) && uart_tx_valid s then [uart_tx_data s] else []) ++ bs,
       UartTx.tx_out (i_axi_uart_tx s') :: line)
  end.

Lemma tx_side_run_app w1 w2 s :
  tx_side_run (w1 ++ w2) s =
    let '(s1, b1, l1) := tx_side_run w1 s in let '(s2, b2, l2) := tx_side_run w2 s1 in (s2, b1 ++ b2, l1 ++ l2).
Proof.
  revert s. induction w1 as [|w w1 IH]; intros s; cbn [app tx_side_run]; [by destruct (tx_side_run w2 s) as [[]]|].
  rewrite IH. destruct (tx_side_run w1 _) as [[s1 b1] l1]. destruct (tx_side_run w2 s1) as [[s2 b2] l2]. by rewrite app_assoc.
Qed.

(** The UART within is the UART on the inputs that the process gives it. *)
Lemma tx_side_run_uart words s :
  let '(s', bs, line) := tx_side_run words s in
  exists ins, length ins = length words /\ UartTx.uart_tx_run C_BAUD_PERIOD_INT ins (i_axi_uart_tx s) = (i_axi_uart_tx s', bs, line).
Proof.
  revert s. induction words as [|w words IH]; intros s; cbn [tx_side_run]; [by exists []|].
  specialize (IH (tx_side_clock false w s)). destruct (tx_side_run words _) as [[s' bs] line]. destruct IH as (ins & Hl & E).
  exists (tx_side_in s :: ins). split; [cbn; by rewrite Hl|]. cbn [UartTx.uart_tx_run].
  change (UartTx.uart_tx_clock C_BAUD_PERIOD_INT false (tx_side_in s) (i_axi_uart_tx s)) with (i_axi_uart_tx (tx_side_clock false w s)).
  by rewrite E.
Qed.

(** ** One word *)
Context (Hfits : baud_fits C_BAUD_PERIOD_INT).
Abbreviation tx_ok := (UartTx.tx_ok C_BAUD_PERIOD_INT).
Abbreviation pending := (UartTx.pending C_BAUD_PERIOD_INT).

(** Nothing to send. *)
Definition tx_done (s : tx_side) : Prop :=
  tx_ok (i_axi_uart_tx s) /\ tx_valid_l s = false /\ tx_counter_u s = O /\ uart_tx_valid s = false.
Definition tx_quiet (s : tx_side) : Prop := tx_done s /\ pending (i_axi_uart_tx s) = [].

(** Byte [k] of [w] is offered; the byte before it is still on the data port, but the UART is not ready. *)
Definition offering (w : Z) (k : nat) (s : tx_side) : Prop :=
  tx_ok (i_axi_uart_tx s) /\ tx_valid_l s = true /\ tx_data_r s = w /\ tx_counter_u s = k /\ uart_tx_valid s = true /\
  uart_tx_data s = byte_of w k.
Definition changing (w : Z) (k : nat) (s : tx_side) : Prop :=
  tx_ok (i_axi_uart_tx s) /\ tx_valid_l s = true /\ tx_data_r s = w /\ tx_counter_u s = k /\
  (uart_tx_valid s = true -> UartTx.tready_out (i_axi_uart_tx s) = false).

Lemma tx_side_uart_ok w s : tx_ok (i_axi_uart_tx s) -> tx_ok (i_axi_uart_tx (tx_side_clock false w s)).
Proof. intros H. apply (UartTx.tx_clock_pending _ Hfits _ _ H). Qed.

(** After a byte is taken the UART is not ready. *)
Lemma ready_after i u :
  tx_ok u -> UartTx.tready_out u = true -> UartTx.tx_tvalid i = true -> UartTx.tready_out (UartTx.uart_tx_clock C_BAUD_PERIOD_INT false i u) = false.
Proof.
  intros (_ & _ & Hst) Hr Hi. unfold UartTx.tready_out in *. unfold UartTx.uart_tx_clock. cbn [UartTx.tx_done UartTx.tx_data_valid].
  unfold UartTx.tready_out. rewrite Hr, Hi. cbn [negb]. rewrite orb_false_r.
  destruct (UartTx.state u); [done|done| |done]. destruct Hst as [E1 E2]. by rewrite E1, E2 in Hr.
Qed.

Lemma changing_step w k s :
  (k <= 3)%nat -> changing w k s ->
  offering w k (tx_side_clock false None s) /\ UartTx.tready_out (i_axi_uart_tx s) && uart_tx_valid s = false.
Proof.
  intros Hk (Hok & E1 & E2 & E3 & E4). assert (E5 : UartTx.tready_out (i_axi_uart_tx s) && uart_tx_valid s = false).
  { destruct (uart_tx_valid s); [by rewrite E4|by rewrite andb_false_r]. }
  split; [|done]. split; [by apply tx_side_uart_ok|]. unfold tx_side_clock.
  cbn [tx_valid_l tx_data_r tx_counter_u uart_tx_valid uart_tx_data]. rewrite E1, E2, E3. cbn [andb]. rewrite E5. done.
Qed.

Lemma offering_waits w k s :
  offering w k s -> UartTx.tready_out (i_axi_uart_tx s) = false ->
  offering w k (tx_side_clock false None s) /\ length (pending (i_axi_uart_tx s)) = S (length (pending (i_axi_uart_tx (tx_side_clock false None s)))).
Proof.
  intros (Hok & E1 & E2 & E3 & E4 & E5) Hr. split.
  - split; [by apply tx_side_uart_ok|]. unfold tx_side_clock.
    cbn [tx_valid_l tx_data_r tx_counter_u uart_tx_valid uart_tx_data]. rewrite E1, E2, E3, E4, Hr. done.
  - destruct (UartTx.tx_clock_quiet _ Hfits (tx_side_in s) _ Hok) as [_ E]; [by rewrite Hr|].
    change (UartTx.uart_tx_clock C_BAUD_PERIOD_INT false (tx_side_in s) (i_axi_uart_tx s)) with (i_axi_uart_tx (tx_side_clock false None s)) in E.
    assert (Hne : pending (i_axi_uart_tx s) <> []).
    { intros Hp. unfold UartTx.tready_out in Hr. apply orb_false_iff in Hr as [_ Hr]. apply negb_false_iff in Hr. destruct Hok as (Hb & _).
      pose proof (UartTx.left_in_pos _ Hfits _ Hb) as [Hl _]. unfold UartTx.pending in Hp. rewrite Hr in Hp.
      destruct (UartTx.left_in _ _); [lia|]. by destruct (UartTx.state _). }
    destruct (pending (i_axi_uart_tx s)) as [|x l]; [done|]. symmetry. exact (f_equal length E).
Qed.

Lemma offering_taken w k s :
  (k <= 3)%nat -> offering w k s -> UartTx.tready_out (i_axi_uart_tx s) = true ->
  let s' := tx_side_clock false None s in if (k =? 3)%nat then tx_done s' else changing w (S k) s'.
Proof.
  intros Hk (Hok & E1 & E2 & E3 & E4 & E5) Hr s'. pose proof (tx_side_uart_ok None s Hok) as Hok'.
  assert (Hn : UartTx.tready_out (i_axi_uart_tx s') = false) by (by apply ready_after).
  unfold tx_done, changing. fold s' in Hok'. revert Hok' Hn. unfold s', tx_side_clock.
  cbn [tx_valid_l tx_data_r tx_counter_u uart_tx_valid uart_tx_data]. rewrite E1, E2, E3, E4, Hr. intros Hok' Hn.
  destruct (k =? 3)%nat; done.
Qed.

(** Within the time of the frame under way the byte is taken. *)
Lemma offering_run w k s :
  (k <= 3)%nat -> offering w k s ->
  exists m, (1 <= m <= length (pending (i_axi_uart_tx s)) + 1)%nat /\
    let '(s', bs, _) := tx_side_run (replicate m None) s in
    bs = [byte_of w k] /\ if (k =? 3)%nat then tx_done s' else changing w (S k) s'.
Proof.
  intros Hk. remember (length (pending (i_axi_uart_tx s))) as n eqn:Hn. revert s Hn.
  induction n as [n IH] using lt_wf_ind. intros s -> Hs. destruct (UartTx.tready_out (i_axi_uart_tx s)) eqn:Hr.
  - exists 1%nat. split; [lia|]. cbn [replicate tx_side_run]. rewrite Hr. pose proof Hs as (_ & _ & _ & _ & E4 & E5). rewrite E4, E5.
    split; [done|]. by apply offering_taken.
  - destruct (offering_waits w k s Hs Hr) as [Hs' Hl]. destruct (IH (length (pending (i_axi_uart_tx (tx_side_clock false None s)))) ltac:(lia) _ eq_refl Hs') as (m & Hm & H).
    exists (S m). split; [rewrite Hl; lia|]. cbn [replicate tx_side_run].
    destruct (tx_side_run (replicate m None) _) as [[s' bs] line]. rewrite Hr. exact H.
Qed.

Abbreviation BIT := (UartTx.bit_clocks C_BAUD_PERIOD_INT).
Definition byte_time : nat := (12 * BIT + 3)%nat.
Definition word_time : nat := (5 * byte_time + 1)%nat.

Lemma done_step s : tx_done s -> tx_done (tx_side_clock false None s).
Proof.
  intros (Hok & E1 & E2 & E3). split; [by apply tx_side_uart_ok|]. unfold tx_side_clock.
  cbn [tx_valid_l tx_data_r tx_counter_u uart_tx_valid uart_tx_data]. rewrite E1, E2, E3. done.
Qed.

(** Nothing is sent, and what the UART still holds runs out. *)
Lemma done_run n s :
  tx_done s ->
  let '(s', bs, _) := tx_side_run (replicate n None) s in
  tx_done s' /\ bs = [] /\ pending (i_axi_uart_tx s') = drop n (pending (i_axi_uart_tx s)).
Proof.
  revert s. induction n as [|n IH]; intros s Hs; cbn [replicate tx_side_run]; [by rewrite drop_0|].
  specialize (IH _ (done_step s Hs)). pose proof Hs as (Hok & _ & _ & E3).
  destruct (UartTx.tx_clock_quiet _ Hfits (tx_side_in s) _ Hok) as [_ E]; [cbn; by rewrite E3, andb_false_r|].
  change (UartTx.uart_tx_clock C_BAUD_PERIOD_INT false (tx_side_in s) (i_axi_uart_tx s)) with (i_axi_uart_tx (tx_side_clock false None s)) in E.
  destruct (tx_side_run (replicate n None) _) as [[s' bs] line]. destruct IH as (H1 & -> & ->).
  rewrite E3, andb_false_r. split; [done|]. split; [done|].
  assert (E' : pending (i_axi_uart_tx (tx_side_clock false None s)) = drop 1 (pending (i_axi_uart_tx s))).
  { apply (f_equal (drop 1)) in E. rewrite skipn_cons, drop_0 in E. rewrite E. by destruct (pending (i_axi_uart_tx s)). }
  by rewrite E', drop_drop.
Qed.

(** Bytes [k] to 3 of a word. *)
Lemma changing_run w j k s :
  (j + k = 3)%nat -> changing w k s ->
  exists m, (m <= S j * byte_time)%nat /\
    let '(s', bs, _) := tx_side_run (replicate m None) s in bs = byte_of w <$> seq k (S j) /\ tx_done s'.
Proof.
  revert k s. induction j as [|j IH]; intros k s Hj Hs; destruct (changing_step w k s ltac:(lia) Hs) as [Ho E];
    destruct (offering_run w k _ ltac:(lia) Ho) as (m & Hm & H);
    pose proof (UartTx.pending_bound _ Hfits _ (proj1 Ho)) as Hp; unfold byte_time in *.
  - exists (S m). split; [lia|]. cbn [replicate tx_side_run].
    destruct (tx_side_run (replicate m None) _) as [[s' bs] line]. rewrite E. destruct H as [-> H].
    replace k with 3%nat in * by lia. done.
  - destruct (tx_side_run (replicate m None) (tx_side_clock false None s)) as [[s1 b1] l1] eqn:E1. destruct H as [-> H].
    rewrite (proj2 (Nat.eqb_neq k 3)) in H by lia. destruct (IH (S k) s1 ltac:(lia) H) as (m2 & Hm2 & H2).
    exists (S (m + m2)). split; [lia|]. rewrite replicate_S, replicate_add. cbn [tx_side_run]. rewrite tx_side_run_app, E1.
    destruct (tx_side_run (replicate m2 None) s1) as [[s2 b2] l2]. rewrite E. destruct H2 as [-> H2]. done.
Qed.

Lemma le_store_bytes_of w : le_store 4 w = byte_of w <$> seq 0 4.
Proof.
  cbn [le_store seq fmap list_fmap]. rewrite !Z.shiftr_shiftr by lia. unfold byte_of, slice. cbn [Z.add].
  change 0xff with (Z.ones 8). rewrite !wrap_ones by lia. reflexivity.
Qed.

(** A run between two quiet states has put on the line what was handed to the UART. *)
Lemma tx_side_line words s s' bs line :
  tx_quiet s -> tx_quiet s' -> tx_side_run words s = (s', bs, line) -> uart_line BIT BIT bs line.
Proof.
  intros [(Hok & _) Hp] [_ Hp'] E. pose proof (tx_side_run_uart words s) as H. rewrite E in H. destruct H as (ins & _ & H).
  pose proof (UartTx.tx_run_line _ Hfits ins _ [] [] Hok) as Hl. rewrite H in Hl. rewrite Hp in Hl.
  destruct Hl as (_ & _ & Hl); [apply (line_idle _ _ 0)|]. by rewrite Hp', app_nil_r in Hl.
Qed.

(** A word is on the line, as four bytes, after [word_time] clocks. *)
Lemma tx_side_word w n s :
  tx_quiet s -> (word_time <= n)%nat ->
  let '(s', bs, line) := tx_side_run (Some w :: replicate n None) s in tx_quiet s' /\ uart_line BIT BIT (le_store 4 w) line.
Proof.
  intros Hs Hn. pose proof Hs as [(Hok & E1 & E2 & E3) Hp]. set (s1 := tx_side_clock false (Some w) s).
  assert (H1 : changing w 0 s1).
  { split; [by apply tx_side_uart_ok|]. unfold s1, tx_side_clock.
    cbn [tx_valid_l tx_data_r tx_counter_u uart_tx_valid uart_tx_data]. rewrite E1, E2, E3. done. }
  destruct (changing_run w 3 0 s1 eq_refl H1) as (m & Hm & H).
  assert (Hrun : exists s' line, tx_side_run (Some w :: replicate n None) s = (s', le_store 4 w, line) /\ tx_quiet s').
  { unfold word_time in Hn. replace n with (m + (n - m))%nat by lia. rewrite replicate_add. cbn [tx_side_run]. fold s1.
    rewrite tx_side_run_app. destruct (tx_side_run (replicate m None) s1) as [[s2 b2] l2]. destruct H as [-> H2].
    pose proof (done_run (n - m) s2 H2) as H3. destruct (tx_side_run (replicate (n - m) None) s2) as [[s3 b3] l3].
    destruct H3 as (H3 & -> & Hp3). rewrite E3, andb_false_r, app_nil_r, <- le_store_bytes_of. eexists _, _. split; [done|].
    split; [done|]. rewrite Hp3. apply drop_ge. pose proof (UartTx.pending_bound _ Hfits _ (proj1 H2)). unfold byte_time in *. lia. }
  destruct Hrun as (s' & line & E & Hq). rewrite E. split; [done|]. by apply (tx_side_line _ s s' _ line Hs Hq E).
Qed.

Lemma tx_side_idle n s :
  tx_quiet s ->
  let '(s', _, line) := tx_side_run (replicate n None) s in tx_quiet s' /\ uart_line BIT BIT [] line.
Proof.
  intros Hs. pose proof Hs as [Hd Hp]. pose proof (done_run n s Hd) as H.
  destruct (tx_side_run (replicate n None) s) as [[s' bs] line] eqn:E. destruct H as (Hd' & -> & Hp').
  assert (Hq : tx_quiet s') by (split; [done|by rewrite Hp', Hp, drop_nil]). split; [done|]. exact (tx_side_line _ s s' _ line Hs Hq E).
Qed.

(** One word on a stream. *)
Lemma tx_side_stream w p q s :
  tx_quiet s -> (word_time <= q)%nat ->
  let '(s', _, line) := tx_side_run (replicate p None ++ Some w :: replicate q None) s in
  tx_quiet s' /\ uart_line BIT BIT (le_store 4 w) line.
Proof.
  intros Hs Hq. rewrite tx_side_run_app. pose proof (tx_side_idle p s Hs) as H1.
  destruct (tx_side_run (replicate p None) s) as [[s1 b1] l1]. destruct H1 as [H1 L1].
  pose proof (tx_side_word w q s1 H1 Hq) as H2. destruct (tx_side_run (Some w :: _) s1) as [[s2 b2] l2]. destruct H2 as [H2 L2].
  split; [exact H2|]. exact (uart_line_app _ _ _ _ _ _ L1 L2).
Qed.
End Send.

(** A word that comes while another is being sent takes its place from the next byte on: a host must await an answer. *)
Example early_word_mixes :
  (tx_side_run 10 (Some 0x11111111 :: replicate 250 None ++ Some 0x22222222 :: replicate 1000 None)
    (TxSide UartRx.tx_reset false 0 0 0 false)).1.2 = [0x11; 0x11; 0x11; 0x22].
Proof. vm_compute. reflexivity. Qed.
