(* ===== verification/UartBridge.v ===== *)
(** * The whole bridge: [uart_apb_bridge/uart_apb_bridge.vhd] with its UARTs and the register blocks

    The processes of ApbBridge.v and BridgeWords.v on one clock.  Theorem: on a
    serial line with frames within the tolerance the clocked bridge does what the bridge of UartLink.v does with
    bytes: it sends the same bytes and leaves the same register contents. *)

From S2P Require Import Prelude UartFrame RegBlock ApbBridge BridgeWords.
From S2P Require UartTx UartRx UartLink.

Record bridge_regs := BridgeRegs { s_rx : rx_side; s_core : core; s_tx : tx_side }.

Section Bridge.
Context (C_BAUD_PERIOD_INT G_ADDR_BITS_PER_SLAVE : Z) (components : list Z).

(** A rising edge of [clk]: each process sees the registers of the one before it. *)
Definition bridge_clock (rst uart_rx : bool) (rdata : readings) (s : bridge_regs) : bridge_regs :=
  {| s_rx := rx_side_clock C_BAUD_PERIOD_INT rst uart_rx (s_rx s);
     s_core := core_clock G_ADDR_BITS_PER_SLAVE components rst (rx_word (s_rx s)) rdata (s_core s);
     s_tx := tx_side_clock C_BAUD_PERIOD_INT rst (tx_word (s_core s)) (s_tx s) |}.

Definition uart_tx (s : bridge_regs) : bool := UartTx.tx_out (i_axi_uart_tx (s_tx s)).

Fixpoint bridge_run (ins : list (bool * readings)) (s : bridge_regs) : bridge_regs * list bool :=
  match ins with
  | [] => (s, [])
  | (x, rdata) :: ins' =>
      let s' := bridge_clock false x rdata s in
      let '(s'', line) := bridge_run ins' s' in (s'', uart_tx s' :: line)
  end.

Lemma bridge_run_app l1 l2 s :
  bridge_run (l1 ++ l2) s = let '(s1, o1) := bridge_run l1 s in let '(s2, o2) := bridge_run l2 s1 in (s2, o1 ++ o2).
Proof.
  revert s. induction l1 as [|[x rdata] l1 IH]; intros s; cbn [app bridge_run]; [by destruct (bridge_run l2 s)|].
  rewrite IH. destruct (bridge_run l1 _) as [s1 o1]. by destruct (bridge_run l2 s1) as [s2 o2].
Qed.

(** The parts run one after the other on the delayed streams of the part before. *)
Lemma bridge_run_parts ins s :
  let '(s', out) := bridge_run ins s in
  exists ws cs bs, rx_side_run C_BAUD_PERIOD_INT ins.*1 (s_rx s) = (s_rx s', ws) /\
    core_run G_ADDR_BITS_PER_SLAVE components (zip (delay (rx_word (s_rx s)) ws) ins.*2) (s_core s) = (s_core s', cs) /\
    tx_side_run C_BAUD_PERIOD_INT (delay (tx_word (s_core s)) cs) (s_tx s) = (s_tx s', bs, out).
Proof.
  revert s. induction ins as [|[x rdata] ins IH]; intros s; cbn [bridge_run]; [by exists [], [], []|].
  specialize (IH (bridge_clock false x rdata s)). destruct (bridge_run ins _) as [s' out].
  destruct IH as (ws & cs & bs & E1 & E2 & E3).
  exists (rx_word (rx_side_clock C_BAUD_PERIOD_INT false x (s_rx s)) :: ws),
    (tx_word (core_clock G_ADDR_BITS_PER_SLAVE components false (rx_word (s_rx s)) rdata (s_core s)) :: cs).
  eexists. rewrite !fmap_cons, !delay_cons. cbn [fst snd rx_side_run tx_side_run zip_with core_run].
  cbn [bridge_clock s_rx s_core s_tx] in *. rewrite E1, E2, E3. done.
Qed.

(** ** One access *)
Context (Hfits : baud_fits C_BAUD_PERIOD_INT) (lo hi : nat) (Htol : UartRx.in_tolerance C_BAUD_PERIOD_INT lo hi).
Abbreviation BIT := (UartTx.bit_clocks C_BAUD_PERIOD_INT).

(** Nothing under way; the components' registers hold [ws]. *)
Definition quiet (ws : list (list Z)) (s : bridge_regs) : Prop :=
  rx_quiet (s_rx s) /\ core_rest ws (s_core s) /\ tx_word (s_core s) = None /\ tx_quiet C_BAUD_PERIOD_INT (s_tx s).

(** The words of an access as the host sends them. *)
Inductive access := Read (word : Z) | Write (word data : Z).

Definition access_word (a : access) : Z := match a with Read w => w | Write w _ => w end.
Definition access_bytes (a : access) : list Z :=
  match a with Read w => le_store 4 w | Write w d => le_store 4 w ++ le_store 4 d end.

Definition slave_of (word : Z) : nat := slave_sel_int G_ADDR_BITS_PER_SLAVE components word.
Definition register_of (word : Z) : Z :=
  wrap (log2_ceil (registers components (slave_of word))) (wrap G_ADDR_BITS_PER_SLAVE word).

(** An access to a register that exists. *)
Definition valid_access (a : access) : Prop :=
  is_u 32 (access_word a) /\ (slave_of (access_word a) < length components)%nat /\
  register_of (access_word a) < registers components (slave_of (access_word a)) /\
  match a with Read w => Z.testbit w 31 = false | Write w d => Z.testbit w 31 = true /\ is_u 32 d end.

Definition put (i : nat) (r d : Z) (ws : list (list Z)) : list (list Z) :=
  match ws !! i with Some w => <[i := <[Z.to_nat r := d]> w]> ws | None => ws end.
Definition after_access (a : access) (ws : list (list Z)) : list (list Z) :=
  match a with Read _ => ws | Write w d => put (slave_of w) (register_of w) d ws end.

(** Clocks within which an access is answered after its last byte. *)
Definition answer_time : nat := (word_time C_BAUD_PERIOD_INT + 20)%nat.

Lemma delay_word (p q : nat) (w : Z) :
  delay None (replicate p None ++ Some w :: replicate (S q) None) = replicate (S p) None ++ Some w :: replicate q None.
Proof.
  replace (S q) with (q + 1)%nat by lia. rewrite replicate_add, app_comm_cons, app_assoc.
  change (replicate 1 (@None Z)) with [@None Z]. by rewrite delay_snoc.
Qed.

Lemma delay_word_snd l (q : nat) (w : Z) :
  delay None (l ++ Some w :: replicate (S q) None) = None :: l ++ Some w :: replicate q None.
Proof.
  replace (S q) with (q + 1)%nat by lia. rewrite replicate_add, app_comm_cons, app_assoc.
  change (replicate 1 (@None Z)) with [@None Z]. by rewrite delay_snoc.
Qed.

Lemma core_run_last ins s :
  ins <> [] -> let '(s', out) := core_run G_ADDR_BITS_PER_SLAVE components ins s in last out = Some (tx_word s').
Proof.
  revert s. induction ins as [|[rx rdata] ins IH]; intros s Hne; [done|]. cbn [core_run].
  destruct ins as [|y ins]; [done|]. specialize (IH (core_clock G_ADDR_BITS_PER_SLAVE components false rx rdata s) ltac:(done)).
  remember (y :: ins) as l. destruct (core_run _ _ l _) as [s' out]. destruct out; [done|exact IH].
Qed.

(** What the state machine answers to the words of an access. *)
Definition answered (a : access) (ws : list (list Z)) (rds : list readings) (n : nat) (r : core * list (option Z)) : Prop :=
  core_rest (after_access a ws) r.1 /\ exists p q v,
    r.2 = replicate p None ++ Some v :: replicate (S q) None /\ (n <= q)%nat /\
    match a with
    | Read w => exists rdata, rdata ∈ rds /\ v = rdata (slave_of w) (register_of w)
    | Write _ d => v = d
    end.

Lemma answered_mono a ws rds m n r : (n <= m)%nat -> answered a ws rds m r -> answered a ws rds n r.
Proof. intros Hn [Hr (p & q & v & E & Hq & Hv)]. split; [done|]. exists p, q, v. split; [done|]. split; [lia|done]. Qed.

Lemma core_answers_read ws w p q rds s :
  core_rest ws s -> length ws = length components -> valid_access (Read w) -> (9 <= q)%nat ->
  length rds = (p + S q)%nat ->
  answered (Read w) ws rds (q - 8)
    (core_run G_ADDR_BITS_PER_SLAVE components (zip (replicate p None ++ Some w :: replicate q None) rds) s).
Proof.
  intros Hs Hws (Hw & Hi & Hr & Hb) Hq Hl. cbn [access_word] in *.
  destruct (lookup_lt_is_Some_2 ws (slave_of w)) as [r Er]; [lia|].
  rewrite <- (take_drop p rds), zip_with_app by (rewrite length_replicate, length_take; lia). rewrite core_run_app.
  pose proof (core_rest_run G_ADDR_BITS_PER_SLAVE components ws p (take p rds) s Hs ltac:(rewrite length_take; lia)) as H1.
  destruct (core_run _ _ (zip (replicate p None) _) s) as [s1 o1]. destruct H1 as [H1 ->].
  pose proof (core_reads G_ADDR_BITS_PER_SLAVE components ws r w (q - 7) (drop p rds) s1 H1 Hb Er Hr ltac:(rewrite length_drop; lia)) as H2.
  replace (7 + (q - 7))%nat with q in H2 by lia.
  destruct (core_run _ _ _ s1) as [s2 o2]. destruct H2 as (H2 & rdata & Hrd & ->). split; [done|].
  exists (p + 7)%nat, (q - 8)%nat, (rdata (slave_of w) (register_of w)). cbn [snd].
  rewrite app_assoc, <- replicate_add. replace (q - 7)%nat with (S (q - 8)) by lia. split; [done|]. split; [done|].
  exists rdata. split; [|done]. rewrite take_drop. rewrite lookup_drop in Hrd. by eapply list_elem_of_lookup_2.
Qed.

Lemma core_answers_write ws w d p m q rds s :
  core_rest ws s -> length ws = length components -> valid_access (Write w d) -> (6 <= q)%nat ->
  length rds = (p + S (3 + m + S q))%nat ->
  answered (Write w d) ws rds (q - 5)
    (core_run G_ADDR_BITS_PER_SLAVE components (zip (replicate p None ++ Some w :: replicate (3 + m) None ++ Some d :: replicate q None) rds) s).
Proof.
  intros Hs Hws (Hw & Hi & Hr & Hb & Hd) Hq Hl. cbn [access_word] in *.
  destruct (lookup_lt_is_Some_2 ws (slave_of w)) as [r Er]; [lia|].
  rewrite <- (take_drop p rds), zip_with_app by (rewrite length_replicate, length_take; lia). rewrite core_run_app.
  pose proof (core_rest_run G_ADDR_BITS_PER_SLAVE components ws p (take p rds) s Hs ltac:(rewrite length_take; lia)) as H1.
  destruct (core_run _ _ (zip (replicate p None) _) s) as [s1 o1]. destruct H1 as [H1 ->].
  set (rds' := drop p rds). assert (Hl' : length rds' = (4 + m + S q)%nat) by (unfold rds'; rewrite length_drop; lia).
  rewrite app_comm_cons. rewrite <- (take_drop (4 + m) rds'), zip_with_app by (cbn [length]; rewrite length_replicate, length_take; lia).
  pose proof (core_writes G_ADDR_BITS_PER_SLAVE components ws r w d (2 + m) (q - 4) (take (4 + m) rds') (drop (4 + m) rds') s1 H1 Hb Er Hr
    ltac:(rewrite length_take; lia) ltac:(rewrite length_drop; lia)) as H2.
  replace (4 + (q - 4))%nat with q in H2 by lia. change (1 + (2 + m))%nat with (3 + m)%nat in H2.
  destruct (core_run _ _ _ s1) as [s2 o2]. destruct H2 as (H2 & ->). split.
  { cbn [after_access]. unfold put. by rewrite Er. }
  exists (p + (6 + (2 + m)))%nat, (q - 5)%nat, d. cbn [snd]. rewrite app_assoc, <- replicate_add.
  by replace (q - 4)%nat with (S (q - 5)) by lia.
Qed.

(** From the line to the answer's word. *)
Lemma bridge_received a line n rds s ws :
  uart_line lo hi (access_bytes a) line -> valid_access a -> length ws = length components -> rx_quiet (s_rx s) ->
  core_rest ws (s_core s) -> (answer_time <= n)%nat -> length rds = (length line + n)%nat ->
  let '(r, words) := rx_side_run C_BAUD_PERIOD_INT (line ++ replicate n true) (s_rx s) in
  rx_quiet r /\
  answered a ws rds (word_time C_BAUD_PERIOD_INT)
    (core_run G_ADDR_BITS_PER_SLAVE components (zip (delay (rx_word (s_rx s)) words) rds) (s_core s)).
Proof.
  intros Hline Ha Hws Hq Hc Hn Hl. pose proof Hq as (_ & _ & _ & _ & Hv). unfold answer_time in Hn.
  unfold rx_word at 1. rewrite Hv. pose proof Ha as (Hw & _ & _ & Hd). destruct a as [w|w d]; cbn [access_word access_bytes] in *.
  - pose proof (rx_side_word _ Hfits lo hi Htol w line n (s_rx s) Hw Hline Hq ltac:(lia)) as H.
    destruct (rx_side_run _ _ (s_rx s)) as [r words]. destruct H as (Hr & p & q & -> & Hq1 & Hlen). split; [done|].
    destruct q as [|q]; [lia|]. rewrite delay_word.
    eapply answered_mono; [|apply core_answers_read; done || lia]. lia.
  - destruct Hd as [_ Hd]. pose proof (rx_side_two_words _ Hfits lo hi Htol w d line n (s_rx s) Hw Hd Hline Hq ltac:(lia)) as H.
    destruct (rx_side_run _ _ (s_rx s)) as [r words]. destruct H as (Hr & p & m & q & -> & Hq1 & Hlen). split; [done|].
    destruct q as [|q]; [lia|]. rewrite app_comm_cons, app_assoc, delay_word_snd, <- app_assoc. cbn [app].
    change (None :: replicate p None ++ ?l) with (replicate (S p) (@None Z) ++ l).
    eapply answered_mono; [|apply core_answers_write; done || lia]. lia.
Qed.

(** From the answer's word to the line. *)
Lemma bridge_access a line n rds s ws :
  uart_line lo hi (access_bytes a) line -> valid_access a -> length ws = length components -> quiet ws s ->
  (answer_time <= n)%nat -> length rds = (length line + n)%nat ->
  let '(s', out) := bridge_run (zip (line ++ replicate n true) rds) s in
  quiet (after_access a ws) s' /\ exists v, uart_line BIT BIT (le_store 4 v) out /\
    match a with
    | Read w => exists rdata, rdata ∈ rds /\ v = rdata (slave_of w) (register_of w)
    | Write _ d => v = d
    end.
Proof.
  intros Hline Ha Hws (Hrx & Hc & Ht & Htx) Hn Hl. set (L := line ++ replicate n true).
  assert (HL : length L = length rds) by (unfold L; rewrite length_app, length_replicate; lia).
  pose proof (bridge_run_parts (zip L rds) s) as H. destruct (bridge_run (zip L rds) s) as [s' out].
  destruct H as (words & cs & bs & E1 & E2 & E3). rewrite fst_zip in E1 by lia. rewrite snd_zip in E2 by lia.
  pose proof (bridge_received a line n rds s ws Hline Ha Hws Hrx Hc Hn Hl) as H. fold L in H. rewrite E1, E2 in H.
  destruct H as (Hrx' & Hc' & p & q & v & Ecs & Hq & Hv). cbn [fst snd] in *. subst cs.
  rewrite Ht, delay_word in E3. pose proof (tx_side_stream _ Hfits v (S p) q (s_tx s) Htx Hq) as H. rewrite E3 in H.
  destruct H as [Htx' Hout]. split; [|by exists v]. split; [done|]. split; [done|]. split; [|done].
  assert (Hne : zip (delay (rx_word (s_rx s)) words) rds <> []).
  { intros E. rewrite E in E2. cbn in E2. injection E2 as _ E2. by destruct p. }
  pose proof (core_run_last _ (s_core s) Hne) as Hlast. rewrite E2 in Hlast.
  replace (S q) with (q + 1)%nat in Hlast by lia. rewrite replicate_add, app_comm_cons, app_assoc in Hlast.
  change (replicate 1 (@None Z)) with [@None Z] in Hlast. rewrite last_snoc in Hlast. by injection Hlast as <-.
Qed.
End Bridge.

(** ** The bridge at the granularity of bytes

    The world of UartLink.v: the registers' contents and the values that the next reads find. *)
Section Bytes.
Context (C_BAUD_PERIOD_INT G_ADDR_BITS_PER_SLAVE : Z) (components : list Z).

Definition decoded_bits : Z := C_LOG2_NUM_SLAVES components + G_ADDR_BITS_PER_SLAVE.
Definition slave_at (addr : Z) : nat := Z.to_nat (Z.shiftr addr G_ADDR_BITS_PER_SLAVE).
Definition register_at (addr : Z) : Z :=
  wrap (log2_ceil (registers components (slave_at addr))) (wrap G_ADDR_BITS_PER_SLAVE addr).

#[export] Instance blocks_apb : UartLink.Apb (list (list Z) * list Z) := {|
  UartLink.apb_read _ w := match w with (ws, v :: vs) => (v, (ws, vs)) | (ws, []) => (0, (ws, [])) end;
  UartLink.apb_write addr d w := (put (slave_at addr) (register_at addr) d w.1, w.2);
  UartLink.apb_wait _ w := w
|}.

Context (Hbits : 0 <= G_ADDR_BITS_PER_SLAVE).
Abbreviation slave_of := (slave_of G_ADDR_BITS_PER_SLAVE components).
Abbreviation register_of := (register_of G_ADDR_BITS_PER_SLAVE components).
Abbreviation valid_access := (valid_access G_ADDR_BITS_PER_SLAVE components).
Abbreviation after_access := (after_access G_ADDR_BITS_PER_SLAVE components).
Abbreviation link_bytes := (UartLink.link_bytes decoded_bits).

Lemma slave_at_of word : slave_at (UartLink.bridge_addr decoded_bits word) = slave_of word.
Proof.
  unfold slave_at, UartBridge.slave_of, slave_sel_int, UartLink.bridge_addr, decoded_bits. f_equal.
  assert (0 <= C_LOG2_NUM_SLAVES components) by apply Z.log2_up_nonneg. unfold slice. zbits.
Qed.

Lemma register_at_of word : register_at (UartLink.bridge_addr decoded_bits word) = register_of word.
Proof.
  unfold register_at, UartBridge.register_of. rewrite slave_at_of. f_equal.
  assert (0 <= C_LOG2_NUM_SLAVES components) by apply Z.log2_up_nonneg.
  unfold UartLink.bridge_addr, decoded_bits. zbits.
Qed.

(** The values still to be read before a word is answered with [v]. *)
Definition to_read (a : access) (v : Z) (vs : list Z) : list Z := match a with Read _ => v :: vs | Write _ _ => vs end.

Lemma link_access a v vs ws tx :
  valid_access a -> match a with Read _ => True | Write _ d => v = d end ->
  link_bytes (UartLink.Link UartLink.bridge_reset tx (ws, to_read a v vs)) (access_bytes a) =
  UartLink.Link UartLink.bridge_reset (tx ++ le_store 4 v) (after_access a ws, vs).
Proof.
  intros (Hw & _ & _ & Hd) Hv. destruct a as [w|w d]; cbn [access_word access_bytes to_read] in *.
  - rewrite (UartLink.link_word decoded_bits UartLink.S_IDLE) by done. cbn [UartLink.l_bus UartLink.l_tx].
    rewrite (wrap_small 32 w Hw). unfold UartLink.bridge_word. rewrite Hd. done.
  - destruct Hd as [Hb Hd]. subst v. unfold UartLink.link_bytes. rewrite foldl_app. fold (link_bytes (UartLink.Link UartLink.bridge_reset tx (ws, vs)) (le_store 4 w)).
    rewrite (UartLink.link_word decoded_bits UartLink.S_IDLE) by done. cbn [UartLink.l_bus UartLink.l_tx].
    rewrite (wrap_small 32 w Hw). unfold UartLink.bridge_word at 1. rewrite Hb, app_nil_r.
    set (l := UartLink.Link _ tx (ws, vs)). fold (link_bytes l (le_store 4 d)).
    rewrite (UartLink.link_word decoded_bits (UartLink.S_WAIT_FOR_WRITE_DATA (UartLink.bridge_addr decoded_bits w))) by done.
    unfold l. cbn [UartLink.l_bus UartLink.l_tx UartLink.bridge_word].
    rewrite (wrap_small 32 d Hd). cbn [UartLink.apb_write blocks_apb fst snd]. by rewrite slave_at_of, register_at_of.
Qed.

Lemma after_access_length a ws : length (after_access a ws) = length ws.
Proof. destruct a as [w|w d]; cbn; [done|]. unfold put. destruct (ws !! _); [by rewrite length_insert|done]. Qed.

(** What has been sent stays. *)
Lemma link_bytes_tx tx b w bytes :
  link_bytes (UartLink.Link b tx w) bytes =
  let l := link_bytes (UartLink.Link b [] w) bytes in UartLink.Link (UartLink.l_bridge l) (tx ++ UartLink.l_tx l) (UartLink.l_bus l).
Proof.
  cbn zeta. revert b tx w. induction bytes as [|x bytes IH]; intros b tx w; [cbn; by rewrite app_nil_r|].
  unfold UartLink.link_bytes. cbn [foldl].
  fold (link_bytes (UartLink.link_byte decoded_bits (UartLink.Link b tx w) x) bytes).
  fold (link_bytes (UartLink.link_byte decoded_bits (UartLink.Link b [] w) x) bytes).
  unfold UartLink.link_byte. cbn [UartLink.l_bridge UartLink.l_tx UartLink.l_bus].
  destruct (UartLink.bridge_byte decoded_bits b x w) as [[b' t] w']. rewrite IH, (IH _ ([] ++ t)). cbn. by rewrite app_assoc.
Qed.

(** The bridge of UartLink.v in this world. *)
Definition byte_bridge (ws : list (list Z)) (reads : list Z) (bytes : list Z) : UartLink.link (W := list (list Z) * list Z) :=
  link_bytes (UartLink.Link UartLink.bridge_reset [] (ws, reads)) bytes.

(** ** A sequence of accesses

    An access, the line that carries its bytes, and the clocks that the host waits after it. *)
Definition exchange : Type := access * list bool * nat.
Definition exchange_line (x : exchange) : list bool := x.1.2 ++ replicate x.2 true.
Definition exchange_bytes (x : exchange) : list Z := access_bytes x.1.1.
Definition exchange_reads (x : exchange) : list Z := match x.1.1 with Read w => [w] | Write _ _ => [] end.

Definition exchange_ok (lo hi : nat) (x : exchange) : Prop :=
  valid_access x.1.1 /\ uart_line lo hi (exchange_bytes x) x.1.2 /\ (answer_time C_BAUD_PERIOD_INT <= x.2)%nat.

(** A value that the component drives on the port of the register while the accesses are under way. *)
Definition found (rds : list readings) (w v : Z) : Prop := exists rdata, rdata ∈ rds /\ v = rdata (slave_of w) (register_of w).
End Bytes.

(** ** Properties *)

(** C25. The clocked bridge refines the bridge of UartLink.v: for every sequence of accesses to existing registers, on a
    line with frames within the tolerance and any gaps, each followed by a wait for its answer, the
    bridge sends on its line just the bytes that the byte-level bridge answers, in frames of its own, reads give values that the
    components drive on the ports of the addressed registers, writes change just the addressed register, and
    the bridge is then quiet again. *)
Theorem bridge_refines_bytes P A components lo hi xs rds ws s :
  baud_fits P -> UartRx.in_tolerance P lo hi -> 0 <= A -> Forall (exchange_ok P A components lo hi) xs ->
  length ws = length components -> quiet P ws s -> length rds = length (concat (exchange_line <$> xs)) ->
  let '(s', out) := bridge_run P A components (zip (concat (exchange_line <$> xs)) rds) s in
  exists vs answer ws',
    byte_bridge A components ws vs (concat (exchange_bytes <$> xs)) =
      UartLink.Link UartLink.bridge_reset answer (ws', []) /\
    uart_line (UartTx.bit_clocks P) (UartTx.bit_clocks P) answer out /\
    Forall2 (found A components rds) (concat (exchange_reads <$> xs)) vs /\ quiet P ws' s'.
Proof.
  intros Hfits Htol HA Hxs. revert rds ws s. induction Hxs as [|x xs (Ha & Hline & Hn) _ IH]; intros rds ws s Hws Hs Hl.
  { exists [], [], ws. destruct rds; [|done]. split; [done|]. split; [apply (line_idle _ _ 0)|]. by split. }
  destruct x as [[a line] n]. cbn [fst snd fmap list_fmap concat] in *. unfold exchange_line at 1 in Hl.
  unfold exchange_line at 1. cbn [fst snd] in *. rewrite length_app in Hl. set (L := line ++ replicate n true) in *.
  rewrite <- (take_drop (length L) rds), zip_with_app by (rewrite length_take; lia). rewrite bridge_run_app.
  pose proof (bridge_access P A components Hfits lo hi Htol a line n (take (length L) rds) s ws Hline Ha Hws Hs Hn) as H.
  rewrite length_take in H. fold L in H. destruct (bridge_run P A components (zip L _) s) as [s1 o1].
  destruct H as (Hs1 & v & Ho1 & Hv); [unfold L in *; rewrite length_app, length_replicate in *; lia|].
  specialize (IH (drop (length L) rds) _ s1 ltac:(by rewrite after_access_length) Hs1 ltac:(rewrite length_drop; lia)).
  destruct (bridge_run P A components (zip _ (drop _ _)) s1) as [s2 o2]. destruct IH as (vs & answer & ws' & El & Ho2 & Hvs & Hs2).
  assert (Hv' : match a with Read _ => True | Write _ d => v = d end) by (by destruct a).
  exists (to_read a v vs), (le_store 4 v ++ answer), ws'. split; [|split; [by apply uart_line_app|split; [|done]]].
  - unfold byte_bridge in *. unfold UartLink.link_bytes. rewrite foldl_app. unfold exchange_bytes at 1. cbn [fst].
    pose proof (link_access A components HA a v vs ws [] Ha Hv') as E. unfold UartLink.link_bytes in E. rewrite E.
    pose proof (link_bytes_tx A components ([] ++ le_store 4 v) UartLink.bridge_reset (after_access A components a ws, vs)
      (concat (exchange_bytes <$> xs))) as E2. rewrite El in E2. exact E2.
  - rewrite take_drop. assert (Hd : Forall2 (found A components rds) (concat (exchange_reads <$> xs)) vs).
    { eapply Forall2_impl; [exact Hvs|]. intros w u (q & Hq & ->). exists q. split; [|done].
      rewrite <- (take_drop (length L) rds). apply elem_of_app. by right. }
    unfold exchange_reads at 1. cbn [fst]. destruct a as [w|w d]; [|exact Hd]. constructor; [|exact Hd].
    destruct Hv as (q & Hq & ->). exists q. split; [|done].
    rewrite <- (take_drop (length L) rds). apply elem_of_app. by left.
Qed.

(** ** Witness *)

(** Two components, of one and of four registers, after power-up. *)
Definition demo_components : list Z := [1; 4].
Definition demo_slave (n : nat) : slave :=
  Slave A_IDLE (ApbCmd 0 false false false 0) false 0 (RegBlock true true 0 None None 0 (replicate n 0)).
Definition demo_bridge : bridge_regs :=
  {| s_rx := RxSide UartRx.rx_reset 0 [0; 0; 0; 0] false;
     s_core := Core S_IDLE false 0 0 0 None None true false 0 [demo_slave 1; demo_slave 4];
     s_tx := TxSide UartRx.tx_reset false 0 0 0 false |}.

(** A write of 5 to register 2 of the second component. *)
Definition demo_exchange : exchange := (Write 0x80000102 5, frames 11 (le_store 4 0x80000102 ++ le_store 4 5), 700%nat).
Definition demo_readings : list readings := replicate 1580 (fun _ _ => 0).

Lemma demo_quiet : quiet 10 [[0]; [0; 0; 0; 0]] demo_bridge.
Proof.
  assert (Hr : forall n, slave_rest (demo_slave n)) by (intros n; split; [done|by exists false]).
  split; [repeat split|]. split; [|split; [done|]].
  - do 4 (split; [done|]). split; [|done]. apply Forall_cons_2; [apply Hr|apply Forall_cons_2; [apply Hr|apply Forall_nil_2]].
  - split; [|done]. split; [|done]. repeat split; done.
Qed.

Lemma bridge_refines_bytes_witness :
  uart_line 11 11 (le_store 4 5) (bridge_run 10 8 demo_components (zip (exchange_line demo_exchange) demo_readings) demo_bridge).2.
Proof.
  assert (Hfits : baud_fits 10) by (repeat split; done).
  pose proof (bridge_refines_bytes 10 8 demo_components 11 11 [demo_exchange] demo_readings [[0]; [0; 0; 0; 0]] demo_bridge Hfits
    (UartRx.same_rate_in_tolerance 10 ltac:(lia)) ltac:(lia)) as H.
  cbn [fmap list_fmap concat] in H. rewrite app_nil_r in H.
  destruct (bridge_run 10 8 demo_components _ demo_bridge) as [s' out].
  destruct H as (vs & answer & ws' & E & Hout & Hvs & _).
  - constructor; [|constructor]. split; [|split; [apply frames_line|vm_compute; lia]].
    unfold valid_access, is_u. vm_compute. repeat split; congruence || lia.
  - done.
  - apply demo_quiet.
  - vm_compute. reflexivity.
  - rewrite app_nil_r in E. inversion Hvs; subst. vm_compute in E. injection E as <- _. exact Hout.
Defined.
