(* ===== verification/Timer.v ===== *)
(** * Clocks and timers: [example/cpp/timer.hpp]

    The events of [std::chrono] and [std::this_thread], what is assumed of a
    steady clock, and the class template [timer].  Times and durations are
    64-bit nanosecond counts; signed overflow is undefined. *)

From S2P Require Import Prelude Effects.

(** ** Clocks *)
Inductive clockE : Type -> Type :=
  | ClockNow : clockE Z
  | SleepUntil (time : Z) : clockE unit
  | Pause : clockE unit.

(** Signed 64-bit arithmetic. *)
Definition i64 (x : Z) : result Z :=
  if (- 2 ^ 63 <=? x) && (x <? 2 ^ 63) then Ok x else Err Undefined.

(** A steady clock: readings never decrease, and [sleep_until] returns no
    earlier than the time it was given. *)
Class SteadyClock (W : Type) `{!Handler clockE W} (clk : W -> Z) : Prop := {
  clock_now w : clk w <= (handle ClockNow w).1 /\ clk (handle ClockNow w).2 = (handle ClockNow w).1;
  clock_sleep w t : clk w <= clk (handle (SleepUntil t) w).2 /\ t <= clk (handle (SleepUntil t) w).2;
  clock_pause w : clk w <= clk (handle Pause w).2
}.

(** Between two readings it advances by at least [step] (0 for no progress). *)
Class ProgressingClock (W : Type) `{!Handler clockE W} (clk : W -> Z) (step : Z) : Prop :=
  clock_progress w : clk w + step <= (handle ClockNow w).1.

(** ** [timer<Clock>] *)
Record timer := Timer { _start_time : Z; _expire_time : Z; _started : bool }.
Abbreviation timerM := (objM clockE timer).

Definition timer_default : timer := Timer 0 0 false.

Definition restart (timeout_duration : Z) : timerM unit :=
  _ ← obj_modify (fun t => Timer (_start_time t) (_expire_time t) true);
  now ← obj_io (call_ok ClockNow);
  _ ← obj_modify (fun t => Timer now (_expire_time t) (_started t));
  expire ← obj_io (Ret (i64 (now + timeout_duration)));
  obj_modify (fun t => Timer (_start_time t) expire (_started t)).

(** The constructor with a timeout. *)
Definition timer_new (timeout_duration : Z) : prog clockE (result unit * timer) :=
  restart timeout_duration timer_default.

(** [!_started || (now() >= _expire_time)]: the clock is read only when started. *)
Definition expired : timerM bool :=
  this ← (obj_get : timerM _);
  if negb (_started this) then mret true
  else now ← obj_io (call_ok ClockNow); mret (_expire_time this <=? now).

(** [duration_cast] truncates; [unit_ns] is the target unit in nanoseconds. *)
Definition elapsed (unit_ns : Z) : timerM Z :=
  this ← (obj_get : timerM _);
  now ← obj_io (call_ok ClockNow);
  d ← obj_io (Ret (i64 (now - _start_time this)));
  mret (Z.quot d unit_ns).

(** ** Lemmas *)
Lemma i64_ok x : - 2 ^ 63 <= x < 2 ^ 63 -> i64 x = Ok x.
Proof.
  intros [H1 H2]. unfold i64. by rewrite (proj2 (Z.leb_le _ _) H1), (proj2 (Z.ltb_lt _ _) H2).
Qed.

Section Clock.
Context {W : Type} `{!Handler clockE W}.

Lemma run_now w : run (call_ok ClockNow) w = (Ok (handle ClockNow w).1, (handle ClockNow w).2).
Proof. rewrite run_call_ok. by destruct (handle ClockNow w). Qed.
Lemma run_sleep t w : run (call_ok (SleepUntil t)) w = (Ok tt, (handle (SleepUntil t) w).2).
Proof. rewrite run_call_ok. by destruct (handle (SleepUntil t) w) as [[] ?]. Qed.
Lemma run_pause w : run (call_ok Pause) w = (Ok tt, (handle Pause w).2).
Proof. rewrite run_call_ok. by destruct (handle Pause w) as [[] ?]. Qed.
End Clock.

Ltac clock_step :=
  first [ obj1 | rewrite run_now | rewrite run_sleep | rewrite run_pause ]; cbn beta iota.

(** ** Properties *)

(** A restarted timer: [expired] answers whether the clock has reached start
    plus timeout, [elapsed] the truncated number of units since the start, and
    on a steady clock a timer that has expired stays expired. *)
Theorem timer_spec {W} `{!Handler clockE W} clk `{!SteadyClock W clk} timeout unit_ns tm w0 :
  let t0 := (handle ClockNow w0).1 in
  0 <= t0 < 2 ^ 62 -> 0 <= timeout < 2 ^ 62 -> 0 < unit_ns ->
  exists tm', run (restart timeout tm) w0 = ((Ok tt, tm'), (handle ClockNow w0).2) /\
    forall w, t0 <= clk w ->
      let now := (handle ClockNow w).1 in
      now < 2 ^ 63 ->
      run (expired tm') w = ((Ok (t0 + timeout <=? now), tm'), (handle ClockNow w).2) /\
      run (elapsed unit_ns tm') w = ((Ok ((now - t0) / unit_ns), tm'), (handle ClockNow w).2) /\
      (t0 + timeout <= now -> forall w', clk (handle ClockNow w).2 <= clk w' ->
         (run (expired tm') w').1 = (Ok true, tm')).
Proof.
  intros t0 Ht0 Hto Hunit. exists (Timer t0 (t0 + timeout) true). split.
  - unfold restart. repeat clock_step. fold t0. rewrite i64_ok by lia. cbn beta iota.
    by repeat clock_step.
  - intros w Hw now Hnow. pose proof (clock_now w) as [Hle Hclk]. fold now in Hle, Hclk.
    assert (Hexp : forall u, run (expired (Timer t0 (t0 + timeout) true)) u =
      ((Ok (t0 + timeout <=? (handle ClockNow u).1), Timer t0 (t0 + timeout) true), (handle ClockNow u).2)).
    { intros u. unfold expired. repeat clock_step. cbn [_started negb]. by repeat clock_step. }
    split_and!.
    + apply Hexp.
    + unfold elapsed. repeat clock_step. fold now. cbn [_start_time].
      rewrite i64_ok by lia. cbn beta iota. clock_step. by rewrite Z.quot_div_nonneg by lia.
    + intros Hex w' Hw'. rewrite Hexp. cbn [fst]. pose proof (clock_now w') as [Hle' _].
      by rewrite (proj2 (Z.leb_le _ _)) by lia.
Qed.

(** ** Witnesses *)

(** A clock that advances by a microsecond at every reading. *)
Definition ticking : Handler clockE Z := fun X e =>
  match e in clockE Y return Z -> Y * Z with
  | ClockNow => fun w => (w + 1000, w + 1000)
  | SleepUntil t => fun w => (tt, Z.max w t)
  | Pause => fun w => (tt, w)
  end.
#[export] Instance ticking_steady : SteadyClock (Handler0 := ticking) Z (fun w => w).
Proof. split; intros; cbn; lia. Qed.
#[export] Instance ticking_progress : ProgressingClock (Handler0 := ticking) Z (fun w => w) 1000.
Proof. intros w. cbn. lia. Qed.

Lemma timer_spec_witness :
  exists tm', run (Handler0 := ticking) (restart 100000 timer_default) 0 = ((Ok tt, tm'), 1000) /\
    (run (Handler0 := ticking) (expired tm') 50000).1.1 = Ok false /\
    (run (Handler0 := ticking) (expired tm') 100000).1.1 = Ok true.
Proof.
  destruct (timer_spec (Handler0 := ticking) (fun w => w) 100000 1000 timer_default 0)
    as (tm' & Hr & Hs); [cbn; lia..|].
  exists tm'. split; [exact Hr|].
  destruct (Hs 50000) as (E1 & _ & _); [cbn; lia..|]. destruct (Hs 100000) as (E2 & _ & _); [cbn; lia..|].
  rewrite E1, E2. split; reflexivity.
Defined.
