(* ===== verification/TokenBucket.v ===== *)
(** * Packet pacing: [example/cpp/token_bucket.hpp]

    The schedule of the token bucket on a steady clock.  Rates are binary64
    numbers ([SpecFloat]), times 64-bit nanoseconds.  The spin loop takes fuel;
    [acquire_returns] says how much is enough. *)

From Stdlib Require Import SpecFloat.
From S2P Require Import Prelude Effects Timer.

(** ** Doubles *)
Abbreviation double := spec_float.
Definition double_of_Z (z : Z) : double := binary_normalize 53 1024 z 0 false.
Definition double_div (x y : double) : double := SFdiv 53 1024 x y.

(** [static_cast<int64_t>(std::round(x))]: halves away from zero; infinities,
    NaN and values out of range are undefined. *)
Definition int64_of_round (x : double) : result Z :=
  match x with
  | S754_zero _ => Ok 0
  | S754_finite s m e =>
      let a := if 0 <=? e then Zpos m * 2 ^ e else (Zpos m + 2 ^ (- e - 1)) / 2 ^ (- e) in
      i64 (if s then - a else a)
  | _ => Err Undefined
  end.

(** ** The class *)
Record token_bucket := TokenBucket { m_next_time : Z; m_interval : Z }.
Abbreviation bucketM := (objM clockE token_bucket).
Definition with_next_time (t : Z) (b : token_bucket) : token_bucket := TokenBucket t (m_interval b).

Definition token_bucket_new : io clockE token_bucket :=
  now ← call_ok ClockNow; mret (TokenBucket now 0).

Definition set_rate (tokens_per_sec : double) (b : token_bucket) : result token_bucket :=
  if SFltb (S754_zero false) tokens_per_sec then
    interval ← int64_of_round (double_div (double_of_Z 1000000000) tokens_per_sec);
    Ok (TokenBucket (m_next_time b) interval)
  else Ok b.

Fixpoint spin (fuel : nat) (target_time : Z) : io clockE unit :=
  match fuel with
  | O => io_fail OutOfFuel
  | S fuel' =>
      now ← call_ok ClockNow;
      if now <? target_time then
        _ ← call_ok Pause; spin fuel' target_time
      else mret tt
  end.

Definition SLEEP_THRESHOLD : Z := 50.

Definition wait_until (fuel : nat) (now target_time : Z) : io clockE unit :=
  if target_time <=? now then mret tt
  else
    d ← Ret (i64 (target_time - now));
    let remaining := Z.quot d 1000 in
    _ ← (if SLEEP_THRESHOLD <? remaining then
           wake ← Ret (i64 (target_time - 20000)); call_ok (SleepUntil wake)
         else mret tt);
    spin fuel target_time.

Definition acquire (fuel : nat) : bucketM unit :=
  now ← obj_io (call_ok ClockNow);
  this ← (obj_get : bucketM _);
  behind ← obj_io (Ret (i64 (now - m_next_time this)));
  limit ← obj_io (Ret (i64 (m_interval this * 5)));
  _ ← (if limit <? behind then obj_modify (with_next_time now) else mret tt);
  this ← (obj_get : bucketM _);
  let target_time := m_next_time this in
  next ← obj_io (Ret (i64 (m_next_time this + m_interval this)));
  _ ← obj_modify (with_next_time next);
  obj_io (wait_until fuel now target_time).

(** [n] packets in a row. *)
Fixpoint acquire_n (n fuel : nat) : bucketM unit :=
  match n with
  | O => mret tt
  | S n' => _ ← acquire fuel; acquire_n n' fuel
  end.

(** ** Lemmas *)

(** The slot of a call that starts at [now]. *)
Definition slot (b : token_bucket) (now : Z) : Z :=
  if m_interval b * 5 <? now - m_next_time b then now else m_next_time b.

Lemma slot_lower b now : now - m_interval b * 5 <= slot b now \/ m_interval b < 0.
Proof. unfold slot. destruct (Z.ltb_spec (m_interval b * 5) (now - m_next_time b)); lia. Qed.

Lemma slot_ge_next b now : 0 <= m_interval b -> m_next_time b <= slot b now.
Proof. unfold slot. destruct (Z.ltb_spec (m_interval b * 5) (now - m_next_time b)); lia. Qed.

Lemma i64_inv x y : i64 x = Ok y -> y = x /\ - 2 ^ 63 <= x < 2 ^ 63.
Proof.
  unfold i64. destruct (_ && _) eqn:E; [|discriminate]. intros [= <-]. split; [done|].
  apply andb_true_iff in E as [H1%Z.leb_le H2%Z.ltb_lt]. done.
Qed.

Section Steady.
Context {W : Type} `{!Handler clockE W} (clk : W -> Z) `{!SteadyClock W clk}.

Lemma spin_result fuel target w w' :
  run (spin fuel target) w = (Ok tt, w') -> target <= clk w' /\ clk w <= clk w'.
Proof.
  revert w. induction fuel as [|fuel IH]; intros w; [discriminate|]. cbn [spin].
  rewrite run_bind, run_now. cbn beta iota.
  pose proof (clock_now w) as [H1 H2]. destruct (Z.ltb_spec (handle ClockNow w).1 target).
  - rewrite run_bind, run_pause. cbn beta iota. intros [? ?]%IH.
    pose proof (clock_pause (handle ClockNow w).2). lia.
  - rewrite run_ret. intros [= <-]. lia.
Qed.

Lemma wait_until_result fuel now target w w' :
  clk w = now -> run (wait_until fuel now target) w = (Ok tt, w') ->
  target <= clk w' /\ now <= clk w'.
Proof.
  intros Hw. unfold wait_until. destruct (Z.leb_spec target now).
  - rewrite run_ret. intros [= <-]. lia.
  - rewrite run_bind, run_Ret. destruct (i64 _) as [d|] eqn:Ed; [|discriminate]. cbn beta iota zeta.
    rewrite run_bind. destruct (SLEEP_THRESHOLD <? Z.quot d 1000).
    + rewrite run_bind, run_Ret. destruct (i64 (target - 20000)) as [wake|]; [|discriminate].
      cbn beta iota. rewrite run_sleep. cbn beta iota. intros [? ?]%spin_result.
      pose proof (clock_sleep w wake). lia.
    + rewrite run_ret. cbn beta iota. intros [? ?]%spin_result. lia.
Qed.

(** A completed call: the schedule moves by one interval from the slot it used,
    and the call returns in or after its slot. *)
Lemma acquire_result fuel b w b' w' :
  run (acquire fuel b) w = ((Ok tt, b'), w') ->
  let now := (handle ClockNow w).1 in
  b' = TokenBucket (slot b now + m_interval b) (m_interval b) /\
  slot b now <= clk w' /\ now <= clk w' /\ clk w <= now.
Proof.
  cbn zeta. unfold acquire. repeat clock_step.
  destruct (i64 (_ - _)) as [behind|] eqn:E1; [|discriminate]. apply i64_inv in E1 as [-> _].
  repeat clock_step.
  destruct (i64 (_ * _)) as [limit|] eqn:E2; [|discriminate]. apply i64_inv in E2 as [-> _].
  cbn beta iota. rewrite run_obj_bind.
  pose proof (clock_now w) as [H1 H2]. unfold slot.
  destruct (Z.ltb_spec (m_interval b * 5) ((handle ClockNow w).1 - m_next_time b)); repeat clock_step;
    cbn [with_next_time m_next_time m_interval].
  - destruct (i64 _) as [next|] eqn:E3; [|discriminate]. apply i64_inv in E3 as [-> _].
    repeat clock_step. destruct (run (wait_until _ _ _) _) as [[[]|e] w1] eqn:Ew; [|discriminate].
    intros [= <- <-]. apply wait_until_result in Ew as [? ?]; [|done]. auto.
  - destruct (i64 (m_next_time b + _)) as [next|] eqn:E3; [|discriminate]. apply i64_inv in E3 as [-> _].
    repeat clock_step. destruct (run (wait_until _ _ _) _) as [[[]|e] w1] eqn:Ew; [|discriminate].
    intros [= <- <-]. apply wait_until_result in Ew as [? ?]; [|done]. auto.
Qed.

Lemma acquire_n_result n fuel b w b' w' :
  0 <= m_interval b ->
  run (acquire_n (S n) fuel b) w = ((Ok tt, b'), w') ->
  let now := (handle ClockNow w).1 in
  slot b now + Z.of_nat n * m_interval b <= clk w'.
Proof.
  cbn zeta. revert b w. induction n as [|n IH]; intros b w HI; cbn [acquire_n]; rewrite run_obj_bind;
    destruct (run (acquire fuel b) w) as [[[[]|e] b1] w1] eqn:E; try discriminate;
    apply acquire_result in E as (-> & Hs & Hn & Hc).
  - rewrite run_obj_ret. intros [= _ <-]. lia.
  - intros H. apply IH in H; [|done]. cbn [m_interval] in H.
    pose proof (slot_ge_next (TokenBucket (slot b (handle ClockNow w).1 + m_interval b) (m_interval b))
      (handle ClockNow w1).1 HI) as Hg. cbn [m_next_time m_interval] in Hg. lia.
Qed.
End Steady.

(** *** Termination of the spin *)
Section Progress.
Context {W : Type} `{!Handler clockE W} (clk : W -> Z) (step : Z).
Context `{!SteadyClock W clk} `{!ProgressingClock W clk step} (Hstep : 0 < step).

Lemma spin_returns fuel target w :
  (0 < fuel)%nat -> target - clk w <= step * Z.of_nat fuel ->
  exists w', run (spin fuel target) w = (Ok tt, w').
Proof.
  revert w. induction fuel as [|fuel IH]; intros w H0 Hf; [lia|]. cbn [spin].
  rewrite run_bind, run_now. cbn beta iota.
  pose proof (clock_now w) as [H1 H2]. pose proof (clock_progress w) as H3.
  destruct (Z.ltb_spec (handle ClockNow w).1 target).
  - rewrite run_bind, run_pause. cbn beta iota.
    pose proof (clock_pause (handle ClockNow w).2). apply IH; nia.
  - by eexists.
Qed.

Lemma wait_until_returns fuel now target w :
  clk w = now -> (0 < fuel)%nat -> target - now <= step * Z.of_nat fuel ->
  - 2 ^ 62 <= now < 2 ^ 62 -> target < 2 ^ 62 ->
  exists w', run (wait_until fuel now target) w = (Ok tt, w').
Proof.
  intros Hw H0 Hf Hb1 Hb2. unfold wait_until. destruct (Z.leb_spec target now); [by eexists|].
  rewrite run_bind, run_Ret, i64_ok by lia. cbn beta iota zeta.
  rewrite run_bind. destruct (SLEEP_THRESHOLD <? _).
  - rewrite run_bind, run_Ret, i64_ok by lia. cbn beta iota. rewrite run_sleep. cbn beta iota.
    apply spin_returns; [done|]. pose proof (clock_sleep w (target - 20000)). lia.
  - rewrite run_ret. cbn beta iota. apply spin_returns; [done|lia].
Qed.
End Progress.

Lemma acquire_ends {W} `{!Handler clockE W} clk step `{!SteadyClock W clk}
    `{!ProgressingClock W clk step} fuel b w :
  0 < step -> (0 < fuel)%nat -> m_interval b <= step * Z.of_nat fuel ->
  0 <= m_interval b <= 2 ^ 40 -> 0 <= clk w -> (handle ClockNow w).1 < 2 ^ 61 ->
  0 <= m_next_time b <= clk w + m_interval b ->
  exists b' w', run (acquire fuel b) w = ((Ok tt, b'), w') /\
    m_interval b' = m_interval b /\
    m_next_time b' = slot b (handle ClockNow w).1 + m_interval b /\
    slot b (handle ClockNow w).1 <= clk w' /\
    0 <= m_next_time b' <= clk w' + m_interval b'.
Proof.
  intros Hs Hf HI Hib Hclk Hnow Hnext. set (now := (handle ClockNow w).1) in *.
  pose proof (clock_now w) as [H1 H2]. fold now in H1, H2.
  assert (Hslot : 0 <= slot b now <= now + m_interval b).
  { unfold slot. destruct (Z.ltb_spec (m_interval b * 5) (now - m_next_time b)); lia. }
  assert (exists w', run (acquire fuel b) w =
      ((Ok tt, TokenBucket (slot b now + m_interval b) (m_interval b)), w')) as [w' Hw'].
  { destruct (wait_until_returns clk step Hs fuel now (slot b now) (handle ClockNow w).2) as [w' Hw'];
      [done|done|lia|lia|lia|].
    exists w'. unfold acquire. repeat clock_step. fold now.
    rewrite i64_ok by lia. repeat clock_step. rewrite i64_ok by lia. cbn beta iota.
    rewrite run_obj_bind. revert Hw' Hslot. unfold slot.
    destruct (Z.ltb_spec (m_interval b * 5) (now - m_next_time b)); intros Hw' Hslot; repeat clock_step;
      cbn [with_next_time m_next_time m_interval]; fold now;
      rewrite i64_ok by lia; repeat clock_step; by rewrite Hw'. }
  exists (TokenBucket (slot b now + m_interval b) (m_interval b)), w'.
  apply (acquire_result clk) in Hw' as Hr. cbn zeta in Hr. fold now in Hr.
  destruct Hr as (_ & Hr1 & Hr2 & _). split; [exact Hw'|]. cbn [m_interval m_next_time]. lia.
Qed.

(** ** Properties *)

(** C34. The rate limit, on every steady clock: when [n + 1] consecutive calls of
    [acquire] return, the last one returns no earlier than [n - 5] intervals
    after the first one read the clock.  A burst is thus at most six packets,
    however the caller is delayed between calls. *)
Theorem acquire_paces {W} `{!Handler clockE W} clk `{!SteadyClock W clk} n fuel b w b' w' :
  0 <= m_interval b ->
  run (acquire_n (S n) fuel b) w = ((Ok tt, b'), w') ->
  (handle ClockNow w).1 + (Z.of_nat n - 5) * m_interval b <= clk w'.
Proof.
  intros HI Hr. pose proof (acquire_n_result clk n fuel b w b' w' HI Hr) as H. cbn zeta in H.
  pose proof (slot_lower b (handle ClockNow w).1). lia.
Qed.

(** C35. [acquire] returns: on a clock that advances by [step] at each reading,
    fuel for one interval is enough, the schedule advances by exactly one
    interval from the slot used, and it is never more than one interval ahead of
    the clock afterwards, so the next call returns as well. *)
Theorem acquire_returns {W} `{!Handler clockE W} clk step `{!SteadyClock W clk}
    `{!ProgressingClock W clk step} fuel b w :
  0 < step -> (0 < fuel)%nat -> m_interval b <= step * Z.of_nat fuel ->
  0 <= m_interval b <= 2 ^ 40 -> 0 <= clk w -> (handle ClockNow w).1 < 2 ^ 61 ->
  0 <= m_next_time b <= clk w + m_interval b ->
  exists b' w', run (acquire fuel b) w = ((Ok tt, b'), w') /\
    m_interval b' = m_interval b /\
    m_next_time b' = slot b (handle ClockNow w).1 + m_interval b /\
    slot b (handle ClockNow w).1 <= clk w' /\
    0 <= m_next_time b' <= clk w' + m_interval b'.
Proof. by apply (acquire_ends clk step). Qed.

(** [set_rate]: a rate that is not positive (NaN included) changes nothing;
    the rate of the send thread, 95 Mb/s in packets of 1400 bytes, gives an
    interval of 117895 ns, the nearest integer to 10^9 / rate. *)
Theorem set_rate_spec b :
  (forall r, SFltb (S754_zero false) r = false -> set_rate r b = Ok b) /\
  set_rate (double_div (double_of_Z 95000000) (double_of_Z (1400 * 8))) b
    = Ok (TokenBucket (m_next_time b) 117895) /\
  Z.abs (2 * (117895 * 95000000 - 1000000000 * 11200)) <= 95000000.
Proof.
  split_and!.
  - intros r Hr. unfold set_rate. by rewrite Hr.
  - reflexivity.
  - lia.
Qed.

(** ** Witnesses *)
Definition main_bucket : token_bucket := TokenBucket 0 117895.

Lemma acquire_paces_witness :
  exists b' w', run (Handler0 := ticking) (acquire_n 8 200 main_bucket) 0 = ((Ok tt, b'), w') /\
    1000 + 2 * 117895 <= w'.
Proof.
  pose (r := run (Handler0 := ticking) (acquire_n 8 200 main_bucket) 0).
  exists r.1.2, r.2. assert (E : r = ((Ok tt, r.1.2), r.2)) by (vm_compute; reflexivity).
  split; [exact E|].
  pose proof (acquire_paces (Handler0 := ticking) (fun w => w) 7 200 main_bucket 0 r.1.2 r.2
    ltac:(cbn; lia) E) as H.
  exact H.
Defined.

Lemma acquire_returns_witness :
  exists b' w', run (Handler0 := ticking) (acquire 200 main_bucket) 0 = ((Ok tt, b'), w') /\
    m_next_time b' = 117895.
Proof.
  destruct (acquire_returns (Handler0 := ticking) (fun w => w) 1000 200 main_bucket 0)
    as (b' & w' & Hr & _ & Hn & _); [cbn; lia..|].
  exists b', w'. split; [exact Hr|]. rewrite Hn. reflexivity.
Defined.

Lemma set_rate_spec_witness :
  set_rate S754_nan main_bucket = Ok main_bucket.
Proof. exact (proj1 (set_rate_spec main_bucket) S754_nan eq_refl). Defined.
