(* ===== verification/UdpConnection.v ===== *)
(** * UDP sockets: [example/cpp/udp_connection.hpp] and [.cpp]

    The socket wrapper over the events of the operating system.  [errno] is a
    value the system answers separately from a call's result, which is what
    makes the receive path delicate.  Address conversion, error texts and the
    numbers of the platform are parameters. *)

From S2P Require Import Prelude Effects Utils.

(** IPv4 socket address: port and address in network byte order. *)
Record sockaddr_in := SockAddr { sin_port : Z; s_addr : Z }.
Inductive buffer_kind := SO_RCVBUF | SO_SNDBUF.

Inductive sockE : Type -> Type :=
  | SysSocket : sockE Z
  | SysReuseAddr (sd : Z) : sockE Z
  | SysBufferSize (sd : Z) (which : buffer_kind) (size : Z) : sockE Z
  | SysClose (sd : Z) : sockE unit
  | SysGetFlags (sd : Z) : sockE Z
  | SysSetFlags (sd flags : Z) : sockE Z
  | SysBind (sd : Z) (sa : sockaddr_in) : sockE Z
  | SysConnect (sd : Z) (sa : sockaddr_in) : sockE Z
  | SysSend (sd : Z) (data : list Z) : sockE Z
  | SysSendTo (sd : Z) (data : list Z) (sa : sockaddr_in) : sockE Z
  | SysRecv (sd max_size : Z) : sockE (Z * list Z)
  | SysRecvFrom (sd max_size : Z) : sockE (Z * list Z * sockaddr_in)
  | Errno : sockE Z.

(** What the code takes from the platform. *)
Record platform := Platform {
  string_error : Z -> string;
  inet_pton : string -> Z * Z;
  inet_ntop : Z -> option string;
  O_NONBLOCK : Z;
  EAGAIN : Z;
  EWOULDBLOCK : Z
}.

Definition sys {X} (e : sockE X) : io sockE X := call_ok e.

(** [htons] and [ntohs] on a little-endian host. *)
Definition swap16 (x : Z) : Z :=
  Z.lor (Z.shiftl (Z.land x 0xFF) 8) (Z.land (Z.shiftr x 8) 0xFF).

Section Udp.
Context (P : platform).

(** [throw std::runtime_error(utils::string_error(errno))]. *)
Definition throw_errno {A} : io sockE A :=
  errno ← sys Errno; io_throw (string_error P errno).

Definition default_buf_size : Z := 4 * 1024 * 1024.

Definition udp_new : io sockE Z :=
  sd ← sys SysSocket;
  if sd <? 0 then throw_errno else
  r ← sys (SysReuseAddr sd);
  if r <? 0 then
    _ ← sys (SysClose sd); throw_errno
  else
    _ ← sys (SysBufferSize sd SO_RCVBUF default_buf_size);
    _ ← sys (SysBufferSize sd SO_SNDBUF default_buf_size);
    mret sd.

Definition udp_delete (_sd : Z) : io sockE unit :=
  if 0 <=? _sd then sys (SysClose _sd) else mret tt.

Definition set_non_blocking (_sd : Z) (enable : bool) : io sockE unit :=
  flags ← sys (SysGetFlags _sd);
  if flags <? 0 then throw_errno else
  let flags := if enable then Z.lor flags (O_NONBLOCK P) else Z.land flags (Z.lnot (O_NONBLOCK P)) in
  r ← sys (SysSetFlags _sd flags);
  if r <? 0 then throw_errno else mret tt.

Definition set_send_buffer_size (_sd size_bytes : Z) : io sockE unit :=
  r ← sys (SysBufferSize _sd SO_SNDBUF size_bytes);
  if r <? 0 then throw_errno else mret tt.
Definition set_recv_buffer_size (_sd size_bytes : Z) : io sockE unit :=
  r ← sys (SysBufferSize _sd SO_RCVBUF size_bytes);
  if r <? 0 then throw_errno else mret tt.

(** [!inet_pton(...)]: only a zero result is an error here. *)
Definition bind (_sd : Z) (ip_address : string) (port_num : Z) : io sockE unit :=
  let finish (sa : sockaddr_in) :=
    r ← sys (SysBind _sd sa);
    if r <? 0 then throw_errno else mret tt in
  if bool_decide (ip_address = ""%string) then finish (SockAddr (swap16 port_num) 0)
  else
    let (r, a) := inet_pton P ip_address in
    if r =? 0 then io_throw "Invalid address" else finish (SockAddr (swap16 port_num) a).

Definition connect_sa (_sd : Z) (sa : sockaddr_in) : io sockE unit :=
  r ← sys (SysConnect _sd sa);
  if r <? 0 then throw_errno else mret tt.
Definition connect (_sd : Z) (ip_address : string) (port_num : Z) : io sockE unit :=
  let (r, a) := inet_pton P ip_address in
  if r =? 0 then io_throw "Invalid IP address"
  else connect_sa _sd (SockAddr (swap16 port_num) a).

Definition send (_sd : Z) (data : list Z) : io sockE Z := sys (SysSend _sd data).
Definition send_to (_sd : Z) (ip_address : string) (port_num : Z) (data : list Z) : io sockE Z :=
  let (r, a) := inet_pton P ip_address in
  if r =? 0 then io_throw "Invalid IP address"
  else sys (SysSendTo _sd data (SockAddr (swap16 port_num) a)).

Definition would_block (errno : Z) : bool := (errno =? EAGAIN P) || (errno =? EWOULDBLOCK P).

(** [(received <= 0) && (errno == EAGAIN || ...)]: [errno] is only read for a
    result that is not positive. *)
Definition is_would_block (received : Z) : io sockE bool :=
  if received <=? 0 then errno ← sys Errno; mret (would_block errno) else mret false.

(** Into a caller's buffer: the count and the bytes stored. *)
Definition recv (_sd max_size : Z) : io sockE (Z * list Z) :=
  '(received, bytes) ← sys (SysRecv _sd max_size);
  block ← is_would_block received;
  if (block : bool) then mret (0, bytes)
  else if received <? 0 then throw_errno
  else mret (received, bytes).

(** A zeroed buffer of [size] bytes, its prefix overwritten, cut to the count. *)
Definition received_vector (size received : Z) (bytes : list Z) : list Z :=
  if received <=? 0 then []
  else
    let buffer := take (Z.to_nat size) (bytes ++ replicate (Z.to_nat size) 0) in
    if received <? size then take (Z.to_nat received) buffer else buffer.

Definition recv_vector (_sd size : Z) : io sockE (list Z) :=
  '(received, bytes) ← recv _sd size;
  mret (received_vector size received bytes).

(** [ip_address] and [port_num] are references: the values after the call. *)
Definition recv_from (_sd : Z) (ip_address : string) (port_num max_size : Z)
    : io sockE (Z * list Z * string * Z) :=
  '(received, bytes, sa) ← sys (SysRecvFrom _sd max_size);
  block ← is_would_block received;
  if (block : bool) then mret (0, bytes, ip_address, port_num)
  else if received <? 0 then throw_errno
  else mret (received, bytes, default ip_address (inet_ntop P (s_addr sa)), swap16 (sin_port sa)).

Definition recv_from_vector (_sd : Z) (ip_address : string) (port_num size : Z)
    : io sockE (list Z * string * Z) :=
  '(received, bytes, ip, port) ← recv_from _sd ip_address port_num size;
  mret (received_vector size received bytes, ip, port).
End Udp.

(** ** Lemmas *)
Lemma swap16_involutive x : is_u 16 x -> swap16 (swap16 x) = x.
Proof.
  intros Hx. unfold swap16. rewrite !land_ff. zbits_at i; by rewrite (testbit_high 16 x) by (done || lia).
Qed.

Lemma received_vector_spec size received bytes :
  0 <= received <= size -> Z.of_nat (length bytes) = received ->
  received_vector size received bytes = bytes.
Proof.
  intros Hr Hl. unfold received_vector. destruct (Z.leb_spec received 0).
  - assert (length bytes = 0%nat) as ->%nil_length_inv by lia. done.
  - destruct (Z.ltb_spec received size).
    + rewrite take_take, Nat.min_l by lia. rewrite take_app_le by lia. apply take_ge. lia.
    + rewrite take_app_le by lia. apply take_ge. lia.
Qed.

Lemma received_vector_length size received bytes :
  0 <= size -> (length (received_vector size received bytes) <= Z.to_nat size)%nat.
Proof.
  intros Hs. unfold received_vector. destruct (received <=? 0); [cbn; lia|].
  destruct (received <? size); rewrite ?length_take; lia.
Qed.

Section Run.
Context {W : Type} `{!Handler sockE W} (P : platform).

Lemma run_sys {X} (e : sockE X) w :
  run (sys e) w = (Ok (handle e w).1, (handle e w).2).
Proof. unfold sys. rewrite run_call_ok. by destruct (handle e w). Qed.

Lemma run_throw_errno {A} w :
  run (throw_errno (A := A) P) w =
    (throw (string_error P (handle Errno w).1), (handle Errno w).2).
Proof. unfold throw_errno. by rewrite run_bind, run_sys. Qed.
End Run.

(** ** Properties *)

(** [recv_from] in every world, by the result of the system call.  A positive
    result is returned with the sender; a negative one is an exception with the
    error's text unless [errno] says the call would block, and then nothing is
    reported.  For an empty datagram (result 0, [errno] not set by the call) the
    sender is reported only if [errno] happens not to hold EAGAIN or EWOULDBLOCK
    from before. *)
Theorem recv_from_outcome {W} `{!Handler sockE W} P sd ip port size w :
  let '(ret, bytes, sa, w1) := handle (SysRecvFrom sd size) w in
  let errno := (handle Errno w1).1 in
  let from := (default ip (inet_ntop P (s_addr sa)), swap16 (sin_port sa)) in
  (run (recv_from P sd ip port size) w).1 =
    if 0 <? ret then Ok (ret, bytes, from.1, from.2)
    else if would_block P errno then Ok (0, bytes, ip, port)
    else if ret <? 0 then throw (string_error P (handle Errno (handle Errno w1).2).1)
    else Ok (0, bytes, from.1, from.2).
Proof.
  unfold recv_from. rewrite run_bind, run_sys.
  destruct (handle (SysRecvFrom sd size) w) as [[[ret bytes] sa] w1]. cbn [fst snd].
  rewrite run_bind. unfold is_would_block.
  destruct (Z.ltb_spec 0 ret) as [Hp|Hn]; destruct (Z.leb_spec ret 0); try lia.
  - rewrite run_ret. cbn beta iota. destruct (Z.ltb_spec ret 0); [lia|]. done.
  - rewrite run_bind, run_sys. cbn beta iota. rewrite run_ret. cbn beta iota.
    destruct (would_block P (handle Errno w1).1); [done|].
    destruct (Z.ltb_spec ret 0); [by rewrite run_throw_errno|].
    assert (ret = 0) as -> by lia. done.
Qed.

(** The vector form of [recv], on a system that stores as many bytes as it
    reports: exactly the bytes received, the empty vector for an empty datagram
    and when the call would block, an exception with the error's text otherwise;
    the vector is never longer than asked for. *)
Theorem recv_vector_outcome {W} `{!Handler sockE W} P sd size w :
  let '(ret, stored, w1) := handle (SysRecv sd size) w in
  let errno := (handle Errno w1).1 in
  0 <= size -> ret <= size -> (0 < ret -> Z.of_nat (length stored) = ret) ->
  (run (recv_vector P sd size) w).1 =
    (if 0 <? ret then Ok stored
     else if (ret =? 0) || would_block P errno then Ok []
     else throw (string_error P (handle Errno (handle Errno w1).2).1)) /\
  (forall bytes, (run (recv_vector P sd size) w).1 = Ok bytes ->
     (length bytes <= Z.to_nat size)%nat).
Proof.
  unfold recv_vector, recv. rewrite !run_bind, run_sys.
  destruct (handle (SysRecv sd size) w) as [[ret stored] w1]. cbn [fst snd].
  intros Hs Hr Hl. rewrite run_bind. unfold is_would_block.
  assert (Hnone : received_vector size 0 stored = []) by done.
  destruct (Z.ltb_spec 0 ret) as [Hp|Hn]; destruct (Z.leb_spec ret 0); try lia.
  - rewrite run_ret. cbn beta iota. destruct (Z.ltb_spec ret 0); [lia|].
    rewrite !run_ret. cbn [fst]. split.
    + f_equal. apply received_vector_spec; auto with lia.
    + intros bytes [= <-]. by apply received_vector_length.
  - rewrite run_bind, run_sys. cbn beta iota. rewrite run_ret. cbn beta iota.
    destruct (would_block P _).
    + rewrite !run_ret, orb_true_r. cbn [fst]. rewrite Hnone. split; [done|].
      intros bytes [= <-]. cbn. lia.
    + rewrite orb_false_r. destruct (Z.ltb_spec ret 0), (Z.eqb_spec ret 0) as [->|]; try lia.
      * by rewrite run_throw_errno.
      * rewrite !run_ret. cbn [fst]. rewrite Hnone. split; [done|]. intros bytes [= <-]. cbn. lia.
Qed.

(** ** Witnesses *)

(** A socket whose queue holds datagrams; [errno] is 11 (EAGAIN) after a call
    that found it empty and is left alone by successful calls. *)
Definition queue_world : Type := list (list Z) * Z.
Definition queue_socket : Handler sockE queue_world := fun X e =>
  match e in sockE Y return queue_world -> Y * queue_world with
  | SysSocket => fun w => (5, w)
  | SysReuseAddr _ => fun w => (0, w)
  | SysBufferSize _ _ _ => fun w => (0, w)
  | SysClose _ => fun w => (tt, w)
  | SysGetFlags _ => fun w => (0, w)
  | SysSetFlags _ _ => fun w => (0, w)
  | SysBind _ _ => fun w => (0, w)
  | SysConnect _ _ => fun w => (0, w)
  | SysSend _ data => fun w => (Z.of_nat (length data), w)
  | SysSendTo _ data _ => fun w => (Z.of_nat (length data), w)
  | SysRecv _ size => fun w =>
      match w with
      | ([], errno) => ((-1, []), ([], 11))
      | (d :: q, errno) =>
          let d := take (Z.to_nat size) d in ((Z.of_nat (length d), d), (q, errno))
      end
  | SysRecvFrom _ size => fun w =>
      match w with
      | ([], errno) => ((-1, [], SockAddr 0 0), ([], 11))
      | (d :: q, errno) =>
          let d := take (Z.to_nat size) d in
          ((Z.of_nat (length d), d, SockAddr (swap16 9993) 0x0200A8C0), (q, errno))
      end
  | Errno => fun w => (w.2, w)
  end.
Definition example_platform : platform := {|
  string_error n := ("error " +:+ dec n)%string;
  inet_pton s := (1, 0x0200A8C0);
  inet_ntop a := Some (ip_to_string (ntohl a));
  O_NONBLOCK := 2048; EAGAIN := 11; EWOULDBLOCK := 11
|}.

(** The same empty datagram, with and without a stale EAGAIN. *)
Lemma recv_from_outcome_witness :
  (run (Handler0 := queue_socket) (recv_from example_platform 5 "" 0 1500) ([[]], 0)).1
    = Ok (0, [], "192.168.0.2:"%string, 9993) /\
  (run (Handler0 := queue_socket) (recv_from example_platform 5 "" 0 1500) ([[]], 11)).1
    = Ok (0, [], ""%string, 0).
Proof.
  split.
  - pose proof (recv_from_outcome (Handler0 := queue_socket) example_platform 5 "" 0 1500 ([[]], 0)) as H.
    cbn beta iota delta [handle queue_socket] in H. rewrite H. vm_compute. reflexivity.
  - pose proof (recv_from_outcome (Handler0 := queue_socket) example_platform 5 "" 0 1500 ([[]], 11)) as H.
    cbn beta iota delta [handle queue_socket] in H. rewrite H. vm_compute. reflexivity.
Defined.

Lemma recv_vector_outcome_witness :
  (run (Handler0 := queue_socket) (recv_vector example_platform 5 2) ([[1; 2; 3]], 0)).1 = Ok [1; 2].
Proof.
  pose proof (recv_vector_outcome (Handler0 := queue_socket) example_platform 5 2 ([[1; 2; 3]], 0)) as H.
  cbn beta iota zeta delta [handle queue_socket] in H.
  change (take (Z.to_nat 2) [1; 2; 3]) with [1; 2] in H. cbn beta iota in H.
  exact (proj1 (H ltac:(lia) ltac:(cbn; lia) (fun _ => eq_refl))).
Defined.
