(* ===== verification/Frame.v ===== *)
(** * Drivers stay inside their component

    Address ranges of driver runs: a driver only touches the registers of its
    own component, so drivers of different components on one bus do not
    disturb each other. *)

From S2P Require Import Prelude Effects Utils Lan8720 RegInterface RegFile MacDevice Mdio RmiiMac.
From S2P Require Import RmiiEthernet.

Definition in_range (lo hi : Z) (_ : trace) (ev : event) : Prop :=
  match ev with
  | EvRead a _ => lo <= a < hi
  | EvWrite a _ _ => lo <= a < hi
  | EvSleep _ => True
  end.

Definition stays_in {A} (lo hi : Z) (p : prog busE A) : Prop :=
  forall (D : Device) t, steps (in_range lo hi) t (run p t).2.

(** The first 32 registers of the component lie in the range. *)
Definition within (lo hi : Z) (c : reg_comp) : Prop :=
  forall r, 0 <= r < 32 -> lo <= u32 (_offset c + r) < hi.

(** Methods, relative to a property of the object's fields that they keep. *)
Definition method_in {S A} (lo hi : Z) (I : S -> Prop) (m : objM busE S A) : Prop :=
  forall s, I s -> stays_in lo hi (m s) /\ (forall (D : Device) t, I (run (m s) t).1.2).

(** ** Lemmas *)
Lemma wdata_disjoint lo hi base t t' r :
  steps (in_range lo hi) t t' -> ~ (lo <= reg_addr_of base r < hi) ->
  wdata base t' r = wdata base t r.
Proof.
  intros H Hr. induction H as [|t u ev Hs IH Hev]; [done|]. rewrite <- IH.
  unfold wdata. rewrite foldl_snoc. destruct ev as [a v|a d [[]|e]|us]; cbn [wdata_step]; try done.
  destruct (Z.eqb_spec a (reg_addr_of base r)) as [->|]; [|done]. by cbn in Hev.
Qed.

Section Rules.
Context (lo hi : Z).

Lemma stays_Ret {A} (a : A) : stays_in lo hi (Ret a).
Proof. intros D t. constructor. Qed.

Lemma stays_prog_bind {A B} (p : prog busE A) (f : A -> prog busE B) :
  stays_in lo hi p -> (forall a, stays_in lo hi (f a)) -> stays_in lo hi (prog_bind p f).
Proof.
  intros Hp Hf D t. rewrite run_prog_bind. specialize (Hp D t).
  destruct (run p t) as [a t1]. apply steps_trans with t1; [exact Hp|apply Hf].
Qed.

Lemma stays_bind {A B} (p : io busE A) (f : A -> io busE B) :
  stays_in lo hi p -> (forall a, stays_in lo hi (f a)) -> stays_in lo hi (p ≫= f).
Proof. intros Hp Hf. apply stays_prog_bind; [done|]. intros [a|e]; [apply Hf|apply stays_Ret]. Qed.

Lemma stays_read c r : within lo hi c -> 0 <= r < 32 -> stays_in lo hi (reg_read c r).
Proof.
  intros Hc Hr D t. unfold reg_read, bus_read. rewrite run_call. by apply steps_one, Hc.
Qed.

Lemma stays_write c r d : within lo hi c -> 0 <= r < 32 -> stays_in lo hi (reg_write c r d).
Proof.
  intros Hc Hr D t. unfold reg_write, bus_write. rewrite run_call. by apply steps_one, Hc.
Qed.

Lemma stays_sleep us : stays_in lo hi (bus_sleep us).
Proof. intros D t. by apply steps_one. Qed.

Lemma stays_if {A} (b : bool) (p q : prog busE A) :
  stays_in lo hi p -> stays_in lo hi q -> stays_in lo hi (if b then p else q).
Proof. by destruct b. Qed.
End Rules.

Create HintDb range.
#[export] Hint Resolve stays_Ret stays_sleep : range.
#[export] Hint Extern 1 (stays_in _ _ (mbind _ _)) => apply stays_bind; [|intros ?] : range.
#[export] Hint Extern 1 (stays_in _ _ (reg_read _ _)) => apply stays_read; [auto|reg_bounds] : range.
#[export] Hint Extern 1 (stays_in _ _ (reg_write _ _ _)) => apply stays_write; [auto|reg_bounds] : range.
#[export] Hint Extern 2 (stays_in _ _ (if _ then _ else _)) => apply stays_if : range.
#[export] Hint Extern 1 (stays_in _ _ (mret _)) => apply stays_Ret : range.
#[export] Hint Extern 1 (stays_in _ _ (io_throw _)) => apply stays_Ret : range.

Section Mac.
Context (lo hi : Z).

Lemma probe_in c : within lo hi c -> stays_in lo hi (probe c).
Proof. intros Hc. unfold probe. auto with range. Qed.

Lemma mdio_read_in c p r b : within lo hi c -> stays_in lo hi (mdio_read c p r b).
Proof.
  intros Hc. unfold mdio_read, wait_for_op_complete.
  assert (forall m f, stays_in lo hi (wait_loop c m f)).
  { intros m. induction m as [|m IH]; intros f; cbn [wait_loop]; auto 10 with range. }
  auto 20 with range.
Qed.

Lemma mdio_write_in c p r d : within lo hi c -> stays_in lo hi (mdio_write c p r d).
Proof.
  intros Hc. unfold mdio_write, wait_for_op_complete.
  assert (forall m f, stays_in lo hi (wait_loop c m f)).
  { intros m. induction m as [|m IH]; intros f; cbn [wait_loop]; auto 10 with range. }
  auto 20 with range.
Qed.

Lemma wait_for_idle_in m rx tx : within lo hi (mac_regs_of m) -> stays_in lo hi (wait_for_idle m rx tx).
Proof.
  intros Hc. unfold wait_for_idle.
  assert (forall n b, stays_in lo hi (idle_loop (mac_regs_of m) rx tx n b)).
  { intros n. induction n as [|n IH]; intros b; cbn [idle_loop]; auto 10 with range. }
  auto with range.
Qed.

(** *** Methods *)
Section Methods.
Context {S : Type} (I : S -> Prop).

Lemma method_in_bind {A B} (m : objM busE S A) (f : A -> objM busE S B) :
  method_in lo hi I m -> (forall a, method_in lo hi I (f a)) -> method_in lo hi I (m ≫= f).
Proof.
  intros Hm Hf s Hs. destruct (Hm s Hs) as [H1 H2]. split.
  - intros D t. rewrite run_obj_bind. specialize (H1 D t). specialize (H2 D t).
    destruct (run (m s) t) as [[[a|e] s1] t1]; [|exact H1].
    apply steps_trans with t1; [exact H1|]. by apply Hf.
  - intros D t. rewrite run_obj_bind. specialize (H2 D t).
    destruct (run (m s) t) as [[[a|e] s1] t1]; [|exact H2]. by apply Hf.
Qed.

Lemma method_in_io {A} (p : io busE A) : stays_in lo hi p -> method_in lo hi I (obj_io p).
Proof.
  intros Hp s Hs. split; intros D t; rewrite run_obj_io; specialize (Hp D t);
    by destruct (run p t).
Qed.

Lemma method_in_ret {A} (a : A) : method_in lo hi I (mret a).
Proof. intros s Hs. split; [apply stays_Ret|done]. Qed.
Lemma method_in_fail {A} e : method_in lo hi I (obj_fail (A := A) e).
Proof. intros s Hs. split; [apply stays_Ret|done]. Qed.
Lemma method_in_modify f : (forall s, I s -> I (f s)) -> method_in lo hi I (obj_modify f).
Proof. intros Hf s Hs. split; [apply stays_Ret|]. intros D t. by apply Hf. Qed.
Lemma method_in_get_bind {B} (f : S -> objM busE S B) :
  (forall s, I s -> method_in lo hi I (f s)) -> method_in lo hi I (s ← obj_get; f s).
Proof. intros Hf s Hs. by apply (Hf s Hs s). Qed.
Lemma method_in_if {A} (b : bool) (p q : objM busE S A) :
  method_in lo hi I p -> method_in lo hi I q -> method_in lo hi I (if b then p else q).
Proof. by destruct b. Qed.
End Methods.

(** *** [rmii_ethernet] *)
Definition mac_within (e : rmii_ethernet) : Prop :=
  within lo hi (mac_regs_of (_mac e)) /\ within lo hi (RmiiMac._mdio (_mac e)).

Lemma on_mac_in {A} (f : rmii_mac_comp -> io busE A) :
  (forall m, within lo hi (mac_regs_of m) -> within lo hi (RmiiMac._mdio m) -> stays_in lo hi (f m)) ->
  method_in lo hi mac_within (on_mac f).
Proof.
  intros Hf. unfold on_mac. apply method_in_get_bind. intros e [H1 H2].
  by apply method_in_io, Hf.
Qed.

Lemma read_phy_in p r : method_in lo hi mac_within (read_phy p r).
Proof.
  unfold read_phy. apply method_in_bind; [|intros []; apply method_in_ret].
  apply on_mac_in. intros. by apply mdio_read_in.
Qed.
End Mac.

#[export] Hint Resolve probe_in mdio_read_in mdio_write_in wait_for_idle_in : range.
#[export] Hint Resolve method_in_ret method_in_fail read_phy_in on_mac_in : range.
#[export] Hint Extern 1 (method_in _ _ _ (mbind _ obj_get)) => apply method_in_get_bind; intros ?? : range.
#[export] Hint Extern 2 (method_in _ _ _ (mbind _ _)) => apply method_in_bind; [|intros ?] : range.
#[export] Hint Extern 2 (method_in _ _ _ (if _ then _ else _)) => apply method_in_if : range.
#[export] Hint Extern 1 (method_in _ _ _ (obj_io _)) => apply method_in_io : range.

Ltac mac_in :=
  unfold set_rx_enable, set_tx_enable, get_tx_enable, RmiiMac.set_source_mac,
    RmiiMac.set_destination_mac, RmiiMac.set_source_ip, RmiiMac.reset; auto 10 with range.
#[export] Hint Extern 3 (stays_in _ _ (set_rx_enable _ _)) => mac_in : range.
#[export] Hint Extern 3 (stays_in _ _ (set_tx_enable _ _)) => mac_in : range.
#[export] Hint Extern 3 (stays_in _ _ (get_tx_enable _)) => mac_in : range.
#[export] Hint Extern 3 (stays_in _ _ (RmiiMac.reset _)) => mac_in : range.
#[export] Hint Extern 3 (stays_in _ _ (RmiiMac.set_source_mac _ _)) => mac_in : range.
#[export] Hint Extern 3 (stays_in _ _ (RmiiMac.set_destination_mac _ _)) => mac_in : range.
#[export] Hint Extern 3 (stays_in _ _ (RmiiMac.set_source_ip _ _)) => mac_in : range.

Section Ethernet.
Context (lo hi : Z).
Abbreviation inside := (method_in lo hi (mac_within lo hi)).

Lemma set_source_mac_in addr : inside (set_source_mac addr).
Proof. unfold set_source_mac. auto 20 with range. Qed.

Lemma set_destination_mac_in addr : inside (set_destination_mac addr).
Proof. unfold set_destination_mac. auto 20 with range. Qed.

Lemma set_source_ip_in ip : inside (set_source_ip ip).
Proof. unfold set_source_ip. auto 20 with range. Qed.

Lemma find_phy_in : inside find_phy_address.
Proof.
  unfold find_phy_address. generalize 0. generalize 31%nat as n.
  induction n as [|n IH]; intros i; cbn [find_phy_loop]; [auto with range|].
  apply method_in_bind; [auto with range|]. intros [d|]; [|auto with range].
  apply method_in_if; [|auto]. apply method_in_bind; [|auto with range].
  by apply method_in_modify.
Qed.

Lemma is_complete_in : inside is_autonegotiation_complete.
Proof.
  unfold is_autonegotiation_complete. apply method_in_get_bind. intros e _.
  apply method_in_bind; [auto with range|]. intros [d|]; auto with range.
Qed.

Lemma phy_autonegotiate_in fuel : inside (phy_autonegotiate fuel).
Proof.
  pose proof is_complete_in.
  assert (forall n k, inside (autonegotiate_loop n k)).
  { intros n k. induction n as [|n IH]; cbn [autonegotiate_loop]; auto 10 with range. }
  unfold phy_autonegotiate. auto 20 with range.
Qed.

Lemma get_status_in : inside get_status.
Proof.
  unfold get_status. apply method_in_get_bind. intros e _.
  apply method_in_bind; [auto with range|]. intros [d|]; [|auto with range].
  apply method_in_bind; [auto with range|]. intros [d'|]; [|auto with range].
  unfold get_num_bytes_transmitted, get_num_packets_transmitted, get_num_bytes_received,
    get_num_packets_received, get_num_fcs_fails, get_num_eth_drops.
  auto 20 with range.
Qed.

Lemma init_in fuel auto : inside (init fuel auto).
Proof.
  pose proof find_phy_in. pose proof phy_autonegotiate_in. unfold init. auto 30 with range.
Qed.
End Ethernet.
