(* ===== verification/Setup.v ===== *)
(** * Bringing the design up: [main] of [example/cpp/main.cpp], lines 52-110

    The configuration sequence over the register bus, and what the three
    components are set to when it completes. *)

From S2P Require Import Prelude Effects Utils RegInterface RegFile MacDevice Mdio RmiiMac.
From S2P Require Import RmiiEthernet UdpDevice UdpFramer UdpDeframer Frame.

Definition UDP_IP_FRAMER_COMP_NUM : Z := 1.
Definition UDP_IP_DEFRAMER_COMP_NUM : Z := 2.
Definition RMII_MAC_COMP_NUM : Z := 3.
Definition FPGA_IP : string := "192.168.0.2".
Definition PC_IP : string := "192.168.0.1".
Definition BROADCAST_IP : string := "192.168.0.255".
Definition PC_TX_PORT : Z := 9990.
Definition FPGA_RX_PORT : Z := 9991.
Definition FPGA_TX_PORT : Z := 9992.
Definition PC_RX_PORT : Z := 9993.
Definition FPGA_MAC : list Z := [0xe9; 0xd6; 0x85; 0x0c; 0x47; 0x5a].
Definition DESTINATION_MAC : list Z := [0xFF; 0xFF; 0xFF; 0xFF; 0xFF; 0xFF].
Definition target_data_rate_bps : Z := 95 * 1000 * 1000.

(** A method call on an object held by the caller. *)
Definition obj_call {S A} (m : objM busE S A) (s : S) : io busE (A * S) :=
  prog_bind (m s) (fun x => match x with
    | (Ok a, s') => Ret (Ok (a, s'))
    | (Err e, _) => Ret (Err e)
    end).

(** [std::optional::value]. *)
Definition value (o : option Z) : result Z :=
  match o with Some v => Ok v | None => throw "bad optional access" end.

Section Setup.
Variable inet_pton : string -> Z * Z.

Definition host_ip (s : string) : result Z :=
  a ← value (string_to_ip inet_pton s); Ok (ntohl a).

Record fpga := Fpga { the_framer : reg_comp; the_rmii : rmii_ethernet; the_deframer : reg_comp }.

(** Lines 81-85: the value of [rmii.init()] and the object. *)
Definition configure_rmii (fuel : nat) (rmii : rmii_ethernet) : io busE (bool * rmii_ethernet) :=
  '(_, rmii) ← obj_call (set_destination_mac DESTINATION_MAC) rmii;
  '(_, rmii) ← obj_call (set_source_mac FPGA_MAC) rmii;
  ip ← Ret (host_ip FPGA_IP);
  '(_, rmii) ← obj_call (set_source_ip ip) rmii;
  obj_call (init fuel true) rmii.

Definition configure_framer (udp_framer : reg_comp) : io busE unit :=
  framer_src ← Ret (host_ip FPGA_IP);
  framer_dst ← Ret (host_ip PC_IP);
  let udp_framer_cfg := UdpFramer.Config framer_src framer_dst FPGA_TX_PORT PC_RX_PORT in
  _ ← UdpFramer.reset udp_framer;
  _ ← UdpFramer.set_config udp_framer udp_framer_cfg;
  UdpFramer.set_enable udp_framer true.

Definition configure_deframer (udp_deframer : reg_comp) : io busE unit :=
  deframer_ip ← Ret (host_ip FPGA_IP);
  broadcast ← Ret (host_ip BROADCAST_IP);
  let udp_deframer_cfg := UdpDeframer.Config deframer_ip broadcast FPGA_RX_PORT in
  _ ← UdpDeframer.reset udp_deframer;
  _ ← UdpDeframer.set_config udp_deframer udp_deframer_cfg;
  UdpDeframer.set_enable udp_deframer true.

(** [None] is [return 1]. *)
Definition setup (fuel : nat) : io busE (option fpga) :=
  udp_framer ← udp_framer_comp_new (COMP_NUM_TO_OFFSET UDP_IP_FRAMER_COMP_NUM);
  rmii ← rmii_ethernet_new (COMP_NUM_TO_OFFSET RMII_MAC_COMP_NUM);
  udp_deframer ← udp_deframer_comp_new (COMP_NUM_TO_OFFSET UDP_IP_DEFRAMER_COMP_NUM);
  '(ok, rmii) ← configure_rmii fuel rmii;
  if negb ok then mret None else
  _ ← configure_framer udp_framer;
  _ ← configure_deframer udp_deframer;
  mret (Some (Fpga udp_framer rmii udp_deframer)).
End Setup.

(** ** Lemmas *)
Lemma run_obj_call `{Device} {S A} (m : objM busE S A) s t :
  run (obj_call m s) t =
    match run (m s) t with
    | ((Ok a, s'), t') => (Ok (a, s'), t')
    | ((Err e, _), t') => (Err e, t')
    end.
Proof. unfold obj_call. rewrite run_prog_bind. by destruct (run (m s) t) as [[[a|e] s'] t']. Qed.

(** *** What each component is configured to, and what leaves it alone *)
Definition far_from (lo hi base : Z) : Prop :=
  forall r, 0 <= r < 32 -> ~ (lo <= reg_addr_of base r < hi).

Lemma config_frame lo hi base t t' :
  far_from lo hi base -> steps (in_range lo hi) t t' -> config base t' = config base t.
Proof.
  intros Hf Hs. apply config_ext. intros r Hr. apply (wdata_disjoint lo hi); [done|]. apply Hf.
  cbn in Hr. lia.
Qed.

Lemma framer_frame lo hi base t t' :
  far_from lo hi base -> steps (in_range lo hi) t t' -> framer_cfg base t' = framer_cfg base t.
Proof.
  intros Hf Hs. unfold framer_cfg.
  assert (E : forall r, 0 <= r < 32 -> wdata base t' r = wdata base t r)
    by (intros r Hr; apply (wdata_disjoint lo hi); [done|by apply Hf]).
  by rewrite !E by lia.
Qed.

Lemma deframer_frame lo hi base t t' :
  far_from lo hi base -> steps (in_range lo hi) t t' -> deframer_cfg base t' = deframer_cfg base t.
Proof.
  intros Hf Hs. unfold deframer_cfg.
  assert (E : forall r, 0 <= r < 32 -> wdata base t' r = wdata base t r)
    by (intros r Hr; apply (wdata_disjoint lo hi); [done|by apply Hf]).
  by rewrite !E by lia.
Qed.

Lemma far_component a b : 0 <= a < 100 -> 0 <= b < 100 -> a <> b ->
  far_from (256 * a) (256 * a + 256) (256 * b).
Proof.
  intros Ha Hb Hab r Hr. unfold reg_addr_of. rewrite wrap_small by (unfold is_u; lia). lia.
Qed.

Lemma within_component k id : 0 <= k < 100 -> within (256 * k) (256 * k + 256) (RegComp (256 * k) id).
Proof. intros Hk r Hr. cbn [_offset]. rewrite wrap_small by (unfold is_u; lia). lia. Qed.

Lemma framer_op_in lo hi c op : within lo hi c -> stays_in lo hi (framer_prog c op).
Proof.
  intros Hc. destruct op; cbn [framer_prog]; unfold UdpFramer.reset, UdpFramer.set_enable,
    UdpFramer.set_config; auto 20 with range.
Qed.

Lemma deframer_op_in lo hi c op : within lo hi c -> stays_in lo hi (deframer_prog c op).
Proof.
  intros Hc. destruct op; cbn [deframer_prog]; unfold UdpDeframer.reset, UdpDeframer.set_enable,
    UdpDeframer.set_config; auto 20 with range.
Qed.

(** What [inet_pton] does with the three addresses of [main]: success, and the
    word in network byte order. *)
Record resolves (inet_pton : string -> Z * Z) : Prop := {
  resolves_fpga : inet_pton FPGA_IP = (1, 0x0200A8C0);
  resolves_pc : inet_pton PC_IP = (1, 0x0100A8C0);
  resolves_broadcast : inet_pton BROADCAST_IP = (1, 0xFF00A8C0)
}.

Lemma host_ips pton :
  resolves pton ->
  host_ip pton FPGA_IP = Ok 0xC0A80002 /\ host_ip pton PC_IP = Ok 0xC0A80001 /\
  host_ip pton BROADCAST_IP = Ok 0xC0A800FF.
Proof.
  intros [H1 H2 H3]. unfold host_ip, string_to_ip. rewrite H1, H2, H3. done.
Qed.

Ltac setup_step H := rewrite run_bind, H; cbn beta iota.

(** *** The whole bus *)
Section Bus.
Context {D : Device} {hw : trace -> mac_hw} {idle : trace -> bool} {dhw : trace -> deframer_hw}.
Context {M : IsMac D 0x300 hw} {F : IsFramer D 0x100 idle} {G : IsDeframer D 0x200 dhw}.

(** The configuration of the three components. *)
Definition design (t : trace) : mac_config * framer_config * deframer_config :=
  (config 0x300 t, framer_cfg 0x100 t, deframer_cfg 0x200 t).

Lemma design_inv t a b c :
  design t = (a, b, c) -> config 0x300 t = a /\ framer_cfg 0x100 t = b /\ deframer_cfg 0x200 t = c.
Proof. by intros [= -> -> ->]. Qed.

Lemma mac_step t t' : steps (in_range 0x300 0x400) t t' ->
  framer_cfg 0x100 t' = framer_cfg 0x100 t /\ deframer_cfg 0x200 t' = deframer_cfg 0x200 t.
Proof.
  intros Hs. split.
  - apply (framer_frame 0x300 0x400); [|done]. apply (far_component 3 1); lia.
  - apply (deframer_frame 0x300 0x400); [|done]. apply (far_component 3 2); lia.
Qed.

Lemma mac_method {A} (m : objM busE rmii_ethernet A) a t x t' c :
  method_in 0x300 0x400 (mac_within 0x300 0x400) m ->
  run (m (RmiiEthernet (rmii_mac_at 0x300) a)) t = (x, t') -> config 0x300 t' = c ->
  run (obj_call m (RmiiEthernet (rmii_mac_at 0x300) a)) t =
    (match x with (Ok b, s) => Ok (b, s) | (Err e, _) => Err e end, t') /\
  design t' = (c, framer_cfg 0x100 t, deframer_cfg 0x200 t).
Proof.
  intros Hm Hr Hc. split; [rewrite run_obj_call, Hr; by destruct x as [[] ?]|].
  destruct (Hm (RmiiEthernet (rmii_mac_at 0x300) a)) as [Hin _].
  { split; apply (within_component 3); lia. }
  specialize (Hin D t). rewrite Hr in Hin. cbn [snd] in Hin. apply mac_step in Hin as [E1 E2].
  unfold design. by rewrite Hc, E1, E2.
Qed.

Lemma framer_step op t :
  exists t', run (framer_prog (udp_framer_at 0x100) op) t = (Ok tt, t') /\
    design t' = (config 0x300 t, framer_spec op (framer_cfg 0x100 t), deframer_cfg 0x200 t).
Proof.
  destruct (run_framer_op (base := 0x100) op t) as (t' & Hr & Hc). exists t'. split; [done|].
  pose proof (framer_op_in 0x100 0x200 (udp_framer_at 0x100) op
    (within_component 1 udp_ip_framer_component_id ltac:(lia)) D t) as Hs.
  rewrite Hr in Hs. cbn [snd] in Hs. unfold design. rewrite Hc.
  rewrite (config_frame 0x100 0x200 0x300 t t'), (deframer_frame 0x100 0x200 0x200 t t');
    [done|apply (far_component 1 2); lia|done|apply (far_component 1 3); lia|done].
Qed.

Lemma deframer_step op t :
  exists t', run (deframer_prog (udp_deframer_at 0x200) op) t = (Ok tt, t') /\
    design t' = (config 0x300 t, framer_cfg 0x100 t, deframer_spec op (deframer_cfg 0x200 t)).
Proof.
  destruct (run_deframer_op (base := 0x200) op t) as (t' & Hr & Hc). exists t'. split; [done|].
  pose proof (deframer_op_in 0x200 0x300 (udp_deframer_at 0x200) op
    (within_component 2 udp_ip_deframer_component_id ltac:(lia)) D t) as Hs.
  rewrite Hr in Hs. cbn [snd] in Hs. unfold design. rewrite Hc.
  rewrite (config_frame 0x200 0x300 0x300 t t'), (framer_frame 0x200 0x300 0x100 t t');
    [done|apply (far_component 2 1); lia|done|apply (far_component 2 3); lia|done].
Qed.

Lemma design_rd base r v t : design (t ++ [rd base r v]) = design t.
Proof.
  unfold design, config, framer_cfg, deframer_cfg, eth_framer_enable, eth_deframer_enable, source_mac,
    destination_mac, src_ip_address. by rewrite !wdata_rd.
Qed.

Lemma run_framer_new (t : trace) :
  run (udp_framer_comp_new 0x100) t = (Ok (udp_framer_at 0x100), t ++ [rd 0x100 0 105]).
Proof. unfold udp_framer_comp_new, probe, udp_framer_at. by drive. Qed.

Lemma run_deframer_new (t : trace) :
  run (udp_deframer_comp_new 0x200) t = (Ok (udp_deframer_at 0x200), t ++ [rd 0x200 0 106]).
Proof. unfold udp_deframer_comp_new, probe, udp_deframer_at. by drive. Qed.

Lemma run_rmii_new (t : trace) :
  run (rmii_ethernet_new 0x300) t =
    (Ok (RmiiEthernet (rmii_mac_at 0x300) 0), t ++ [rd 0x300 0 102]).
Proof.
  unfold rmii_ethernet_new, rmii_mac_comp_new, probe, rmii_mac_at; cbn [mac_regs_of].
  by drive.
Qed.
(** *** The three parts of the configuration *)
Definition configured_mac : mac_config :=
  MacConfig true true (le_load FPGA_MAC) (le_load DESTINATION_MAC) 0xC0A80002.

Definition configured_framer : framer_config :=
  FramerConfig true false FPGA_TX_PORT PC_RX_PORT 0xC0A80002 0xC0A80001 0x4666.
Definition configured_deframer : deframer_config :=
  DeframerConfig true false FPGA_RX_PORT 0xC0A80002 0xC0A800FF.

(** How [rmii.init()] ends, by what the PHYs answer. *)
Definition init_result (phys : Z -> Z -> Z) : result (bool * rmii_ethernet) :=
  match first_phy phys with
  | None => Ok (false, RmiiEthernet (rmii_mac_at 0x300) 0)
  | Some j => if negotiated (phys j 31) then Ok (true, RmiiEthernet (rmii_mac_at 0x300) j)
              else Err OutOfFuel
  end.

Lemma run_configure_rmii phys `{!IsPhyBus D 0x300 (fun _ => phys)} pton fuel t :
  resolves pton ->
  exists t',
    run (configure_rmii pton fuel (RmiiEthernet (rmii_mac_at 0x300) 0)) t = (init_result phys, t') /\
    design t' = (configured_mac, (design t).1.2, (design t).2).
Proof.
  intros Hp. destruct (host_ips pton Hp) as (Ef & _ & _).
  destruct (run_eth_set_destination_mac D 0x300 hw 0 DESTINATION_MAC t) as (t4 & R4 & C4 & _);
    [done|repeat constructor; unfold is_u; lia|].
  apply (mac_method _ _ _ _ _ _ (set_destination_mac_in _ _ _) R4) in C4 as [O4 D4].
  destruct (run_eth_set_source_mac D 0x300 hw 0 FPGA_MAC t4) as (t5 & R5 & C5 & _);
    [done|repeat constructor; unfold is_u; lia|].
  apply (mac_method _ _ _ _ _ _ (set_source_mac_in _ _ _) R5) in C5 as [O5 D5].
  destruct (run_op_on_mac D 0x300 hw (SetSourceIp 0xC0A80002) 0 t5 I) as (t6 & R6 & C6).
  cbn [op_prog op_spec] in R6, C6.
  apply (mac_method (set_source_ip _) _ _ _ _ _ (set_source_ip_in _ _ _) R6) in C6 as [O6 D6].
  destruct (run_init D 0x300 hw phys fuel true 0 t6) as (t7 & R7 & C7).
  apply (mac_method _ _ _ _ _ _ (init_in _ _ _ _) R7) in C7 as [O7 D7].
  exists t7. split.
  - unfold configure_rmii. setup_step O4. setup_step O5. rewrite Ef, run_bind, run_Ret.
    cbn beta iota. setup_step O6. rewrite O7. unfold init_result.
    destruct (first_phy phys) as [j|]; [|done]. by destruct (negotiated (phys j 31)).
  - apply design_inv in D4 as (A4 & B4 & X4). apply design_inv in D5 as (A5 & B5 & X5).
    apply design_inv in D6 as (A6 & B6 & X6).
    rewrite D7, A6, B6, X6, A5, B5, X5, A4, B4, X4. reflexivity.
Qed.

Lemma run_configure_framer pton t :
  resolves pton ->
  exists t', run (configure_framer pton (udp_framer_at 0x100)) t = (Ok tt, t') /\
    design t' = ((design t).1.1,
                 configured_framer, (design t).2).
Proof.
  intros Hp. destruct (host_ips pton Hp) as (Ef & Ep & _).
  destruct (framer_step FramerReset t) as (t8 & R8 & D8).
  destruct (framer_step (FramerSetConfig
    (UdpFramer.Config 0xC0A80002 0xC0A80001 FPGA_TX_PORT PC_RX_PORT)) t8) as (t9 & R9 & D9).
  destruct (framer_step (FramerEnable true) t9) as (t10 & R10 & D10).
  cbn [framer_prog] in R8, R9, R10. exists t10. split.
  - unfold configure_framer. rewrite Ef, Ep. do 2 (rewrite run_bind, run_Ret; cbn beta iota zeta).
    setup_step R8. by setup_step R9.
  - apply design_inv in D8 as (A8 & B8 & X8). apply design_inv in D9 as (A9 & B9 & X9).
    rewrite D10, A9, B9, X9, A8, B8, X8. unfold design. cbn [fst snd].
    by do 2 f_equal.
Qed.

Lemma run_configure_deframer pton t :
  resolves pton ->
  exists t', run (configure_deframer pton (udp_deframer_at 0x200)) t = (Ok tt, t') /\
    design t' = ((design t).1, configured_deframer).
Proof.
  intros Hp. destruct (host_ips pton Hp) as (Ef & _ & Eb).
  destruct (deframer_step DeframerReset t) as (t11 & R11 & D11).
  destruct (deframer_step (DeframerSetConfig
    (UdpDeframer.Config 0xC0A80002 0xC0A800FF FPGA_RX_PORT)) t11) as (t12 & R12 & D12).
  destruct (deframer_step (DeframerEnable true) t12) as (t13 & R13 & D13).
  cbn [deframer_prog] in R11, R12, R13. exists t13. split.
  - unfold configure_deframer. rewrite Ef, Eb. do 2 (rewrite run_bind, run_Ret; cbn beta iota zeta).
    setup_step R11. by setup_step R12.
  - apply design_inv in D11 as (A11 & B11 & X11). apply design_inv in D12 as (A12 & B12 & X12).
    rewrite D13, A12, B12, X12, A11, B11, X11. reflexivity.
Qed.

(** The whole sequence: its result and the configuration it leaves. *)
Definition setup_result (phys : Z -> Z -> Z) : result (option fpga) :=
  match init_result phys with
  | Ok (true, rmii) => Ok (Some (Fpga (udp_framer_at 0x100) rmii (udp_deframer_at 0x200)))
  | Ok (false, _) => Ok None
  | Err e => Err e
  end.
Definition setup_design (phys : Z -> Z -> Z) (d : mac_config * framer_config * deframer_config)
    : mac_config * framer_config * deframer_config :=
  match init_result phys with
  | Ok (true, _) => (configured_mac, configured_framer, configured_deframer)
  | _ => (configured_mac, d.1.2, d.2)
  end.

Lemma run_setup phys `{!IsPhyBus D 0x300 (fun _ => phys)} pton fuel t :
  resolves pton ->
  exists t', run (setup pton fuel) t = (setup_result phys, t') /\
    design t' = setup_design phys (design t).
Proof.
  intros Hp. set (t3 := ((t ++ [rd 0x100 0 105]) ++ [rd 0x300 0 102]) ++ [rd 0x200 0 106]).
  assert (D3 : design t3 = design t) by (unfold t3; by rewrite !design_rd).
  destruct (run_configure_rmii phys pton fuel t3 Hp) as (t4 & R4 & D4). rewrite D3 in D4.
  destruct (run_configure_framer pton t4 Hp) as (t5 & R5 & D5).
  destruct (run_configure_deframer pton t5 Hp) as (t6 & R6 & D6).
  rewrite D5, D4 in D6. cbn [fst snd] in D6. unfold setup, setup_result, setup_design.
  change (COMP_NUM_TO_OFFSET UDP_IP_FRAMER_COMP_NUM) with 0x100.
  change (COMP_NUM_TO_OFFSET RMII_MAC_COMP_NUM) with 0x300.
  change (COMP_NUM_TO_OFFSET UDP_IP_DEFRAMER_COMP_NUM) with 0x200.
  setup_step (run_framer_new t). setup_step (run_rmii_new (t ++ [rd 0x100 0 105])).
  setup_step (run_deframer_new ((t ++ [rd 0x100 0 105]) ++ [rd 0x300 0 102])). fold t3.
  setup_step R4. destruct (init_result phys) as [[[] rmii]|e]; [|by exists t4..].
  exists t6. cbn [negb]. setup_step R5. by setup_step R6.
Qed.
End Bus.

(** ** Properties *)


(** ** Witnesses *)

(** The three components on one bus. *)
Definition design_hw : trace -> mac_hw := engine_hw 0x300 example_phys 4.
Definition design_device : Device :=
  bus_union 0x200 (reg_file 0x100 7 (framer_rdata 0x100 (fun _ => true)))
    (bus_union 0x300 (reg_file 0x200 9 (deframer_rdata 0x200 example_deframer_hw))
       (mac_device 0x300 design_hw)).

Ltac on_bus :=
  split; [reg_bounds | intros t r | intros t r d]; autounfold with regs; intros; unfold reg_addr_of; rewrite wrap_small by (unfold is_u; lia);
  cbn; autounfold with regs; zcases; cbn; try done; do 2 f_equal; lia.

#[export] Instance design_mac : IsMac design_device 0x300 design_hw.
Proof. on_bus. Qed.
#[export] Instance design_framer : IsFramer design_device 0x100 (fun _ => true).
Proof. on_bus. Qed.
#[export] Instance design_deframer : IsDeframer design_device 0x200 example_deframer_hw.
Proof. on_bus. Qed.
#[export] Instance design_phys : IsPhyBus design_device 0x300 (fun _ => example_phys).
Proof.
  apply (mac_phy_bus (hw := design_hw)). apply engine_hw_engine; [lia..|exact example_phys_u16].
Qed.

Definition example_pton (s : string) : Z * Z :=
  if bool_decide (s = FPGA_IP) then (1, 0x0200A8C0)
  else if bool_decide (s = PC_IP) then (1, 0x0100A8C0)
  else if bool_decide (s = BROADCAST_IP) then (1, 0xFF00A8C0)
  else (0, 0).

