(* ===== verification/Main.v ===== *)
(** * The main thread: [main] of [example/cpp/main.cpp]

    Configuration, the start of the two threads, the status loop and the exit.
    The register interface is the bus of RegInterface.v; what the threads do is
    in Threads.v. *)

From S2P Require Import Prelude Effects Utils Lan8720 RegInterface RegFile MacDevice Mdio RmiiMac.
From S2P Require Import RmiiEthernet UdpDevice UdpFramer UdpDeframer Frame Timer Setup.

(** ** The environment of the main thread *)

(** Constructors and [join] of the two [std::thread]s, and the status lines. *)
Inductive job :=
  | StartSend (src_ip dst_ip : string) (src_port dst_port data_rate_bps : Z)
  | StartReceive (ip : string) (port : Z)
  | JoinSend
  | JoinReceive
  | PrintStatus (mac_status : status_t) (valid_packets dropped_packets : Z).

Inductive mainE : Type -> Type :=
  | MnBus {X : Type} (e : busE X) : mainE X
  | MnClock {X : Type} (e : clockE X) : mainE X
  | MnSleepFor (ns : Z) : mainE unit
  | MnExitRequested : mainE bool
  | MnJob (j : job) : mainE unit.

#[export] Instance main_bus_interp : Interp busE mainE := fun X e => trigger (MnBus e).
#[export] Instance main_clock_interp : Interp clockE mainE := fun X e => trigger (MnClock e).

Definition bus {A} (p : io busE A) : io mainE A := translate p.

(** A method of the status timer. *)
Definition on_timer {A} (m : timerM A) (tm : timer) : io mainE (A * timer) :=
  prog_bind (translate (m tm)) (fun x => match x with
    | (Ok a, s') => Ret (Ok (a, s'))
    | (Err e, _) => Ret (Err e)
    end).

(** ** The code *)
Definition status_interval : Z := 10 * 1000 * 1000 * 1000.

(** The two counters are arguments of one call, whose order of evaluation C++
    leaves open: [valid_first]. *)
Definition packet_counts (valid_first : bool) (udp_deframer : reg_comp) : io busE (Z * Z) :=
  if valid_first then
    valid ← get_valid_packet_count udp_deframer;
    dropped ← get_dropped_packet_count udp_deframer; mret (valid, dropped)
  else
    dropped ← get_dropped_packet_count udp_deframer;
    valid ← get_valid_packet_count udp_deframer; mret (valid, dropped).

Section Main.
Variables (inet_pton : string -> Z * Z) (valid_first : bool).

(** The lambda captures [rmii] and [udp_deframer] by reference. *)
Definition print_mac_status (f : fpga) : io mainE fpga :=
  '(mac_status, rmii) ← bus (obj_call get_status (the_rmii f));
  '(valid, dropped) ← bus (packet_counts valid_first (the_deframer f));
  _ ← call_ok (MnJob (PrintStatus mac_status valid dropped));
  mret (Fpga (the_framer f) rmii (the_deframer f)).

Fixpoint main_loop (fuel : nat) (f : fpga) (status_timer : timer) : io mainE fpga :=
  match fuel with
  | O => io_fail OutOfFuel
  | S fuel' =>
      exit ← call_ok MnExitRequested;
      if (exit : bool) then mret f
      else
        _ ← call_ok (MnSleepFor (250 * 1000 * 1000));
        '(is_expired, tm) ← on_timer expired status_timer;
        if (is_expired : bool) then
          f ← print_mac_status f;
          '(_, tm) ← on_timer (restart status_interval) tm;
          main_loop fuel' f tm
        else main_loop fuel' f tm
  end.

(** Lines 112 to 142. *)
Definition main_rest (fuel : nat) (f : fpga) : io mainE Z :=
  _ ← call_ok (MnJob (StartSend PC_IP FPGA_IP PC_TX_PORT FPGA_RX_PORT target_data_rate_bps));
  _ ← call_ok (MnJob (StartReceive PC_IP PC_RX_PORT));
  '(_, tm) ← on_timer (restart status_interval) timer_default;
  f ← main_loop fuel f tm;
  _ ← call_ok (MnJob JoinSend);
  _ ← call_ok (MnJob JoinReceive);
  _ ← print_mac_status f;
  mret 0.

(** The value of [main]; an exception leaves it as [Err]. *)
Definition main (fuel init_fuel : nat) : io mainE Z :=
  r ← bus (setup inet_pton init_fuel);
  match r with
  | None => mret 1
  | Some f => main_rest fuel f
  end.
End Main.

(** ** Worlds of the main thread

    A world contains a bus ([view]), says how many more reads of the exit flag
    give [false] ([rounds]) and keeps the jobs in order ([jobs]).  Nothing else
    touches the bus, and the clock reads less than 2^62 ns (146 years). *)
Class MainWorld (D : Device) (W : Type) `{!Handler mainE W}
    (view : W -> trace) (rounds : W -> nat) (jobs : W -> list job) : Prop := {
  mw_bus X (e : busE X) w :
    (handle (MnBus e) w).1 = (handle e (view w)).1 /\
    view (handle (MnBus e) w).2 = (handle e (view w)).2;
  mw_other X (e : mainE X) w :
    match e with MnBus _ => True | _ => view (handle e w).2 = view w end;
  mw_rounds X (e : mainE X) w :
    rounds (handle e w).2 = match e with MnExitRequested => pred (rounds w) | _ => rounds w end;
  mw_jobs X (e : mainE X) w :
    jobs (handle e w).2 = jobs w ++ match e with MnJob j => [j] | _ => [] end;
  mw_exit w : (handle MnExitRequested w).1 = (rounds w =? 0)%nat;
  mw_now w : 0 <= (handle (MnClock ClockNow) w).1 < 2 ^ 62
}.

(** ** Lemmas *)
Section World.
Context {D : Device} {W : Type} `{!Handler mainE W} {view : W -> trace} {rounds : W -> nat}
  {jobs : W -> list job} {MW : MainWorld D W view rounds jobs}.

(** Nothing but the trace of the bus changes, to [t]. *)
Definition only_bus (w w' : W) (t : trace) : Prop :=
  view w' = t /\ rounds w' = rounds w /\ jobs w' = jobs w.

Lemma run_on_bus {A} (p : prog busE A) w :
  exists w', run (translate p : prog mainE A) w = ((run p (view w)).1, w') /\
    only_bus w w' (run p (view w)).2.
Proof.
  revert w. induction p as [a|X e k IH]; intros w; [by exists w|].
  cbn [translate interp main_bus_interp trigger prog_bind run].
  destruct (mw_bus X e w) as [E1 E2]. pose proof (mw_rounds X (MnBus e) w) as Er.
  pose proof (mw_jobs X (MnBus e) w) as Ej. rewrite app_nil_r in Ej.
  destruct (handle (MnBus e) w) as [x w1], (handle e (view w)) as [y t1]. cbn [fst snd] in *.
  subst x t1. destruct (IH y w1) as (w' & Hr & Hv & Hn & Hj). exists w'.
  split; [exact Hr|]. split; [done|]. by rewrite Hn, Hj.
Qed.

Lemma run_bus {A} (p : io busE A) w r t :
  run p (view w) = (r, t) -> exists w', run (bus p) w = (r, w') /\ only_bus w w' t.
Proof. intros H. destruct (run_on_bus p w) as (w' & Hr & Hb). rewrite H in Hr, Hb. eauto. Qed.

Lemma run_on_clock {A} (p : prog clockE A) w :
  only_bus w (run (translate p : prog mainE A) w).2 (view w).
Proof.
  revert w. induction p as [a|X e k IH]; intros w; [done|].
  cbn [translate interp main_clock_interp trigger prog_bind run].
  pose proof (mw_other X (MnClock e) w) as Ev. pose proof (mw_rounds X (MnClock e) w) as Er.
  pose proof (mw_jobs X (MnClock e) w) as Ej. rewrite app_nil_r in Ej. cbn in Ev.
  destruct (handle (MnClock e) w) as [x w1]. cbn [snd] in *.
  destruct (IH x w1) as (Hv & Hn & Hj). split; [by rewrite Hv|]. by rewrite Hn, Hj.
Qed.

Lemma only_bus_trans w1 w2 w3 t2 t3 :
  only_bus w1 w2 t2 -> only_bus w2 w3 t3 -> only_bus w1 w3 t3.
Proof. unfold only_bus. intros (_ & ? & ?) (? & ? & ?). split_and!; congruence. Qed.

(** Reading and restarting the timer works at any time. *)
Lemma run_on_timer {A} (m : timerM A) tm w a tm' w' :
  run (Handler0 := via) (m tm) w = ((Ok a, tm'), w') ->
  run (on_timer m tm) w = (Ok (a, tm'), w') /\ only_bus w w' (view w).
Proof.
  intros Hr. pose proof (run_on_clock (m tm) w) as Hb. rewrite run_translate, Hr in Hb.
  split; [|done]. unfold on_timer. by rewrite run_prog_bind, run_translate, Hr.
Qed.

Lemma run_expired tm w :
  exists b w', run (on_timer expired tm) w = (Ok (b, tm), w') /\ only_bus w w' (view w).
Proof.
  exists (negb (_started tm) || (_expire_time tm <=? (handle (MnClock ClockNow) w).1)).
  exists (if _started tm then (handle (MnClock ClockNow) w).2 else w).
  apply run_on_timer. unfold expired. repeat obj1. destruct (_started tm); cbn [negb orb].
  - rewrite run_obj_bind, run_obj_io, run_call_ok. unfold handle at 1, via. cbn.
    by destruct (handle (MnClock ClockNow) w).
  - by rewrite run_obj_ret.
Qed.

Lemma run_restart tm w :
  exists tm' w', run (on_timer (restart status_interval) tm) w = (Ok (tt, tm'), w') /\
    only_bus w w' (view w).
Proof.
  pose proof (mw_now w) as Hnow. set (now := (handle (MnClock ClockNow) w).1) in *.
  exists (Timer now (now + status_interval) true), (handle (MnClock ClockNow) w).2.
  apply run_on_timer. unfold restart. repeat obj1.
  rewrite run_call_ok. unfold handle at 1, via. cbn. subst now.
  destruct (handle (MnClock ClockNow) w) as [now w1]. cbn in *.
  rewrite i64_ok by (unfold status_interval; lia). done.
Qed.

(** One event that is not for the bus. *)
Ltac main_event e w :=
  cbn; pose proof (mw_other _ e w); pose proof (mw_rounds _ e w); pose proof (mw_jobs _ e w);
  destruct (handle e w) as [x w']; cbn in *; rewrite ?app_nil_r in *.

Lemma run_job j w :
  exists w', run (call_ok (MnJob j)) w = (Ok tt, w') /\
    view w' = view w /\ rounds w' = rounds w /\ jobs w' = jobs w ++ [j].
Proof. main_event (MnJob j) w. destruct x. eauto. Qed.

Lemma run_sleep_for ns w :
  exists w', run (call_ok (MnSleepFor ns)) w = (Ok tt, w') /\ only_bus w w' (view w).
Proof. main_event (MnSleepFor ns) w. destruct x. exists w'. by repeat split. Qed.

Lemma run_exit w :
  exists w', run (call_ok MnExitRequested) w = (Ok (rounds w =? 0)%nat, w') /\
    view w' = view w /\ rounds w' = pred (rounds w) /\ jobs w' = jobs w.
Proof.
  pose proof (mw_exit w) as E. main_event MnExitRequested w. subst x. exists w'. by repeat split.
Qed.
End World.

(** *** On the design *)

(** A status line about the PHY at address [a]. *)
Definition is_report (phys : Z -> Z -> Z) (a : Z) (j : job) : Prop :=
  match j with
  | PrintStatus s valid dropped =>
      link_up s = Z.testbit (phys a 1) 2 /\
      link_speed s = speed (special_status_of_u16 (phys a 31)) /\
      is_u 16 valid /\ is_u 16 dropped
  | _ => False
  end.

Lemma run_packet_counts (D : Device) dhw `{!IsDeframer D 0x200 dhw} vf t :
  exists v d t', run (packet_counts vf (udp_deframer_at 0x200)) t = (Ok (v, d), t') /\
    design t' = design t /\ is_u 16 v /\ is_u 16 d.
Proof.
  unfold packet_counts, get_valid_packet_count, get_dropped_packet_count, udp_deframer_at.
  destruct vf; do 3 eexists; (split; [by drive|]); rewrite !design_rd.
  all: split; [done|]; split; apply wrap_range; lia.
Qed.

Section Status.
Context {D : Device} {hw : trace -> mac_hw} {dhw : trace -> deframer_hw} {phys : Z -> Z -> Z}.
Context {M : IsMac D 0x300 hw} {G : IsDeframer D 0x200 dhw} {B : IsPhyBus D 0x300 (fun _ => phys)}.
Context {W : Type} `{!Handler mainE W} {view : W -> trace} {rounds : W -> nat}
  {jobs : W -> list job} {MW : MainWorld D W view rounds jobs}.
Context (vf : bool) (a : Z) (Ha : is_u 5 a).

(** The components after the configuration. *)
Definition configured_fpga : fpga :=
  Fpga (udp_framer_at 0x100) (RmiiEthernet (rmii_mac_at 0x300) a) (udp_deframer_at 0x200).

(** The configuration is that of [w], and the jobs [js] were added. *)
Definition continues (w w' : W) (js : list job) : Prop :=
  design (view w') = design (view w) /\ jobs w' = jobs w ++ js.

Lemma continues_trans w1 w2 w3 js1 js2 :
  continues w1 w2 js1 -> continues w2 w3 js2 -> continues w1 w3 (js1 ++ js2).
Proof. intros [D1 J1] [D2 J2]. split; [congruence|]. by rewrite J2, J1, app_assoc. Qed.

Lemma continues_same w w' : view w' = view w -> jobs w' = jobs w -> continues w w' [].
Proof. intros Ev Ej. split; [by rewrite Ev|by rewrite app_nil_r]. Qed.

Lemma run_print w :
  exists w' r, run (print_mac_status vf configured_fpga) w = (Ok configured_fpga, w') /\
    continues w w' [r] /\ rounds w' = rounds w /\ is_report phys a r.
Proof.
  destruct (run_get_status D 0x300 hw phys a (view w) Ha)
    as (u & s & t1 & Hs & Hc & Hup & Hspeed & _).
  destruct (mac_method get_status a (view w) _ t1 _ (get_status_in _ _) Hs Hc) as [Hs' Hd1].
  apply run_bus in Hs' as (w1 & Hr1 & Hv1 & Hn1 & Hj1).
  destruct (run_packet_counts D dhw vf (view w1)) as (v & d & t2 & Hp & Hd2 & Hv & Hd).
  apply run_bus in Hp as (w2 & Hr2 & Hv2 & Hn2 & Hj2).
  destruct (run_job (PrintStatus s v d) w2) as (w3 & Hr3 & Hv3 & Hn3 & Hj3).
  exists w3, (PrintStatus s v d). split.
  - unfold print_mac_status. cbn [the_rmii the_deframer configured_fpga].
    rewrite run_bind, Hr1. cbn beta iota. rewrite run_bind, Hr2. cbn beta iota.
    rewrite run_bind, Hr3. done.
  - split; [|split; [congruence|exact (conj Hup (conj Hspeed (conj Hv Hd)))]]. split; [|congruence].
    by rewrite Hv3, Hv2, Hd2, Hv1, Hd1.
Qed.

Lemma run_main_loop n tm w :
  (rounds w < n)%nat ->
  exists w' rs, run (main_loop vf n configured_fpga tm) w = (Ok configured_fpga, w') /\
    continues w w' rs /\ Forall (is_report phys a) rs.
Proof.
  revert tm w. induction n as [|n IH]; intros tm w Hn; [lia|]. cbn [main_loop].
  destruct (run_exit w) as (w1 & He & Ve & Re & Je). rewrite run_bind, He. cbn beta iota.
  pose proof (continues_same _ _ Ve Je) as C1.
  destruct (rounds w) as [|k] eqn:Ek; cbn [Nat.eqb]; [by exists w1, []|].
  destruct (run_sleep_for (250 * 1000 * 1000) w1) as (w2 & Hs & Vs & Rs & Js).
  rewrite run_bind, Hs. cbn beta iota. pose proof (continues_same _ _ Vs Js) as C2.
  destruct (run_expired tm w2) as (b & w3 & Hx & Vx & Rx & Jx).
  rewrite run_bind, Hx. cbn beta iota. pose proof (continues_same _ _ Vx Jx) as C3.
  pose proof (continues_trans _ _ _ _ _ C1 (continues_trans _ _ _ _ _ C2 C3)) as C.
  cbn [app] in C. destruct b.
  - destruct (run_print w3) as (w4 & r & Hp & C4 & R4 & Hr). rewrite run_bind, Hp. cbn beta iota.
    destruct (run_restart tm w4) as (tm' & w5 & Ht & V5 & R5 & J5). rewrite run_bind, Ht.
    cbn beta iota. pose proof (continues_same _ _ V5 J5) as C5.
    destruct (IH tm' w5) as (w6 & rs & Hl & C6 & Hrs); [cbn in *; lia|].
    exists w6, (r :: rs). split; [done|]. split; [|by constructor].
    exact (continues_trans _ _ _ _ _ C
      (continues_trans _ _ _ _ _ C4 (continues_trans _ _ _ _ _ C5 C6))).
  - destruct (IH tm w3) as (w6 & rs & Hl & C6 & Hrs); [cbn in *; lia|].
    exists w6, rs. split; [done|]. split; [|done]. exact (continues_trans _ _ _ _ _ C C6).
Qed.

(** The jobs of a complete run: both threads are started after the
    configuration and with the ports it was made for, and joined before the last
    status line. *)
Definition main_jobs (reports : list job) (last : job) : list job :=
  [StartSend PC_IP FPGA_IP PC_TX_PORT FPGA_RX_PORT target_data_rate_bps;
   StartReceive PC_IP PC_RX_PORT] ++ reports ++ [JoinSend; JoinReceive; last].

Lemma run_continuing_job j w :
  exists w', run (call_ok (MnJob j)) w = (Ok tt, w') /\ continues w w' [j] /\
    rounds w' = rounds w.
Proof.
  destruct (run_job j w) as (w' & Hr & Hv & Hn & Hj). exists w'. split; [done|].
  split; [|done]. split; [by rewrite Hv|done].
Qed.

Lemma run_main_rest fuel w :
  (rounds w < fuel)%nat ->
  exists w' rs l, run (main_rest vf fuel configured_fpga) w = (Ok 0, w') /\
    continues w w' (main_jobs rs l) /\ Forall (is_report phys a) (l :: rs).
Proof.
  intros Hn. unfold main_rest, main_jobs.
  destruct (run_continuing_job (StartSend PC_IP FPGA_IP PC_TX_PORT FPGA_RX_PORT target_data_rate_bps) w)
    as (w1 & R1 & C1 & N1). rewrite run_bind, R1. cbn beta iota.
  destruct (run_continuing_job (StartReceive PC_IP PC_RX_PORT) w1) as (w2 & R2 & C2 & N2).
  rewrite run_bind, R2. cbn beta iota.
  destruct (run_restart timer_default w2) as (tm & w3 & R3 & V3 & N3 & J3).
  rewrite run_bind, R3. cbn beta iota. pose proof (continues_same _ _ V3 J3) as C3.
  destruct (run_main_loop fuel tm w3) as (w4 & rs & R4 & C4 & Hrs); [lia|].
  rewrite run_bind, R4. cbn beta iota.
  destruct (run_continuing_job JoinSend w4) as (w5 & R5 & C5 & _). rewrite run_bind, R5. cbn beta iota.
  destruct (run_continuing_job JoinReceive w5) as (w6 & R6 & C6 & _).
  rewrite run_bind, R6. cbn beta iota.
  destruct (run_print w6) as (w7 & l & R7 & C7 & _ & Hl). rewrite run_bind, R7. cbn beta iota.
  exists w7, rs, l. split; [done|]. split; [|by constructor].
  exact (continues_trans _ _ _ _ _ C1 (continues_trans _ _ _ _ _ C2 (continues_trans _ _ _ _ _ C3
    (continues_trans _ _ _ _ _ C4 (continues_trans _ _ _ _ _ C5
      (continues_trans _ _ _ _ _ C6 C7)))))).
Qed.
End Status.

(** ** Properties *)

(** The main thread, on a bus with the three components.  Without a PHY it
    returns 1 and neither starts a thread nor touches framer and deframer; with a
    PHY that never finishes negotiation it hangs before starting a thread;
    otherwise it returns 0 once the exit flag is seen, having started and joined
    both threads, and the configuration it made is still in place: the status
    prints in between, MDIO accesses included, changed nothing. *)
Theorem main_outcome (D : Device) hw idle dhw phys (W : Type) `{!Handler mainE W} view rounds jobs
    `{!IsMac D 0x300 hw} `{!IsFramer D 0x100 idle} `{!IsDeframer D 0x200 dhw}
    `{!IsPhyBus D 0x300 (fun _ => phys)} `{!MainWorld D W view rounds jobs}
    pton vf fuel init_fuel w :
  resolves pton -> (rounds w < fuel)%nat ->
  exists r w', run (main pton vf fuel init_fuel) w = (r, w') /\
    match first_phy phys with
    | None =>
        r = Ok 1 /\ jobs w' = jobs w /\
        design (view w') = (configured_mac, (design (view w)).1.2, (design (view w)).2)
    | Some j =>
        if negotiated (phys j 31) then
          r = Ok 0 /\ design (view w') = (configured_mac, configured_framer, configured_deframer) /\
          exists reports last, jobs w' = jobs w ++ main_jobs reports last /\
            Forall (is_report phys j) (last :: reports)
        else r = Err OutOfFuel /\ jobs w' = jobs w
    end.
Proof.
  intros Hp Hn. destruct (run_setup phys pton init_fuel (view w) Hp) as (t1 & Hs & Hd).
  apply run_bus in Hs as (w1 & Hr & Hv & Hr1 & Hj).
  unfold main. rewrite run_bind, Hr. unfold setup_result, setup_design, init_result in *.
  destruct (first_phy phys) as [j|] eqn:Ej.
  2: { cbn beta iota. exists (Ok 1), w1. split; [done|]. split_and!; [done|done|by rewrite Hv]. }
  destruct (negotiated (phys j 31)).
  2: { cbn beta iota. by exists (Err OutOfFuel), w1. }
  cbn beta iota. rewrite <- Hv in Hd.
  destruct (run_main_rest vf j (first_phy_u5 _ _ Ej) fuel w1) as (w' & rs & l & Hm & [Hd' Hj'] & Hrs);
    [by rewrite Hr1|].
  exists (Ok 0), w'. split; [exact Hm|]. split_and!; [done|by rewrite Hd', Hd|].
  exists rs, l. by rewrite Hj', Hj.
Qed.

(** ** Witness *)

(** The design's bus, a clock moved by sleeping, and an exit request. *)
Record main_world := World {
  mt_trace : trace; mt_clock : Z; mt_rounds : nat; mt_jobs : list job
}.
#[export] Instance main_world_handler : Handler mainE main_world := fun X e =>
  match e in mainE Y return main_world -> Y * main_world with
  | MnBus e => fun w =>
      let (x, t) := handle (Handler := @trace_handler design_device) e (mt_trace w) in
      (x, World t (mt_clock w) (mt_rounds w) (mt_jobs w))
  | MnClock e => fun w =>
      (match e in clockE Y return Y with
       | ClockNow => mt_clock w mod 2 ^ 62
       | SleepUntil _ => tt
       | Pause => tt
       end, w)
  | MnSleepFor ns => fun w => (tt, World (mt_trace w) (mt_clock w + ns) (mt_rounds w) (mt_jobs w))
  | MnExitRequested => fun w =>
      ((mt_rounds w =? 0)%nat, World (mt_trace w) (mt_clock w) (pred (mt_rounds w)) (mt_jobs w))
  | MnJob j => fun w => (tt, World (mt_trace w) (mt_clock w) (mt_rounds w) (mt_jobs w ++ [j]))
  end.

#[export] Instance main_world_ok :
  MainWorld design_device main_world mt_trace mt_rounds mt_jobs.
Proof.
  split.
  - intros X e w. cbn. by destruct (handle _ _).
  - intros X [] w; cbn; try done.
  - intros X [] w; cbn; try done. by destruct (handle _ _).
  - intros X [] w; cbn; rewrite ?app_nil_r; try done. by destruct (handle _ _).
  - done.
  - intros w. apply (Z.mod_pos_bound (mt_clock w) (2 ^ 62)). lia.
Qed.

Lemma main_outcome_witness :
  exists w', run (main example_pton true 60 0) (World [] 0 50 []) = (Ok 0, w') /\
    design (mt_trace w') = (configured_mac, configured_framer, configured_deframer).
Proof.
  destruct (main_outcome design_device design_hw (fun _ => true) example_deframer_hw example_phys
    main_world mt_trace mt_rounds mt_jobs example_pton true 60 0 (World [] 0 50 []))
    as (r & w' & Hr & H).
  - split; vm_compute; reflexivity.
  - cbn. lia.
  - change (first_phy example_phys) with (Some 1) in H. cbn [negotiated example_phys] in H.
    destruct H as (-> & Hd & _). exists w'. exact (conj Hr Hd).
Defined.
