(* ===== verification/Words.v ===== *)
(** * Drivers pass 32-bit words inside the design

    The arguments of the virtual bus calls are [std::uint32_t]; the models of
    the drivers pass integers.  This file shows that the conversions change
    nothing: on a bus whose answers are words, every datum that [main] writes is
    a 32-bit word and every address lies in the range of the three components.
    The serial link, which truncates both, then is the bus the drivers were
    proved on (Program.v). *)

From S2P Require Import Prelude Effects Utils Lan8720 RegInterface RegFile MacDevice Mdio RmiiMac.
From S2P Require Import RmiiEthernet UdpDevice UdpFramer UdpDeframer Frame Timer Setup Main.

Section Words.
Context (lo hi : Z) {D : Device}.

Definition word_event (ev : event) : Prop :=
  match ev with
  | EvRead a _ => lo <= a < hi
  | EvWrite a d _ => lo <= a < hi /\ is_u 32 d
  | EvSleep _ => True
  end.
Definition word_trace (t : trace) : Prop := Forall word_event t.

(** A bus that answers every access in the range, reads with words.  (What a
    read gives after writes of something else does not matter.) *)
Class WordBus : Prop := {
  word_read t a : word_trace t -> lo <= a < hi -> exists v, dev_read t a = Ok v /\ is_u 32 v;
  word_write t a d : lo <= a < hi -> dev_write t a d = Ok tt
}.

(** A run keeps to words and to the range, and a normal result is in [Q]. *)
Definition speaks {A} (Q : A -> Prop) (p : io busE A) : Prop :=
  forall t, word_trace t ->
    word_trace (run p t).2 /\ (forall a, (run p t).1 = Ok a -> Q a).

(** Methods, relative to an invariant of the fields. *)
Definition method_speaks {S A} (I : S -> Prop) (m : objM busE S A) : Prop :=
  forall s t, I s -> word_trace t -> word_trace (run (m s) t).2 /\ I (run (m s) t).1.2.

Abbreviation anything := (fun _ => True).

(** ** Rules *)
Lemma word_trace_snoc t ev : word_trace (t ++ [ev]) <-> word_trace t /\ word_event ev.
Proof. unfold word_trace. by rewrite Forall_app, Forall_singleton. Qed.

Lemma speaks_Ret {A} (Q : A -> Prop) r : (forall a, r = Ok a -> Q a) -> speaks Q (Ret r).
Proof. by intros HQ t Ht. Qed.

Lemma speaks_ret {A} (Q : A -> Prop) a : Q a -> speaks Q (mret a).
Proof. intros HQ. apply speaks_Ret. by intros ? [= <-]. Qed.

Lemma speaks_throw {A} (Q : A -> Prop) e : speaks Q (io_throw e).
Proof. by apply speaks_Ret. Qed.

Lemma speaks_bind {A B} (P : A -> Prop) (Q : B -> Prop) p f :
  speaks P p -> (forall a, P a -> speaks Q (f a)) -> speaks Q (p ≫= f).
Proof.
  intros Hp Hf t Ht. rewrite run_bind. destruct (Hp t Ht) as [H1 H2].
  destruct (run p t) as [[a|e] t1]; cbn [fst snd] in *; [|by split].
  by apply Hf; [apply H2|].
Qed.

Lemma speaks_bind_any {A B} (Q : B -> Prop) (p : io busE A) f :
  speaks anything p -> (forall a, speaks Q (f a)) -> speaks Q (p ≫= f).
Proof. intros Hp Hf. apply speaks_bind with anything; auto. Qed.

Lemma speaks_if {A} (Q : A -> Prop) (b : bool) p q :
  speaks Q p -> speaks Q q -> speaks Q (if b then p else q).
Proof. by destruct b. Qed.

Lemma speaks_sleep Q us : Q tt -> speaks Q (bus_sleep us).
Proof.
  intros HQ t Ht. change (run (bus_sleep us) t) with (Ok tt : result unit, t ++ [EvSleep us]).
  cbn [fst snd]. split; [by apply word_trace_snoc|]. by intros [].
Qed.

Lemma method_bind_speaks {S A B} (I : S -> Prop) (m : objM busE S A) (f : A -> objM busE S B) :
  method_speaks I m -> (forall a, method_speaks I (f a)) -> method_speaks I (m ≫= f).
Proof.
  intros Hm Hf s t Hs Ht. rewrite run_obj_bind. destruct (Hm s t Hs Ht) as [H1 H2].
  destruct (run (m s) t) as [[[a|e] s1] t1]; cbn [fst snd] in *; [by apply Hf|done].
Qed.

Lemma method_io_speaks {S A} (I : S -> Prop) (p : io busE A) :
  speaks anything p -> method_speaks I (obj_io p).
Proof. intros Hp s t Hs Ht. rewrite run_obj_io. destruct (Hp t Ht). by destruct (run p t). Qed.

Lemma method_ret_speaks {S A} (I : S -> Prop) (a : A) : method_speaks I (mret a).
Proof. by intros s t Hs Ht. Qed.
Lemma method_fail_speaks {S A} (I : S -> Prop) e : method_speaks I (obj_fail (A := A) e).
Proof. by intros s t Hs Ht. Qed.
Lemma method_modify_speaks {S} (I : S -> Prop) f :
  (forall s, I s -> I (f s)) -> method_speaks I (obj_modify f).
Proof. intros Hf s t Hs Ht. split; [done|by apply Hf]. Qed.
Lemma method_get_speaks {S B} (I : S -> Prop) (f : S -> objM busE S B) :
  (forall s, I s -> method_speaks I (f s)) -> method_speaks I (s ← obj_get; f s).
Proof. intros Hf s t Hs Ht. by apply (Hf s Hs s). Qed.
Lemma method_if_speaks {S A} (I : S -> Prop) (b : bool) (m m' : objM busE S A) :
  method_speaks I m -> method_speaks I m' -> method_speaks I (if b then m else m').
Proof. by destruct b. Qed.

(** A call on an object the caller holds. *)
Lemma speaks_obj_call {S A} (I : S -> Prop) (m : objM busE S A) s :
  method_speaks I m -> I s -> speaks (fun x => I x.2) (obj_call m s).
Proof.
  intros Hm Hs t Ht. rewrite run_obj_call. destruct (Hm s t Hs Ht) as [H1 H2].
  destruct (run (m s) t) as [[[a|e] s1] t1]; cbn [fst snd] in *; (split; [done|]).
  - by intros ? [= <-].
  - done.
Qed.

Context `{!WordBus}.

Lemma speaks_read (Q : Z -> Prop) c r :
  within lo hi c -> 0 <= r < 32 -> (forall v, is_u 32 v -> Q v) -> speaks Q (reg_read c r).
Proof.
  intros Hc Hr HQ t Ht. unfold reg_read, bus_read. rewrite run_call. cbn [handle trace_handler].
  destruct (word_read t _ Ht (Hc r Hr)) as (v & -> & Hv). split.
  - apply word_trace_snoc. split; [done|]. exact (Hc r Hr).
  - intros a [= <-]. by apply HQ.
Qed.

Lemma speaks_read_bind {B} (Q : B -> Prop) c r f :
  within lo hi c -> 0 <= r < 32 -> (forall v, is_u 32 v -> speaks Q (f v)) ->
  speaks Q (reg_read c r ≫= f).
Proof. intros Hc Hr. by apply speaks_bind, speaks_read. Qed.

Lemma speaks_write (Q : unit -> Prop) c r d :
  within lo hi c -> 0 <= r < 32 -> is_u 32 d -> Q tt -> speaks Q (reg_write c r d).
Proof.
  intros Hc Hr Hd HQ t Ht. unfold reg_write, bus_write. rewrite run_call. cbn [handle trace_handler].
  split; [|by intros []]. apply word_trace_snoc. split; [done|]. split; [exact (Hc r Hr)|done].
Qed.
End Words.
Arguments WordBus lo hi D : clear implicits.

(** ** Automation

    [speak] runs through a driver: reads bind a word, other calls anything. *)
Create HintDb speak.
#[export] Hint Resolve speaks_throw method_ret_speaks method_fail_speaks : speak.
#[export] Hint Resolve set_bit_is_u clear_bit_is_u : speak.
#[export] Hint Extern 1 (speaks _ _ _ (mret _)) => apply speaks_ret; auto : speak.
#[export] Hint Extern 1 (speaks _ _ _ (bus_sleep _)) => apply speaks_sleep; auto : speak.
#[export] Hint Extern 1 (speaks _ _ _ (reg_read _ _)) =>
  apply speaks_read; [assumption|auto|reg_bounds|auto] : speak.
#[export] Hint Extern 1 (speaks _ _ _ (reg_write _ _ _)) =>
  apply speaks_write; [auto|reg_bounds| |auto] : speak.
#[export] Hint Extern 1 (speaks _ _ _ (mbind _ (reg_read _ _))) =>
  apply speaks_read_bind; [assumption|auto|reg_bounds|intros ? ?] : speak.
#[export] Hint Extern 2 (speaks _ _ _ (mbind _ _)) => apply speaks_bind_any; [|intros ?] : speak.
#[export] Hint Extern 2 (speaks _ _ _ (if _ then _ else _)) => apply speaks_if : speak.
#[export] Hint Extern 2 (is_u 32 (if ?b then _ else _)) => destruct b : speak.
#[export] Hint Extern 3 (is_u 32 _) => by unfold is_u : speak.
#[export] Hint Extern 1 (_ <= _ < _) => lia : speak.
#[export] Hint Extern 1 (method_speaks _ _ _ (mbind _ obj_get)) =>
  apply method_get_speaks; intros ? ? : speak.
#[export] Hint Extern 2 (method_speaks _ _ _ (mbind _ _)) =>
  apply method_bind_speaks; [|intros ?] : speak.
#[export] Hint Extern 2 (method_speaks _ _ _ (if _ then _ else _)) => apply method_if_speaks : speak.
#[export] Hint Extern 1 (method_speaks _ _ _ (obj_io _)) => apply method_io_speaks : speak.

Section Drivers.
Context {lo hi : Z} {D : Device} {WB : WordBus lo hi D}.
Abbreviation anything := (fun _ => True).
Abbreviation speaks_any := (speaks lo hi anything).

(** ** The MDIO and MAC drivers *)
Lemma wait_loop_speaks c m f : within lo hi c -> speaks_any (wait_loop c m f).
Proof. intros Hc. revert f. induction m as [|m IH]; intros f; cbn [wait_loop]; auto 10 with speak. Qed.

Lemma mdio_read_speaks c p r b :
  within lo hi c -> is_u 32 p -> is_u 32 r -> speaks_any (mdio_read c p r b).
Proof.
  intros Hc Hp Hr. pose proof (fun m f => wait_loop_speaks c m f Hc).
  unfold mdio_read, wait_for_op_complete. auto 20 with speak.
Qed.

Lemma mdio_write_speaks c p r d :
  within lo hi c -> is_u 32 p -> is_u 32 r -> is_u 32 d -> speaks_any (mdio_write c p r d).
Proof.
  intros Hc Hp Hr Hd. pose proof (fun m f => wait_loop_speaks c m f Hc).
  unfold mdio_write, wait_for_op_complete. auto 20 with speak.
Qed.

Lemma wait_for_idle_speaks m rx tx :
  within lo hi (mac_regs_of m) -> speaks_any (wait_for_idle m rx tx).
Proof.
  intros Hc. unfold wait_for_idle.
  assert (forall n b, speaks_any (idle_loop (mac_regs_of m) rx tx n b)).
  { intros n. induction n as [|n IH]; intros b; cbn [idle_loop]; auto 10 with speak. }
  auto with speak.
Qed.

(** ** [rmii_ethernet] *)
Definition word_mac (e : rmii_ethernet) : Prop := mac_within lo hi e /\ is_u 32 (_phy_address e).
Abbreviation words_kept := (method_speaks lo hi word_mac).

Lemma on_mac_speaks {A} (f : rmii_mac_comp -> io busE A) :
  (forall m, within lo hi (mac_regs_of m) -> within lo hi (RmiiMac._mdio m) -> speaks_any (f m)) ->
  words_kept (on_mac f).
Proof.
  intros Hf. unfold on_mac. apply method_get_speaks. intros e [[H1 H2] _].
  by apply method_io_speaks, Hf.
Qed.

Lemma read_phy_speaks p r : is_u 32 p -> is_u 32 r -> words_kept (read_phy p r).
Proof.
  intros Hp Hr. unfold read_phy. apply method_bind_speaks; [|intros []; auto with speak].
  apply on_mac_speaks. intros. by apply mdio_read_speaks.
Qed.

Lemma find_phy_speaks : words_kept find_phy_address.
Proof.
  unfold find_phy_address.
  assert (H : forall n i, 0 <= i -> i + Z.of_nat n < 2 ^ 32 -> words_kept (find_phy_loop n i)).
  { intros n. induction n as [|n IH]; intros i Hi Hn; cbn [find_phy_loop]; [auto with speak|].
    apply method_bind_speaks; [by apply read_phy_speaks; unfold is_u; lia|].
    intros [d|]; [|auto with speak].
    apply method_if_speaks; [|apply IH; lia].
    apply method_bind_speaks; [|auto with speak].
    apply method_modify_speaks. intros e [He _]. split; [done|]. unfold is_u. cbn. lia. }
  by apply H.
Qed.

Lemma is_complete_speaks : words_kept is_autonegotiation_complete.
Proof.
  unfold is_autonegotiation_complete. apply method_get_speaks. intros e [_ He].
  apply method_bind_speaks; [by apply read_phy_speaks|]. intros [d|]; auto with speak.
Qed.

Lemma restart_word : is_u 32 restart_negotiation_word.
Proof. apply (is_u_mono 16); [apply to_u16_range|lia]. Qed.

Lemma phy_autonegotiate_speaks fuel : words_kept (phy_autonegotiate fuel).
Proof.
  pose proof is_complete_speaks as Hc.
  assert (forall n k, words_kept (autonegotiate_loop n k)).
  { intros n k. induction n as [|n IH]; cbn [autonegotiate_loop]; auto 10 with speak. }
  unfold phy_autonegotiate. apply method_bind_speaks; [done|]. intros b.
  apply method_if_speaks; [auto with speak|]. apply method_get_speaks. intros e [_ He].
  apply method_bind_speaks; [|auto 10 with speak].
  apply on_mac_speaks. intros m _ Hm. by apply mdio_write_speaks; [..|apply restart_word].
Qed.

Lemma set_rx_enable_speaks m b : within lo hi (mac_regs_of m) -> speaks_any (set_rx_enable m b).
Proof. intros. unfold set_rx_enable. auto 10 with speak. Qed.
Lemma set_tx_enable_speaks m b : within lo hi (mac_regs_of m) -> speaks_any (set_tx_enable m b).
Proof. intros. unfold set_tx_enable. auto 10 with speak. Qed.
Lemma get_tx_enable_speaks m : within lo hi (mac_regs_of m) -> speaks_any (get_tx_enable m).
Proof. intros. unfold get_tx_enable. auto 10 with speak. Qed.
Lemma mac_reset_speaks m : within lo hi (mac_regs_of m) -> speaks_any (RmiiMac.reset m).
Proof. intros. unfold RmiiMac.reset. auto 10 with speak. Qed.

(** Six bytes of an address as the driver writes them. *)
Lemma load_word l : Forall (is_u 8) l -> (length l <= 4)%nat -> is_u 32 (le_load l).
Proof. intros Hl Hn. apply (is_u_mono (8 * Z.of_nat (length l))); [by apply le_load_range|lia]. Qed.

Lemma mac_words addr :
  Forall (is_u 8) addr ->
  is_u 32 (le_load (take 4 addr)) /\ is_u 32 (le_load (take 2 (drop 4 addr))).
Proof.
  intros Ha. split; apply load_word; rewrite ?length_take; try lia.
  - by apply Forall_take.
  - by apply Forall_take, Forall_drop.
Qed.

Lemma mac_source_speaks m addr : Forall (is_u 8) addr -> within lo hi (mac_regs_of m) ->
  speaks_any (RmiiMac.set_source_mac m addr).
Proof. intros [? ?]%mac_words Hm. unfold RmiiMac.set_source_mac. auto 10 with speak. Qed.
Lemma mac_destination_speaks m addr : Forall (is_u 8) addr -> within lo hi (mac_regs_of m) ->
  speaks_any (RmiiMac.set_destination_mac m addr).
Proof. intros [? ?]%mac_words Hm. unfold RmiiMac.set_destination_mac. auto 10 with speak. Qed.

(** One call on the MAC, then the rest of the method. *)
Ltac mac_done :=
  apply on_mac_speaks; intros;
  first [by apply set_rx_enable_speaks|by apply set_tx_enable_speaks|by apply get_tx_enable_speaks
    |by apply mac_reset_speaks|by apply wait_for_idle_speaks|by apply mac_source_speaks
    |by apply mac_destination_speaks].
Ltac mac_call := apply method_bind_speaks; [mac_done|intros ?].

Lemma init_speaks fuel b : words_kept (init fuel b).
Proof.
  unfold init. do 6 mac_call.
  apply method_bind_speaks; [apply find_phy_speaks|]. intros found.
  pose proof (phy_autonegotiate_speaks fuel). auto 10 with speak.
Qed.

Lemma set_source_mac_speaks addr : Forall (is_u 8) addr -> words_kept (set_source_mac addr).
Proof. intros Ha. unfold set_source_mac. do 7 mac_call. mac_done. Qed.

Lemma set_destination_mac_speaks addr :
  Forall (is_u 8) addr -> words_kept (set_destination_mac addr).
Proof.
  intros Ha. unfold set_destination_mac. mac_call.
  apply method_bind_speaks; [|intros _; mac_call].
  - apply method_if_speaks; [|apply method_ret_speaks]. do 2 mac_call. apply method_ret_speaks.
  - apply method_if_speaks; [mac_done|apply method_ret_speaks].
Qed.

Lemma set_source_ip_speaks ip : is_u 32 ip -> words_kept (set_source_ip ip).
Proof.
  intros Hip. unfold set_source_ip, RmiiMac.set_source_ip.
  apply on_mac_speaks. intros. auto with speak.
Qed.

Lemma counter_speaks c r : within lo hi c -> 0 <= r < 32 -> speaks_any (reg_read c r).
Proof. intros. by apply speaks_read. Qed.
Lemma low_counter_speaks c r :
  within lo hi c -> 0 <= r < 32 -> speaks_any (v ← reg_read c r; mret (u16 v)).
Proof. intros. apply speaks_read_bind; [done..|]. intros. by apply speaks_ret. Qed.

Lemma get_status_speaks : words_kept get_status.
Proof.
  unfold get_status. apply method_get_speaks. intros e [_ He].
  apply method_bind_speaks; [by apply read_phy_speaks|]. intros [d|]; [|auto with speak].
  apply method_bind_speaks; [by apply read_phy_speaks|]. intros [d'|]; [|auto with speak].
  do 4 (apply method_bind_speaks; [apply on_mac_speaks; intros m Hm _; by apply counter_speaks|intros ?]).
  do 2 (apply method_bind_speaks; [apply on_mac_speaks; intros m Hm _; by apply low_counter_speaks|intros ?]).
  apply method_ret_speaks.
Qed.

(** ** The UDP drivers *)
Definition framer_words (c : UdpFramer.config_t) : Prop :=
  is_u 32 (src_ip c) /\ is_u 32 (dst_ip c) /\ is_u 32 (src_port c) /\ is_u 32 (dst_port c).
Definition deframer_words (c : UdpDeframer.config_t) : Prop :=
  is_u 32 (ip c) /\ is_u 32 (broadcast_ip c) /\ is_u 32 (port c).

Lemma seed_word src dst seed : calculate_checksum_seed src dst = Ok seed -> is_u 32 seed.
Proof.
  unfold calculate_checksum_seed. generalize (foldl seed_step 0 (header_words (header_bytes src dst))).
  intros s. destruct (s <=? 0xFFFF); [|done]. intros [= <-]. apply wrap_is_u_mono. lia.
Qed.

Lemma framer_reset_speaks c : within lo hi c -> speaks_any (UdpFramer.reset c).
Proof. intros. unfold UdpFramer.reset. auto 10 with speak. Qed.
Lemma framer_enable_speaks c b : within lo hi c -> speaks_any (UdpFramer.set_enable c b).
Proof. intros. unfold UdpFramer.set_enable. auto 10 with speak. Qed.
Lemma framer_config_speaks c cfg :
  within lo hi c -> framer_words cfg -> speaks_any (UdpFramer.set_config c cfg).
Proof.
  intros Hc (H1 & H2 & H3 & H4). unfold UdpFramer.set_config.
  do 4 (apply speaks_bind_any; [auto with speak|intros _]).
  apply speaks_bind with (is_u 32); [|auto with speak].
  apply speaks_Ret. apply seed_word.
Qed.

Lemma deframer_reset_speaks c : within lo hi c -> speaks_any (UdpDeframer.reset c).
Proof. intros. unfold UdpDeframer.reset. auto 10 with speak. Qed.
Lemma deframer_enable_speaks c b : within lo hi c -> speaks_any (UdpDeframer.set_enable c b).
Proof. intros. unfold UdpDeframer.set_enable. auto 10 with speak. Qed.
Lemma deframer_config_speaks c cfg :
  within lo hi c -> deframer_words cfg -> speaks_any (UdpDeframer.set_config c cfg).
Proof. intros Hc (H1 & H2 & H3). unfold UdpDeframer.set_config. auto 10 with speak. Qed.

Lemma probe_speaks c : within lo hi c -> speaks_any (probe c).
Proof. intros. unfold probe. auto with speak. Qed.

(** A constructor that probes yields the object or throws. *)
Lemma probing_speaks {A} (Q : A -> Prop) c what this :
  within lo hi c -> Q this ->
  speaks lo hi Q (ok ← probe c; if negb ok then io_throw what else mret this).
Proof.
  intros Hc HQ. apply speaks_bind_any; [by apply probe_speaks|]. intros [];
    [by apply speaks_ret|apply speaks_throw].
Qed.

Lemma packet_counts_speaks b c : within lo hi c -> speaks_any (packet_counts b c).
Proof.
  intros. unfold packet_counts, get_valid_packet_count, get_dropped_packet_count.
  destruct b; auto 10 with speak.
Qed.

(** ** The configuration *)
Lemma ntohl_word x : is_u 32 (ntohl x).
Proof.
  apply is_u_bits; [lia| |].
  - unfold ntohl. rewrite !land_ff. repeat (apply Z.lor_nonneg; split);
      try apply Z.shiftl_nonneg; apply wrap_range; lia.
  - intros i Hi. unfold ntohl. rewrite !land_ff. autorewrite with zbits. by zcases.
Qed.

Lemma host_ip_speaks pton s : speaks lo hi (is_u 32) (Ret (host_ip pton s)).
Proof.
  apply speaks_Ret. unfold host_ip. intros a. destruct (value _); [|done].
  intros [= <-]. apply ntohl_word.
Qed.

(** The object after the calls so far. *)
Lemma speaks_call {A B} (m : objM busE rmii_ethernet A) e (Q : B -> Prop) f :
  words_kept m -> word_mac e -> (forall a e', word_mac e' -> speaks lo hi Q (f (a, e'))) ->
  speaks lo hi Q (obj_call m e ≫= f).
Proof.
  intros Hm He Hf. apply speaks_bind with (fun x => word_mac x.2).
  - by apply speaks_obj_call.
  - intros [a e'] He'. by apply Hf.
Qed.

Lemma configure_rmii_speaks pton fuel e :
  word_mac e -> speaks lo hi (fun x => word_mac x.2) (configure_rmii pton fuel e).
Proof.
  intros He. unfold configure_rmii.
  apply speaks_call; [apply set_destination_mac_speaks; by repeat constructor|done|].
  intros _ e1 He1. cbn beta iota.
  apply speaks_call; [apply set_source_mac_speaks; by repeat constructor|done|].
  intros _ e2 He2. cbn beta iota.
  apply speaks_bind with (is_u 32); [apply host_ip_speaks|]. intros ip Hip.
  apply speaks_call; [by apply set_source_ip_speaks|done|]. intros _ e3 He3. cbn beta iota.
  apply speaks_obj_call; [apply init_speaks|done].
Qed.

Lemma configure_framer_speaks pton c : within lo hi c -> speaks_any (configure_framer pton c).
Proof.
  intros Hc. unfold configure_framer.
  apply speaks_bind with (is_u 32); [apply host_ip_speaks|]. intros src Hsrc.
  apply speaks_bind with (is_u 32); [apply host_ip_speaks|]. intros dst Hdst. cbn zeta.
  apply speaks_bind_any; [by apply framer_reset_speaks|]. intros _.
  apply speaks_bind_any; [apply framer_config_speaks; [done|by split_and!]|]. intros _.
  by apply framer_enable_speaks.
Qed.

Lemma configure_deframer_speaks pton c : within lo hi c -> speaks_any (configure_deframer pton c).
Proof.
  intros Hc. unfold configure_deframer.
  apply speaks_bind with (is_u 32); [apply host_ip_speaks|]. intros src Hsrc.
  apply speaks_bind with (is_u 32); [apply host_ip_speaks|]. intros dst Hdst. cbn zeta.
  apply speaks_bind_any; [by apply deframer_reset_speaks|]. intros _.
  apply speaks_bind_any; [apply deframer_config_speaks; [done|by split_and!]|]. intros _.
  by apply deframer_enable_speaks.
Qed.
End Drivers.

(** ** [main]

    Its three components lie in [[0x100, 0x400)]. *)
Abbreviation design_trace := (word_trace 0x100 0x400).

Lemma in_design k id : 1 <= k <= 3 -> within 0x100 0x400 (RegComp (256 * k) id).
Proof. intros Hk r Hr. cbn [_offset]. rewrite wrap_small by (unfold is_u; lia). lia. Qed.

Definition word_fpga (f : fpga) : Prop :=
  word_mac (lo := 0x100) (hi := 0x400) (the_rmii f) /\ within 0x100 0x400 (the_deframer f).

Lemma rmii_in_design : word_mac (lo := 0x100) (hi := 0x400) (RmiiEthernet (rmii_mac_at 0x300) 0).
Proof. split; [split; apply (in_design 3); lia|by unfold is_u]. Qed.

Section Design.
Context {D : Device} {WB : WordBus 0x100 0x400 D}.

Lemma rmii_new_speaks :
  speaks 0x100 0x400 (word_mac (lo := 0x100) (hi := 0x400)) (rmii_ethernet_new 0x300).
Proof.
  unfold rmii_ethernet_new, rmii_mac_comp_new.
  apply speaks_bind with (fun mac => mac = rmii_mac_at 0x300).
  - apply probing_speaks; [apply (in_design 3); lia|done].
  - intros mac ->. apply speaks_ret, rmii_in_design.
Qed.

Lemma setup_speaks pton fuel :
  speaks 0x100 0x400 (fun o => forall f, o = Some f -> word_fpga f) (setup pton fuel).
Proof.
  unfold setup.
  change (COMP_NUM_TO_OFFSET UDP_IP_FRAMER_COMP_NUM) with 0x100.
  change (COMP_NUM_TO_OFFSET RMII_MAC_COMP_NUM) with 0x300.
  change (COMP_NUM_TO_OFFSET UDP_IP_DEFRAMER_COMP_NUM) with 0x200.
  apply speaks_bind with (within 0x100 0x400); [apply probing_speaks; apply (in_design 1); lia|].
  intros framer Hf. apply speaks_bind with (word_mac (lo := 0x100) (hi := 0x400)); [apply rmii_new_speaks|].
  intros rmii Hr. apply speaks_bind with (within 0x100 0x400); [apply probing_speaks; apply (in_design 2); lia|].
  intros deframer Hd. eapply speaks_bind; [by apply configure_rmii_speaks|].
  intros [ok e] He. cbn [snd] in He. cbn beta iota.
  apply speaks_if; [by apply speaks_ret|].
  apply speaks_bind_any; [by apply configure_framer_speaks|]. intros _.
  apply speaks_bind_any; [by apply configure_deframer_speaks|]. intros _.
  apply speaks_ret. by intros ? [= <-].
Qed.

(** *** The rest of [main], in every world with this bus *)
Context {W : Type} `{!Handler mainE W} {view : W -> trace} {rounds : W -> nat}
  {jobs : W -> list job} {MW : MainWorld D W view rounds jobs}.

Definition main_speaks {A} (Q : A -> Prop) (p : io mainE A) : Prop :=
  forall w, design_trace (view w) ->
    design_trace (view (run p w).2) /\ (forall a, (run p w).1 = Ok a -> Q a).

Lemma main_bind {A B} (P : A -> Prop) (Q : B -> Prop) p f :
  main_speaks P p -> (forall a, P a -> main_speaks Q (f a)) -> main_speaks Q (p ≫= f).
Proof.
  intros Hp Hf w Hw. rewrite run_bind. destruct (Hp w Hw) as [H1 H2].
  destruct (run p w) as [[a|e] w1]; cbn [fst snd] in *; [|by split].
  by apply Hf; [apply H2|].
Qed.

Lemma main_ret {A} (Q : A -> Prop) a : Q a -> main_speaks Q (mret a).
Proof. intros HQ w Hw. split; [done|]. by intros ? [= <-]. Qed.

Lemma main_bus {A} (Q : A -> Prop) p : speaks 0x100 0x400 Q p -> main_speaks Q (bus p).
Proof.
  intros Hp w Hw. destruct (run_on_bus p w) as (w' & Hr & Hv & _). unfold bus. rewrite Hr.
  cbn [fst snd]. rewrite Hv. by apply Hp.
Qed.

Lemma main_event {X} (Q : X -> Prop) (e : mainE X) :
  match e with MnBus _ => False | _ => True end -> (forall x, Q x) -> main_speaks Q (call_ok e).
Proof.
  intros He HQ w Hw. rewrite run_call_ok. pose proof (mw_other _ e w) as Hv.
  assert (E : view (handle e w).2 = view w) by (by destruct e).
  destruct (handle e w) as [x w']. cbn [fst snd] in *. rewrite E. split; [done|].
  intros a [= <-]. apply HQ.
Qed.

Lemma main_timer {A} (m : timerM A) tm : main_speaks (fun _ => True) (on_timer m tm).
Proof.
  intros w Hw. split; [|done]. unfold on_timer. rewrite run_prog_bind.
  destruct (run_on_clock (m tm) w) as (Hv & _).
  destruct (run (translate (m tm)) w) as [[[a|e] s'] w']; cbn [fst snd] in *;
    rewrite run_Ret; cbn [snd]; by rewrite Hv.
Qed.

Lemma print_speaks vf f : word_fpga f -> main_speaks word_fpga (print_mac_status vf f).
Proof.
  intros [Hr Hd]. unfold print_mac_status.
  eapply main_bind; [apply main_bus, speaks_obj_call; [apply get_status_speaks|exact Hr]|].
  intros [s e] He. cbn [snd] in He. cbn beta iota.
  eapply main_bind; [by apply main_bus, packet_counts_speaks|]. intros [v d] _. cbn beta iota.
  apply main_bind with (fun _ => True); [by apply main_event|]. intros _ _. by apply main_ret.
Qed.

Lemma main_loop_speaks vf fuel f tm : word_fpga f -> main_speaks word_fpga (main_loop vf fuel f tm).
Proof.
  revert f tm. induction fuel as [|fuel IH]; intros f tm Hf; cbn [main_loop].
  { intros w Hw. by split. }
  apply main_bind with (fun _ => True); [by apply main_event|]. intros [] _; [by apply main_ret|].
  apply main_bind with (fun _ => True); [by apply main_event|]. intros _ _.
  eapply main_bind; [apply main_timer|]. intros [[] tm1] _; cbn beta iota; [|by apply IH].
  eapply main_bind; [by apply print_speaks|]. intros f1 Hf1.
  eapply main_bind; [apply main_timer|]. intros [u tm2] _. cbn beta iota. by apply IH.
Qed.

Lemma main_rest_speaks vf fuel f : word_fpga f -> main_speaks (fun _ => True) (main_rest vf fuel f).
Proof.
  intros Hf. unfold main_rest.
  do 2 (apply main_bind with (fun _ => True); [by apply main_event|]; intros _ _).
  eapply main_bind; [apply main_timer|]. intros [u tm] _. cbn beta iota.
  eapply main_bind; [by apply main_loop_speaks|]. intros f1 Hf1.
  do 2 (apply main_bind with (fun _ => True); [by apply main_event|]; intros _ _).
  eapply main_bind; [by apply print_speaks|]. intros f2 Hf2. by apply main_ret.
Qed.

(** [main] writes words only, to registers of its components only. *)
Theorem main_words pton vf fuel init_fuel w :
  design_trace (view w) -> design_trace (view (run (main pton vf fuel init_fuel) w).2).
Proof.
  intros Hw. apply (main_bind (fun o => forall f, o = Some f -> word_fpga f) (fun _ => True));
    [apply main_bus, setup_speaks| |done].
  intros [f|] Hf; [by apply main_rest_speaks, Hf|by apply main_ret].
Qed.
End Design.
