(* ===== verification/Program.v ===== *)
(** * The whole program: [main] and [sig_handler] of [example/cpp/main.cpp]

    [main] from its first statement to its last: the signal handler is
    installed, the serial device opened and configured, the components set up
    and the threads run over the bytes of the serial line, and the register
    interface destroyed on the way out.  The world is the host: system calls,
    clock, threads and signals. *)

From S2P Require Import Prelude Effects Utils Logging RegInterface RegFile MacDevice Mdio RmiiMac.
From S2P Require Import RmiiEthernet UdpDevice UdpFramer UdpDeframer UartRegInterface UartLink.
From S2P Require Import Frame Timer Setup Main Words.

(** ** The host *)
Inductive hostE : Type -> Type :=
  | HSignal (signum : Z) : hostE unit
  | HOs {X : Type} (e : osE X) : hostE X
  | HClock {X : Type} (e : clockE X) : hostE X
  | HSleepFor (ns : Z) : hostE unit
  | HExitRequested : hostE bool
  | HJob (j : job) : hostE unit.

#[export] Instance host_os_interp : Interp osE hostE := fun X e => trigger (HOs e).

(** The events of Main.v, the register bus being the object [regs]. *)
Definition main_interp (regs : uart_reg_interface) : Interp mainE hostE := fun X e =>
  match e in mainE Y return prog hostE Y with
  | MnBus b => translate (uart_interp regs _ b)
  | MnClock c => trigger (HClock c)
  | MnSleepFor ns => trigger (HSleepFor ns)
  | MnExitRequested => trigger HExitRequested
  | MnJob j => trigger (HJob j)
  end.

(** ** The code *)

(** The two global atomics. *)
Record globals := Globals { the_log_level : log_level_t; global_exit_requested : bool }.
Definition globals_init : globals := Globals global_log_level false.

(** [file] is [__FILE__]. *)
Definition sig_handler (file : list Ascii.ascii) (signum : Z) (g : globals)
    : list stdio_op * globals :=
  (LOG_INFO (the_log_level g) file 310 ("Caught signal " +:+ dec signum)%string,
   Globals (the_log_level g) true).

Section Program.
Variables (inet_pton : string -> Z * Z) (valid_first : bool).
(** Constants of the platform. *)
Variables (k : serial_constants) (SIGINT B115200 : Z).

(** An exception that leaves [main] ends the program without running the
    destructor of [regs] (no handler is found, so the stack need not be
    unwound); both returns run it. *)
Definition program (fuel init_fuel : nat) : io hostE Z :=
  _ ← call_ok (HSignal SIGINT);
  regs ← translate (uart_new k "/dev/ttyUSB1" B115200);
  ret ← translate (Interp0 := main_interp regs) (main inet_pton valid_first fuel init_fuel);
  _ ← translate (uart_delete regs);
  mret ret.
End Program.

(** ** Worlds of the program

    The device on the serial line is the bridge with the design [D] behind it
    ([the_link]); [ready] says that the handler is installed, [rounds] how many
    more reads of the exit flag give [false] once it is. *)
Section World.
Context (SIGINT addr_bits : Z) (D : Device).

(** The design behind the bridge; accesses do not fail on this side. *)
#[export] Instance trace_apb : Apb trace := {|
  apb_read a t := let (r, t') := handle (BusRead a) t in
                  (match r with Ok v => v | Err _ => 0 end, t');
  apb_write a d t := (handle (BusWrite a d) t).2;
  apb_wait us t := (handle (BusSleep us) t).2
|}.

Class HostWorld (W : Type) `{!Handler hostE W} (the_link : W -> link (W := trace)) (ready : W -> bool)
    (rounds : W -> nat) (jobs : W -> list job) : Prop := {
  hw_os X (e : osE X) w :
    (handle (HOs e) w).1 = (handle (Handler := link_os addr_bits) e (the_link w)).1 /\
    the_link (handle (HOs e) w).2 = (handle (Handler := link_os addr_bits) e (the_link w)).2;
  hw_other X (e : hostE X) w :
    match e with HOs _ => True | _ => the_link (handle e w).2 = the_link w end;
  hw_ready X (e : hostE X) w :
    ready (handle e w).2 = match e with HSignal s => (s =? SIGINT) || ready w | _ => ready w end;
  hw_rounds X (e : hostE X) w :
    rounds (handle e w).2 = match e with HExitRequested => pred (rounds w) | _ => rounds w end;
  hw_jobs X (e : hostE X) w :
    jobs (handle e w).2 = jobs w ++ match e with HJob j => [j] | _ => [] end;
  hw_exit w : ready w = true -> (handle HExitRequested w).1 = (rounds w =? 0)%nat;
  hw_now w : 0 <= (handle (HClock ClockNow) w).1 < 2 ^ 62
}.
End World.
Arguments hw_os {_ _ _ _ _ _ _ _ _ _} X e w.
Arguments hw_other {_ _ _ _ _ _ _ _ _ _} X e w.
Arguments hw_ready {_ _ _ _ _ _ _ _ _ _} X e w.
Arguments hw_rounds {_ _ _ _ _ _ _ _ _ _} X e w.
Arguments hw_jobs {_ _ _ _ _ _ _ _ _ _} X e w.
Arguments hw_exit {_ _ _ _ _ _ _ _ _ _} w.
Arguments hw_now {_ _ _ _ _ _ _ _ _ _} w.

(** ** Lemmas *)
Section Run.
Context {SIGINT addr_bits : Z} {D : Device} {W : Type} `{!Handler hostE W}
  {the_link : W -> link (W := trace)} {ready : W -> bool} {rounds : W -> nat} {jobs : W -> list job}
  {HW : HostWorld SIGINT addr_bits D W the_link ready rounds jobs}.
Context (Haddr : 0x400 <= 2 ^ addr_bits) (Hbits : 0 <= addr_bits <= 31).
Context {WB : WordBus 0x100 0x400 D}.
#[local] Existing Instance link_os.

(** Nothing but the link changes, to [l]. *)
Definition only_link (w w' : W) (l : link (W := trace)) : Prop :=
  the_link w' = l /\ ready w' = ready w /\ rounds w' = rounds w /\ jobs w' = jobs w.

Lemma run_host_os {A} (p : prog osE A) w :
  exists w', run (translate p : prog hostE A) w =
      ((run (Handler0 := link_os addr_bits) p (the_link w)).1, w') /\
    only_link w w' (run (Handler0 := link_os addr_bits) p (the_link w)).2.
Proof.
  revert w. induction p as [a|X e c IH]; intros w; [by exists w|].
  cbn [translate interp host_os_interp trigger prog_bind run].
  destruct (hw_os X e w) as [E1 E2]. pose proof (hw_ready X (HOs e) w) as Ey.
  pose proof (hw_rounds X (HOs e) w) as Er. pose proof (hw_jobs X (HOs e) w) as Ej.
  rewrite app_nil_r in Ej. cbn beta iota in Ey, Er.
  destruct (handle (HOs e) w) as [x w1], (handle e (the_link w)) as [y l1]. cbn [fst snd] in *.
  subst x l1. destruct (IH y w1) as (w' & Hr & Hl & Hy & Hn & Hj). exists w'.
  split; [exact Hr|]. split_and!; [done|congruence..].
Qed.

(** *** One bus access over the line *)

(** In the range of the design the APB bus is the bus of the drivers. *)
Lemma apb_agrees X (e : busE X) (t : trace) :
  design_trace t -> design_trace (handle e t).2 ->
  handle (Handler := apb_bus addr_bits) e t = handle e t.
Proof.
  intros Ht Ht'. assert (Hin : forall a, 0x100 <= a < 0x400 -> bridge_addr addr_bits a = a).
  { intros a Ha. unfold bridge_addr. apply wrap_small. unfold is_u. lia. }
  destruct e as [a|a d|us]; cbn [handle trace_handler snd] in Ht'.
  - apply word_trace_snoc in Ht' as [_ Ha]. cbn [word_event] in Ha.
    cbn [handle apb_bus apb_read trace_apb trace_handler]. rewrite (Hin a Ha).
    destruct (word_read 0x100 0x400 t a Ht Ha) as (v & -> & Hv). by rewrite wrap_small.
  - apply word_trace_snoc in Ht' as [_ [Ha Hd]].
    cbn [handle apb_bus apb_write trace_apb trace_handler snd].
    by rewrite (Hin a Ha), (wrap_small 32 d), (word_write 0x100 0x400 t a d) by done.
  - done.
Qed.

(** The line carries the bus: in sync, and the trace of the bus is [t]. *)
Definition synced (w : W) (t : trace) : Prop :=
  in_sync (the_link w) /\ l_bus (the_link w) = t /\ ready w = true.

Abbreviation dev := (UartRegInterface 3).

Lemma run_bus_event X (e : busE X) w t :
  synced w t -> design_trace t -> design_trace (handle e t).2 ->
  exists w', run (main_interp dev X (MnBus e)) w = ((handle e t).1, w') /\
    synced w' (handle e t).2 /\ rounds w' = rounds w /\ jobs w' = jobs w.
Proof.
  intros (Hs & Hl & Hy) Ht Ht'. cbn [main_interp].
  destruct (run_host_os (uart_interp dev X e) w) as (w' & Hr & Hl' & Hy' & Hn' & Hj').
  destruct (link_simulates addr_bits Hbits X e (the_link w) t (conj Hs Hl)) as (E1 & E2 & E3).
  rewrite apb_agrees in E1, E3 by done.
  change (handle (Handler := via) e (the_link w)) with
    (run (Handler0 := link_os addr_bits) (uart_interp dev X e) (the_link w)) in E1, E2, E3.
  exists w'. rewrite Hr, E1. split; [done|]. split; [|done].
  split_and!; [by rewrite Hl'|by rewrite Hl'|congruence].
Qed.

(** *** The bus of the drivers beside the host

    [main] on the trace of the design's bus, with the host's state moving
    along; [main_outcome] is about such worlds. *)
Abbreviation beside := (trace * W)%type.

#[local] Instance beside_handler : Handler mainE beside := fun X e =>
  match e in mainE Y return beside -> Y * beside with
  | MnBus b => fun tw =>
      ((handle b tw.1).1, ((handle b tw.1).2, (run (main_interp dev _ (MnBus b)) tw.2).2))
  | MnClock c => fun tw => ((handle (HClock c) tw.2).1, (tw.1, (handle (HClock c) tw.2).2))
  | MnSleepFor ns => fun tw => (tt, (tw.1, (handle (HSleepFor ns) tw.2).2))
  | MnExitRequested => fun tw =>
      ((rounds tw.2 =? 0)%nat, (tw.1, (handle HExitRequested tw.2).2))
  | MnJob j => fun tw => (tt, (tw.1, (handle (HJob j) tw.2).2))
  end.

#[local] Instance beside_world :
  MainWorld D beside fst (fun tw => rounds tw.2) (fun tw => jobs tw.2).
Proof.
  split.
  - done.
  - by intros X [].
  - intros X [] [t w]; cbn [handle beside_handler fst snd]; rewrite ?hw_rounds; try done.
    destruct (run_host_os (uart_interp dev _ e) w) as (w' & Hr & _ & _ & Hn & _).
    cbn [main_interp]. by rewrite Hr.
  - intros X [] [t w]; cbn [handle beside_handler fst snd]; rewrite ?hw_jobs; try done.
    destruct (run_host_os (uart_interp dev _ e) w) as (w' & Hr & _ & _ & _ & Hj).
    cbn [main_interp]. by rewrite Hr, app_nil_r.
  - done.
  - intros [t w]. apply (hw_now w).
Qed.

Lemma beside_extends {A} (p : prog mainE A) (tw : beside) :
  exists evs, (run p tw).2.1 = tw.1 ++ evs.
Proof.
  apply (run_invariant (fun u : beside => exists evs, u.1 = tw.1 ++ evs)).
  - intros X e u [evs Hu]. destruct e; cbn [handle beside_handler fst snd]; try by exists evs.
    rewrite Hu. destruct e; cbn; eexists; by rewrite <- app_assoc.
  - exists []. by rewrite app_nil_r.
Qed.

Lemma design_trace_prefix t evs : design_trace (t ++ evs) -> design_trace t.
Proof. unfold word_trace. by intros [? _]%Forall_app. Qed.

Lemma synced_other {X} (e : hostE X) w t :
  match e with HOs _ => False | _ => True end -> synced w t -> synced (handle e w).2 t.
Proof.
  intros He (Hs & Hl & Hy). pose proof (hw_other X e w) as El. pose proof (hw_ready X e w) as Ey.
  assert (E : the_link (handle e w).2 = the_link w) by (by destruct e).
  unfold synced. rewrite E, Ey, Hy. split_and!; [done..|].
  destruct e; try done. apply orb_true_r.
Qed.

Ltac host_step e w t Hs :=
  pose proof (synced_other e w t I Hs); cbn [main_interp trigger run];
  cbn [handle beside_handler fst snd] in *;
  destruct (handle e w) as [x w']; cbn [fst snd] in *.

(** A program that keeps to words and to the design runs over the line as it
    runs on the bus. *)
Lemma run_over_line {A} (p : prog mainE A) t w :
  synced w t -> design_trace t -> design_trace (run p (t, w)).2.1 ->
  run (translate (Interp0 := main_interp dev) p) w = ((run p (t, w)).1, (run p (t, w)).2.2) /\
  synced (run p (t, w)).2.2 (run p (t, w)).2.1.
Proof.
  revert t w. induction p as [a|X e c IH]; intros t w Hs Ht Hend; [done|].
  cbn [translate run] in *. rewrite run_prog_bind. unfold interp.
  destruct e as [X b|X cl|ns| |j].
  - cbn [handle beside_handler fst snd] in *.
    assert (Hb : design_trace (handle b t).2).
    { destruct (beside_extends (c (handle b t).1) ((handle b t).2, (run (main_interp dev X (MnBus b)) w).2))
        as [evs E]. rewrite E in Hend. by apply design_trace_prefix in Hend. }
    destruct (run_bus_event X b w t Hs Ht Hb) as (w' & Hr & Hs' & _). rewrite Hr in *.
    cbn [snd] in *. by apply IH.
  - host_step (HClock cl) w t Hs. by apply IH.
  - host_step (HSleepFor ns) w t Hs. destruct x. by apply IH.
  - pose proof (hw_exit w (proj2 (proj2 Hs))) as Hx. host_step HExitRequested w t Hs. subst x.
    by apply IH.
  - host_step (HJob j) w t Hs. destruct x. by apply IH.
Qed.

(** *** Opening and closing the line *)
Lemma open_line k name baud (l : link (W := trace)) :
  run (Handler0 := link_os addr_bits) (uart_new k name baud) l = (Ok (UartRegInterface 3), l).
Proof. reflexivity. Qed.

(** [main] over the line, between constructor and destructor. *)
Lemma run_program pton vf k baud fuel init_fuel w :
  in_sync (the_link w) -> design_trace (l_bus (the_link w)) ->
  exists w1 w2,
    the_link w1 = the_link w /\ rounds w1 = rounds w /\ jobs w1 = jobs w /\
    let m := run (main pton vf fuel init_fuel) (l_bus (the_link w), w1) in
    run (program pton vf k SIGINT baud fuel init_fuel) w = (m.1, w2) /\
    in_sync (the_link w2) /\ l_bus (the_link w2) = m.2.1 /\ jobs w2 = jobs m.2.2.
Proof.
  intros Hs Ht. unfold program. set (w0 := (handle (HSignal SIGINT) w).2).
  destruct (run_host_os (uart_new k "/dev/ttyUSB1" baud) w0) as (w1 & R1 & L1 & Y1 & N1 & J1).
  rewrite open_line in R1, L1. cbn [fst snd] in R1, L1.
  assert (El : the_link w1 = the_link w).
  { rewrite L1. exact (hw_other _ (HSignal SIGINT) w). }
  assert (Ey : ready w1 = true).
  { rewrite Y1. unfold w0. rewrite hw_ready. by rewrite Z.eqb_refl. }
  assert (Hs1 : synced w1 (l_bus (the_link w))) by (split_and!; [by rewrite El|by rewrite El|done]).
  destruct (run_over_line (main pton vf fuel init_fuel) (l_bus (the_link w)) w1 Hs1 Ht) as [Hm Hs2].
  { apply (main_words (view := fst) pton vf fuel init_fuel (l_bus (the_link w), w1)). exact Ht. }
  destruct (run (main pton vf fuel init_fuel) (l_bus (the_link w), w1)) as [r [t2 w2]] eqn:Er.
  cbn [fst snd] in *. destruct Hs2 as (S2 & B2 & _).
  destruct (run_host_os (uart_delete dev) w2) as (w3 & R3 & L3 & _ & _ & J3).
  change (run (Handler0 := link_os addr_bits) (uart_delete dev) (the_link w2)) with
    (Ok tt : result unit, the_link w2) in R3, L3. cbn [fst snd] in R3, L3.
  exists w1, (match r with Ok _ => w3 | Err _ => w2 end).
  rewrite Er. cbn zeta. cbn [fst snd].
  split; [done|]. split; [rewrite N1; exact (hw_rounds _ (HSignal SIGINT) w)|].
  split; [rewrite J1; unfold w0; rewrite hw_jobs; by rewrite app_nil_r|].
  split.
  - rewrite run_bind, run_call_ok. rewrite (surjective_pairing (handle (HSignal SIGINT) w)).
    fold w0. cbn beta iota. rewrite run_bind, R1. cbn beta iota.
    rewrite run_bind, Hm. destruct r as [v|e]; [|done]. cbn beta iota.
    by rewrite run_bind, R3.
  - destruct r as [v|e]; [|done]. rewrite L3. by split_and!.
Qed.
End Run.

(** ** Descriptors, on any host

    Nothing is assumed of the answers; [os_log] is the record of system calls. *)
Class HostLog (W : Type) `{!Handler hostE W} (os_log : W -> list os_event) : Prop := {
  hl_os X (e : osE X) w : os_log (handle (HOs e) w).2 = os_log w ++ [OsEv e (handle (HOs e) w).1];
  hl_other X (e : hostE X) w : match e with HOs _ => True | _ => os_log (handle e w).2 = os_log w end
}.

(** [main] returns 0 or 1. *)
Lemma main_value {W} `{!Handler mainE W} pton vf fuel init_fuel w v w' :
  run (main pton vf fuel init_fuel) w = (Ok v, w') -> v = 0 \/ v = 1.
Proof.
  unfold main. rewrite run_bind_Ok. intros (o & w1 & _ & Hr). destruct o as [f|].
  2: { rewrite run_ret in Hr. injection Hr as <- _. by right. }
  left. unfold main_rest in Hr.
  repeat (apply run_bind_Ok in Hr as (? & ? & _ & Hr);
          try match type of Hr with context [match ?x with (_, _) => _ end] => destruct x end).
  rewrite run_ret in Hr. by injection Hr as <- _.
Qed.

Section Log.
Context {W : Type} `{!Handler hostE W} {os_log : W -> list os_event} {HL : HostLog W os_log}.

#[local] Instance host_os_log : OsLog (Handler0 := via) W os_log.
Proof.
  intros X e w. unfold handle, via. cbn. pose proof (hl_os X e w) as E.
  by destruct (handle (HOs e) w).
Qed.

(** System calls of the class, on the host. *)
Lemma run_host_call {A} (p : prog osE A) w :
  run (translate p : prog hostE A) w = run (Handler0 := via) p w.
Proof. apply run_translate. Qed.

Lemma main_fds (regs : uart_reg_interface) {A} (p : prog mainE A) w :
  fd_log (os_log (run (translate (Interp0 := main_interp regs) p) w).2) = fd_log (os_log w).
Proof.
  rewrite (run_translate (Interp0 := main_interp regs)).
  apply (run_invariant (Handler0 := via) (fun w' => fd_log (os_log w') = fd_log (os_log w))); [|done].
  intros X e u Hu. unfold handle, via, interp. destruct e as [X b|X c|ns| |j]; cbn [main_interp].
  - rewrite run_host_call. by rewrite (uart_interp_fds (Handler0 := via)).
  - pose proof (hl_other X (HClock c) u) as E. cbn in *. destruct (handle _ u). cbn in *. by rewrite E.
  - pose proof (hl_other _ (HSleepFor ns) u) as E. cbn in *. destruct (handle _ u). cbn in *. by rewrite E.
  - pose proof (hl_other _ HExitRequested u) as E. cbn in *. destruct (handle _ u). cbn in *. by rewrite E.
  - pose proof (hl_other _ (HJob j) u) as E. cbn in *. destruct (handle _ u). cbn in *. by rewrite E.
Qed.
End Log.

(** ** Properties *)


(** C38. On any host, whatever the system calls answer.  When the constructor of
    [regs] throws, [program] ends there with that exception, and no descriptor was
    opened ("Failed to open device") or the one opened was closed again.  When the
    constructor returns, one descriptor was opened: if [main] returns, the exit
    value is 0 or 1 and that descriptor was closed, once; if an exception leaves
    [main], that descriptor is still open and no other was opened. *)
Theorem program_no_leak {W} `{!Handler hostE W} os_log `{!HostLog W os_log}
    pton vf k SIGINT baud fuel init_fuel w :
  let fds w' l := fd_log (os_log w') = fd_log (os_log w) ++ l in
  let outcome := run (program pton vf k SIGINT baud fuel init_fuel) w in
  let w1 := (handle (HSignal SIGINT) w).2 in
  match (run (translate (uart_new k "/dev/ttyUSB1" baud)) w1 : result _ * W) with
  | (Err e, w') =>
      outcome = (Err e, w') /\
      (e = Exn "Failed to open device" /\ fds w' [] \/
       exists fd, 0 <= fd /\ fds w' [FdOpen fd; FdClose fd])
  | (Ok regs, _) =>
      0 <= _fd regs /\
      match outcome with
      | (Ok v, w') => (v = 0 \/ v = 1) /\ fds w' [FdOpen (_fd regs); FdClose (_fd regs)]
      | (Err _, w') => fds w' [FdOpen (_fd regs)]
      end
  end.
Proof.
  cbn zeta. unfold program. rewrite run_bind, run_call_ok.
  pose proof (hl_other _ (HSignal SIGINT) w) as E0. cbn beta iota in E0.
  destruct (handle (HSignal SIGINT) w) as [[] w0]. cbn [fst snd] in *. cbn beta iota. rewrite <- E0.
  rewrite run_bind, run_host_call.
  pose proof (uart_new_fds (Handler0 := via) (OL := host_os_log) k "/dev/ttyUSB1" baud w0) as Hn.
  destruct (run (uart_new k "/dev/ttyUSB1" baud) w0) as [[regs|e] w1]; cbn [constructor_fds] in Hn.
  2: { split; [done|]. destruct Hn as [[-> Hn]|(fd & Hfd & Hn)]; [left|right; eauto]. by rewrite app_nil_r. }
  destruct Hn as [Hfd Hn]. split; [done|]. rewrite run_bind.
  pose proof (main_fds regs (main pton vf fuel init_fuel) w1) as Hm. rewrite Hn in Hm.
  destruct (run (translate _) w1) as [[v|e] w2] eqn:Er; cbn [snd] in Hm; [|done].
  rewrite (run_translate (Interp0 := main_interp regs)) in Er. apply main_value in Er.
  rewrite run_bind, run_host_call.
  destruct (uart_delete_fds (Handler0 := via) (OL := host_os_log) regs w2) as (w3 & R & L).
  rewrite R. cbn beta iota. rewrite run_ret. split; [done|]. by rewrite L, Hm, <- app_assoc.
Qed.

(** ** A host

    Ctrl-C is pressed after [p_quiet] reads of the exit flag; the signal is
    delivered when the handler is installed, and the handler runs at the next
    read. *)
Record process := Process {
  p_link : link (W := trace); p_globals : globals; p_catches : bool; p_quiet : nat;
  p_clock : Z; p_jobs : list job; p_stderr : list stdio_op
}.
Definition with_link (l : link (W := trace)) (p : process) : process :=
  Process l (p_globals p) (p_catches p) (p_quiet p) (p_clock p) (p_jobs p) (p_stderr p).

Definition linux_sigint : Z := 2.
Definition main_cpp : list Ascii.ascii := String.list_ascii_of_string "main.cpp".

(** A read of the exit flag, after the signal that is due. *)
Definition read_exit_flag (p : process) : bool * process :=
  let due := p_catches p && (p_quiet p =? 0)%nat && negb (global_exit_requested (p_globals p)) in
  let '(out, g) := if due then sig_handler main_cpp linux_sigint (p_globals p)
                   else ([], p_globals p) in
  (global_exit_requested g,
   Process (p_link p) g (p_catches p) (pred (p_quiet p)) (p_clock p) (p_jobs p) (p_stderr p ++ out)).

Section Process.
Context (addr_bits : Z) (D : Device).

#[export] Instance process_handler : Handler hostE process := fun X e =>
  match e in hostE Y return process -> Y * process with
  | HSignal s => fun p =>
      (tt, Process (p_link p) (p_globals p) ((s =? linux_sigint) || p_catches p) (p_quiet p)
             (p_clock p) (p_jobs p) (p_stderr p))
  | HOs e => fun p =>
      let (x, l) := handle (Handler := link_os addr_bits) e (p_link p) in (x, with_link l p)
  | HClock e => fun p =>
      (match e in clockE Y return Y with
       | ClockNow => p_clock p mod 2 ^ 62
       | SleepUntil _ => tt
       | Pause => tt
       end, p)
  | HSleepFor ns => fun p =>
      (tt, Process (p_link p) (p_globals p) (p_catches p) (p_quiet p) (p_clock p + ns) (p_jobs p)
             (p_stderr p))
  | HExitRequested => read_exit_flag
  | HJob j => fun p =>
      (tt, Process (p_link p) (p_globals p) (p_catches p) (p_quiet p) (p_clock p)
             (p_jobs p ++ [j]) (p_stderr p))
  end.

Definition p_rounds (p : process) : nat :=
  if global_exit_requested (p_globals p) then 0%nat else p_quiet p.

#[export] Instance process_world :
  HostWorld linux_sigint addr_bits D process p_link p_catches p_rounds p_jobs.
Proof.
  split.
  - intros X e p. cbn. by destruct (handle e (p_link p)).
  - intros X [] p; cbn; try done. unfold read_exit_flag. by destruct (_ && _).
  - intros X [] p; cbn; try done; [by destruct (handle _ _)|]. unfold read_exit_flag. by destruct (_ && _).
  - intros X [] p; cbn; try done; [by destruct (handle _ _)|].
    destruct p as [l [lv []] [] [|n] c j o]; done.
  - intros X [] p; cbn; rewrite ?app_nil_r; try done; [by destruct (handle _ _)|].
    unfold read_exit_flag. by destruct (_ && _).
  - intros [l [lv []] [] [|n] c j o]; try done.
  - intros p. apply (Z.mod_pos_bound (p_clock p) (2 ^ 62)). lia.
Qed.
End Process.

(** ** A design that answers everywhere *)
Definition answered (D : Device) : Device := {|
  dev_read t a := match dev_read t a with Ok v => Ok v | Err _ => Ok 0 end;
  dev_write _ _ _ := Ok tt
|}.

Lemma answered_regs D base n rdata `{!IsRegFile D base n rdata} :
  IsRegFile (answered D) base n rdata.
Proof.
  split; [exact (regs_base (D := D))| |done].
  intros t r Hr. cbn. by rewrite (regs_read (D := D)).
Qed.

#[export] Instance answered_mac : IsMac (answered design_device) 0x300 design_hw.
Proof. apply answered_regs, design_mac. Qed.
#[export] Instance answered_framer : IsFramer (answered design_device) 0x100 (fun _ => true).
Proof. apply answered_regs, design_framer. Qed.
#[export] Instance answered_deframer :
  IsDeframer (answered design_device) 0x200 example_deframer_hw.
Proof. apply answered_regs, design_deframer. Qed.
#[export] Instance answered_phys : IsPhyBus (answered design_device) 0x300 (fun _ => example_phys).
Proof.
  apply (mac_phy_bus (hw := design_hw)). apply engine_hw_engine; [lia..|exact example_phys_u16].
Qed.

(** Every register is a word after writes of words. *)
Lemma wdata_word base t r : design_trace t -> is_u 32 (wdata base t r).
Proof.
  unfold wdata. induction t as [|ev t IH] using rev_ind; intros Ht; [by unfold is_u|].
  rewrite foldl_snoc. apply word_trace_snoc in Ht as [Ht Hev].
  destruct ev as [a v|a d [[]|e]|us]; cbn [wdata_step]; try by apply IH.
  destruct (a =? _); [apply Hev|by apply IH].
Qed.

Lemma cat_bits_word l : (length l <= 32)%nat -> is_u 32 (cat_bits l).
Proof.
  intros Hl. apply (is_u_mono (Z.of_nat (length l))); [|lia]. clear Hl. unfold cat_bits.
  induction l as [|b l IH] using rev_ind; [by unfold is_u|]. rewrite foldl_snoc, length_app.
  cbn [length]. unfold is_u in *. rewrite Nat2Z.inj_add, Z.pow_add_r by lia. destruct b; cbn; lia.
Qed.

Lemma wrap_word n x : 0 <= n <= 32 -> is_u 32 (wrap n x).
Proof. intros. by apply wrap_is_u_mono. Qed.

Lemma upper_word x y : is_u 32 (Z.shiftr (wrap 32 x + 2 ^ 32 * wrap 16 y) 32).
Proof.
  rewrite Z.shiftr_div_pow2 by lia.
  pose proof (wrap_range 32 x ltac:(lia)) as Hx. pose proof (wrap_range 16 y ltac:(lia)) as Hy.
  unfold is_u in *. rewrite (Z.mul_comm (2 ^ 32)), Z.div_add, Z.div_small by lia. lia.
Qed.

#[export] Instance answered_words : WordBus 0x100 0x400 (answered design_device).
Proof.
  split; [|done]. intros t a Ht _. cbn [answered dev_read].
  assert (Z0 : is_u 32 0) by done.
  assert (W : forall base r, is_u 32 (wdata base t r)) by (intros; by apply wdata_word).
  destruct (dev_read (Device := design_device) t a) as [v|e] eqn:E; [|by exists 0].
  exists v. split; [done|]. revert E. cbn. unfold mac_rdata, framer_rdata, deframer_rdata, control_word,
    source_mac, destination_mac, src_ip_address.
  repeat case_match; intros [= <-]; subst;
    first [done|apply W|apply wrap_word; lia|apply upper_word|by apply cat_bits_word; cbn; lia
      |unfold is_u, C_COMPONENT_ID; lia].
Qed.

(** ** Witness *)
Definition example_constants : serial_constants :=
  SerialConstants 0x400 0x1000 0x800 0x1 0x2 0x8 0x20 0x40 0x80 0x100 0x100 0x40 0x30 0x30 0x80000000
    0x80 0x800 0x2 0x8 0x10 0x40 0x1 0x1 0x4 0x2000.
Definition B115200 : Z := 0x1002.

Definition started (quiet_reads : nat) : process :=
  Process (Link bridge_reset [] []) globals_init false quiet_reads 0 [] [].


(** A host that only has an operating system. *)
Definition os_host (O : Os) : Handler hostE (list os_event) := fun X e =>
  match e in hostE Y return list os_event -> Y * list os_event with
  | HSignal _ => fun t => (tt, t)
  | HOs e => fun t => handle (Handler := @os_handler O) e t
  | HClock c => fun t =>
      (match c in clockE Y return Y with ClockNow => 0 | SleepUntil _ => tt | Pause => tt end, t)
  | HSleepFor _ => fun t => (tt, t)
  | HExitRequested => fun t => (true, t)
  | HJob _ => fun t => (tt, t)
  end.
Lemma os_host_log (O : Os) : HostLog (Handler0 := os_host O) (list os_event) (fun t => t).
Proof. split; [done|]. by intros X []. Qed.

(** A device that answers every read with the same bytes is not the framer. *)
Lemma program_no_leak_witness :
  let x := run (Handler0 := os_host example_os)
    (program example_pton true example_constants linux_sigint B115200 60 0) [] in
  x.1 = Err (Exn "Failed to probe UDP IP framercomp") /\ fd_log x.2 = [FdOpen 3].
Proof.
  cbn zeta. split; [vm_compute; reflexivity|].
  pose proof (program_no_leak (Handler0 := os_host example_os) (fun t => t)
    (HostLog0 := os_host_log example_os) example_pton true example_constants linux_sigint B115200
    60 0 []) as H.
  vm_compute in H. apply H.
Defined.

(** Two status rounds and a Ctrl-C: the exit code, an empty line, and what the
    handler did on [stderr]. *)
Example program_runs :
  let x := run (Handler0 := process_handler 10 (answered design_device))
    (program example_pton true example_constants linux_sigint B115200 60 0) (started 2) in
  x.1 = Ok 0 /\ l_tx (p_link x.2) = [] /\
  p_stderr x.2 = LOG_INFO INFO main_cpp 310 "Caught signal 2".
Proof. vm_compute. done. Qed.

(** A signal between two calls of a [LOG_IMPL] of the interrupted thread: the
    stream's lock is recursive, so the handler's line lands inside the other. *)
Example signal_splits_line :
  let c := LogCall INFO INFO main_cpp 140 "Exit" in
  let ops := take 2 (line_ops c) ++ (sig_handler main_cpp linux_sigint globals_init).1 ++
             drop 2 (line_ops c) in
  written (log_exec (replicate 10 0%nat) ([ops], Stream None "")).2 =
    (log_prefix c +:+ line_text (LogCall INFO INFO main_cpp 310 "Caught signal 2") +:+
     "Exit" +:+ log_suffix)%string.
Proof. vm_compute. reflexivity. Qed.
