(* ===== verification/Threads.v ===== *)
(** * The two threads: [send_thread] and [receive_thread] of [example/cpp/main.cpp]

    The data path from the PRBS generator through datagrams to the verifier, and
    the thread loops around it.  Log output is left out, with the floating
    point it prints; a read of [errno] or of the clock that only feeds a log
    line is kept. *)

From S2P Require Import Prelude Effects Utils Prbs PrbsVerifier Timer TokenBucket UdpConnection.

(** ** Bytes as [char] (signed, eight bits) *)
Definition to_char (v : Z) : Z := let b := u8 v in if b <? 128 then b else b - 256.
(** [char] to [uint32_t]: sign extension. *)
Definition u32_of_char (c : Z) : Z := u32 c.
(** The octet on the wire. *)
Definition octet (c : Z) : Z := u8 c.

(** [std::generate] over a packet of [n] bytes. *)
Fixpoint gen_chars (n : nat) : stM prbs (list Z) :=
  match n with
  | O => mret []
  | S n' => w ← get_word 8; cs ← gen_chars n'; mret (to_char w :: cs)
  end.

(** [for (i = 0; i < bytes_received; ++i) verifier.push_bits(recv_buffer[i], 8)]. *)
Definition push_chars (cs : list Z) : stM verifier unit := push_all (u32_of_char <$> cs) 8.

(** ** The threads' environment *)
Inductive threadE : Type -> Type :=
  | ThClock {X : Type} (e : clockE X) : threadE X
  | ThSock {X : Type} (e : sockE X) : threadE X
  | ThExitRequested : threadE bool
  | ThPoll (sd timeout_ms : Z) : threadE Z.

#[export] Instance clock_interp : Interp clockE threadE := fun X e => trigger (ThClock e).
#[export] Instance sock_interp : Interp sockE threadE := fun X e => trigger (ThSock e).

(** A method on a member of the thread's state. *)
Definition member {E S A} `{!Interp E threadE} (m : objM E S A) (s : S) : io threadE (A * S) :=
  prog_bind (translate (m s)) (fun x => match x with
    | (Ok a, s') => Ret (Ok (a, s'))
    | (Err e, _) => Ret (Err e)
    end).
Definition sock {A} (p : io sockE A) : io threadE A := translate p.
Definition clock {A} (p : io clockE A) : io threadE A := translate p.
Definition pure_member {S A} (m : stM S A) (s : S) : io threadE (A * S) :=
  match m s with
  | (Ok a, s') => Ret (Ok (a, s'))
  | (Err e, _) => Ret (Err e)
  end.

Section Threads.
Context (P : platform) (EINTR : Z).

Definition packet_length : nat := 1400.
Definition status_interval : Z := 10 * 1000 * 1000 * 1000.
Definition ms : Z := 1000 * 1000.

(** ** Sending *)
Record send_state := SendState {
  prbs_generator : prbs;
  bucket : token_bucket;
  send_timer : timer;
  total_sent : Z;
  interval_sent : Z
}.

Definition send_iteration (spin_fuel : nat) (sd : Z) (st : send_state) : io threadE send_state :=
  '(packet, gen) ← pure_member (gen_chars packet_length) (prbs_generator st);
  '(_, tb) ← member (acquire spin_fuel) (bucket st);
  ret ← sock (send sd (octet <$> packet));
  let total := u64 (total_sent st + 1) in
  let interval := u64 (interval_sent st + 1) in
  _ ← (if ret <=? 0 then _ ← call_ok (ThSock Errno); mret tt else mret tt);
  '(is_expired, tm) ← member expired (send_timer st);
  if (is_expired : bool) then
    '(_, tm) ← member (elapsed ms) tm;
    '(_, tm) ← member (restart status_interval) tm;
    mret (SendState gen tb tm total 0)
  else mret (SendState gen tb tm total interval).

Fixpoint send_loop (fuel spin_fuel : nat) (sd : Z) (st : send_state) : io threadE send_state :=
  match fuel with
  | O => io_fail OutOfFuel
  | S fuel' =>
      exit ← call_ok ThExitRequested;
      if (exit : bool) then mret st
      else st' ← send_iteration spin_fuel sd st; send_loop fuel' spin_fuel sd st'
  end.

(** The constructors of the locals; the rate is [data_rate_bps / (1400 * 8)]. *)
Definition send_thread (fuel spin_fuel : nat) (src_ip dst_ip : string)
    (src_port dst_port data_rate_bps : Z) : io threadE send_state :=
  udp ← sock (udp_new P);
  _ ← sock (set_send_buffer_size P udp (4 * 1024 * 1024));
  _ ← sock (bind P udp src_ip src_port);
  _ ← sock (connect P udp dst_ip dst_port);
  gen ← Ret (prbs_new main_taps 0 true);
  let packets_per_sec :=
    double_div (double_of_Z data_rate_bps) (double_of_Z (Z.of_nat packet_length * 8)) in
  tb ← clock token_bucket_new;
  tb ← Ret (set_rate packets_per_sec tb);
  '(_, tm) ← member (restart status_interval) timer_default;
  st ← send_loop fuel spin_fuel udp (SendState gen tb tm 0 0);
  _ ← sock (udp_delete udp);
  mret st.

(** ** Receiving *)
Record receive_state := ReceiveState {
  the_verifier : verifier;
  recv_ip : string;
  recv_port : Z;
  num_received_packets : Z;
  num_received_bytes : Z;
  receive_timer : timer
}.

Definition max_packet_length_bytes : Z := 1500.

(** The [try] block: [None] when an exception was caught ([break]).  Failed
    assertions and undefined behaviour are not exceptions. *)
Definition receive_packet (sd : Z) (st : receive_state) : io threadE (option receive_state) :=
  prog_bind (sock (recv_from P sd (recv_ip st) (recv_port st) max_packet_length_bytes)) (fun r =>
    match r with
    | Err (Exn _) => Ret (Ok None)
    | Err e => Ret (Err e)
    | Ok (received, bytes, ip, port) =>
        if 0 <? received then
          match push_chars (to_char <$> take (Z.to_nat received) bytes) (the_verifier st) with
          | (Ok _, v) =>
              Ret (Ok (Some (ReceiveState v ip port (u64 (num_received_packets st + 1))
                              (u64 (num_received_bytes st + received)) (receive_timer st))))
          | (Err (Exn _), _) => Ret (Ok None)
          | (Err e, _) => Ret (Err e)
          end
        else Ret (Ok (Some (ReceiveState (the_verifier st) ip port (num_received_packets st)
                           (num_received_bytes st) (receive_timer st))))
    end).

Definition receive_status (st : receive_state) : io threadE receive_state :=
  '(is_expired, tm) ← member expired (receive_timer st);
  if (is_expired : bool) then
    '(_, tm) ← member (elapsed ms) tm;
    '(_, tm) ← member (restart status_interval) tm;
    mret (ReceiveState (the_verifier st) (recv_ip st) (recv_port st) (num_received_packets st) 0 tm)
  else mret (ReceiveState (the_verifier st) (recv_ip st) (recv_port st) (num_received_packets st)
               (num_received_bytes st) tm).

(** One iteration: [None] leaves the loop. *)
Definition receive_iteration (sd : Z) (st : receive_state) : io threadE (option receive_state) :=
  ret ← call_ok (ThPoll sd 1000);
  if ret <? 0 then
    errno ← call_ok (ThSock Errno);
    if errno =? EINTR then mret (Some st)
    else
      _ ← call_ok (ThSock Errno);
      st ← receive_status st; mret (Some st)
  else if 0 <? ret then
    r ← receive_packet sd st;
    match r with
    | None => mret None
    | Some st => st ← receive_status st; mret (Some st)
    end
  else st ← receive_status st; mret (Some st).

(** How the loop ended: by [break], with [false], or by the exit flag, with
    [true].  After [break] the locals are only destroyed; the state returned is
    that of the last complete iteration. *)
Fixpoint receive_loop (fuel : nat) (sd : Z) (st : receive_state) : io threadE (receive_state * bool) :=
  match fuel with
  | O => io_fail OutOfFuel
  | S fuel' =>
      exit ← call_ok ThExitRequested;
      if (exit : bool) then mret (st, true)
      else
        r ← receive_iteration sd st;
        match r with
        | None => mret (st, false)
        | Some st' => receive_loop fuel' sd st'
        end
  end.

Definition receive_thread (fuel : nat) (ip : string) (port : Z) : io threadE (receive_state * bool) :=
  udp ← sock (udp_new P);
  _ ← sock (set_recv_buffer_size P udp (4 * 1024 * 1024));
  _ ← sock (bind P udp ip port);
  _ ← sock (set_non_blocking P udp true);
  v ← Ret (verifier_new main_taps true);
  '(_, tm) ← member (restart status_interval) timer_default;
  st ← receive_loop fuel udp (ReceiveState v ""%string 0 0 0 tm);
  _ ← sock (udp_delete udp);
  mret st.
End Threads.

(** ** Lemmas *)
Lemma octet_to_char w : octet (to_char w) = u8 w.
Proof.
  unfold octet, to_char. pose proof (wrap_range 8 w ltac:(lia)) as Hw. unfold is_u in Hw.
  destruct (Z.ltb_spec (u8 w) 128); [by apply wrap_wrap|].
  unfold wrap at 1. symmetry. apply Z.mod_unique_pos with (-1); lia.
Qed.

Lemma char_word w : wrap 8 (u32_of_char (to_char w)) = u8 w.
Proof.
  unfold u32_of_char. rewrite <- (octet_to_char w). unfold octet. zbits.
Qed.

Lemma to_char_octet c : -128 <= c < 128 -> to_char (octet c) = c.
Proof.
  intros Hc. unfold to_char, octet. rewrite wrap_wrap by lia.
  destruct (Z.le_gt_cases 0 c).
  - rewrite (wrap_small 8 c) by (unfold is_u; lia). by rewrite (proj2 (Z.ltb_lt _ _)) by lia.
  - assert (u8 c = c + 256) as ->.
    { unfold wrap. symmetry. apply Z.mod_unique_pos with (-1); lia. }
    rewrite (proj2 (Z.ltb_ge _ _)) by lia. lia.
Qed.

Lemma to_char_range w : -128 <= to_char w < 128.
Proof.
  unfold to_char. pose proof (wrap_range 8 w ltac:(lia)) as Hw. unfold is_u in Hw.
  destruct (Z.ltb_spec (u8 w) 128); lia.
Qed.

(** The packets are the generator's words. *)
Lemma gen_chars_words n g :
  gen_chars n g =
    match get_words n 8 g with
    | (Ok ws, g') => (Ok (to_char <$> ws), g')
    | (Err e, g') => (Err e, g')
    end.
Proof.
  revert g. induction n as [|n IH]; intros g; [done|]. cbn [gen_chars get_words]. st_simpl.
  destruct (get_word 8 g) as [[w|e] g1]; [|done]. rewrite IH.
  by destruct (get_words n 8 g1) as [[ws|e] g2].
Qed.

Lemma get_words_length n k g ws g' : get_words n k g = (Ok ws, g') -> length ws = n.
Proof.
  revert g ws. induction n as [|n IH]; intros g ws; cbn [get_words]; st_simpl; [by intros [= <- _]|].
  destruct (get_word k g) as [[w|e] g1]; [|discriminate].
  destruct (get_words n k g1) as [[ws'|e] g2] eqn:E; [|discriminate].
  intros [= <- <-]. cbn. f_equal. eapply IH, E.
Qed.

Lemma gen_chars_app m n g :
  gen_chars (m + n) g =
    match gen_chars m g with
    | (Ok cs, g1) => match gen_chars n g1 with
                     | (Ok cs', g2) => (Ok (cs ++ cs'), g2)
                     | (Err e, g2) => (Err e, g2)
                     end
    | (Err e, g1) => (Err e, g1)
    end.
Proof.
  revert g. induction m as [|m IH]; intros g; cbn [gen_chars Nat.add]; st_simpl.
  - by destruct (gen_chars n g) as [[cs|e] g2].
  - destruct (get_word 8 g) as [[w|e] g1]; [|done]. rewrite IH.
    destruct (gen_chars m g1) as [[cs|e] g2]; [|done].
    by destruct (gen_chars n g2) as [[cs'|e] g3].
Qed.

Lemma push_chars_app cs1 cs2 v :
  push_chars (cs1 ++ cs2) v =
    match push_chars cs1 v with
    | (Ok _, v') => push_chars cs2 v'
    | (Err e, v') => (Err e, v')
    end.
Proof. unfold push_chars. by rewrite fmap_app, push_all_app. Qed.

(** *** What a thread sends *)

(** The datagrams an event hands to [::send]. *)
Definition sent_by {X} (e : threadE X) : list (list Z) :=
  match e with
  | ThSock e' => match e with
                 | ThSock (SysSend _ data) => [data]
                 | _ => []
                 end
  | _ => []
  end.

(** A log of the datagrams sent in a world. *)
Class SendLog (W : Type) `{!Handler threadE W} (sent : W -> list (list Z)) : Prop :=
  sent_step X (e : threadE X) w : sent (handle e w).2 = sent w ++ sent_by e.

(** [n] packets in a row. *)
Fixpoint packets (n : nat) : stM prbs (list (list Z)) :=
  match n with
  | O => mret []
  | S n' => cs ← gen_chars packet_length; ds ← packets n'; mret ((octet <$> cs) :: ds)
  end.

Section SendLog.
Context {W : Type} `{!Handler threadE W} (sent : W -> list (list Z)) `{!SendLog W sent}.

Lemma clock_sends_nothing {A} (p : prog clockE A) w : sent (run (translate p) w).2 = sent w.
Proof.
  revert w. induction p as [a|X e k IH]; intros w; [done|].
  cbn [translate interp clock_interp trigger prog_bind run].
  pose proof (sent_step X (ThClock e) w) as Hs.
  destruct (handle (ThClock e) w) as [x w']. cbn [snd] in Hs. rewrite IH, Hs. apply app_nil_r.
Qed.

Lemma member_clock_Ok {S A} (m : objM clockE S A) s x w w' :
  run (member m s) w = (Ok x, w') -> sent w' = sent w.
Proof.
  unfold member. rewrite run_prog_bind. pose proof (clock_sends_nothing (m s) w) as Hs.
  destruct (run (translate (m s)) w) as [[[a|e] s'] w1]; cbn; [|discriminate].
  intros [= _ <-]. exact Hs.
Qed.

Lemma call_ok_sent {X} (e : threadE X) x w w' :
  run (call_ok e) w = (Ok x, w') -> sent w' = sent w ++ sent_by e.
Proof.
  rewrite run_call_ok. pose proof (sent_step X e w) as Hs.
  destruct (handle e w) as [y w1]. by intros [= _ <-].
Qed.

Lemma send_sent sd data ret w w' :
  run (sock (send sd data)) w = (Ok ret, w') -> sent w' = sent w ++ [data].
Proof.
  unfold sock, send, sys, call_ok. cbn [translate interp sock_interp trigger prog_bind run].
  pose proof (sent_step Z (ThSock (SysSend sd data)) w) as Hs.
  destruct (handle (ThSock (SysSend sd data)) w) as [y w1]. by intros [= _ <-].
Qed.

Lemma send_iteration_Ok spin sd st st' w w' :
  run (send_iteration spin sd st) w = (Ok st', w') ->
  exists cs, gen_chars packet_length (prbs_generator st) = (Ok cs, prbs_generator st') /\
    sent w' = sent w ++ [octet <$> cs] /\ total_sent st' = u64 (total_sent st + 1).
Proof.
  unfold send_iteration.
  intros ([cs gen] & w1 & H1 & H)%run_bind_Ok. cbn beta iota in H.
  unfold pure_member in H1.
  destruct (gen_chars packet_length (prbs_generator st)) as [[cs0|e] gen0] eqn:Eg; [|discriminate].
  injection H1 as -> -> <-.
  apply run_bind_Ok in H as ([[] tb] & w2 & H2 & H). cbn beta iota in H. apply member_clock_Ok in H2.
  apply run_bind_Ok in H as (ret & w3 & H3 & H). apply send_sent in H3. cbn zeta in H.
  apply run_bind_Ok in H as ([] & w4 & H4 & H).
  assert (S4 : sent w4 = sent w3).
  { destruct (ret <=? 0); [|by injection H4 as <-].
    apply run_bind_Ok in H4 as (x & w5 & H5 & H4). apply call_ok_sent in H5.
    injection H4 as <-. rewrite H5. apply app_nil_r. }
  apply run_bind_Ok in H as ([ex tm] & w5 & H5 & H). apply member_clock_Ok in H5. cbn beta iota in H.
  exists cs. destruct ex.
  - apply run_bind_Ok in H as ([x tm1] & w6 & H6 & H). apply member_clock_Ok in H6. cbn beta iota in H.
    apply run_bind_Ok in H as ([x' tm2] & w7 & H7 & H). apply member_clock_Ok in H7. cbn beta iota in H.
    injection H as <- <-. cbn. split; [done|]. split; [congruence|done].
  - injection H as <- <-. cbn. split; [done|]. split; [congruence|done].
Qed.
End SendLog.

(** *** A lossless network that delivers queued datagrams *)

(** The receiver's world: a queue of datagrams, a leftover [errno] and a clock
    that stands still; the exit flag is raised when the queue is empty. *)
Record delivery := Delivery { pending : queue_world; delivery_time : Z }.

#[export] Instance delivery_handler : Handler threadE delivery := fun X e =>
  match e in threadE Y return delivery -> Y * delivery with
  | ThClock e => fun w =>
      (match e in clockE Y0 return Y0 with
       | ClockNow => delivery_time w
       | SleepUntil _ => tt
       | Pause => tt
       end, w)
  | ThSock e => fun w =>
      let (x, q) := queue_socket _ e (pending w) in (x, Delivery q (delivery_time w))
  | ThExitRequested => fun w => (bool_decide ((pending w).1 = []), w)
  | ThPoll _ _ => fun w => (1, w)
  end.

Section Delivery.
Context (P : platform) (EINTR : Z).

(** A datagram that fits the buffer. *)
Definition fits (d : list Z) : Prop := 1 <= Z.of_nat (length d) <= max_packet_length_bytes.

(** The received state after a datagram. *)
Definition after_datagram (d : list Z) (v : verifier) (st : receive_state) : receive_state :=
  ReceiveState v (default (recv_ip st) (inet_ntop P 0x0200A8C0)) 9993
    (u64 (num_received_packets st + 1))
    (u64 (num_received_bytes st + Z.of_nat (length d))) (receive_timer st).

Lemma run_receive_iteration d ds errno now sd st v :
  fits d -> push_chars (to_char <$> d) (the_verifier st) = (Ok tt, v) ->
  _started (receive_timer st) = true -> now < _expire_time (receive_timer st) ->
  run (receive_iteration P EINTR sd st) (Delivery (d :: ds, errno) now) =
    (Ok (Some (after_datagram d v st)), Delivery (ds, errno) now).
Proof.
  intros Hd Hv Hs Hn. unfold receive_iteration. rewrite run_bind, run_call_ok.
  cbn [handle delivery_handler]. change (1 <? 0) with false. change (0 <? 1) with true. cbn iota.
  rewrite run_bind. unfold receive_packet. rewrite run_prog_bind.
  assert (Hr : run (sock (recv_from P sd (recv_ip st) (recv_port st) max_packet_length_bytes))
      (Delivery (d :: ds, errno) now) =
    (Ok (Z.of_nat (length d), d, default (recv_ip st) (inet_ntop P 0x0200A8C0), 9993),
     Delivery (ds, errno) now)).
  { unfold sock. rewrite run_translate. unfold recv_from. rewrite run_bind. unfold sys.
    rewrite run_call_ok. cbn. unfold fits, max_packet_length_bytes in *.
    rewrite take_ge by lia. rewrite run_bind. unfold is_would_block.
    destruct (Z.leb_spec (Z.of_nat (length d)) 0); [lia|]. rewrite run_ret. cbn beta iota.
    destruct (Z.ltb_spec (Z.of_nat (length d)) 0); [lia|]. done. }
  rewrite Hr. cbn beta iota. unfold fits in Hd.
  destruct (Z.ltb_spec 0 (Z.of_nat (length d))); [|lia].
  rewrite take_ge by lia. rewrite Hv. cbn [run]. rewrite run_bind.
  assert (Hst : run (receive_status (after_datagram d v st)) (Delivery (ds, errno) now) =
            (Ok (after_datagram d v st), Delivery (ds, errno) now)).
  { unfold receive_status, member. rewrite run_bind, run_prog_bind, run_translate.
    unfold expired. repeat obj1. cbn [receive_timer after_datagram]. rewrite Hs. cbn [negb].
    repeat obj1. rewrite run_call_ok. cbn.
    rewrite (proj2 (Z.leb_gt _ _)) by done. done. }
  unfold after_datagram in Hst |- *. by rewrite Hst.
Qed.

Lemma receive_loop_delivers ds fuel errno now sd st v :
  Forall fits ds -> (length ds < fuel)%nat ->
  push_chars (to_char <$> concat ds) (the_verifier st) = (Ok tt, v) ->
  _started (receive_timer st) = true -> now < _expire_time (receive_timer st) ->
  0 <= num_received_packets st -> num_received_packets st + Z.of_nat (length ds) < 2 ^ 64 ->
  exists st', run (receive_loop P EINTR fuel sd st) (Delivery (ds, errno) now) =
      (Ok (st', true), Delivery ([], errno) now) /\
    the_verifier st' = v /\
    num_received_packets st' = num_received_packets st + Z.of_nat (length ds).
Proof.
  intros Hf. revert fuel st. induction Hf as [|d ds Hd Hds IH]; intros [|fuel] st Hfu Hv Hs Hn Hp Hb;
    cbn [length] in *; try lia.
  - exists st. cbn in Hv. injection Hv as <-. split_and!; [done|done|lia].
  - cbn [receive_loop]. rewrite run_bind, run_call_ok. cbn [handle delivery_handler].
    rewrite bool_decide_false by done. cbn iota.
    cbn [concat] in Hv. rewrite fmap_app, push_chars_app in Hv.
    destruct (push_chars (to_char <$> d) (the_verifier st)) as [[[]|e] v1] eqn:E; [|discriminate].
    rewrite run_bind, (run_receive_iteration d ds errno now sd st v1) by done. cbn beta iota.
    destruct (IH fuel (after_datagram d v1 st)) as (st' & Hr & Hv' & Hn'); cbn [after_datagram
      the_verifier receive_timer num_received_packets]; try done; try lia.
    { rewrite u64_small by lia. lia. }
    { rewrite u64_small by lia. lia. }
    exists st'. split_and!; [done|done|]. rewrite Hn'. cbn [after_datagram num_received_packets].
    rewrite u64_small by lia. lia.
Qed.
End Delivery.

(** ** Properties *)

(** What the send thread sends, in every world (whatever the clock, the pacing
    and the results of [::send] are): when the loop returns, the datagrams handed
    to the socket are consecutive 1400-byte packets of the generator's stream,
    in order, as many as [total_sent] counts, and the generator has advanced by
    exactly those. *)
Theorem send_loop_stream {W} `{!Handler threadE W} sent `{!SendLog W sent} fuel spin sd st st' w w' :
  run (send_loop fuel spin sd st) w = (Ok st', w') ->
  exists n ds, packets n (prbs_generator st) = (Ok ds, prbs_generator st') /\
    sent w' = sent w ++ ds /\ length ds = n /\
    Forall (fun d => length d = packet_length) ds /\
    u64 (total_sent st') = u64 (total_sent st + Z.of_nat n).
Proof.
  revert st w. induction fuel as [|fuel IH]; intros st w; [discriminate|]. cbn [send_loop].
  intros ([|] & w1 & H1 & H)%run_bind_Ok; apply (call_ok_sent sent) in H1;
    cbn [sent_by] in H1; rewrite app_nil_r in H1.
  - injection H as <- <-. exists O, []. rewrite app_nil_r, Z.add_0_r. by split_and!.
  - apply run_bind_Ok in H as (st1 & w2 & H2 & H).
    apply (send_iteration_Ok sent) in H2 as (cs & Hg & Hs & Ht).
    apply IH in H as (n & ds & Hp & Hs' & Hl & Hf & Ht').
    exists (S n), ((octet <$> cs) :: ds). cbn [packets]. st_simpl. rewrite Hg, Hp.
    split_and!; [done|by rewrite Hs', Hs, H1, <- app_assoc|by cbn; rewrite Hl| |].
    + constructor; [|done]. rewrite length_fmap. rewrite gen_chars_words in Hg.
      destruct (get_words packet_length 8 (prbs_generator st)) as [[ws|e] g1] eqn:Ew; [|discriminate].
      injection Hg as <- _. rewrite length_fmap. eapply get_words_length, Ew.
    + rewrite Ht', Ht. unfold wrap. rewrite Nat2Z.inj_succ.
      rewrite Zplus_mod_idemp_l. f_equal. lia.
Qed.

(** *** End to end *)
Lemma packets_chars n g ds g' :
  packets n g = (Ok ds, g') ->
  exists cs, gen_chars (n * packet_length) g = (Ok cs, g') /\ concat ds = octet <$> cs /\
    length ds = n /\ Forall (fun d => length d = packet_length) ds.
Proof.
  revert g ds. induction n as [|n IH]; intros g ds; cbn [packets Nat.mul]; st_simpl.
  - intros [= <- <-]. by exists [].
  - destruct (gen_chars packet_length g) as [[cs|e] g1] eqn:E1; [|discriminate].
    destruct (packets n g1) as [[ds'|e] g2] eqn:E2; [|discriminate]. intros [= <- <-].
    destruct (IH _ _ E2) as (cs' & Hg & Hc & Hl & Hf). exists (cs ++ cs').
    rewrite gen_chars_app, E1, Hg. cbn [concat]. rewrite Hc, fmap_app.
    split_and!; [done|done|by cbn; rewrite Hl|]. constructor; [|done].
    rewrite gen_chars_words in E1.
    destruct (get_words packet_length 8 g) as [[ws|e] g3] eqn:Ew; [|discriminate].
    injection E1 as <- _. rewrite !length_fmap. eapply get_words_length, Ew.
Qed.

Lemma get_words_octets g ws g' n :
  prbs_wf g -> is_u (m_high_tap g) (m_reg g) -> 8 <= m_low_tap g ->
  get_words n 8 g = (Ok ws, g') -> Forall (is_u 8) ws.
Proof.
  intros Hg Hm Hl. pose proof (get_words_ok g Hg Hm 8 ltac:(lia) n 0) as Hw.
  cbn [Nat.mul Nat.add] in Hw. change (p_iter g 0 (m_reg g)) with (m_reg g) in Hw.
  replace (with_reg g (m_reg g)) with g in Hw by (by destruct g).
  change (Z.of_nat 8) with 8 in Hw. rewrite Hw. intros [= <- _].
  apply Forall_fmap, Forall_forall. intros k _. apply (bits_word_is_u _ 8).
Qed.

(** The words the receiver pushes, given the words that were sent. *)
Lemma pushed_words ws :
  Forall (is_u 8) ws ->
  Forall2 (fun reg w => wrap 8 reg = w)
    (u32_of_char <$> (to_char <$> (octet <$> (to_char <$> ws)))) ws.
Proof.
  induction 1 as [|w ws Hw Hws IH]; cbn [fmap list_fmap]; constructor; [|done].
  rewrite to_char_octet by apply to_char_range. rewrite char_word. by apply wrap_small.
Qed.

(** C1. The whole data path.  A generator of the design in any state sends [n]
    packets; a lossless network delivers them to a fresh receive thread.  The
    receiver takes every packet, counts all [11200 n] bits and not one error,
    is locked from the first packet on (one lock), and its local generator has
    the sender's register: sign extension of [char] and the packet boundaries
    leave no trace. *)
Theorem stream_end_to_end P EINTR n r ds g' fuel sd errno now tm :
  is_u 23 r -> (1 <= n)%nat -> 11200 * Z.of_nat n < 2 ^ 64 -> (n < fuel)%nat ->
  packets n (with_reg main_prbs r) = (Ok ds, g') ->
  _started tm = true -> now < _expire_time tm ->
  exists st',
    run (receive_loop P EINTR fuel sd (ReceiveState main_verifier "" 0 0 0 tm))
      (Delivery (ds, errno) now) = (Ok (st', true), Delivery ([], errno) now) /\
    num_received_packets st' = Z.of_nat n /\
    let s := m_status (the_verifier st') in
    num_bits s = 11200 * Z.of_nat n /\ num_bit_errors s = 0 /\
    locked s = true /\ lock_count s = 1 /\
    m_reg (m_prbs (the_verifier st')) = m_reg g'.
Proof.
  intros Hr Hn Hb Hfu Hp Hst Hnow.
  destruct (packets_chars _ _ _ _ Hp) as (cs & Hg & Hc & Hl & Hf).
  rewrite gen_chars_words in Hg.
  destruct (get_words (n * packet_length) 8 (with_reg main_prbs r)) as [[ws|e] g1] eqn:Ew;
    [|discriminate]. injection Hg as <- ->.
  assert (Hwf : prbs_wf (with_reg main_prbs r)).
  { apply with_reg_wf; [exact main_prbs_wf|]. eapply is_u_mono; [exact Hr|lia]. }
  pose proof (get_words_octets _ _ _ _ Hwf Hr ltac:(cbn; lia) Ew) as Ho.
  destruct (verifier_follows (with_reg main_prbs r) 8 main_verifier (m_reg main_prbs) (n * packet_length) ws g'
    _ Hwf Hr ltac:(cbn; lia) Ew (pushed_words ws Ho) eq_refl ltac:(unfold is_u; cbn; lia)
    ltac:(cbn; lia) ltac:(cbn; lia) ltac:(unfold packet_length; lia))
    as (v' & Hpush & Hbits & Herr & Hlock & Hcount & Hreg).
  change (sync_words (with_reg main_prbs r) 8) with 3%nat in *. unfold packet_length in *.
  destruct (receive_loop_delivers P EINTR ds fuel errno now sd
    (ReceiveState main_verifier "" 0 0 0 tm) v') as (st' & Hrun & Hv & Hpk); cbn [the_verifier
      receive_timer num_received_packets]; try done; try lia.
  { eapply Forall_impl; [exact Hf|]. intros d Hd. unfold fits. rewrite Hd. unfold max_packet_length_bytes. lia. }
  { unfold push_chars. rewrite Hc. exact Hpush. }
  exists st'. split; [exact Hrun|]. split; [cbn in Hpk; lia|]. rewrite Hv.
  assert (Hlk : locked (m_status v') = true).
  { rewrite Hlock. apply Z.leb_le. cbn [m_lock_threshold main_verifier]. lia. }
  rewrite Hlk in Hcount. cbn [Z.b2z] in Hcount. split_and!; try done; [lia|].
  apply Hreg. lia.
Qed.

(** ** Witnesses *)
Lemma gen_chars_ok g n :
  prbs_wf g -> is_u (m_high_tap g) (m_reg g) -> 8 <= m_low_tap g ->
  exists cs r, gen_chars n g = (Ok cs, with_reg g r) /\ is_u (m_high_tap g) r.
Proof.
  intros Hg Hm Hl. pose proof (get_words_ok g Hg Hm 8 ltac:(lia) n 0) as Hw.
  cbn [Nat.mul Nat.add] in Hw. change (p_iter g 0 (m_reg g)) with (m_reg g) in Hw.
  replace (with_reg g (m_reg g)) with g in Hw by (by destruct g).
  change (Z.of_nat 8) with 8 in Hw. rewrite gen_chars_words, Hw.
  eexists _, _. split; [done|]. by apply p_iter_masked.
Qed.

Lemma packets_ok g n :
  prbs_wf g -> is_u (m_high_tap g) (m_reg g) -> 8 <= m_low_tap g ->
  exists ds g', packets n g = (Ok ds, g').
Proof.
  revert g. induction n as [|n IH]; intros g Hg Hm Hl; cbn [packets]; st_simpl; [eauto|].
  destruct (gen_chars_ok g packet_length Hg Hm Hl) as (cs & r & -> & Hr).
  destruct (IH (with_reg g r)) as (ds & g' & ->); [|done|done|eauto].
  apply with_reg_wf; [done|]. pose proof (wf_high _ Hg). eapply is_u_mono; [exact Hr|lia].
Qed.

(** A world that asks for exit after [to_send] datagrams; its clock advances by a
    microsecond at each reading and every datagram is sent whole. *)
Record sender := Sender { sender_time : Z; sender_log : list (list Z); to_send : nat }.
Definition sender_answer {X} (e : sockE X) : X :=
  match e in sockE Y return Y with
  | SysSocket => 5
  | SysReuseAddr _ => 0
  | SysBufferSize _ _ _ => 0
  | SysClose _ => tt
  | SysGetFlags _ => 0
  | SysSetFlags _ _ => 0
  | SysBind _ _ => 0
  | SysConnect _ _ => 0
  | SysSend _ _ => 1400
  | SysSendTo _ _ _ => 1400
  | SysRecv _ _ => (-1, [])
  | SysRecvFrom _ _ => (-1, [], SockAddr 0 0)
  | Errno => 11
  end.
#[export] Instance sender_handler : Handler threadE sender := fun X e =>
  match e in threadE Y return sender -> Y * sender with
  | ThClock e => fun w =>
      let (x, t) := ticking _ e (sender_time w) in (x, Sender t (sender_log w) (to_send w))
  | ThSock e => fun w =>
      (sender_answer e,
       Sender (sender_time w) (sender_log w ++ sent_by (ThSock e)) (pred (to_send w)))
  | ThExitRequested => fun w => (match to_send w with O => true | S _ => false end, w)
  | ThPoll _ _ => fun w => (1, w)
  end.
#[export] Instance sender_sends : SendLog sender sender_log.
Proof.
  intros X e w. destruct e; cbn.
  - destruct (ticking _ e (sender_time w)) as [x t]. cbn. by rewrite app_nil_r.
  - done.
  - by rewrite app_nil_r.
  - by rewrite app_nil_r.
Qed.

Definition example_sending : send_state :=
  SendState main_prbs main_bucket (Timer 0 status_interval true) 0 0.

Lemma example_sending_run :
  exists st' w', run (send_loop 2 200 5 example_sending) (Sender 0 [] 1) = (Ok st', w') /\
    total_sent st' = 1.
Proof.
  destruct (gen_chars_ok main_prbs packet_length main_prbs_wf ltac:(unfold is_u; cbn; lia)
              ltac:(cbn; lia)) as (cs & r & E & _).
  exists (SendState (with_reg main_prbs r) (TokenBucket 117895 117895) (Timer 0 status_interval true) 1 1),
    (Sender 2000 [octet <$> cs] 0).
  split; [|reflexivity]. cbn [send_loop]. unfold send_iteration, pure_member.
  cbn [prbs_generator example_sending]. rewrite E. reflexivity.
Qed.

Lemma send_loop_stream_witness :
  exists st' w' n ds,
    run (send_loop 2 200 5 example_sending) (Sender 0 [] 1) = (Ok st', w') /\
    sender_log w' = ds /\ length ds = n /\ u64 (total_sent st') = u64 (0 + Z.of_nat n) /\
    total_sent st' = 1.
Proof.
  destruct example_sending_run as (st' & w' & Hrun & Ht).
  destruct (send_loop_stream sender_log 2 200 5 example_sending st' (Sender 0 [] 1) w' Hrun)
    as (n & ds & _ & Hs & Hl & _ & Hu).
  exists st', w', n, ds. split_and!; [exact Hrun|exact Hs|exact Hl|exact Hu|exact Ht].
Defined.

Lemma stream_end_to_end_witness :
  exists ds st',
    run (receive_loop example_platform 4 3 5 (ReceiveState main_verifier "" 0 0 0 (Timer 0 1000 true)))
      (Delivery (ds, 11) 10) = (Ok (st', true), Delivery ([], 11) 10) /\
    num_bits (m_status (the_verifier st')) = 22400 /\
    locked (m_status (the_verifier st')) = true.
Proof.
  destruct (packets_ok main_prbs 2 main_prbs_wf ltac:(unfold is_u; cbn; lia) ltac:(cbn; lia))
    as (ds & g' & Hp).
  destruct (stream_end_to_end example_platform 4 2 (m_reg main_prbs) ds g' 3 5 11 10 (Timer 0 1000 true))
    as (st' & Hrun & _ & Hb & _ & Hl & _).
  - unfold is_u; cbn; lia.
  - lia.
  - lia.
  - lia.
  - exact Hp.
  - reflexivity.
  - cbn; lia.
  - exists ds, st'. split; [exact Hrun|]. split; [exact Hb|exact Hl].
Defined.
