(* ===== verification/SendLoop.v ===== *)
(** * The send loop keeps sending

    [send_loop] of Threads.v in any world with a steady clock that advances when
    it is read: every iteration completes, so the loop runs until the exit flag
    is set and sends one packet of the stream for each round. *)

From S2P Require Import Prelude Effects Utils Prbs PrbsVerifier Timer TokenBucket UdpConnection Threads.

(** The thread's surroundings: a clock that no event sets back, and an exit flag
    that reads [false] for [rounds] more times. *)
Class SendWorld (W : Type) `{!Handler threadE W} (clk : W -> Z) (step : Z) (rounds : W -> nat) : Prop := {
  sw_steady :: SteadyClock (Handler0 := via) W clk;
  sw_progress :: ProgressingClock (Handler0 := via) W clk step;
  sw_forward X (e : threadE X) w : clk w <= clk (handle e w).2;
  sw_rounds X (e : threadE X) w :
    rounds (handle e w).2 = match e with ThExitRequested => pred (rounds w) | _ => rounds w end;
  sw_exit w : (handle ThExitRequested w).1 = (rounds w =? 0)%nat
}.

(** The clock's readings stay in range for 2^61 ns, 73 years. *)
Definition end_of_time : Z := 2 ^ 61.

Section Loop.
Context {W : Type} `{!Handler threadE W} {clk : W -> Z} {step : Z} {rounds : W -> nat}.
Context {sent : W -> list (list Z)} {SW : SendWorld W clk step rounds} {SL : SendLog W sent}.
Context (spin_fuel : nat) (Hstep : 0 < step) (Hspin : (0 < spin_fuel)%nat).

(** What an iteration needs of the locals, and leaves. *)
Record send_wf (st : send_state) (w : W) : Prop := {
  swf_generator : prbs_wf (prbs_generator st);
  swf_reg : is_u (m_high_tap (prbs_generator st)) (m_reg (prbs_generator st));
  swf_low : 8 <= m_low_tap (prbs_generator st);
  swf_interval : 0 <= m_interval (bucket st) <= 2 ^ 40;
  swf_spin : m_interval (bucket st) <= step * Z.of_nat spin_fuel;
  swf_next : 0 <= m_next_time (bucket st) <= clk w + m_interval (bucket st);
  swf_start : 0 <= _start_time (send_timer st) <= end_of_time;
  swf_now : 0 <= clk w
}.

Lemma clk_forward {A} (p : prog threadE A) w : clk w <= clk (run p w).2.
Proof.
  revert w. induction p as [a|X e k IH]; intros w; cbn [run]; [done|].
  pose proof (sw_forward X e w). destruct (handle e w) as [x w1]. cbn [snd] in *.
  specialize (IH x w1). lia.
Qed.

Lemma clock_rounds {A} (p : prog clockE A) w : rounds (run (translate p : prog threadE A) w).2 = rounds w.
Proof.
  revert w. induction p as [a|X e k IH]; intros w; [done|].
  cbn [translate interp clock_interp trigger prog_bind run].
  pose proof (sw_rounds X (ThClock e) w) as Hr. destruct (handle (ThClock e) w) as [x w1].
  cbn [snd] in Hr. by rewrite IH.
Qed.

(** A reading of the clock in the thread. *)
Definition reading (w : W) : Z := (handle (ThClock ClockNow) w).1.
Definition after_reading (w : W) : W := (handle (ThClock ClockNow) w).2.

Lemma via_now w : handle (Handler := via) ClockNow w = (reading w, after_reading w).
Proof.
  unfold handle, via, reading, after_reading. cbn. by destruct (handle (ThClock ClockNow) w).
Qed.

Lemma reading_spec w : clk w <= reading w /\ clk (after_reading w) = reading w.
Proof. pose proof (clock_now (Handler0 := via) (clk := clk) w) as H. by rewrite via_now in H. Qed.

(** A member call that succeeds in the clock's world. *)
Lemma run_member {S A} (m : objM clockE S A) s a s' w w' :
  run (Handler0 := via) (m s) w = ((Ok a, s'), w') ->
  run (member m s) w = (Ok (a, s'), w') /\ rounds w' = rounds w /\ clk w <= clk w'.
Proof.
  intros Hr. pose proof (clock_rounds (m s) w) as Hn. pose proof (clk_forward (translate (m s)) w) as Hc.
  rewrite run_translate, Hr in Hn, Hc. split; [|done].
  unfold member. by rewrite run_prog_bind, run_translate, Hr.
Qed.

(** *** Programs that end well unless time runs out

    [ends p w Q]: running [p] from [w] either ends past [end_of_time] or with a
    value and a world that satisfy [Q], no round of the exit flag consumed. *)
Definition ends {A} (p : io threadE A) (w : W) (Q : A -> W -> Prop) : Prop :=
  exists r w', run p w = (r, w') /\
    (end_of_time <= clk w' \/ exists a, r = Ok a /\ rounds w' = rounds w /\ Q a w').

Lemma ends_ret {A} (a : A) w (Q : A -> W -> Prop) : Q a w -> ends (mret a) w Q.
Proof. intros HQ. exists (Ok a), w. split; [done|]. right. eauto. Qed.

Lemma ends_bind {A B} (p : io threadE A) (f : A -> io threadE B) w P Q :
  ends p w P -> (forall a w1, P a w1 -> ends (f a) w1 Q) -> ends (p ≫= f) w Q.
Proof.
  intros (r & w1 & Hp & H) Hf. pose proof (run_bind p f w) as Hb. rewrite Hp in Hb.
  destruct H as [Hlate|(a & -> & Hn & Ha)].
  - destruct (run (p ≫= f) w) as [r' w'] eqn:E. exists r', w'. split; [exact E|]. left.
    destruct r as [a|e]; [|injection Hb as _ ->; lia].
    pose proof (clk_forward (f a) w1) as Hc. rewrite <- Hb in Hc. cbn [snd] in Hc. lia.
  - destruct (Hf a w1 Ha) as (r & w2 & Hr & H). exists r, w2. split; [by rewrite Hb|].
    destruct H as [?|(b & -> & Hn' & HQ)]; [by left|]. right. exists b. split_and!; [done|lia|done].
Qed.

(** A program whose first event reads the clock may assume that time is left. *)
Lemma ends_reading {A} (p : io threadE A) k w Q :
  p = Vis (ThClock ClockNow) k -> (reading w < end_of_time -> ends p w Q) -> ends p w Q.
Proof.
  intros Hp H. destruct (Z.lt_ge_cases (reading w) end_of_time) as [?|Hlate]; [by apply H|].
  destruct (run p w) as [r w'] eqn:E. exists r, w'. split; [done|]. left.
  pose proof (reading_spec w) as [_ Hc]. unfold reading, after_reading in *.
  pose proof (clk_forward (k (handle (ThClock ClockNow) w).1) (handle (ThClock ClockNow) w).2) as Hf.
  subst p. cbn [run] in E. destruct (handle (ThClock ClockNow) w) as [x w1]. cbn [fst snd] in *.
  rewrite E in Hf. cbn [snd] in Hf. lia.
Qed.

Lemma ends_member {S A} (m : objM clockE S A) s a s' w w' (Q : A * S -> W -> Prop) :
  run (Handler0 := via) (m s) w = ((Ok a, s'), w') -> (clk w <= clk w' -> Q (a, s') w') ->
  ends (member m s) w Q.
Proof.
  intros [Hr [Hn Hc]]%run_member HQ. exists (Ok (a, s')), w'. split; [done|]. right. eauto.
Qed.

(** *** The steps of an iteration *)
Lemma ends_acquire b w :
  0 <= m_interval b <= 2 ^ 40 -> m_interval b <= step * Z.of_nat spin_fuel ->
  0 <= m_next_time b <= clk w + m_interval b -> 0 <= clk w ->
  ends (member (acquire spin_fuel) b) w (fun x w' =>
    m_interval x.2 = m_interval b /\ 0 <= m_next_time x.2 <= clk w' + m_interval b /\ clk w <= clk w').
Proof.
  intros Hi Hs Hx Hw. eapply ends_reading; [reflexivity|]. intros Hr.
  destruct (acquire_ends (Handler0 := via) clk step spin_fuel b w) as (b' & w' & Ha & Ei & _ & _ & Hn);
    [done|done|done|done|done|by rewrite via_now|done|].
  eapply ends_member; [exact Ha|]. intros Hc. cbn [snd]. by rewrite Ei in *.
Qed.

Lemma ends_expired tm w :
  ends (member expired tm) w (fun x w' => x.2 = tm /\ clk w <= clk w').
Proof.
  destruct (_started tm) eqn:E.
  - eapply (ends_member _ _ _ _ _ (after_reading w)).
    + unfold expired. repeat clock_step. rewrite E. cbn [negb]. repeat clock_step.
      rewrite via_now. reflexivity.
    + done.
  - eapply (ends_member _ _ _ _ _ w); [|done].
    unfold expired. repeat clock_step. rewrite E. cbn [negb]. by repeat clock_step.
Qed.

Lemma ends_elapsed tm w :
  0 <= _start_time tm <= end_of_time -> 0 <= clk w ->
  ends (member (elapsed ms) tm) w (fun x w' => x.2 = tm /\ clk w <= clk w').
Proof.
  intros Ht Hw. eapply ends_reading; [reflexivity|]. intros Hr. pose proof (reading_spec w) as [H1 H2].
  unfold end_of_time in *. eapply (ends_member _ _ _ _ _ (after_reading w)); [|done].
  unfold elapsed. repeat clock_step. rewrite via_now. cbn [fst snd]. rewrite i64_ok by lia.
  cbn beta iota. by repeat clock_step.
Qed.

Lemma ends_restart tm w :
  0 <= clk w ->
  ends (member (restart status_interval) tm) w (fun x w' =>
    0 <= _start_time x.2 <= end_of_time /\ clk w <= clk w').
Proof.
  intros Hw. eapply ends_reading; [reflexivity|]. intros Hr. pose proof (reading_spec w) as [H1 H2].
  unfold end_of_time in *.
  eapply (ends_member _ _ _ (Timer (reading w) (reading w + status_interval) true) _ (after_reading w)).
  - unfold restart. repeat clock_step. rewrite via_now. cbn [fst snd].
    rewrite i64_ok by (unfold status_interval; lia). cbn beta iota. by repeat clock_step.
  - intros Hc. cbn [snd _start_time]. lia.
Qed.

Lemma ends_event {X} (e : sockE X) w :
  ends (call_ok (ThSock e)) w (fun _ w' => clk w <= clk w').
Proof.
  pose proof (sw_rounds X (ThSock e) w). pose proof (sw_forward X (ThSock e) w).
  exists (Ok (handle (ThSock e) w).1), (handle (ThSock e) w).2. split.
  - rewrite run_call_ok. by destruct (handle (ThSock e) w).
  - right. eauto.
Qed.

(** *** The iteration and the loop *)
Lemma ends_iteration sd st w :
  send_wf st w -> ends (send_iteration spin_fuel sd st) w send_wf.
Proof.
  intros [Hg Hr Hl Hi Hs Hx Ht Hw]. unfold send_iteration.
  destruct (gen_chars_ok (prbs_generator st) packet_length Hg Hr Hl) as (cs & r & Eg & Hr').
  unfold pure_member. rewrite Eg. apply (ends_bind _ _ _ (fun x w1 => x = (cs, with_reg (prbs_generator st) r) /\ w1 = w)).
  { exists (Ok (cs, with_reg (prbs_generator st) r)), w. split; [done|]. right. eauto. }
  intros ? w0 [-> ->]. cbn beta iota.
  eapply ends_bind; [by apply ends_acquire|]. intros [[] b'] w1 (Ei & Hx1 & C1). cbn [snd] in *.
  change (sock (send sd (octet <$> cs))) with (call_ok (ThSock (SysSend sd (octet <$> cs)))).
  eapply ends_bind; [apply ends_event|]. intros ret w2 C2. cbn zeta.
  apply (ends_bind _ _ _ (fun _ w3 => clk w2 <= clk w3)).
  { destruct (ret <=? 0); [|by apply ends_ret].
    eapply ends_bind; [apply ends_event|]. intros x w3 C3. by apply ends_ret. }
  intros _ w3 C3. eapply ends_bind; [apply ends_expired|]. intros [ex tm] w4 [E4 C4].
  cbn [snd] in E4. subst tm. pose proof (wf_high _ Hg) as Hh.
  assert (Hg' : prbs_wf (with_reg (prbs_generator st) r))
    by (apply with_reg_wf; [done|]; eapply is_u_mono; [exact Hr'|lia]).
  destruct ex.
  - cbn beta in *. eapply ends_bind; [apply ends_elapsed; [done|lia]|]. intros [x tm] w5 [E5 C5].
    cbn [snd] in E5. subst tm. eapply ends_bind; [apply ends_restart; lia|].
    intros [[] tm] w6 [E6 C6]. cbn [snd] in *. apply ends_ret. split; cbn; try done; lia.
  - cbn beta in *. apply ends_ret. split; cbn; try done; lia.
Qed.

Lemma run_exit_requested w :
  exists w', run (call_ok ThExitRequested) w = (Ok (rounds w =? 0)%nat, w') /\
    rounds w' = pred (rounds w) /\ clk w <= clk w' /\ sent w' = sent w.
Proof.
  pose proof (sw_exit w) as E. pose proof (sw_rounds _ ThExitRequested w) as R.
  pose proof (sw_forward _ ThExitRequested w) as C. pose proof (sent_step _ ThExitRequested w) as S.
  rewrite run_call_ok. destruct (handle ThExitRequested w) as [x w']. cbn in *. subst x.
  rewrite app_nil_r in S. by exists w'.
Qed.

Lemma send_wf_later st w w' : clk w <= clk w' -> send_wf st w -> send_wf st w'.
Proof. intros Hc []. split; try done; lia. Qed.

Lemma packet_lengths g cs g' : gen_chars packet_length g = (Ok cs, g') -> length cs = packet_length.
Proof.
  rewrite gen_chars_words. destruct (get_words packet_length 8 g) as [[ws|e] g1] eqn:Ew; [|discriminate].
  intros [= <- _]. rewrite length_fmap. eapply get_words_length, Ew.
Qed.

Lemma send_loop_runs fuel sd st w :
  send_wf st w -> (rounds w < fuel)%nat ->
  exists r w', run (send_loop fuel spin_fuel sd st) w = (r, w') /\
    (end_of_time <= clk w' \/
     exists st' ds, r = Ok st' /\ packets (rounds w) (prbs_generator st) = (Ok ds, prbs_generator st') /\
       sent w' = sent w ++ ds /\ Forall (fun d => length d = packet_length) ds /\
       u64 (total_sent st') = u64 (total_sent st + Z.of_nat (rounds w))).
Proof.
  revert st w. induction fuel as [|fuel IH]; intros st w Hwf Hn; [lia|]. cbn [send_loop].
  destruct (run_exit_requested w) as (w1 & He & R1 & C1 & S1). rewrite run_bind, He. cbn beta iota.
  destruct (rounds w) as [|k] eqn:Ek; cbn [Nat.eqb pred] in *.
  { exists (Ok st), w1. split; [done|]. right. exists st, [].
    rewrite app_nil_r, Z.add_0_r. by split_and!. }
  rewrite run_bind.
  destruct (ends_iteration sd st w1 (send_wf_later _ _ _ C1 Hwf)) as (r & w2 & Hr & H).
  rewrite Hr. cbn beta iota.
  destruct H as [Hlate|(st1 & -> & R2 & Hwf2)].
  { destruct r as [st1|e]; [|by eauto].
    destruct (run (send_loop fuel spin_fuel sd st1) w2) as [r w3] eqn:E. exists r, w3.
    split; [done|]. left. pose proof (clk_forward (send_loop fuel spin_fuel sd st1) w2) as Hc.
    rewrite E in Hc. cbn [snd] in Hc. lia. }
  apply (send_iteration_Ok sent) in Hr as (cs & Hg & S2 & T2).
  destruct (IH st1 w2 Hwf2 ltac:(lia)) as (r & w3 & Hl & H). exists r, w3. split; [exact Hl|].
  destruct H as [?|(st' & ds & -> & Hp & S3 & Hf & T3)]; [by left|]. right.
  exists st', ((octet <$> cs) :: ds). rewrite R2, R1 in Hp, T3. cbn [packets]. st_simpl.
  rewrite Hg, Hp. split_and!; [done|done|by rewrite S3, S2, S1, <- app_assoc| |].
  - constructor; [|done]. rewrite length_fmap. eapply packet_lengths, Hg.
  - rewrite T3, T2. unfold wrap. rewrite Nat2Z.inj_succ, Zplus_mod_idemp_l. f_equal. lia.
Qed.
End Loop.

(** ** Properties *)

(** C36. The send loop does its work: on a steady clock that advances by [step] at
    each reading, with spin fuel for one interval, the loop does not get stuck,
    whatever the socket answers.  It returns when it sees the exit flag, having
    sent exactly one 1400-byte packet for each round before, in order the
    generator's next packets; only a clock beyond 2^61 ns voids this. *)
Theorem send_loop_returns {W} `{!Handler threadE W} clk step rounds sent
    `{!SendWorld W clk step rounds} `{!SendLog W sent} spin_fuel fuel sd st w :
  0 < step -> (0 < spin_fuel)%nat -> send_wf (clk := clk) (step := step) spin_fuel st w ->
  (rounds w < fuel)%nat ->
  exists r w', run (send_loop fuel spin_fuel sd st) w = (r, w') /\
    (end_of_time <= clk w' \/
     exists st' ds, r = Ok st' /\ packets (rounds w) (prbs_generator st) = (Ok ds, prbs_generator st') /\
       sent w' = sent w ++ ds /\ Forall (fun d => length d = packet_length) ds /\
       u64 (total_sent st') = u64 (total_sent st + Z.of_nat (rounds w))).
Proof. intros. by apply send_loop_runs. Qed.

(** ** Witness *)

(** A microsecond clock, a socket that takes every packet, an exit request. *)
Record loop_world := LoopWorld { lw_time : Z; lw_log : list (list Z); lw_rounds : nat }.
#[export] Instance loop_handler : Handler threadE loop_world := fun X e =>
  match e in threadE Y return loop_world -> Y * loop_world with
  | ThClock e => fun w =>
      let (x, t) := ticking _ e (lw_time w) in (x, LoopWorld t (lw_log w) (lw_rounds w))
  | ThSock e => fun w =>
      (sender_answer e, LoopWorld (lw_time w) (lw_log w ++ sent_by (ThSock e)) (lw_rounds w))
  | ThExitRequested => fun w =>
      ((lw_rounds w =? 0)%nat, LoopWorld (lw_time w) (lw_log w) (pred (lw_rounds w)))
  | ThPoll _ _ => fun w => (1, w)
  end.

#[export] Instance loop_sends : SendLog loop_world lw_log.
Proof.
  intros X e w. destruct e; cbn; rewrite ?app_nil_r; try done.
  by destruct (ticking _ e (lw_time w)).
Qed.

#[export] Instance loop_world_ok : SendWorld loop_world lw_time 1000 lw_rounds.
Proof.
  split.
  - split; intros; cbn; lia.
  - intros w. cbn. lia.
  - intros X [Y e| | |] w; cbn; try lia. destruct e; cbn; lia.
  - intros X [Y e| | |] w; cbn; try done. by destruct e.
  - done.
Qed.

Lemma send_loop_returns_witness :
  exists r w', run (send_loop 4 200 5 example_sending) (LoopWorld 0 [] 3) = (r, w') /\
    (end_of_time <= lw_time w' \/ exists st', r = Ok st' /\ length (lw_log w') = 3%nat).
Proof.
  destruct (send_loop_returns lw_time 1000 lw_rounds lw_log 200 4 5 example_sending (LoopWorld 0 [] 3))
    as (r & w' & Hr & H).
  - lia.
  - lia.
  - split; cbn; unfold end_of_time, is_u; try exact main_prbs_wf; lia.
  - cbn. lia.
  - exists r, w'. split; [exact Hr|]. destruct H as [H|(st' & ds & -> & Hp & Hs & _)]; [by left|].
    right. exists st'. split; [done|]. rewrite Hs. cbn [lw_log app].
    by apply packets_chars in Hp as (cs & _ & _ & Hl & _).
Defined.
