(* ===== verification/Axis.v ===== *)
(** * AXI streams of bytes

    The data, valid and last signals that the VHDL components of the data path pass on, and
    byte sequences as streams with [tlast] on the last byte. *)

From S2P Require Import Prelude.

Record axis := Axis { tdata : Z; tvalid : bool; tlast : bool }.

Definition no_axis : axis := Axis 0 false false.

(** A transferred byte with its [tlast]. *)
Abbreviation beat := (Z * bool)%type.

Definition axis_bytes (a : axis) : list Z := if tvalid a then [tdata a] else [].
Definition axis_beats (a : axis) : list beat := if tvalid a then [(tdata a, tlast a)] else [].

Definition data_beats (bytes : list Z) : list beat := (fun b => (b, false)) <$> bytes.
Definition last_beats (bytes : list Z) : list beat :=
  match rev bytes with
  | [] => []
  | b :: r => data_beats (rev r) ++ [(b, true)]
  end.

Lemma axis_beats_data a :
  axis_beats (Axis (tdata a) (tvalid a) false) = data_beats (axis_bytes a).
Proof. unfold axis_beats, axis_bytes. cbn. by destruct (tvalid a). Qed.

Lemma data_beats_app l l' : data_beats (l ++ l') = data_beats l ++ data_beats l'.
Proof. apply fmap_app. Qed.

Lemma last_beats_snoc l b : last_beats (l ++ [b]) = data_beats l ++ [(b, true)].
Proof. unfold last_beats. by rewrite rev_unit, rev_involutive. Qed.

Lemma last_beats_app l l' : l' <> [] -> last_beats (l ++ l') = data_beats l ++ last_beats l'.
Proof.
  intros Hne. destruct (exists_last Hne) as (m & b & ->).
  by rewrite app_assoc, !last_beats_snoc, data_beats_app, app_assoc.
Qed.

Lemma last_beats_cons x l :
  last_beats (x :: l) = (x, match l with [] => true | _ => false end) :: last_beats l.
Proof.
  destruct l as [|y l _] using rev_ind; [done|].
  rewrite app_comm_cons, !last_beats_snoc. by destruct l.
Qed.

Lemma last_beats_length l : length (last_beats l) = length l.
Proof.
  unfold last_beats, data_beats. rewrite <- (length_rev l).
  destruct (rev l); [done|]. rewrite length_app, length_fmap, length_rev. cbn. lia.
Qed.

(** The packets of a stream, back from its beats. *)
Fixpoint unbeats (part : list Z) (bs : list beat) : list (list Z) :=
  match bs with
  | [] => []
  | (b, last) :: bs' => if last then (part ++ [b]) :: unbeats [] bs' else unbeats (part ++ [b]) bs'
  end.

Lemma unbeats_packet part p bs : p <> [] -> unbeats part (last_beats p ++ bs) = (part ++ p) :: unbeats [] bs.
Proof.
  revert part. induction p as [|b p IH]; intros part Hp; [done|]. rewrite last_beats_cons.
  cbn [app unbeats]. destruct p as [|b' p]; [done|]. rewrite IH by done. by rewrite <- app_assoc.
Qed.

Lemma unbeats_packets ps : Forall (fun p => p <> []) ps -> unbeats [] (concat (last_beats <$> ps)) = ps.
Proof.
  induction 1 as [|p ps Hp _ IH]; [done|]. cbn [fmap list_fmap concat]. by rewrite unbeats_packet, IH.
Qed.

Lemma beats_packets_inj ps ps' :
  Forall (fun p => p <> []) ps -> Forall (fun p => p <> []) ps' ->
  concat (last_beats <$> ps) = concat (last_beats <$> ps') -> ps = ps'.
Proof. intros H H' E. by rewrite <- (unbeats_packets ps H), <- (unbeats_packets ps' H'), E. Qed.
