(* ===== verification/EthernetFcs.v ===== *)
(** * The Ethernet FCS generator: [ethernet/fcs/ethernet_fcs.vhd]

    The entity as it is written (the 32 generated equations, the clocked
    process) and the CRC-32 of IEEE 802.3 as a bit-serial shift register.  The theorems: the
    equations are eight steps of the shift register; a message followed by the
    four bytes the entity emits for it leaves the check value; two frames that
    both pass the check differ in more than a burst of 32 bits. *)

From S2P Require Import Prelude.
From S2P Require Import Gf2.

Definition C_INIT_VAL_SLV : Z := 0xffffffff.
Definition C_CRC_VERIFY : Z := 0xC704DD7B.

(** [reverse_slv] on a [w]-bit vector. *)
Definition reverse_slv (w : nat) (x : Z) : Z :=
  bits_word (fun i => Z.testbit x (Z.of_nat w - 1 - i)) w.

(** [crcOut(i)] for each [i]: the bits of [crc_in] and of [data] it xors. *)
Definition crc_equations : list (list Z * list Z) :=
  [
   ([24; 30], [0; 6]);
   ([24; 25; 30; 31], [0; 1; 6; 7]);
   ([24; 25; 26; 30; 31], [0; 1; 2; 6; 7]);
   ([25; 26; 27; 31], [1; 2; 3; 7]);
   ([24; 26; 27; 28; 30], [0; 2; 3; 4; 6]);
   ([24; 25; 27; 28; 29; 30; 31], [0; 1; 3; 4; 5; 6; 7]);
   ([25; 26; 28; 29; 30; 31], [1; 2; 4; 5; 6; 7]);
   ([24; 26; 27; 29; 31], [0; 2; 3; 5; 7]);
   ([0; 24; 25; 27; 28], [0; 1; 3; 4]);
   ([1; 25; 26; 28; 29], [1; 2; 4; 5]);
   ([2; 24; 26; 27; 29], [0; 2; 3; 5]);
   ([3; 24; 25; 27; 28], [0; 1; 3; 4]);
   ([4; 24; 25; 26; 28; 29; 30], [0; 1; 2; 4; 5; 6]);
   ([5; 25; 26; 27; 29; 30; 31], [1; 2; 3; 5; 6; 7]);
   ([6; 26; 27; 28; 30; 31], [2; 3; 4; 6; 7]);
   ([7; 27; 28; 29; 31], [3; 4; 5; 7]);
   ([8; 24; 28; 29], [0; 4; 5]);
   ([9; 25; 29; 30], [1; 5; 6]);
   ([10; 26; 30; 31], [2; 6; 7]);
   ([11; 27; 31], [3; 7]);
   ([12; 28], [4]);
   ([13; 29], [5]);
   ([14; 24], [0]);
   ([15; 24; 25; 30], [0; 1; 6]);
   ([16; 25; 26; 31], [1; 2; 7]);
   ([17; 26; 27], [2; 3]);
   ([18; 24; 27; 28; 30], [0; 3; 4; 6]);
   ([19; 25; 28; 29; 31], [1; 4; 5; 7]);
   ([20; 26; 29; 30], [2; 5; 6]);
   ([21; 27; 30; 31], [3; 6; 7]);
   ([22; 28; 31], [4; 7]);
   ([23; 29], [5])
  ].

Definition xor_bits (ks : list Z) (x : Z) : bool :=
  foldr (fun i b => xorb (Z.testbit x i) b) false ks.

Definition calc_crc32 (data crc_in : Z) : Z :=
  bits_word (fun i => let e := nth (Z.to_nat i) crc_equations ([], []) in
                      xorb (xor_bits e.1 crc_in) (xor_bits e.2 data)) 32.

(** The registers; [fcs_byte] keeps its value through a reset. *)
Record fcs_regs := FcsRegs { crc_reg : Z; fcs_byte : Z }.

(** One rising clock edge with the values of the inputs there. *)
Definition fcs_clock (user_init : bool) (reset : bool) (init_val_in data_in : Z)
    (valid_in en_calc_in : bool) (r : fcs_regs) : fcs_regs :=
  let crc_next := calc_crc32 (reverse_slv 8 data_in) (crc_reg r) in
  if reset then
    FcsRegs (if negb user_init then C_INIT_VAL_SLV else init_val_in) (fcs_byte r)
  else if en_calc_in && valid_in then
    FcsRegs crc_next (Z.lxor 0xff (reverse_slv 8 (Z.shiftr crc_next 24)))
  else if valid_in then
    FcsRegs (Z.lor (Z.shiftl (wrap 24 (crc_reg r)) 8) 0xff)
            (Z.lxor 0xff (reverse_slv 8 (wrap 8 (Z.shiftr (crc_reg r) 16))))
  else r.

Definition verify_out (r : fcs_regs) : bool := crc_reg r =? C_CRC_VERIFY.

(** Feeding bytes with the calculation enabled, and shifting bytes out. *)
Definition fcs_calc (b : Z) : fcs_regs -> fcs_regs := fcs_clock false false 0 b true true.
Definition fcs_shift : fcs_regs -> fcs_regs := fcs_clock false false 0 0 true false.
Definition fcs_feed (bytes : list Z) (r : fcs_regs) : fcs_regs :=
  foldl (fun r b => fcs_calc b r) r bytes.

(** The four bytes that follow the message: [fcs_byte] after its last byte
    and after each of three shifts. *)
Definition fcs_trailer (r : fcs_regs) : list Z :=
  [fcs_byte r; fcs_byte (fcs_shift r); fcs_byte (fcs_shift (fcs_shift r));
   fcs_byte (fcs_shift (fcs_shift (fcs_shift r)))].

(** ** The reference: a shift register over single bits *)
Definition crc_poly : Z := 0x04C11DB7.

Definition crc_bit (c : Z) (b : bool) : Z :=
  Z.lxor (wrap 32 (Z.shiftl c 1)) (if xorb (Z.testbit c 31) b then crc_poly else 0).

Definition crc_bits (c : Z) (l : list bool) : Z := foldl crc_bit c l.

(** Each byte goes out least significant bit first. *)
Definition byte_bits (b : Z) : list bool := (fun i => Z.testbit b (Z.of_nat i)) <$> seq 0 8.
Definition bytes_bits (l : list Z) : list bool := concat (byte_bits <$> l).

(** ** Linearity *)

Lemma xor_bits_lxor ks x y : xor_bits ks (Z.lxor x y) = xorb (xor_bits ks x) (xor_bits ks y).
Proof.
  unfold xor_bits. induction ks as [|k ks IH]; cbn; [done|]. rewrite IH, Z.lxor_spec. apply xorb_swap.
Qed.

Lemma bits_word_xorb f g n :
  bits_word (fun i => xorb (f i) (g i)) n = Z.lxor (bits_word f n) (bits_word g n).
Proof.
  apply Z.bits_inj'. intros i Hi. rewrite Z.lxor_spec, !testbit_bits_word. by zcases.
Qed.

Lemma reverse_slv_lxor w x y :
  reverse_slv w (Z.lxor x y) = Z.lxor (reverse_slv w x) (reverse_slv w y).
Proof.
  unfold reverse_slv. rewrite <- bits_word_xorb. apply bits_word_ext. intros. apply Z.lxor_spec.
Qed.

Lemma calc_crc32_lxor d d' c c' :
  calc_crc32 (Z.lxor d d') (Z.lxor c c') = Z.lxor (calc_crc32 d c) (calc_crc32 d' c').
Proof.
  unfold calc_crc32. rewrite <- bits_word_xorb. apply bits_word_ext. intros i _. cbn zeta.
  rewrite !xor_bits_lxor. apply xorb_swap.
Qed.

Lemma wrap_lxor w x y : 0 <= w -> wrap w (Z.lxor x y) = Z.lxor (wrap w x) (wrap w y).
Proof. intros. zbits_at i. Qed.

Lemma calc_crc32_is_u d c : is_u 32 (calc_crc32 d c).
Proof. apply (bits_word_is_u _ 32). Qed.

Lemma crc_bit_lxor c c' b b' :
  crc_bit (Z.lxor c c') (xorb b b') = Z.lxor (crc_bit c b) (crc_bit c' b').
Proof.
  unfold crc_bit. rewrite Z.shiftl_lxor, wrap_lxor, Z.lxor_spec, lxor_swap by lia. f_equal.
  destruct (Z.testbit c 31), (Z.testbit c' 31), b, b'; done.
Qed.

Lemma crc_bits_lxor c c' l l' :
  length l = length l' ->
  crc_bits (Z.lxor c c') (zip_with xorb l l') = Z.lxor (crc_bits c l) (crc_bits c' l').
Proof.
  revert c c' l'. induction l as [|b l IH]; intros c c' [|b' l'] Hl; try done.
  cbn [crc_bits foldl zip_with]. unfold crc_bits in IH. rewrite crc_bit_lxor. apply IH.
  by injection Hl.
Qed.

Lemma byte_bits_lxor x y : byte_bits (Z.lxor x y) = zip_with xorb (byte_bits x) (byte_bits y).
Proof. unfold byte_bits. cbn. by rewrite !Z.lxor_spec. Qed.

Lemma crc_bit_is_u c b : is_u 32 (crc_bit c b).
Proof. apply is_u_lxor; [lia|by apply wrap_range|]. by destruct (xorb _ b); vm_compute. Qed.

Lemma crc_bits_is_u c l : is_u 32 c -> is_u 32 (crc_bits c l).
Proof. revert c. induction l as [|b l IH]; intros c Hc; cbn; [done|]. apply IH, crc_bit_is_u. Qed.

Lemma crc_bits_app c l l' : crc_bits c (l ++ l') = crc_bits (crc_bits c l) l'.
Proof. apply foldl_app. Qed.

(** ** The equations are eight steps of the shift register *)

(** A byte and a register as one 40-bit word. *)
Lemma calc_serial_word x :
  is_u 40 x ->
  calc_crc32 (reverse_slv 8 (wrap 8 x)) (Z.shiftr x 8) =
  crc_bits (Z.shiftr x 8) (byte_bits (wrap 8 x)).
Proof.
  apply (linear_ext 40 (fun x => calc_crc32 (reverse_slv 8 (wrap 8 x)) (Z.shiftr x 8))
                       (fun x => crc_bits (Z.shiftr x 8) (byte_bits (wrap 8 x)))).
  - intros y z _ _. by rewrite wrap_lxor, Z.shiftr_lxor, reverse_slv_lxor, calc_crc32_lxor by lia.
  - intros y z _ _. rewrite wrap_lxor, Z.shiftr_lxor, byte_bits_lxor by lia.
    by apply crc_bits_lxor.
  - repeat constructor.
Qed.

Lemma calc_serial b c :
  is_u 8 b -> is_u 32 c -> calc_crc32 (reverse_slv 8 b) c = crc_bits c (byte_bits b).
Proof.
  intros Hb Hc. pose proof (calc_serial_word (Z.lor (Z.shiftl c 8) b)) as H.
  replace (wrap 8 (Z.lor (Z.shiftl c 8) b)) with b in H.
  2: { rewrite <- (wrap_small 8 b Hb) at 1. zbits_at i. }
  replace (Z.shiftr (Z.lor (Z.shiftl c 8) b) 8) with c in H; [apply H|].
  - apply is_u_lor; [lia| |by apply (is_u_mono 8)].
    unfold is_u in *. rewrite Z.shiftl_mul_pow2 by lia. lia.
  - apply Z.bits_inj'. intros i Hi. autorewrite with zbits. zcases.
    rewrite (testbit_high 8 b) by (done || lia). cbn. rewrite orb_false_r. f_equal. lia.
Qed.

Lemma fcs_calc_crc b r : crc_reg (fcs_calc b r) = calc_crc32 (reverse_slv 8 b) (crc_reg r).
Proof. reflexivity. Qed.

Lemma fcs_feed_crc bytes r :
  Forall (is_u 8) bytes -> is_u 32 (crc_reg r) ->
  crc_reg (fcs_feed bytes r) = crc_bits (crc_reg r) (bytes_bits bytes).
Proof.
  intros Hb. revert r. induction Hb as [|b l Hb Hl IH]; intros r Hr; [reflexivity|].
  change (fcs_feed (b :: l) r) with (fcs_feed l (fcs_calc b r)).
  change (bytes_bits (b :: l)) with (byte_bits b ++ bytes_bits l).
  rewrite IH by (rewrite fcs_calc_crc; apply calc_crc32_is_u).
  rewrite fcs_calc_crc, calc_serial by done. symmetry. apply crc_bits_app.
Qed.

(** ** The trailer *)

(** The registers agree: what every calculation step leaves. *)
Definition fcs_synced (r : fcs_regs) : Prop :=
  is_u 32 (crc_reg r) /\ fcs_byte r = Z.lxor 0xff (reverse_slv 8 (Z.shiftr (crc_reg r) 24)).

Lemma fcs_calc_synced b r : fcs_synced (fcs_calc b r).
Proof.
  split; [rewrite fcs_calc_crc; apply calc_crc32_is_u|].
  unfold fcs_calc, fcs_clock. cbn [andb crc_reg fcs_byte]. reflexivity.
Qed.

Lemma fcs_feed_synced bytes r : bytes <> [] -> fcs_synced (fcs_feed bytes r).
Proof.
  intros Hne. destruct (exists_last Hne) as (l & b & ->).
  unfold fcs_feed. rewrite foldl_app. apply fcs_calc_synced.
Qed.

(** Byte [k] of the complemented register, most significant first, bits
    reversed. *)
Definition trailer_byte (c : Z) (k : Z) : Z :=
  Z.lxor 0xff (reverse_slv 8 (wrap 8 (Z.shiftr c (24 - 8 * k)))).

Lemma shiftr_24_byte c : is_u 32 c -> wrap 8 (Z.shiftr c (24 - 8 * 0)) = Z.shiftr c 24.
Proof.
  intros Hu. apply wrap_small. unfold is_u in *. change (24 - 8 * 0) with 24.
  rewrite Z.shiftr_div_pow2 by lia. split; [apply Z.div_pos; lia|apply Z.div_lt_upper_bound; lia].
Qed.

Lemma fcs_trailer_bytes r :
  fcs_synced r ->
  fcs_trailer r = [trailer_byte (crc_reg r) 0; trailer_byte (crc_reg r) 1;
                   trailer_byte (crc_reg r) 2; trailer_byte (crc_reg r) 3].
Proof.
  intros [Hu Hb]. destruct r as [c b]. cbn [crc_reg fcs_byte] in *. subst b.
  assert (E : forall x k, x = wrap 8 (Z.shiftr c (24 - 8 * k)) ->
    Z.lxor 0xff (reverse_slv 8 x) = trailer_byte c k) by by intros x k ->.
  unfold fcs_trailer, fcs_shift, fcs_clock. cbn [crc_reg fcs_byte andb].
  rewrite (E (Z.shiftr c 24) 0), (E (wrap 8 (Z.shiftr c 16)) 1) by (try done; by rewrite shiftr_24_byte).
  rewrite (E _ 2), (E _ 3); [done| |]; change 255 with (Z.ones 8); zbits_at i.
Qed.

Lemma reverse_slv_8 y : is_u 8 y -> reverse_slv 8 (Z.lxor 0xff (reverse_slv 8 y)) = Z.lxor 0xff y.
Proof.
  intros Hy. unfold reverse_slv. change 0xff with (Z.ones 8). zbits_at i.
  - f_equal. f_equal. lia.
  - by rewrite (testbit_high 8).
Qed.

(** Four steps with the bytes of a word, the high byte first. *)
Definition feed_word (x c : Z) : Z :=
  calc_crc32 (wrap 8 (Z.shiftr x 0)) (calc_crc32 (wrap 8 (Z.shiftr x 8))
    (calc_crc32 (wrap 8 (Z.shiftr x 16)) (calc_crc32 (wrap 8 (Z.shiftr x 24)) c))).

Lemma feed_word_lxor x x' c c' :
  feed_word (Z.lxor x x') (Z.lxor c c') = Z.lxor (feed_word x c) (feed_word x' c').
Proof.
  unfold feed_word. by rewrite !Z.shiftr_lxor, !wrap_lxor, !calc_crc32_lxor by lia.
Qed.

(** A register fed its own contents becomes 0. *)
Lemma feed_word_self c : is_u 32 c -> feed_word c c = 0.
Proof.
  apply (linear_ext 32 (fun c => feed_word c c) (fun _ => 0)).
  - intros x y _ _. apply feed_word_lxor.
  - done.
  - repeat constructor.
Qed.

Lemma feed_trailer r :
  fcs_synced r -> crc_reg (fcs_feed (fcs_trailer r) r) = C_CRC_VERIFY.
Proof.
  intros Hs. rewrite fcs_trailer_bytes by done. destruct Hs as [Hu _].
  unfold fcs_feed, trailer_byte. cbn [foldl]. rewrite !fcs_calc_crc, !reverse_slv_8 by (apply wrap_range; lia).
  transitivity (feed_word (Z.lxor (Z.ones 32) (crc_reg r)) (Z.lxor 0 (crc_reg r))).
  - unfold feed_word. rewrite Z.lxor_0_l, !Z.shiftr_lxor, !wrap_lxor by lia. done.
  - rewrite feed_word_lxor, (feed_word_self _ Hu), Z.lxor_0_r. vm_compute. reflexivity.
Qed.

(** ** Error detection *)

(** Undoing steps: [n <= 32] bits that lead to register 0 are the top bits of
    the register they start from, above zeros. *)
Lemma crc_bits_0 c l :
  is_u 32 c -> (length l <= 32)%nat -> crc_bits c l = 0 ->
  (forall i, 0 <= i < 32 - Z.of_nat (length l) -> Z.testbit c i = false) /\
  (forall j b, l !! j = Some b -> Z.testbit c (31 - Z.of_nat j) = b).
Proof.
  revert c. induction l as [|b l IH]; intros c Hc Hl E.
  - cbn in E. subst c. split; [intros; apply Z.bits_0|done].
  - cbn [length] in *. change (crc_bits (crc_bit c b) l = 0) in E.
    destruct (IH _ (crc_bit_is_u c b) ltac:(lia) E) as [Hlow Htop].
    assert (Hb0 : xorb (Z.testbit c 31) b = false).
    { pose proof (Hlow 0 ltac:(lia)) as H0. unfold crc_bit in H0.
      rewrite Z.lxor_spec, testbit_wrap, testbit_shiftl, (Z.testbit_neg_r c) in H0 by lia.
      cbn in H0. by destruct (xorb _ b). }
    assert (Hs : forall i, 0 <= i < 31 -> Z.testbit c i = Z.testbit (crc_bit c b) (i + 1)).
    { intros i Hi. unfold crc_bit. rewrite Hb0, Z.lxor_0_r, testbit_wrap, testbit_shiftl by lia.
      zcases. cbn [andb]. f_equal. lia. }
    split.
    + intros i Hi. rewrite Hs by lia. apply Hlow. lia.
    + intros [|j] b' Hj.
      * injection Hj as <-. change (31 - Z.of_nat 0) with 31. by destruct (Z.testbit c 31), b.
      * cbn in Hj. pose proof (lookup_lt_Some _ _ _ Hj).
        rewrite Hs by lia. rewrite <- (Htop j b' Hj). f_equal. lia.
Qed.

(** From the same register, at most one of the bursts of up to 32 bits leads to
    a given register. *)
Lemma crc_bits_burst c x y :
  is_u 32 c -> length x = length y -> (length x <= 32)%nat ->
  crc_bits c x = crc_bits c y -> x = y.
Proof.
  intros Hc Hlen Hl E.
  assert (E0 : crc_bits 0 (zip_with xorb x y) = 0).
  { rewrite <- (Z.lxor_nilpotent c) at 1. rewrite crc_bits_lxor, E by done. apply Z.lxor_nilpotent. }
  assert (Hz : (length (zip_with xorb x y) <= 32)%nat) by (rewrite length_zip_with; lia).
  destruct (crc_bits_0 0 _ ltac:(unfold is_u; lia) Hz E0) as [_ Htop].
  apply list_eq_same_length with (n := length x); [done..|].
  intros j b b' Hj Hx Hy. specialize (Htop j (xorb b b')).
  rewrite Z.bits_0, lookup_zip_with, Hx in Htop. cbn in Htop. rewrite Hy in Htop. cbn in Htop.
  specialize (Htop eq_refl). by destruct b, b'.
Qed.

(** Equal continuations keep different registers different. *)
Lemma crc_bits_inj c c' l :
  is_u 32 c -> is_u 32 c' -> crc_bits c l = crc_bits c' l -> c = c'.
Proof.
  revert c c'. induction l as [|b l IH]; intros c c' Hc Hc' E; [done|].
  apply IH in E; [|apply crc_bit_is_u..].
  assert (E0 : crc_bits (Z.lxor c c') [xorb b b] = 0).
  { change (crc_bit (Z.lxor c c') (xorb b b) = 0). rewrite crc_bit_lxor.
    change (crc_bit c b = crc_bit c' b) in E. rewrite E. apply Z.lxor_nilpotent. }
  apply crc_bits_0 in E0 as [Hlow Htop]; [|by apply is_u_lxor|cbn; lia].
  apply lxor_0_iff, Z.bits_inj'. intros i Hi. rewrite Z.bits_0. cbn [length] in Hlow.
  destruct (Z.lt_ge_cases i 31); [apply Hlow; lia|].
  destruct (Z.eq_dec i 31) as [->|].
  - change 31 with (31 - Z.of_nat 0). rewrite (Htop 0%nat _ eq_refl). apply xorb_nilpotent.
  - apply (testbit_high 32); [by apply is_u_lxor|lia].
Qed.

Lemma byte_bits_inj x y : is_u 8 x -> is_u 8 y -> byte_bits x = byte_bits y -> x = y.
Proof.
  intros Hx Hy E. apply Z.bits_inj'. intros i Hi. destruct (Z.lt_ge_cases i 8).
  - pose proof (f_equal (fun l => l !! Z.to_nat i) E) as Ei. cbn beta in Ei. unfold byte_bits in Ei.
    rewrite !list_lookup_fmap, !lookup_seq_lt in Ei by lia. cbn [fmap option_fmap option_map] in Ei.
    injection Ei as Ei. by rewrite Z2Nat.id in Ei by lia.
  - by rewrite !(testbit_high 8).
Qed.

Lemma bytes_bits_inj l l' :
  Forall (is_u 8) l -> Forall (is_u 8) l' -> bytes_bits l = bytes_bits l' -> l = l'.
Proof.
  intros Hl. revert l'. induction Hl as [|b l Hb Hl IH]; intros l' Hl' E.
  - destruct l' as [|b' l']; [done|].
    pose proof (f_equal length E) as El. unfold bytes_bits in El. rewrite fmap_cons in El.
    cbn [concat] in El. rewrite length_app in El. cbn in El. lia.
  - destruct Hl' as [|b' l' Hb' Hl'].
    + pose proof (f_equal length E) as El. unfold bytes_bits in El. rewrite fmap_cons in El.
      cbn [concat] in El. rewrite length_app in El. cbn in El. lia.
    + change (byte_bits b ++ bytes_bits l = byte_bits b' ++ bytes_bits l') in E.
      apply app_inj_1 in E as [Eb El]; [|done]. f_equal; [by apply byte_bits_inj|by apply IH].
Qed.

(** ** Properties *)

(** C20. The generated equations are the CRC-32 of IEEE 802.3: a step of the
    entity with the calculation enabled is eight steps of the bit-serial shift
    register with polynomial 0x04C11DB7, the byte's least significant bit
    first; hence a whole message is its bits in transmission order. *)
Theorem fcs_feed_serial bytes r :
  Forall (is_u 8) bytes -> is_u 32 (crc_reg r) ->
  crc_reg (fcs_feed bytes r) = crc_bits (crc_reg r) (bytes_bits bytes).
Proof. apply fcs_feed_crc. Qed.

(** A received frame passes: after any non-empty message, from any register, and the four bytes
    the entity emits for it, [verify_out] is high. *)
Theorem fcs_trailer_verifies bytes r :
  bytes <> [] ->
  let sent := fcs_feed bytes r in
  verify_out (fcs_feed (bytes ++ fcs_trailer sent) r) = true.
Proof.
  intros Hne sent. unfold verify_out. apply Z.eqb_eq. unfold fcs_feed. rewrite foldl_app.
  apply feed_trailer, fcs_feed_synced, Hne.
Qed.

(** C21. Burst errors are detected: of two different frames that differ only within 32
    consecutive bits of the line (so within four bytes in particular), at most
    one passes the check, whatever the register starts from. *)
Theorem fcs_detects_bursts l l' r a x y b :
  Forall (is_u 8) l -> Forall (is_u 8) l' -> is_u 32 (crc_reg r) ->
  bytes_bits l = a ++ x ++ b -> bytes_bits l' = a ++ y ++ b ->
  length x = length y -> (length x <= 32)%nat ->
  verify_out (fcs_feed l r) = true -> verify_out (fcs_feed l' r) = true -> l = l'.
Proof.
  intros Hl Hl' Hr E E' Hlen H32 V V'. apply Z.eqb_eq in V, V'.
  rewrite fcs_feed_crc, E, !crc_bits_app in V by done.
  rewrite fcs_feed_crc, E', !crc_bits_app in V' by done.
  apply bytes_bits_inj; [done..|]. rewrite E, E'. do 2 f_equal.
  apply (crc_bits_burst (crc_bits (crc_reg r) a)); [by apply crc_bits_is_u|done..|].
  apply (crc_bits_inj _ _ b); [by apply crc_bits_is_u, crc_bits_is_u..|]. by rewrite V, V'.
Qed.

(** ** Witnesses *)
Definition fcs_start : fcs_regs := fcs_clock false true 0 0 false false (FcsRegs 0 0).
Definition demo_bytes : list Z := [0x31; 0x32; 0x33; 0x34; 0x35; 0x36; 0x37; 0x38; 0x39].

(** The check sequence 0xCBF43926 of the standard test message, low byte first. *)
Example demo_trailer : fcs_trailer (fcs_feed demo_bytes fcs_start) = [0x26; 0x39; 0xF4; 0xCB].
Proof. vm_compute. reflexivity. Qed.

Lemma fcs_feed_serial_witness :
  crc_reg (fcs_feed demo_bytes fcs_start) = crc_bits 0xffffffff (bytes_bits demo_bytes).
Proof.
  apply (fcs_feed_serial demo_bytes fcs_start); [|by vm_compute].
  repeat constructor; unfold is_u; lia.
Defined.

Lemma fcs_trailer_verifies_witness :
  verify_out (fcs_feed (demo_bytes ++ fcs_trailer (fcs_feed demo_bytes fcs_start)) fcs_start) = true.
Proof. apply (fcs_trailer_verifies demo_bytes fcs_start). discriminate. Defined.

(** The message with its trailer, and the same with its second byte changed. *)
Definition good_frame : list Z := demo_bytes ++ [0x26; 0x39; 0xF4; 0xCB].
Definition bad_frame : list Z := [0x31; 0x33] ++ drop 2 good_frame.

Lemma fcs_detects_bursts_witness : verify_out (fcs_feed bad_frame fcs_start) <> true.
Proof.
  intros V. enough (good_frame = bad_frame) by discriminate.
  apply (fcs_detects_bursts good_frame bad_frame fcs_start (byte_bits 0x31) (byte_bits 0x32)
           (byte_bits 0x33) (bytes_bits (drop 2 good_frame))).
  - repeat constructor; unfold is_u; lia.
  - repeat constructor; unfold is_u; lia.
  - change (is_u 32 0xffffffff). unfold is_u. lia.
  - reflexivity.
  - reflexivity.
  - reflexivity.
  - cbn. lia.
  - vm_compute. reflexivity.
  - exact V.
Defined.
