(* ===== verification/EthernetFramer.v ===== *)
(** * The Ethernet framer: [ethernet/ethernet_framer.vhd]

    The entity clock by clock: the framing state machine, the output stage with
    its own state machine, and the FCS generator of EthernetFcs.v.  The theorems
    hold for any input on every clock (gaps in the payload, back-pressure): the
    bytes that leave are the frames of the packets that entered, in order, with
    nothing lost, repeated or inserted. *)

From S2P Require Import Prelude.
From S2P Require Import Axis.
From S2P Require Import EthernetFcs.

Definition C_ETHERTYPE_UPPER : Z := 0x08.
Definition C_ETHERTYPE_LOWER_IPV4 : Z := 0x00.
Definition C_ETHERTYPE_LOWER_ARP : Z := 0x06.

Inductive fsm_state_t :=
  | S_IDLE
  | S_DEST_MAC_1 | S_DEST_MAC_2 | S_DEST_MAC_3 | S_DEST_MAC_4 | S_DEST_MAC_5 | S_DEST_MAC_6
  | S_SOURCE_MAC_1 | S_SOURCE_MAC_2 | S_SOURCE_MAC_3 | S_SOURCE_MAC_4 | S_SOURCE_MAC_5
  | S_SOURCE_MAC_6
  | S_ETHERTYPE_1 | S_ETHERTYPE_2
  | S_PAYLOAD
  | S_FCS_1 | S_FCS_2 | S_FCS_3 | S_FCS_4.

(** [fcs_state_t]: the output stage, [Out_FCS_n] for its [S_FCS_n]. *)
Inductive fcs_state_t := S_DATA | Out_FCS_1 | Out_FCS_2 | Out_FCS_3 | Out_FCS_4.

Record framer_regs := FramerRegs {
  framer_state : fsm_state_t;
  fcs_state : fcs_state_t;
  fcs_reset : bool;
  fcs : fcs_regs;
  ethertype_select : bool;
  dest_mac_r : Z;
  framed : axis;
  output : axis
}.

(** The input ports on one rising edge. *)
Record framer_in := FramerIn {
  in_reset : bool;
  enable_in : bool;
  source_mac_in : Z;
  destination_mac_in : Z;
  s_axis : axis;
  s_tuser : bool;
  m_tready : bool
}.

(** Byte [k] of a 48-bit address, the first one on the line being 0. *)
Definition mac_byte (mac : Z) (k : Z) : Z := wrap 8 (Z.shiftr mac (40 - 8 * k)).

Definition output_ready (i : framer_in) (s : framer_regs) : bool :=
  m_tready i || negb (tvalid (output s)).

Definition s_axis_tready_out (i : framer_in) (s : framer_regs) : bool :=
  match framer_state s with S_PAYLOAD => output_ready i s | _ => false end.

(** The framing process: next state and the [framed] register, when
    [output_ready] is high. *)
Definition framer_fsm (i : framer_in) (s : framer_regs) : fsm_state_t * axis :=
  let idle := Axis (tdata (framed s)) false false in
  let put st b := (st, Axis b true false) in
  match framer_state s with
  | S_IDLE => (if tvalid (s_axis i) && enable_in i then S_DEST_MAC_1 else S_IDLE, idle)
  | S_DEST_MAC_1 => put S_DEST_MAC_2 (mac_byte (dest_mac_r s) 0)
  | S_DEST_MAC_2 => put S_DEST_MAC_3 (mac_byte (dest_mac_r s) 1)
  | S_DEST_MAC_3 => put S_DEST_MAC_4 (mac_byte (dest_mac_r s) 2)
  | S_DEST_MAC_4 => put S_DEST_MAC_5 (mac_byte (dest_mac_r s) 3)
  | S_DEST_MAC_5 => put S_DEST_MAC_6 (mac_byte (dest_mac_r s) 4)
  | S_DEST_MAC_6 => put S_SOURCE_MAC_1 (mac_byte (dest_mac_r s) 5)
  | S_SOURCE_MAC_1 => put S_SOURCE_MAC_2 (mac_byte (source_mac_in i) 0)
  | S_SOURCE_MAC_2 => put S_SOURCE_MAC_3 (mac_byte (source_mac_in i) 1)
  | S_SOURCE_MAC_3 => put S_SOURCE_MAC_4 (mac_byte (source_mac_in i) 2)
  | S_SOURCE_MAC_4 => put S_SOURCE_MAC_5 (mac_byte (source_mac_in i) 3)
  | S_SOURCE_MAC_5 => put S_SOURCE_MAC_6 (mac_byte (source_mac_in i) 4)
  | S_SOURCE_MAC_6 => put S_ETHERTYPE_1 (mac_byte (source_mac_in i) 5)
  | S_ETHERTYPE_1 => put S_ETHERTYPE_2 C_ETHERTYPE_UPPER
  | S_ETHERTYPE_2 =>
      put S_PAYLOAD (if ethertype_select s then C_ETHERTYPE_LOWER_ARP else C_ETHERTYPE_LOWER_IPV4)
  | S_PAYLOAD =>
      let last := tvalid (s_axis i) && tlast (s_axis i) in
      (if last then S_FCS_1 else S_PAYLOAD, Axis (tdata (s_axis i)) (tvalid (s_axis i)) last)
  | S_FCS_1 => (S_FCS_2, idle)
  | S_FCS_2 => (S_FCS_3, idle)
  | S_FCS_3 => (S_FCS_4, idle)
  | S_FCS_4 => (S_IDLE, idle)
  end.

(** A packet is started: the inputs latched for its header. *)
Definition starts (i : framer_in) (s : framer_regs) : bool :=
  output_ready i s &&
  match framer_state s with S_IDLE => tvalid (s_axis i) && enable_in i | _ => false end.

(** The output process when [output_ready] is high: its state, [output] and
    [fcs_reset]. *)
Definition output_fsm (s : framer_regs) : fcs_state_t * axis * bool :=
  let fcs_out last := Axis (fcs_byte (fcs s)) true last in
  match fcs_state s with
  | S_DATA =>
      (if tlast (framed s) then Out_FCS_1 else S_DATA,
       Axis (tdata (framed s)) (tvalid (framed s)) false, false)
  | Out_FCS_1 => (Out_FCS_2, fcs_out false, false)
  | Out_FCS_2 => (Out_FCS_3, fcs_out false, false)
  | Out_FCS_3 => (Out_FCS_4, fcs_out false, false)
  | Out_FCS_4 => (S_DATA, fcs_out true, true)
  end.

(** [fcs_en] and [fcs_din_valid] *)
Definition fcs_en (i : framer_in) (s : framer_regs) : bool :=
  match fcs_state s with S_DATA => output_ready i s && tvalid (framed s) | _ => false end.
Definition fcs_din_valid (i : framer_in) (s : framer_regs) : bool :=
  match fcs_state s with S_DATA => output_ready i s && tvalid (framed s) | _ => true end.

Definition fcs_next (i : framer_in) (s : framer_regs) : fcs_regs :=
  fcs_clock false (fcs_reset s) 0 (tdata (framed s))
    (fcs_din_valid i s && output_ready i s) (fcs_en i s && output_ready i s) (fcs s).

(** One rising edge. *)
Definition framer_clock (i : framer_in) (s : framer_regs) : framer_regs :=
  let rdy := output_ready i s in
  let '(fs, fr) := if rdy then framer_fsm i s else (framer_state s, framed s) in
  let '(os, out, frst) :=
    if rdy then output_fsm s else (fcs_state s, output s, fcs_reset s) in
  let gen := fcs_next i s in
  let sel := if starts i s then s_tuser i else ethertype_select s in
  let dst := if starts i s then destination_mac_in i else dest_mac_r s in
  if in_reset i then
    FramerRegs S_IDLE S_DATA true gen false dst (Axis 0 false false) (Axis 0 false false)
  else FramerRegs fs os frst gen sel dst fr out.

(** ** What goes in and what comes out *)

(** The byte taken by the receiver on this edge. *)
Definition emitted (i : framer_in) (s : framer_regs) : list beat :=
  if tvalid (output s) && m_tready i then [(tdata (output s), tlast (output s))] else [].

(** What the packet interface sees of an edge: a packet starts with its
    destination and type, or a payload byte is taken. *)
Inductive packet_event := Start (dst : Z) (arp : bool) | Byte (b : Z) (last : bool).

Definition accepted (i : framer_in) (s : framer_regs) : list packet_event :=
  (if starts i s then [Start (destination_mac_in i) (s_tuser i)] else []) ++
  (if s_axis_tready_out i s && tvalid (s_axis i)
   then [Byte (tdata (s_axis i)) (tlast (s_axis i))] else []).

Fixpoint framer_run (ins : list framer_in) (s : framer_regs)
    : list packet_event * list beat * framer_regs :=
  match ins with
  | [] => ([], [], s)
  | i :: ins' =>
      let '(evs, out, s') := framer_run ins' (framer_clock i s) in
      (accepted i s ++ evs, emitted i s ++ out, s')
  end.

(** ** The frames *)
Definition header (dst src : Z) (arp : bool) : list Z :=
  (mac_byte dst <$> [0; 1; 2; 3; 4; 5]) ++ (mac_byte src <$> [0; 1; 2; 3; 4; 5]) ++
  [C_ETHERTYPE_UPPER; if arp then C_ETHERTYPE_LOWER_ARP else C_ETHERTYPE_LOWER_IPV4].

(** The check sequence of a frame's bytes. *)
Definition fcs_init : fcs_regs := FcsRegs C_INIT_VAL_SLV 0.
Definition frame_fcs (bytes : list Z) : list Z := fcs_trailer (fcs_feed bytes fcs_init).

Definition frame (dst src : Z) (arp : bool) (payload : list Z) : list Z :=
  let body := header dst src arp ++ payload in body ++ frame_fcs body.

(** The output stream that packet events stand for; [cur] is the frame so far
    of the packet under way. *)
Fixpoint frames (src : Z) (cur : list Z) (evs : list packet_event) : list beat :=
  match evs with
  | [] => []
  | Start dst arp :: evs' =>
      data_beats (header dst src arp) ++ frames src (header dst src arp) evs'
  | Byte b false :: evs' => (b, false) :: frames src (cur ++ [b]) evs'
  | Byte b true :: evs' =>
      (b, false) :: last_beats (frame_fcs (cur ++ [b])) ++ frames src [] evs'
  end.

(** ** The state of a frame under way *)

(** Header bytes already put into [framed]; 14 while the payload passes. *)
Definition header_index (st : fsm_state_t) : option nat :=
  match st with
  | S_DEST_MAC_1 => Some 0%nat | S_DEST_MAC_2 => Some 1%nat | S_DEST_MAC_3 => Some 2%nat
  | S_DEST_MAC_4 => Some 3%nat | S_DEST_MAC_5 => Some 4%nat | S_DEST_MAC_6 => Some 5%nat
  | S_SOURCE_MAC_1 => Some 6%nat | S_SOURCE_MAC_2 => Some 7%nat | S_SOURCE_MAC_3 => Some 8%nat
  | S_SOURCE_MAC_4 => Some 9%nat | S_SOURCE_MAC_5 => Some 10%nat | S_SOURCE_MAC_6 => Some 11%nat
  | S_ETHERTYPE_1 => Some 12%nat | S_ETHERTYPE_2 => Some 13%nat | S_PAYLOAD => Some 14%nat
  | _ => None
  end.

Section Framer.
Context (src : Z).

Definition latched_header (s : framer_regs) : list Z :=
  header (dest_mac_r s) src (ethertype_select s).

Definition header_rest (s : framer_regs) : list Z :=
  match header_index (framer_state s) with
  | Some k => drop k (latched_header s)
  | None => []
  end.

(** The check bytes still to be sent. *)
Definition fcs_rest (s : framer_regs) : list Z :=
  match framer_state s, fcs_state s with
  | S_FCS_1, _ => fcs_trailer (fcs_calc (tdata (framed s)) (fcs s))
  | S_FCS_2, _ => fcs_trailer (fcs s)
  | S_FCS_3, _ => take 3 (fcs_trailer (fcs s))
  | S_FCS_4, _ => take 2 (fcs_trailer (fcs s))
  | S_IDLE, Out_FCS_4 => take 1 (fcs_trailer (fcs s))
  | _, _ => []
  end.

(** What will leave without further input. *)
Definition pending (s : framer_regs) : list beat :=
  axis_beats (output s) ++ data_beats (axis_bytes (framed s)) ++
  data_beats (header_rest s) ++ last_beats (fcs_rest s).

(** The generator has seen the bytes [passed] of the frame, or will be reset on
    the next edge before any byte. *)
Definition crc_ok (passed : list Z) (s : framer_regs) : Prop :=
  (fcs_reset s = false /\ crc_reg (fcs s) = crc_reg (fcs_feed passed fcs_init)) \/
  (fcs_reset s = true /\ passed = [] /\ tvalid (framed s) = false).

(** Between the header and the end of the payload, or idle: [cur] is the frame
    so far, header included. *)
Definition body_inv (s : framer_regs) (cur : list Z) : Prop :=
  fcs_state s = S_DATA /\ tlast (framed s) = false /\
  exists passed, cur = passed ++ axis_bytes (framed s) ++ header_rest s /\ crc_ok passed s.

(** While the check bytes go out. *)
Definition tail_inv (st : fcs_state_t) (s : framer_regs) (cur : list Z) : Prop :=
  fcs_state s = st /\ cur = [] /\ fcs_reset s = false /\
  (st <> S_DATA -> tvalid (framed s) = false /\ tlast (framed s) = false).

Definition framer_inv (s : framer_regs) (cur : list Z) : Prop :=
  match framer_state s with
  | S_IDLE => body_inv s [] /\ cur = [] \/ tail_inv Out_FCS_4 s cur
  | S_FCS_1 => tail_inv S_DATA s cur /\ tvalid (framed s) = true /\ tlast (framed s) = true
  | S_FCS_2 => tail_inv Out_FCS_1 s cur
  | S_FCS_3 => tail_inv Out_FCS_2 s cur
  | S_FCS_4 => tail_inv Out_FCS_3 s cur
  | _ => body_inv s cur
  end.

(** The frame so far after some events. *)
Fixpoint cur_after (cur : list Z) (evs : list packet_event) : list Z :=
  match evs with
  | [] => cur
  | Start dst arp :: evs' => cur_after (header dst src arp) evs'
  | Byte b false :: evs' => cur_after (cur ++ [b]) evs'
  | Byte b true :: evs' => cur_after [] evs'
  end.

Lemma frames_app cur e1 e2 :
  frames src cur (e1 ++ e2) = frames src cur e1 ++ frames src (cur_after cur e1) e2.
Proof.
  revert cur. induction e1 as [|[dst arp|b []] e1 IH]; intros cur; [done|..];
    cbn [frames cur_after app]; by rewrite IH, ?app_assoc, ?app_comm_cons.
Qed.

Lemma cur_after_app cur e1 e2 : cur_after cur (e1 ++ e2) = cur_after (cur_after cur e1) e2.
Proof. revert cur. induction e1 as [|[dst arp|b []] e1 IH]; intros cur; cbn; auto. Qed.

(** ** One edge *)

Lemma clock_ready i s :
  in_reset i = false -> output_ready i s = true ->
  framer_clock i s =
    FramerRegs (framer_fsm i s).1 (output_fsm s).1.1 (output_fsm s).2 (fcs_next i s)
      (if starts i s then s_tuser i else ethertype_select s)
      (if starts i s then destination_mac_in i else dest_mac_r s)
      (framer_fsm i s).2 (output_fsm s).1.2.
Proof.
  intros Hr Hrdy. unfold framer_clock. rewrite Hr, Hrdy.
  destruct (framer_fsm i s) as [fs fr]. destruct (output_fsm s) as [[os out] frst]. done.
Qed.

Lemma clock_held i s :
  in_reset i = false -> output_ready i s = false ->
  framer_clock i s =
    FramerRegs (framer_state s) (fcs_state s) (fcs_reset s) (fcs_next i s)
      (ethertype_select s) (dest_mac_r s) (framed s) (output s).
Proof. intros Hr Hrdy. unfold framer_clock, starts. by rewrite Hr, Hrdy. Qed.

Lemma fcs_next_held i s :
  output_ready i s = false ->
  fcs_next i s = if fcs_reset s then FcsRegs C_INIT_VAL_SLV (fcs_byte (fcs s)) else fcs s.
Proof.
  intros Hrdy. unfold fcs_next, fcs_clock. rewrite Hrdy, !andb_false_r. by destruct (fcs_reset s).
Qed.

Lemma emitted_held i s : output_ready i s = false -> emitted i s = [].
Proof.
  unfold output_ready, emitted. intros H. apply orb_false_iff in H as [-> _]. by rewrite andb_false_r.
Qed.

Lemma emitted_ready i s : output_ready i s = true -> emitted i s = axis_beats (output s).
Proof.
  unfold output_ready, emitted, axis_beats. destruct (tvalid (output s)); [|done].
  cbn. rewrite orb_false_r. by intros ->.
Qed.

Lemma accepted_held i s : output_ready i s = false -> accepted i s = [].
Proof. intros H. unfold accepted, starts, s_axis_tready_out. rewrite H. by destruct (framer_state s). Qed.

(** The generator with the output stage in [S_DATA], and past it. *)
Lemma fcs_next_data i s :
  fcs_state s = S_DATA -> output_ready i s = true ->
  fcs_next i s =
    if fcs_reset s then FcsRegs C_INIT_VAL_SLV (fcs_byte (fcs s))
    else if tvalid (framed s) then fcs_calc (tdata (framed s)) (fcs s) else fcs s.
Proof.
  intros Hs Hrdy. unfold fcs_next, fcs_din_valid, fcs_en, fcs_calc, fcs_clock.
  rewrite Hs, Hrdy, !andb_true_r, !andb_true_l. cbn [negb andb].
  by destruct (fcs_reset s), (tvalid (framed s)).
Qed.

Lemma fcs_next_shift i s :
  fcs_state s <> S_DATA -> fcs_reset s = false -> output_ready i s = true ->
  fcs_next i s = fcs_shift (fcs s).
Proof.
  intros Hs Hr Hrdy. unfold fcs_next, fcs_din_valid, fcs_en, fcs_shift, fcs_clock.
  rewrite Hr, Hrdy. by destruct (fcs_state s).
Qed.

Lemma fcs_calc_ext b r r' : crc_reg r = crc_reg r' -> fcs_calc b r = fcs_calc b r'.
Proof. intros E. unfold fcs_calc, fcs_clock. by rewrite E. Qed.

Lemma fcs_feed_snoc l b r : fcs_feed (l ++ [b]) r = fcs_calc b (fcs_feed l r).
Proof. unfold fcs_feed. by rewrite foldl_app. Qed.

Lemma crc_ok_next i s passed :
  fcs_state s = S_DATA -> output_ready i s = true -> crc_ok passed s ->
  crc_reg (fcs_next i s) = crc_reg (fcs_feed (passed ++ axis_bytes (framed s)) fcs_init).
Proof.
  intros Hs Hrdy Hok. rewrite fcs_next_data by done. unfold axis_bytes.
  destruct Hok as [[-> E]|(-> & -> & ->)]; [|done].
  destruct (tvalid (framed s)); [|by rewrite app_nil_r].
  rewrite fcs_feed_snoc. by rewrite (fcs_calc_ext _ _ _ E).
Qed.

Lemma framer_step_held i s cur :
  in_reset i = false -> output_ready i s = false -> framer_inv s cur ->
  pending (framer_clock i s) = pending s /\ framer_inv (framer_clock i s) cur.
Proof.
  intros Hr Hrdy Hinv. rewrite clock_held, fcs_next_held by done.
  destruct s as [st os frst gen sel dst fr out]. cbn [fcs_reset fcs] in *.
  destruct frst; [|by split]. cbn [framer_state fcs_state fcs ethertype_select dest_mac_r framed output fcs_byte].
  assert (Hb : forall c, body_inv (FramerRegs st os true gen sel dst fr out) c ->
            body_inv (FramerRegs st os true (FcsRegs C_INIT_VAL_SLV (fcs_byte gen)) sel dst fr out) c).
  { intros c (H1 & H2 & passed & H3 & [[H4 _]|H4]); [discriminate|].
    split; [done|]. split; [done|]. exists passed. split; [done|]. by right. }
  assert (Ht : forall o c, ~ tail_inv o (FramerRegs st os true gen sel dst fr out) c).
  { by intros o c (_ & _ & H & _). }
  assert (Hd : framer_inv (FramerRegs st os true gen sel dst fr out) cur -> os = S_DATA /\
             match st with S_FCS_1 | S_FCS_2 | S_FCS_3 | S_FCS_4 => False | _ => True end).
  { unfold framer_inv. cbn [framer_state].
    destruct st; intros H; try (exfalso; eapply Ht; (apply H || apply (proj1 H)); fail);
      try (split; [apply H|done]). destruct H as [[H _]|H]; [split; [apply H|done]|by apply Ht in H]. }
  destruct (Hd Hinv) as [-> Hst]. split.
  - unfold pending, header_rest, fcs_rest, latched_header.
    cbn [framer_state fcs_state framed output dest_mac_r ethertype_select].
    destruct st; try (exfalso; exact Hst); reflexivity.
  - unfold framer_inv in *. cbn [framer_state] in *.
    destruct st; try done; try (by apply Hb). destruct Hinv as [[H ->]|H]; [|by apply Ht in H].
    left. by split; [apply Hb|].
Qed.

(** [framer_state] while a header byte is put out. *)
Lemma fsm_header i s k :
  source_mac_in i = src -> header_index (framer_state s) = Some k -> (k < 14)%nat ->
  exists b, framer_fsm i s = ((framer_fsm i s).1, Axis b true false) /\
    drop k (latched_header s) = b :: drop (S k) (latched_header s) /\
    header_index (framer_fsm i s).1 = Some (S k) /\ starts i s = false /\ accepted i s = [].
Proof.
  intros Hsrc Hk Hlt. unfold accepted, framer_fsm, starts, s_axis_tready_out, latched_header. rewrite Hsrc.
  destruct (framer_state s); try discriminate Hk; injection Hk as <-; try lia; clear Hlt;
    rewrite ?andb_false_r; eexists; (split; [reflexivity|]);
    repeat split; reflexivity.
Qed.

Lemma framer_inv_body s cur k :
  header_index (framer_state s) = Some k -> framer_inv s cur <-> body_inv s cur.
Proof. unfold framer_inv. by destruct (framer_state s). Qed.

Lemma fcs_rest_body s k : header_index (framer_state s) = Some k -> fcs_rest s = [].
Proof. unfold fcs_rest. by destruct (framer_state s). Qed.

Lemma output_data s :
  fcs_state s = S_DATA -> tlast (framed s) = false ->
  output_fsm s = (S_DATA, Axis (tdata (framed s)) (tvalid (framed s)) false, false).
Proof. intros Hs Hl. unfold output_fsm. by rewrite Hs, Hl. Qed.

Lemma framer_step_header i s cur k :
  in_reset i = false -> source_mac_in i = src -> output_ready i s = true ->
  header_index (framer_state s) = Some k -> (k < 14)%nat -> framer_inv s cur ->
  accepted i s = [] /\
  emitted i s ++ pending (framer_clock i s) = pending s /\ framer_inv (framer_clock i s) cur.
Proof.
  intros Hr Hsrc Hrdy Hk Hlt Hinv. apply (framer_inv_body _ _ _ Hk) in Hinv.
  destruct Hinv as (Hs & Hl & passed & Hcur & Hok).
  destruct (fsm_header i s k Hsrc Hk Hlt) as (b & Hf & Hd & Hk' & Hst & Hacc).
  pose proof (crc_ok_next i s passed Hs Hrdy Hok) as Hcrc.
  split; [done|]. rewrite emitted_ready, clock_ready, Hst, Hf, output_data by done.
  cbn [fst snd]. set (s' := FramerRegs _ _ _ _ _ _ _ _).
  assert (Hrest : header_rest s' = drop (S k) (latched_header s)).
  { unfold header_rest. unfold s' at 1. cbn [framer_state]. by rewrite Hk'. }
  assert (Hrest0 : header_rest s = b :: header_rest s').
  { rewrite Hrest. unfold header_rest. by rewrite Hk, Hd. }
  split.
  - unfold pending. rewrite Hrest0, (fcs_rest_body s k Hk), (fcs_rest_body s' (S k) Hk').
    f_equal. unfold s'. cbn [output framed]. by rewrite axis_beats_data.
  - apply (framer_inv_body s' cur (S k) Hk'). split; [done|]. split; [done|].
    exists (passed ++ axis_bytes (framed s)). split; [|by left].
    rewrite Hcur, Hrest0. by rewrite <- app_assoc.
Qed.

Lemma framer_step_payload i s cur :
  in_reset i = false -> output_ready i s = true -> framer_state s = S_PAYLOAD -> framer_inv s cur ->
  emitted i s ++ pending (framer_clock i s) = pending s ++ frames src cur (accepted i s) /\
  framer_inv (framer_clock i s) (cur_after cur (accepted i s)).
Proof.
  intros Hr Hrdy Hk Hinv. unfold framer_inv in Hinv. rewrite Hk in Hinv.
  destruct Hinv as (Hs & Hl & passed & Hcur & Hok).
  pose proof (crc_ok_next i s passed Hs Hrdy Hok) as Hcrc.
  assert (Hst : starts i s = false) by (unfold starts; by rewrite Hk, andb_false_r).
  assert (Hrest : header_rest s = []).
  { unfold header_rest. rewrite Hk. reflexivity. }
  rewrite Hrest, app_nil_r in Hcur. rewrite <- Hcur in Hcrc.
  assert (Hpend : pending s = axis_beats (output s) ++ data_beats (axis_bytes (framed s))).
  { unfold pending. rewrite Hrest, (fcs_rest_body s 14) by by rewrite Hk. by rewrite app_nil_r. }
  rewrite emitted_ready, clock_ready, Hst, output_data, Hpend by done. cbn [fst snd].
  unfold accepted, s_axis_tready_out, framer_fsm. rewrite Hst, Hk, Hrdy. cbn [app andb].
  destruct (s_axis i) as [b [] last]; cbn [tvalid tdata tlast andb fst snd].
  - destruct last; cbn [frames cur_after app].
    + split; [|by repeat split].
      unfold pending. cbn [output framed]. rewrite axis_beats_data, <- !app_assoc. do 2 f_equal.
      cbn [axis_bytes tvalid tdata data_beats fmap list_fmap app]. f_equal.
      unfold header_rest, fcs_rest. cbn [framer_state header_index framed fcs tdata]. cbn [data_beats fmap list_fmap app].
      rewrite app_nil_r. unfold frame_fcs. rewrite fcs_feed_snoc. do 2 f_equal. by apply fcs_calc_ext.
    + split.
      * unfold pending. cbn [output framed]. by rewrite axis_beats_data, <- !app_assoc.
      * split; [done|]. split; [done|]. exists cur. split; [|by left]. done.
  - cbn [frames cur_after]. rewrite app_nil_r. split.
    + unfold pending. cbn [output framed]. rewrite axis_beats_data. f_equal. exact (app_nil_r _).
    + split; [done|]. split; [done|]. exists cur. split; [|by left]. by rewrite app_nil_r.
Qed.

(** Between frames; the last check byte of the frame before may be on its way. *)
Lemma framer_step_idle i s cur :
  in_reset i = false -> output_ready i s = true -> framer_state s = S_IDLE -> framer_inv s cur ->
  emitted i s ++ pending (framer_clock i s) = pending s ++ frames src cur (accepted i s) /\
  framer_inv (framer_clock i s) (cur_after cur (accepted i s)).
Proof.
  intros Hr Hrdy Hk Hinv. unfold framer_inv in Hinv. rewrite Hk in Hinv.
  assert (Hacc : accepted i s = if tvalid (s_axis i) && enable_in i
            then [Start (destination_mac_in i) (s_tuser i)] else []).
  { unfold accepted, starts, s_axis_tready_out. rewrite Hk, Hrdy. cbn [andb].
    by destruct (_ && _). }
  assert (Hst : starts i s = tvalid (s_axis i) && enable_in i).
  { unfold starts. by rewrite Hk, Hrdy. }
  assert (Hf : framer_fsm i s = (if tvalid (s_axis i) && enable_in i then S_DEST_MAC_1 else S_IDLE,
                                 Axis (tdata (framed s)) false false)).
  { unfold framer_fsm. by rewrite Hk. }
  rewrite emitted_ready, clock_ready, Hf, Hst, Hacc by done. cbn [fst snd].
  assert (Hgoal : forall out frst,
    pending s = axis_beats (output s) ++ axis_beats out -> cur = [] ->
    (frst = true \/ crc_reg (fcs_next i s) = C_INIT_VAL_SLV /\ frst = false) ->
    let start := tvalid (s_axis i) && enable_in i in
    let s' := FramerRegs (if start then S_DEST_MAC_1 else S_IDLE) S_DATA frst (fcs_next i s)
                (if start then s_tuser i else ethertype_select s)
                (if start then destination_mac_in i else dest_mac_r s)
                (Axis (tdata (framed s)) false false) out in
    let evs := if start then [Start (destination_mac_in i) (s_tuser i)] else [] in
    axis_beats (output s) ++ pending s' = pending s ++ frames src cur evs /\
    framer_inv s' (cur_after cur evs)).
  { intros out frst Hp -> Hc start s' evs. rewrite Hp, <- app_assoc.
    assert (Hok : forall t, t = s' -> crc_ok [] t).
    { intros t ->. destruct Hc as [->|[Hc ->]]; [by right|by left]. }
    unfold s', evs in *. destruct start; cbn [frames cur_after].
    - split; [|by repeat split; exists []; split; [|apply Hok]].
      rewrite !app_nil_r. unfold pending. cbn [output framed axis_bytes tvalid data_beats fmap list_fmap app].
      reflexivity.
    - rewrite app_nil_r. split.
      + unfold pending. cbn [output framed]. f_equal. exact (app_nil_r _).
      + left. split; [|done]. split; [done|]. split; [done|]. exists []. by split; [|apply Hok]. }
  destruct Hinv as [[(Hs & Hl & passed & Hcur & Hok) ->]|(Hs & -> & Hfr & Hv)].
  - symmetry in Hcur. apply app_eq_nil in Hcur as [-> Hcur]. apply app_eq_nil in Hcur as [Hfb _].
    pose proof (crc_ok_next i s [] Hs Hrdy Hok) as Hcrc. rewrite Hfb in Hcrc.
    rewrite output_data by done. cbn [fst snd]. apply Hgoal; [|done|by right].
    unfold pending, header_rest, fcs_rest. rewrite Hk, Hs, Hfb, axis_beats_data, Hfb. done.
  - destruct (Hv ltac:(discriminate)) as [Hv1 Hv2].
    unfold output_fsm. rewrite Hs. cbn [fst snd]. apply Hgoal; [|done|by left].
    unfold pending, header_rest, fcs_rest, axis_bytes. rewrite Hk, Hs, Hv1. reflexivity.
Qed.

(** The check bytes. *)
Lemma framer_step_tail i s cur :
  in_reset i = false -> output_ready i s = true ->
  match framer_state s with S_FCS_1 | S_FCS_2 | S_FCS_3 | S_FCS_4 => True | _ => False end ->
  framer_inv s cur ->
  accepted i s = [] /\
  emitted i s ++ pending (framer_clock i s) = pending s /\ framer_inv (framer_clock i s) cur.
Proof.
  intros Hr Hrdy Hk Hinv.
  assert (Hst : starts i s = false) by (unfold starts; destruct (framer_state s); by rewrite ?andb_false_r).
  split.
  { unfold accepted, s_axis_tready_out. rewrite Hst. by destruct (framer_state s). }
  rewrite emitted_ready, clock_ready, Hst by done. unfold framer_inv in Hinv.
  assert (Hfirst : forall r, fcs_trailer r = fcs_byte r :: take 3 (fcs_trailer (fcs_shift r))) by done.
  assert (Htake : forall (l : list Z) a n, take (S n) (a :: l) = a :: take n l) by done.
  destruct (framer_state s) eqn:E; try done;
    unfold framer_fsm, output_fsm, pending, header_rest, fcs_rest, framer_inv, tail_inv in *;
    rewrite E; cbn [fst snd framer_state fcs_state framed output header_index fcs tlast tvalid fcs_reset].
  - destruct Hinv as ((Hs & -> & Hfr & _) & Hv & Hl). rewrite Hs, Hl. cbn [fst snd].
    rewrite fcs_next_data, Hfr, Hv by done. split; [|by repeat split].
    unfold axis_bytes, axis_beats. cbn [tvalid tdata tlast]. rewrite Hv. reflexivity.
  - destruct Hinv as (Hs & -> & Hfr & Hv). destruct (Hv ltac:(discriminate)) as [Hv1 Hv2].
    rewrite Hs. cbn [fst snd]. rewrite fcs_next_shift by (done || by rewrite Hs).
    split; [|by repeat split]. unfold axis_bytes. rewrite Hv1. reflexivity.
  - destruct Hinv as (Hs & -> & Hfr & Hv). destruct (Hv ltac:(discriminate)) as [Hv1 Hv2].
    rewrite Hs. cbn [fst snd]. rewrite fcs_next_shift by (done || by rewrite Hs).
    split; [|by repeat split]. unfold axis_bytes. rewrite Hv1. reflexivity.
  - destruct Hinv as (Hs & -> & Hfr & Hv). destruct (Hv ltac:(discriminate)) as [Hv1 Hv2].
    rewrite Hs. cbn [fst snd]. rewrite fcs_next_shift by (done || by rewrite Hs).
    split; [|right; by repeat split]. unfold axis_bytes. rewrite Hv1. reflexivity.
Qed.

(** One edge, whatever the state and the inputs. *)
Lemma framer_edge i s cur :
  in_reset i = false -> source_mac_in i = src -> framer_inv s cur ->
  emitted i s ++ pending (framer_clock i s) = pending s ++ frames src cur (accepted i s) /\
  framer_inv (framer_clock i s) (cur_after cur (accepted i s)).
Proof.
  intros Hr Hsrc Hinv. destruct (output_ready i s) eqn:Hrdy.
  - destruct (header_index (framer_state s)) as [k|] eqn:Hk.
    + destruct (Nat.lt_ge_cases k 14).
      * destruct (framer_step_header i s cur k) as (-> & Hp & Hi); try done.
        cbn [frames cur_after]. by rewrite app_nil_r.
      * assert (framer_state s = S_PAYLOAD) as E.
        { destruct (framer_state s); try discriminate Hk; injection Hk as <-; try lia. done. }
        by apply framer_step_payload.
    + destruct (framer_state s) eqn:E; try discriminate Hk; [by apply framer_step_idle|..];
        (destruct (framer_step_tail i s cur) as (-> & Hp & Hi); [done|done|by rewrite E|done|]);
        cbn [frames cur_after]; by rewrite app_nil_r.
  - destruct (framer_step_held i s cur Hr Hrdy Hinv) as [Hp Hi].
    rewrite emitted_held, accepted_held by done. cbn [frames cur_after app]. by rewrite app_nil_r, Hp.
Qed.

(** Any number of edges. *)
Lemma framer_run_step ins s cur :
  Forall (fun i => in_reset i = false /\ source_mac_in i = src) ins -> framer_inv s cur ->
  let '(evs, out, s') := framer_run ins s in
  out ++ pending s' = pending s ++ frames src cur evs /\ framer_inv s' (cur_after cur evs).
Proof.
  intros Hins. revert s cur. induction Hins as [|i ins [Hr Hsrc] _ IH]; intros s cur Hinv.
  - cbn. by rewrite app_nil_r.
  - cbn [framer_run]. destruct (framer_edge i s cur Hr Hsrc Hinv) as [Hp Hi].
    specialize (IH _ _ Hi). destruct (framer_run ins (framer_clock i s)) as [[evs out] s'].
    destruct IH as [IH1 IH2]. rewrite frames_app. split.
    + by rewrite <- app_assoc, IH1, app_assoc, Hp, app_assoc.
    + by rewrite cur_after_app.
Qed.

Lemma framer_inv_reset i s :
  in_reset i = true -> framer_inv (framer_clock i s) [] /\ pending (framer_clock i s) = [].
Proof.
  intros Hr. unfold framer_clock. rewrite Hr.
  destruct (if output_ready i s then framer_fsm i s else _) as [fs fr].
  destruct (if output_ready i s then output_fsm s else _) as [[os out] frst].
  split; [|reflexivity]. left. split; [|done]. split; [done|]. split; [done|].
  exists []. split; [done|]. by right.
Qed.

(** ** Draining: how many ready edges until everything has left *)
Definition rank (s : framer_regs) : nat :=
  match framer_state s with
  | S_FCS_1 => 6 | S_FCS_2 => 5 | S_FCS_3 => 4 | S_FCS_4 => 3
  | _ =>
      match fcs_state s, header_index (framer_state s) with
      | Out_FCS_4, _ => 2
      | _, Some k =>
          if (k <? 14)%nat then 16 - k
          else if tvalid (framed s) then 2 else if tvalid (output s) then 1 else 0
      | _, None => if tvalid (framed s) then 2 else if tvalid (output s) then 1 else 0
      end
  end.

Lemma rank_le s : (rank s <= 16)%nat.
Proof.
  unfold rank. destruct (framer_state s), (fcs_state s), (tvalid (framed s)), (tvalid (output s));
    cbn; lia.
Qed.

Lemma rank_0 s cur : framer_inv s cur -> rank s = 0%nat -> pending s = [].
Proof.
  unfold framer_inv, rank, pending, header_rest, fcs_rest, axis_beats, axis_bytes.
  destruct (framer_state s); cbn [header_index]; try discriminate;
    try (intros (Hs & _); rewrite Hs; cbn; try lia);
    try (destruct (tvalid (framed s)), (tvalid (output s)); try discriminate; reflexivity).
  intros [[(Hs & _) _]|(Hs & _)]; rewrite Hs; [|discriminate].
  destruct (tvalid (framed s)), (tvalid (output s)); try discriminate; reflexivity.
Qed.

Lemma rank_step i s cur :
  in_reset i = false -> tvalid (s_axis i) = false -> framer_inv s cur ->
  (rank (framer_clock i s) <= if m_tready i then pred (rank s) else rank s)%nat.
Proof.
  intros Hr Hv Hinv. destruct (output_ready i s) eqn:Hrdy.
  - assert (Hp : (rank (framer_clock i s) <= pred (rank s))%nat); [|destruct (m_tready i); lia].
    rewrite clock_ready by done. unfold framer_inv, body_inv, tail_inv in Hinv.
    generalize (fcs_next i s) (if starts i s then s_tuser i else ethertype_select s)
      (if starts i s then destination_mac_in i else dest_mac_r s). intros gen sel dst.
    unfold framer_fsm, output_fsm. rewrite Hv. generalize (fcs_byte (fcs s)). intros fb.
    destruct s as [st os frst g sel0 dst0 fr out].
    cbn [framer_state fcs_state fcs_reset framed output ethertype_select dest_mac_r fcs] in *.
    destruct st;
      repeat match type of Hinv with
      | _ \/ _ => destruct Hinv as [Hinv|Hinv]
      | _ /\ _ => let H := fresh in destruct Hinv as [H Hinv]
      end; destruct_and?; subst os;
      repeat match goal with H : tlast fr = _ |- _ => rewrite H end;
      cbn; try lia; destruct (tvalid fr), (tvalid out); cbn; lia.
  - rewrite clock_held by done. unfold output_ready in Hrdy.
    apply orb_false_iff in Hrdy as [-> _]. done.
Qed.

Lemma framer_drains ins s cur :
  Forall (fun i => in_reset i = false /\ source_mac_in i = src /\ tvalid (s_axis i) = false) ins ->
  framer_inv s cur -> (rank s <= length (filter (fun i => m_tready i = true) ins))%nat ->
  pending (framer_run ins s).2 = [].
Proof.
  intros Hins. revert s cur. induction Hins as [|i ins (Hr & Hsrc & Hv) _ IH]; intros s cur Hinv Hn.
  - cbn in *. apply (rank_0 s cur Hinv). lia.
  - destruct (framer_edge i s cur Hr Hsrc Hinv) as [_ Hi].
    pose proof (rank_step i s cur Hr Hv Hinv) as Hk. rewrite filter_cons in Hn.
    assert (Hle : (rank (framer_clock i s) <= length (filter (fun i => m_tready i = true) ins))%nat).
    { destruct (m_tready i); [rewrite decide_True in Hn by done; cbn in Hn; lia|].
      rewrite decide_False in Hn by done. lia. }
    specialize (IH _ _ Hi Hle). cbn [framer_run].
    by destruct (framer_run ins (framer_clock i s)) as [[evs out] s'].
Qed.
End Framer.

(** ** Packets *)
Record packet := Packet { pkt_dst : Z; pkt_arp : bool; pkt_payload : list Z }.

Definition packet_events (p : packet) : list packet_event :=
  Start (pkt_dst p) (pkt_arp p) ::
  ((fun bl => Byte bl.1 bl.2) <$> last_beats (pkt_payload p)).

Definition packet_frame (src : Z) (p : packet) : list Z :=
  frame (pkt_dst p) src (pkt_arp p) (pkt_payload p).

Lemma frames_data src cur l evs :
  frames src cur (((fun bl => Byte bl.1 bl.2) <$> data_beats l) ++ evs) =
  data_beats l ++ frames src (cur ++ l) evs.
Proof.
  revert cur. induction l as [|b l IH]; intros cur.
  - by rewrite app_nil_r.
  - cbn. cbn in IH. rewrite IH. by rewrite <- app_assoc.
Qed.

Lemma frames_packet src cur p evs :
  pkt_payload p <> [] ->
  frames src cur (packet_events p ++ evs) = last_beats (packet_frame src p) ++ frames src [] evs.
Proof.
  intros Hne. destruct p as [dst arp payload]. cbn [pkt_payload] in Hne.
  destruct (exists_last Hne) as (l & b & ->). unfold packet_events, packet_frame, frame.
  cbn [pkt_dst pkt_arp pkt_payload]. rewrite last_beats_snoc, fmap_app, <- app_comm_cons. cbn [frames].
  rewrite <- app_assoc, frames_data. cbn [fmap list_fmap app fst snd frames].
  rewrite (last_beats_app (header dst src arp ++ l ++ [b])) by done.
  rewrite !data_beats_app, <- !app_assoc. reflexivity.
Qed.

Lemma frames_packets src cur ps :
  Forall (fun p => pkt_payload p <> []) ps ->
  frames src cur (concat (packet_events <$> ps)) = concat ((fun p => last_beats (packet_frame src p)) <$> ps).
Proof.
  intros Hps. revert cur. induction Hps as [|p ps Hp _ IH]; intros cur; [done|].
  cbn [fmap list_fmap concat]. rewrite frames_packet by done. f_equal. apply IH.
Qed.

Lemma quiet_events ins s :
  Forall (fun i => tvalid (s_axis i) = false) ins -> (framer_run ins s).1.1 = [].
Proof.
  intros H. revert s. induction H as [|i ins Hv _ IH]; intros s; [done|]. cbn [framer_run].
  specialize (IH (framer_clock i s)). destruct (framer_run ins _) as [[evs out] s'].
  cbn in *. subst evs. unfold accepted, starts. rewrite Hv, andb_false_r.
  by destruct (framer_state s); rewrite ?andb_false_r.
Qed.

Lemma framer_run_app ins1 ins2 s :
  framer_run (ins1 ++ ins2) s =
    let '(evs1, out1, s1) := framer_run ins1 s in
    let '(evs2, out2, s2) := framer_run ins2 s1 in (evs1 ++ evs2, out1 ++ out2, s2).
Proof.
  revert s. induction ins1 as [|i ins1 IH]; intros s; cbn [framer_run app].
  - by destruct (framer_run ins2 s) as [[evs2 out2] s2].
  - rewrite IH. destruct (framer_run ins1 _) as [[evs1 out1] s1].
    destruct (framer_run ins2 s1) as [[evs2 out2] s2]. by rewrite !app_assoc.
Qed.

Definition quiet_in (src : Z) (i : framer_in) : Prop :=
  in_reset i = false /\ source_mac_in i = src /\ tvalid (s_axis i) = false.
Definition ready_count (ins : list framer_in) : nat := length (filter (fun i => m_tready i = true) ins).

Lemma framer_sends src i0 s0 ins ps quiet :
  in_reset i0 = true ->
  Forall (fun i => in_reset i = false /\ source_mac_in i = src) ins ->
  Forall (fun p => pkt_payload p <> []) ps ->
  Forall (quiet_in src) quiet -> (16 <= ready_count quiet)%nat ->
  (framer_run ins (framer_clock i0 s0)).1.1 = concat (packet_events <$> ps) ->
  (framer_run (ins ++ quiet) (framer_clock i0 s0)).1.2 =
    concat ((fun p => last_beats (packet_frame src p)) <$> ps).
Proof.
  intros Hr Hins Hps Hq Hn Hev. destruct (framer_inv_reset src i0 s0 Hr) as [Hinv Hp0].
  pose proof (framer_run_step src ins _ [] Hins Hinv) as H1. rewrite framer_run_app.
  destruct (framer_run ins (framer_clock i0 s0)) as [[evs out] s1]. cbn [fst] in Hev. subst evs.
  destruct H1 as [Hout Hinv1]. rewrite Hp0, app_nil_l, frames_packets in Hout by done.
  pose proof (framer_drains src quiet s1 _ Hq Hinv1 (Nat.le_trans _ _ _ (rank_le s1) Hn)) as Hd.
  assert (Hq' : Forall (fun i => in_reset i = false /\ source_mac_in i = src) quiet).
  { eapply Forall_impl; [exact Hq|]. unfold quiet_in. tauto. }
  assert (Hev2 : (framer_run quiet s1).1.1 = []).
  { apply quiet_events. eapply Forall_impl; [exact Hq|]. unfold quiet_in. tauto. }
  pose proof (framer_run_step src quiet s1 _ Hq' Hinv1) as H2.
  destruct (framer_run quiet s1) as [[evs2 out2] s2]. cbn [fst snd] in *. subst evs2.
  destruct H2 as [H2 _]. rewrite Hd, app_nil_r in H2. cbn [frames] in H2. rewrite app_nil_r in H2.
  by rewrite H2.
Qed.

(** ** Properties *)

(** C11. Everything that goes in comes out framed, whatever the gaps, the
    back-pressure and the state before the reset: when the bytes taken since the
    reset make up the packets [ps], what has been sent is the beginning of their
    frames (destination, source, type, payload, check sequence, [tlast] on the
    last byte), and after at most 16 more edges on which the receiver is ready
    it is all of them. *)
Theorem framer_delivers src i0 s0 ins ps quiet :
  in_reset i0 = true ->
  Forall (fun i => in_reset i = false /\ source_mac_in i = src) ins ->
  Forall (fun p => pkt_payload p <> []) ps ->
  (framer_run ins (framer_clock i0 s0)).1.1 = concat (packet_events <$> ps) ->
  (framer_run ins (framer_clock i0 s0)).1.2 `prefix_of`
    concat ((fun p => last_beats (packet_frame src p)) <$> ps) /\
  (Forall (quiet_in src) quiet -> (16 <= ready_count quiet)%nat ->
   (framer_run (ins ++ quiet) (framer_clock i0 s0)).1.2 =
     concat ((fun p => last_beats (packet_frame src p)) <$> ps)).
Proof.
  intros Hr Hins Hps Hev. split; [|intros; by apply framer_sends].
  destruct (framer_inv_reset src i0 s0 Hr) as [Hinv Hp0].
  pose proof (framer_run_step src ins _ [] Hins Hinv) as H.
  destruct (framer_run ins (framer_clock i0 s0)) as [[evs out] s1]. cbn [fst] in *. subst evs.
  destruct H as [Hout _]. rewrite Hp0, app_nil_l, frames_packets in Hout by done.
  eexists. symmetry. exact Hout.
Qed.

(** ** Witness: a packet of four bytes, offered with gaps, to a receiver that
    is ready every other edge *)
Definition demo_dst : Z := 0xFFFFFFFFFFFF.
Definition demo_src : Z := 0x020000000001.

Definition demo_in (offer : axis) (ready : bool) : framer_in :=
  FramerIn false true demo_src demo_dst offer false ready.
Definition no_offer : axis := Axis 0 false false.

Definition demo_reset : framer_in := FramerIn true false 0 0 no_offer false false.
Definition demo_power_up : framer_regs :=
  FramerRegs S_IDLE S_DATA false (FcsRegs 0 0) false 0 no_offer no_offer.

(** The first byte, then the same byte again, until they are taken. *)
Definition demo_ins : list framer_in :=
  (demo_in (Axis 1 true false) <$> [false; true; false; true; false; true; false; true; false; true;
     false; true; false; true; false; true; false; true; false; true; false; true; false; true;
     false; true; false; true; false; true]) ++
  [demo_in no_offer true; demo_in (Axis 2 true false) true; demo_in no_offer false;
   demo_in (Axis 3 true true) true].
Definition demo_quiet : list framer_in := replicate 20 (demo_in no_offer true).
Definition demo_packet : packet := Packet demo_dst false [1; 1; 2; 3].

Lemma framer_delivers_witness :
  (framer_run (demo_ins ++ demo_quiet) (framer_clock demo_reset demo_power_up)).1.2
  = last_beats (packet_frame demo_src demo_packet).
Proof.
  refine (proj2 (framer_delivers demo_src demo_reset demo_power_up demo_ins [demo_packet] demo_quiet
    eq_refl _ _ _) _ _).
  - repeat constructor.
  - constructor; [discriminate|constructor].
  - vm_compute. reflexivity.
  - repeat constructor.
  - vm_compute. lia.
Defined.
