(* ===== verification/MacStats.v ===== *)
(** * The MAC's statistics: [ethernet/rmii/rmii_mac_counters.vhd]

    The counters behind the statistics registers, clock by clock, beside the
    framer whose output they watch, and the request latch [p_arp_go] of
    [rmii_mac_comp.vhd].  Theorem: the transmit counters are the frames and
    bytes that left the framer, the receive counters what came in, modulo their
    width. *)

From S2P Require Import Prelude Axis EthernetFramer.

Record counters_in := CountersIn {
  count_reset : bool;
  tx_data : axis; tx_data_tready : bool;
  rx_data : axis;
  rx_bad_carrier : bool
}.
Record mac_counters := MacCounters {
  tx_bytes_counter_u : Z; tx_packets_counter_u : Z;
  rx_bytes_counter_u : Z; rx_packets_counter_u : Z; rx_bad_carrier_counter_u : Z
}.
Definition counters_power_up : mac_counters := MacCounters 0 0 0 0 0.

(** A counter of [w] bits that advances when [b] holds. *)
Definition count_if (w : Z) (b : bool) (n : Z) : Z := if b then wrap w (n + 1) else n.

(** A rising edge: both processes. *)
Definition counters_clock (i : counters_in) (s : mac_counters) : mac_counters :=
  let taken := tvalid (tx_data i) && tx_data_tready i in
  let came := tvalid (rx_data i) in
  if count_reset i then counters_power_up
  else MacCounters
    (count_if 32 taken (tx_bytes_counter_u s))
    (count_if 32 (taken && tlast (tx_data i)) (tx_packets_counter_u s))
    (count_if 32 came (rx_bytes_counter_u s))
    (count_if 32 (came && tlast (rx_data i)) (rx_packets_counter_u s))
    (count_if 8 (rx_bad_carrier i) (rx_bad_carrier_counter_u s)).

Definition counters_run (ins : list counters_in) (s : mac_counters) : mac_counters :=
  foldl (fun s i => counters_clock i s) s ins.

(** ** What is counted *)
Definition tx_taken (i : counters_in) : list beat :=
  if tvalid (tx_data i) && tx_data_tready i then [(tdata (tx_data i), tlast (tx_data i))] else [].
Definition ends (bs : list beat) : Z := Z.of_nat (length (filter (fun b : beat => b.2 = true) bs)).
Definition size {A} (l : list A) : Z := Z.of_nat (length l).

Definition tx_beats (ins : list counters_in) : list beat := concat (tx_taken <$> ins).
Definition rx_beats (ins : list counters_in) : list beat := concat ((fun i => axis_beats (rx_data i)) <$> ins).
Definition bad_carriers (ins : list counters_in) : Z :=
  size (filter (fun i => rx_bad_carrier i = true) ins).

Lemma count_wrap w b n : 0 <= w -> count_if w b (wrap w n) = wrap w (n + Z.b2z b).
Proof.
  intros Hw. unfold count_if. destruct b; cbn [Z.b2z]; [|by rewrite Z.add_0_r].
  unfold wrap. by rewrite Z.add_mod_idemp_l by (apply Z.pow_nonzero; lia).
Qed.

Lemma ends_app l l' : ends (l ++ l') = ends l + ends l'.
Proof. unfold ends. rewrite filter_app, length_app. lia. Qed.
Lemma size_app {A} (l l' : list A) : size (l ++ l') = size l + size l'.
Proof. unfold size. rewrite length_app. lia. Qed.

Lemma ends_data l : ends (data_beats l) = 0.
Proof. induction l as [|b l IH]; [done|]. unfold ends in *. cbn [data_beats fmap list_fmap]. by rewrite filter_cons. Qed.

Lemma ends_last p : p <> [] -> ends (last_beats p) = 1.
Proof.
  intros Hp. destruct (exists_last Hp) as (m & b & ->). rewrite last_beats_snoc, ends_app, ends_data.
  reflexivity.
Qed.

(** The beats of packets: as many ends as packets, as many beats as bytes. *)
Lemma packets_ends ps :
  Forall (fun p => p <> []) ps -> ends (concat (last_beats <$> ps)) = size ps.
Proof.
  induction 1 as [|p ps Hp _ IH]; [done|]. cbn [fmap list_fmap concat].
  rewrite ends_app, ends_last, IH by done. unfold size. cbn [length]. lia.
Qed.

Lemma packets_size ps : size (concat (last_beats <$> ps)) = size (concat ps).
Proof.
  induction ps as [|p ps IH]; [done|]. cbn [fmap list_fmap concat]. rewrite !size_app.
  change (list_fmap _ _ last_beats ps) with (last_beats <$> ps). rewrite IH. unfold size. by rewrite last_beats_length.
Qed.

Definition counted (ins : list counters_in) : mac_counters :=
  MacCounters (u32 (size (tx_beats ins))) (u32 (ends (tx_beats ins)))
    (u32 (size (rx_beats ins))) (u32 (ends (rx_beats ins))) (wrap 8 (bad_carriers ins)).

(** Without a reset the counters are the counts, modulo their width. *)
Lemma counters_run_counts ins :
  Forall (fun i => count_reset i = false) ins -> counters_run ins counters_power_up = counted ins.
Proof.
  induction ins as [|i ins IH] using rev_ind; intros Hr; [done|].
  apply Forall_app in Hr as [Hr Hi]. rewrite Forall_singleton in Hi.
  unfold counters_run in *. rewrite foldl_snoc, IH by done. unfold counters_clock. rewrite Hi.
  unfold counted, tx_beats, rx_beats, bad_carriers.
  rewrite !fmap_app, !concat_app, !size_app, !ends_app, filter_app, size_app.
  cbn [fmap list_fmap concat tx_bytes_counter_u tx_packets_counter_u rx_bytes_counter_u
    rx_packets_counter_u rx_bad_carrier_counter_u]. rewrite !app_nil_r.
  assert (Ht : size (tx_taken i) = Z.b2z (tvalid (tx_data i) && tx_data_tready i)).
  { unfold tx_taken. by destruct (_ && _). }
  assert (Hte : ends (tx_taken i) = Z.b2z (tvalid (tx_data i) && tx_data_tready i && tlast (tx_data i))).
  { unfold tx_taken. destruct (tvalid (tx_data i) && tx_data_tready i); [|done].
    by destruct (tlast (tx_data i)). }
  assert (Hx : size (axis_beats (rx_data i)) = Z.b2z (tvalid (rx_data i))).
  { unfold axis_beats. by destruct (tvalid (rx_data i)). }
  assert (Hxe : ends (axis_beats (rx_data i)) = Z.b2z (tvalid (rx_data i) && tlast (rx_data i))).
  { unfold axis_beats. destruct (tvalid (rx_data i)); [|done]. by destruct (tlast (rx_data i)). }
  assert (Hb : size (filter (fun j => rx_bad_carrier j = true) [i]) = Z.b2z (rx_bad_carrier i)).
  { rewrite filter_cons. destruct (rx_bad_carrier i); [by rewrite decide_True|by rewrite decide_False]. }
  rewrite Ht, Hte, Hx, Hxe, Hb. f_equal; by apply count_wrap.
Qed.

(** ** Beside the framer

    The transmit side watches [eth_tx_axis], the framer's output; what the
    receive side sees is arbitrary. *)
Definition beside_framer (i : framer_in) (rx : axis * bool) (s : framer_regs) : counters_in :=
  CountersIn (in_reset i) (output s) (m_tready i) rx.1 rx.2.

Fixpoint mac_run (ins : list (framer_in * (axis * bool))) (s : framer_regs) (c : mac_counters)
    : framer_regs * mac_counters :=
  match ins with
  | [] => (s, c)
  | (i, rx) :: ins' => mac_run ins' (framer_clock i s) (counters_clock (beside_framer i rx s) c)
  end.

(** The inputs the counters see. *)
Fixpoint watched (ins : list (framer_in * (axis * bool))) (s : framer_regs) : list counters_in :=
  match ins with
  | [] => []
  | (i, rx) :: ins' => beside_framer i rx s :: watched ins' (framer_clock i s)
  end.

Lemma mac_run_counters ins s c : (mac_run ins s c).2 = counters_run (watched ins s) c.
Proof. revert s c. induction ins as [|[i rx] ins IH]; intros s c; [done|]. apply IH. Qed.

Lemma watched_tx ins s : tx_beats (watched ins s) = (framer_run (fst <$> ins) s).1.2.
Proof.
  revert s. induction ins as [|[i rx] ins IH]; intros s; [done|].
  cbn [fmap list_fmap framer_run watched]. unfold tx_beats in *. cbn [fmap list_fmap concat].
  change (list_fmap _ _ tx_taken (watched ins (framer_clock i s))) with
    (tx_taken <$> watched ins (framer_clock i s)). rewrite IH. cbn [fst].
  change (list_fmap _ _ fst ins) with (fst <$> ins).
  by destruct (framer_run (fst <$> ins) (framer_clock i s)) as [[evs out] s'].
Qed.

Lemma watched_rx ins s : rx_beats (watched ins s) = concat ((fun x => axis_beats x.2.1) <$> ins).
Proof.
  revert s. induction ins as [|[i rx] ins IH]; intros s; [done|].
  unfold rx_beats in *. cbn [watched fmap list_fmap concat]. by rewrite <- (IH (framer_clock i s)).
Qed.

Lemma watched_reset ins s :
  Forall (fun x => in_reset x.1 = false) ins -> Forall (fun i => count_reset i = false) (watched ins s).
Proof.
  intros H. revert s. induction H as [|[i rx] ins Hi _ IH]; intros s; cbn [watched]; constructor; auto.
Qed.

(** ** The request for an ARP announcement: [p_arp_go] *)
Definition arp_go (reset wen send_arp_ready send_arp : bool) : bool :=
  if (send_arp && send_arp_ready) || reset then false else if wen then true else send_arp.

(** A request is kept for as long as it is not taken. *)
Lemma arp_request_held n : Nat.iter n (arp_go false false false) (arp_go false true false false) = true.
Proof. induction n as [|n IH]; [done|]. by rewrite Nat.iter_succ, IH. Qed.

(** A write on the edge on which the last request is taken is lost. *)
Example arp_write_lost : arp_go false true true true = false.
Proof. done. Qed.

(** ** Properties *)

(** C12. The statistics registers, when the framer has sent the packets [ps] it
    took since the reset: as many packets as [ps], as many bytes as their
    frames, and on the receive side what was received, each modulo its width,
    whatever the gaps and the back-pressure and whatever was counted before. *)
Theorem statistics_count src i0 rx0 s0 c0 ins ps quiet :
  in_reset i0 = true ->
  Forall (fun x => in_reset x.1 = false /\ source_mac_in x.1 = src) ins ->
  Forall (fun p => pkt_payload p <> []) ps ->
  (framer_run (fst <$> ins) (framer_clock i0 s0)).1.1 = concat (packet_events <$> ps) ->
  Forall (fun x => quiet_in src x.1) quiet -> (16 <= ready_count (fst <$> quiet))%nat ->
  let rx := concat ((fun x => axis_beats x.2.1) <$> ins ++ quiet) in
  let c := (mac_run ((i0, rx0) :: ins ++ quiet) s0 c0).2 in
  tx_packets_counter_u c = u32 (size ps) /\
  tx_bytes_counter_u c = u32 (size (concat (packet_frame src <$> ps))) /\
  rx_packets_counter_u c = u32 (ends rx) /\ rx_bytes_counter_u c = u32 (size rx).
Proof.
  intros Hr Hins Hps Hev Hq Hn. cbn zeta.
  assert (Hsend := framer_sends src i0 s0 (fst <$> ins) ps (fst <$> quiet) Hr
    (proj2 (Forall_fmap _ _ _) Hins) Hps (proj2 (Forall_fmap _ _ _) Hq) Hn Hev).
  cbn [mac_run]. rewrite mac_run_counters.
  assert (H0 : counters_clock (beside_framer i0 rx0 s0) c0 = counters_power_up).
  { unfold counters_clock. cbn [count_reset beside_framer]. by rewrite Hr. }
  rewrite H0, counters_run_counts.
  2: { apply watched_reset, Forall_app. split.
       - eapply Forall_impl; [exact Hins|]. by intros x [? _].
       - eapply Forall_impl; [exact Hq|]. by intros x [? _]. }
  unfold counted. cbn [tx_packets_counter_u tx_bytes_counter_u rx_packets_counter_u rx_bytes_counter_u].
  rewrite watched_tx, watched_rx, fmap_app, Hsend.
  change ((fun p => last_beats (packet_frame src p)) <$> ps) with
    ((last_beats ∘ packet_frame src) <$> ps).
  rewrite list_fmap_compose, packets_size, packets_ends.
  - unfold size. by rewrite length_fmap.
  - apply Forall_fmap, Forall_forall. intros p _. unfold packet_frame, frame. cbn. done.
Qed.

(** ** Witness *)
Lemma statistics_count_witness :
  let rx := (Axis 7 true true, false) in
  let c := (mac_run ((demo_reset, rx) ::
    ((fun i => (i, (no_axis, false))) <$> demo_ins) ++ ((fun i => (i, rx)) <$> demo_quiet))
    demo_power_up (MacCounters 9 9 9 9 9)).2 in
  tx_packets_counter_u c = 1 /\ tx_bytes_counter_u c = 22 /\ rx_packets_counter_u c = 20.
Proof.
  cbn zeta.
  destruct (statistics_count demo_src demo_reset (Axis 7 true true, false) demo_power_up
    (MacCounters 9 9 9 9 9) ((fun i => (i, (no_axis, false))) <$> demo_ins) [demo_packet]
    ((fun i => (i, (Axis 7 true true, false))) <$> demo_quiet)) as (H1 & H2 & H3 & _).
  - reflexivity.
  - repeat constructor.
  - constructor; [discriminate|constructor].
  - vm_compute. reflexivity.
  - repeat constructor.
  - vm_compute. lia.
  - rewrite H1, H2, H3. vm_compute. repeat split; reflexivity.
Defined.
