(* ===== verification/CircularBuffer.v ===== *)
(** * The circular buffer: [ethernet/ethernet_deframer/circular_buffer.vhd]

    Rows, a read and a write pointer of one bit more than an address, and the
    combinational flags.  The theorem: as long as nothing is written into a full
    buffer without reading, it is a queue. *)

From S2P Require Import Prelude.

Record cbuf := CBuf { buffers : list Z; read_pointer : Z; write_pointer : Z }.

Section CircularBuffer.
Context (G_LOG2_DEPTH : Z).

Definition C_NUM_ROWS : Z := 2 ^ G_LOG2_DEPTH.

Definition read_address (b : cbuf) : Z := wrap G_LOG2_DEPTH (read_pointer b).
Definition write_address (b : cbuf) : Z := wrap G_LOG2_DEPTH (write_pointer b).

Definition cb_empty (b : cbuf) : bool := write_pointer b =? read_pointer b.
Definition cb_full (b : cbuf) : bool :=
  (read_address b =? write_address b) &&
  negb (eqb (Z.testbit (read_pointer b) G_LOG2_DEPTH) (Z.testbit (write_pointer b) G_LOG2_DEPTH)).
Definition cb_used (b : cbuf) : Z := wrap G_LOG2_DEPTH (write_address b - read_address b).
Definition cb_read_data (b : cbuf) : Z := nth (Z.to_nat (read_address b)) (buffers b) 0.

(** The initial values of the signals. *)
Definition cb_new : cbuf := CBuf (replicate (Z.to_nat C_NUM_ROWS) 0) 0 0.

(** One rising edge: [p_write] and [p_read]. *)
Definition cb_clock (sreset : bool) (write_data : Z) (write_en read_en : bool) (b : cbuf) : cbuf :=
  CBuf
    (if write_en then <[Z.to_nat (write_address b) := write_data]> (buffers b) else buffers b)
    (if sreset then 0
     else if read_en && negb (cb_empty b) then wrap (G_LOG2_DEPTH + 1) (read_pointer b + 1)
     else read_pointer b)
    (if sreset then 0
     else if write_en then wrap (G_LOG2_DEPTH + 1) (write_pointer b + 1) else write_pointer b).

(** ** The queue *)
Context (Hdepth : 0 <= G_LOG2_DEPTH).

(** [b] holds the queue [q]; [r] counts all reads. *)
Definition cb_holds (b : cbuf) (q : list Z) : Prop :=
  length (buffers b) = Z.to_nat C_NUM_ROWS /\ Z.of_nat (length q) <= C_NUM_ROWS /\
  exists r, 0 <= r /\
    read_pointer b = wrap (G_LOG2_DEPTH + 1) r /\
    write_pointer b = wrap (G_LOG2_DEPTH + 1) (r + Z.of_nat (length q)) /\
    forall k x, q !! k = Some x ->
      buffers b !! Z.to_nat (wrap G_LOG2_DEPTH (r + Z.of_nat k)) = Some x.

Lemma rows_pos : 0 < C_NUM_ROWS.
Proof. apply Z.pow_pos_nonneg; lia. Qed.

Section Holds.
Context (b : cbuf) (q : list Z) (Hq : cb_holds b q).

Lemma cb_empty_holds : cb_empty b = true <-> q = [].
Proof.
  destruct Hq as (_ & Hlen & r & Hr & Hrp & Hwp & _). unfold cb_empty.
  rewrite Z.eqb_eq, Hrp, Hwp. pose proof rows_pos. unfold C_NUM_ROWS in *.
  rewrite <- length_zero_iff_nil. split.
  - intros E. symmetry in E. apply wrap_eq_iff in E; [lia|lia|].
    rewrite Z.pow_add_r by lia. lia.
  - intros ->. by rewrite Z.add_0_r.
Qed.

Lemma cb_full_holds : cb_full b = true <-> Z.of_nat (length q) = C_NUM_ROWS.
Proof.
  destruct Hq as (_ & Hlen & r & Hr & Hrp & Hwp & _). unfold cb_full, read_address, write_address.
  rewrite Hrp, Hwp, !wrap_pointer, !testbit_wrap by lia.
  rewrite (proj2 (Z.ltb_lt G_LOG2_DEPTH (G_LOG2_DEPTH + 1))) by lia. cbn [andb].
  pose proof rows_pos. unfold C_NUM_ROWS in *. split.
  - intros H1. apply andb_true_iff in H1 as [E Hb]. apply Z.eqb_eq in E.
    destruct (Z.eq_dec (Z.of_nat (length q)) (2 ^ G_LOG2_DEPTH)) as [|Hne]; [done|].
    apply wrap_eq_iff in E; [|lia|lia]. rewrite E, Z.add_0_r, eqb_reflx in Hb. done.
  - intros ->. rewrite wrap_add_full, Z.eqb_refl, testbit_add_full by lia.
    by destruct (Z.testbit r G_LOG2_DEPTH).
Qed.

Lemma cb_read_data_holds x q' : q = x :: q' -> cb_read_data b = x.
Proof.
  intros ->. destruct Hq as (_ & _ & r & Hr & Hrp & _ & Hk). unfold cb_read_data, read_address.
  rewrite Hrp, wrap_pointer by lia. apply nth_lookup_Some.
  specialize (Hk 0%nat x eq_refl). by rewrite Z.add_0_r in Hk.
Qed.

(** One edge without reset, when a write finds room. *)
Lemma cb_clock_holds x w rd :
  (w = true -> Z.of_nat (length q) < C_NUM_ROWS \/ rd = true) ->
  cb_holds (cb_clock false x w rd b)
    ((if rd then tail q else q) ++ (if w then [x] else [])).
Proof.
  intros Hroom. assert (Hempty := cb_empty_holds).
  destruct Hq as (Hrows & Hlen & r & Hr & Hrp & Hwp & Hk). pose proof rows_pos as Hpos.
  assert (Hrd : (if rd && negb (cb_empty b) then wrap (G_LOG2_DEPTH + 1) (read_pointer b + 1)
                 else read_pointer b) =
                wrap (G_LOG2_DEPTH + 1) (r + Z.of_nat (length q) - Z.of_nat (length (if rd then tail q else q)))).
  { destruct rd; cbn [andb]; [|by rewrite Z.add_simpl_r].
    destruct q as [|y q0].
    - rewrite (proj2 Hempty) by done. cbn. by rewrite Z.add_0_r, Z.sub_0_r.
    - destruct (cb_empty b); [discriminate (proj1 Hempty eq_refl)|]. cbn [negb tail length].
      rewrite Hrp. unfold wrap. rewrite Z.add_mod_idemp_l by (apply Z.pow_nonzero; lia).
      do 2 f_equal. lia. }
  set (q1 := if rd then tail q else q) in *.
  assert (Hq1 : (length q1 <= length q)%nat /\ (rd = true -> q <> [] -> length q1 = pred (length q)))
    by (unfold q1; destruct rd, q; cbn; (split; [lia|done])).
  assert (Hdrop : forall k y, q1 !! k = Some y -> q !! (length q - length q1 + k)%nat = Some y).
  { intros k y. unfold q1. destruct rd; [|by rewrite Nat.sub_diag].
    destruct q as [|y0 q0]; [done|]. cbn [tail length].
    by replace (S (length q0) - length q0 + k)%nat with (S k) by lia. }
  assert (Hn1 : w = true -> Z.of_nat (length q1) < C_NUM_ROWS).
  { intros Hw. destruct (Hroom Hw) as [|Hrd1]; [lia|]. destruct q as [|y q0] eqn:Eq.
    - unfold q1. rewrite Hrd1. cbn. lia.
    - destruct Hq1 as [_ H1]. rewrite H1 by done. cbn [length] in *. lia. }
  unfold cb_holds, cb_clock. cbn [buffers read_pointer write_pointer]. repeat split.
  - destruct w; [by rewrite length_insert|done].
  - rewrite length_app. destruct w; cbn [length]; [specialize (Hn1 eq_refl)|]; lia.
  - exists (r + Z.of_nat (length q) - Z.of_nat (length q1)).
    split; [lia|]. split; [exact Hrd|]. rewrite length_app. split.
    + destruct w; cbn [length].
      * rewrite Hwp. unfold wrap. rewrite Z.add_mod_idemp_l by (apply Z.pow_nonzero; lia).
        f_equal. lia.
      * rewrite Hwp. f_equal. lia.
    + intros k y Hky. apply lookup_app_Some in Hky as [Hky|[Hge Hky]].
      * pose proof (lookup_lt_Some _ _ _ Hky) as Hlt. apply Hdrop, Hk in Hky.
        replace (r + Z.of_nat (length q) - Z.of_nat (length q1) + Z.of_nat k)
          with (r + Z.of_nat (length q - length q1 + k)) by lia.
        destruct w; [|done]. rewrite list_lookup_insert_ne; [done|].
        unfold write_address. rewrite Hwp, wrap_pointer by lia. intros E.
        apply Z2Nat.inj in E; [|apply wrap_range; lia..]. symmetry in E.
        replace (r + Z.of_nat (length q)) with
          (r + Z.of_nat (length q - length q1 + k) + (Z.of_nat (length q1) - Z.of_nat k)) in E by lia.
        specialize (Hn1 eq_refl). unfold C_NUM_ROWS in Hn1. apply wrap_eq_iff in E; lia.
      * destruct w; [|done]. destruct (k - length q1)%nat eqn:Ek; [|done].
        injection Hky as <-. unfold write_address. rewrite Hwp, wrap_pointer by lia.
        replace (r + Z.of_nat (length q) - Z.of_nat (length q1) + Z.of_nat k)
          with (r + Z.of_nat (length q)) by lia.
        apply list_lookup_insert_eq. rewrite Hrows.
        pose proof (wrap_range G_LOG2_DEPTH (r + Z.of_nat (length q)) ltac:(lia)) as Hw.
        unfold is_u in Hw. unfold C_NUM_ROWS. lia.
Qed.
End Holds.

Lemma cb_holds_nil b :
  length (buffers b) = Z.to_nat C_NUM_ROWS -> read_pointer b = 0 -> write_pointer b = 0 ->
  cb_holds b [].
Proof.
  intros Hrows Hr Hw. pose proof rows_pos. split; [done|]. split; [cbn; lia|]. exists 0.
  assert (wrap (G_LOG2_DEPTH + 1) 0 = 0) as E by (apply Z.mod_0_l, Z.pow_nonzero; lia).
  cbn [length]. rewrite Hr, Hw, Z.add_0_r, E. done.
Qed.

Lemma cb_clock_reset x w rd b :
  length (buffers b) = Z.to_nat C_NUM_ROWS -> cb_holds (cb_clock true x w rd b) [].
Proof.
  intros Hrows. apply cb_holds_nil; [|done..]. cbn. destruct w; [by rewrite length_insert|done].
Qed.

Lemma cb_new_holds : cb_holds cb_new [].
Proof. apply cb_holds_nil; [|done..]. cbn. by rewrite length_replicate. Qed.
End CircularBuffer.
