(* ===== verification/EthernetDeframer.v ===== *)
(** * The Ethernet deframer: [ethernet/ethernet_deframer/ethernet_deframer.vhd]

    The entity clock by clock: the address registers, the FCS generator of EthernetFcs.v,
    the state machine, the four-byte buffer of CircularBuffer.v that holds back the
    check sequence, and the output registers.  The theorems: what leaves for any
    sequence of frames with gaps inside and between them, and two situations in
    which good frames are lost or damaged. *)

From S2P Require Import Prelude.
From S2P Require Import Axis.
From S2P Require Import EthernetFcs.
From S2P Require Import CircularBuffer.

Definition C_ETHERTYPE_IP_UPPER : Z := 0x08.
Definition C_ETHERTYPE_IP_LOWER : Z := 0x00.

Inductive fsm_state_t :=
  | S_IDLE
  | S_DEST_MAC_2 | S_DEST_MAC_3 | S_DEST_MAC_4 | S_DEST_MAC_5 | S_DEST_MAC_6
  | S_SOURCE_MAC_1 | S_SOURCE_MAC_2 | S_SOURCE_MAC_3 | S_SOURCE_MAC_4 | S_SOURCE_MAC_5
  | S_SOURCE_MAC_6
  | S_ETHERTYPE_1 | S_ETHERTYPE_2
  | S_PAYLOAD_AND_FCS
  | S_DISCARD.

Record deframer_regs := DeframerRegs {
  deframer_state : fsm_state_t;
  src_mac : Z;
  dst_mac : Z;
  payload_finished : bool;
  dropped_packet_count : Z;
  fcs_reset : bool;
  fcs : fcs_regs;
  deframed_r1 : axis;
  data_fifo : cbuf;
  m_axis : axis;
  m_tuser : bool
}.

Record deframer_in := DeframerIn {
  in_reset : bool;
  enable_in : bool;
  filter_source_mac_in : bool;
  source_mac_in : Z;
  destination_mac_in : Z;
  s_axis : axis
}.

(** [mac(39 downto 0) & tdata] *)
Definition mac_shift (mac b : Z) : Z := Z.lor (Z.shiftl (wrap 40 mac) 8) b.

Definition takes_dst (st : fsm_state_t) : bool :=
  match st with
  | S_IDLE | S_DEST_MAC_2 | S_DEST_MAC_3 | S_DEST_MAC_4 | S_DEST_MAC_5 | S_DEST_MAC_6 => true
  | _ => false
  end.
Definition takes_src (st : fsm_state_t) : bool :=
  match st with
  | S_SOURCE_MAC_1 | S_SOURCE_MAC_2 | S_SOURCE_MAC_3 | S_SOURCE_MAC_4 | S_SOURCE_MAC_5
  | S_SOURCE_MAC_6 => true
  | _ => false
  end.

(** An address matches the expected one, or is all ones. *)
Definition mac_match (mac expected : Z) : bool := (mac =? expected) || (mac =? Z.ones 48).

(** The state machine on a valid byte. *)
Definition deframer_fsm (i : deframer_in) (s : deframer_regs) : fsm_state_t :=
  let b := tdata (s_axis i) in
  match deframer_state s with
  | S_IDLE => if enable_in i then S_DEST_MAC_2 else S_IDLE
  | S_DEST_MAC_2 => S_DEST_MAC_3
  | S_DEST_MAC_3 => S_DEST_MAC_4
  | S_DEST_MAC_4 => S_DEST_MAC_5
  | S_DEST_MAC_5 => S_DEST_MAC_6
  | S_DEST_MAC_6 => S_SOURCE_MAC_1
  | S_SOURCE_MAC_1 =>
      if negb (mac_match (dst_mac s) (destination_mac_in i)) then S_DISCARD else S_SOURCE_MAC_2
  | S_SOURCE_MAC_2 => S_SOURCE_MAC_3
  | S_SOURCE_MAC_3 => S_SOURCE_MAC_4
  | S_SOURCE_MAC_4 => S_SOURCE_MAC_5
  | S_SOURCE_MAC_5 => S_SOURCE_MAC_6
  | S_SOURCE_MAC_6 => S_ETHERTYPE_1
  | S_ETHERTYPE_1 =>
      if (negb (mac_match (src_mac s) (source_mac_in i)) && filter_source_mac_in i)
         || negb (b =? C_ETHERTYPE_IP_UPPER)
      then S_DISCARD else S_ETHERTYPE_2
  | S_ETHERTYPE_2 => if negb (b =? C_ETHERTYPE_IP_LOWER) then S_DISCARD else S_PAYLOAD_AND_FCS
  | S_PAYLOAD_AND_FCS => if tlast (s_axis i) then S_IDLE else S_PAYLOAD_AND_FCS
  | S_DISCARD => if tlast (s_axis i) then S_IDLE else S_DISCARD
  end.

(** The last byte of a packet, in the state that handles it. *)
Definition ends_payload (i : deframer_in) (s : deframer_regs) : bool :=
  tvalid (s_axis i) && tlast (s_axis i) &&
  match deframer_state s with S_PAYLOAD_AND_FCS => true | _ => false end.
Definition ends_discard (i : deframer_in) (s : deframer_regs) : bool :=
  tvalid (s_axis i) && tlast (s_axis i) &&
  match deframer_state s with S_DISCARD => true | _ => false end.

(** The combinational output of the buffer: data, valid, last and the FCS
    error flag. *)
Definition deframed_r6 (s : deframer_regs) : axis :=
  Axis (cb_read_data 2 (data_fifo s))
    (cb_full 2 (data_fifo s) && negb (cb_empty (data_fifo s)) && tvalid (deframed_r1 s))
    (payload_finished s).
Definition deframed_tuser_r6 (s : deframer_regs) : bool :=
  payload_finished s && negb (verify_out (fcs s)).

(** One rising edge. *)
Definition deframer_clock (i : deframer_in) (s : deframer_regs) : deframer_regs :=
  let v := tvalid (s_axis i) in
  let b := tdata (s_axis i) in
  let st := deframer_state s in
  let rst := in_reset i in
  {| deframer_state := if rst then S_IDLE else if v then deframer_fsm i s else st;
     src_mac := if rst then 0 else if v && takes_src st then mac_shift (src_mac s) b else src_mac s;
     dst_mac := if rst then 0 else if v && takes_dst st then mac_shift (dst_mac s) b else dst_mac s;
     payload_finished :=
       if rst then false
       else if v && match st with S_IDLE => true | _ => false end then false
       else if ends_payload i s then true else payload_finished s;
     dropped_packet_count :=
       if rst then 0
       else if ends_discard i s then wrap 16 (dropped_packet_count s + 1)
       else dropped_packet_count s;
     fcs_reset := ends_payload i s || ends_discard i s;
     fcs := fcs_clock false (fcs_reset s || rst) 0 b v v (fcs s);
     deframed_r1 :=
       if v && match st with S_PAYLOAD_AND_FCS => true | _ => false end
       then Axis (if rst then 0 else b) (negb rst) (tlast (s_axis i))
       else Axis 0 false false;
     data_fifo := cb_clock 2 (payload_finished s) (tdata (deframed_r1 s)) (tvalid (deframed_r1 s))
                    (cb_full 2 (data_fifo s) && tvalid (deframed_r1 s)) (data_fifo s);
     m_axis := if rst then Axis 0 false false else deframed_r6 s;
     m_tuser := if rst then false else deframed_tuser_r6 s |}.

(** ** What goes in and what comes out *)

(** A byte that leaves, with [tlast] and [tuser]. *)
Abbreviation user_beat := (Z * bool * bool)%type.

Definition emitted (s : deframer_regs) : list user_beat :=
  if tvalid (m_axis s) then [(tdata (m_axis s), tlast (m_axis s), m_tuser s)] else [].

Fixpoint deframer_run (ins : list deframer_in) (s : deframer_regs)
    : list user_beat * deframer_regs :=
  match ins with
  | [] => ([], s)
  | i :: ins' =>
      let '(out, s') := deframer_run ins' (deframer_clock i s) in (emitted s ++ out, s')
  end.

(** The state after power-up: the initial values of the signals, and a reset
    edge. *)
Definition power_up : deframer_regs :=
  DeframerRegs S_IDLE 0 0 false 0 false (FcsRegs 0 0) no_axis (cb_new 2) no_axis false.
Definition reset_in : deframer_in := DeframerIn true false false 0 0 no_axis.
Definition after_reset : deframer_regs := deframer_clock reset_in power_up.

(** ** What a frame stands for *)

(** An address register after the bytes of an address, first byte on top. *)
Definition mac_of (bytes : list Z) : Z := foldl mac_shift 0 bytes.

Definition fcs_init : fcs_regs := FcsRegs C_INIT_VAL_SLV 0.
Definition fcs_good (bytes : list Z) : bool := verify_out (fcs_feed bytes fcs_init).

Section Deframer.
Context (filter_src : bool) (src dst : Z).

Definition dst_ok (f : list Z) : bool := mac_match (mac_of (take 6 f)) dst.
Definition src_ok (f : list Z) : bool :=
  negb filter_src || mac_match (mac_of (take 6 (drop 6 f))) src.
Definition upper_ok (f : list Z) : bool := nth 12 f 0 =? C_ETHERTYPE_IP_UPPER.
Definition lower_ok (f : list Z) : bool := nth 13 f 0 =? C_ETHERTYPE_IP_LOWER.

(** The header of a frame is for this station. *)
Definition accepts (f : list Z) : bool := dst_ok f && src_ok f && upper_ok f && lower_ok f.

Definition quiet_beats (l : list Z) : list user_beat := (fun b => (b, false, false)) <$> l.

(** The payload lies between the 14 header bytes and the 4 check bytes; its
    last byte is marked, together with the verdict on the check sequence. *)
Definition deframe (f : list Z) : list user_beat :=
  if accepts f then
    match rev (take (length f - 18) (drop 14 f)) with
    | [] => []
    | b :: r => quiet_beats (rev r) ++ [(b, true, negb (fcs_good f))]
    end
  else [].

(** ** The state machine against the bytes seen so far *)
Definition state_at (n : nat) : fsm_state_t :=
  match n with
  | 0 => S_IDLE | 1 => S_DEST_MAC_2 | 2 => S_DEST_MAC_3 | 3 => S_DEST_MAC_4 | 4 => S_DEST_MAC_5
  | 5 => S_DEST_MAC_6 | 6 => S_SOURCE_MAC_1 | 7 => S_SOURCE_MAC_2 | 8 => S_SOURCE_MAC_3
  | 9 => S_SOURCE_MAC_4 | 10 => S_SOURCE_MAC_5 | 11 => S_SOURCE_MAC_6
  | 12 => S_ETHERTYPE_1 | 13 => S_ETHERTYPE_2 | _ => S_PAYLOAD_AND_FCS
  end%nat.

Definition rejected (cur : list Z) : bool :=
  ((6 <? length cur)%nat && negb (dst_ok cur)) ||
  ((12 <? length cur)%nat && negb (src_ok cur && upper_ok cur)) ||
  ((13 <? length cur)%nat && negb (lower_ok cur)).

Definition state_of (cur : list Z) : fsm_state_t :=
  if rejected cur then S_DISCARD else state_at (length cur).

(** The inputs the theorems are about: enabled, fixed addresses, no reset. *)
Definition in_ok (i : deframer_in) : Prop :=
  in_reset i = false /\ enable_in i = true /\ filter_source_mac_in i = filter_src /\
  source_mac_in i = src /\ destination_mac_in i = dst /\ is_u 8 (tdata (s_axis i)).

(** The addresses seen so far; before its first byte a register may hold
    anything, and [src_mac] is not filled when the packet is discarded. *)
Definition macs_ok (s : deframer_regs) (cur : list Z) : Prop :=
  (exists d0, dst_mac s = foldl mac_shift d0 (take 6 cur)) /\
  (rejected cur = false -> exists d0, src_mac s = foldl mac_shift d0 (take 6 (drop 6 cur))).

Lemma testbit_mac_shift d b i :
  is_u 8 b -> 0 <= i -> Z.testbit (mac_shift d b) i =
    if i <? 8 then Z.testbit b i else (i <? 48) && Z.testbit d (i - 8).
Proof.
  intros Hb Hi. unfold mac_shift. autorewrite with zbits. zcases; cbn [andb]; zneg; cbn [andb orb].
  - done.
  - by rewrite (testbit_high 8 b), orb_false_r by (done || lia).
  - by rewrite (testbit_high 8 b) by (done || lia).
Qed.

(** Six bytes replace the whole register. *)
Lemma mac_shift_forgets l d d' i :
  Forall (is_u 8) l -> 0 <= i < 8 * Z.of_nat (length l) -> i < 48 ->
  Z.testbit (foldl mac_shift d l) i = Z.testbit (foldl mac_shift d' l) i.
Proof.
  revert i. induction l as [|b l IH] using rev_ind; intros i Hl Hi H48; [cbn in Hi; lia|].
  rewrite !foldl_app. cbn [foldl]. apply Forall_app in Hl as [Hl Hb].
  rewrite length_app in Hi. cbn [length] in Hi. inversion_clear Hb.
  rewrite !testbit_mac_shift by (done || lia). destruct (Z.ltb_spec i 8); [done|].
  f_equal. apply IH; [done|lia|lia].
Qed.

Lemma mac_shift_is_u d b : is_u 8 b -> is_u 48 (mac_shift d b).
Proof.
  intros Hb. apply is_u_bits; [lia| |].
  - apply Z.lor_nonneg. split; [|unfold is_u in Hb; lia]. apply Z.shiftl_nonneg.
    pose proof (wrap_range 40 d ltac:(lia)) as H. unfold is_u in H. lia.
  - intros i Hi. rewrite testbit_mac_shift by (done || lia). by zcases.
Qed.

Lemma mac_of_six l d :
  Forall (is_u 8) l -> length l = 6%nat -> foldl mac_shift d l = mac_of l.
Proof.
  intros Hl Hlen. assert (Hu : forall d, is_u 48 (foldl mac_shift d l)).
  { intros e. destruct l as [|b l] using rev_ind; [done|]. rewrite foldl_app. cbn.
    apply Forall_app in Hl as [_ Hb]. inversion_clear Hb. by apply mac_shift_is_u. }
  apply Z.bits_inj'. intros i Hi. destruct (Z.lt_ge_cases i 48).
  - apply mac_shift_forgets; [done|lia|done].
  - unfold mac_of. by rewrite !(testbit_high 48) by (done || lia).
Qed.

Lemma rejected_snoc cur b : rejected cur = true -> rejected (cur ++ [b]) = true.
Proof.
  unfold rejected, dst_ok, src_ok, upper_ok, lower_ok. rewrite length_app. cbn [length].
  intros H. destruct (Nat.ltb_spec 13 (length cur)).
  - rewrite !(proj2 (Nat.ltb_lt _ _)) in * by lia.
    rewrite drop_app_le, !take_app_le, !app_nth1 by (rewrite ?length_drop; lia). exact H.
  - cbn [andb] in H. rewrite orb_false_r in H. destruct (Nat.ltb_spec 12 (length cur)).
    + rewrite !(proj2 (Nat.ltb_lt _ _)) in * by lia.
      rewrite drop_app_le, !take_app_le, !(app_nth1 _ _ _ (n := 12)) by (rewrite ?length_drop; lia).
      rewrite H. done.
    + cbn [andb] in H. rewrite orb_false_r in H. apply andb_true_iff in H as [H6 H].
      apply Nat.ltb_lt in H6. rewrite (proj2 (Nat.ltb_lt 6 _)) by lia.
      rewrite take_app_le by lia. rewrite H. done.
Qed.

Lemma fsm_state_of i s cur :
  in_ok i -> Forall (is_u 8) cur -> macs_ok s cur -> deframer_state s = state_of cur ->
  tlast (s_axis i) = false ->
  deframer_fsm i s = state_of (cur ++ [tdata (s_axis i)]).
Proof.
  intros (_ & Hen & Hf & Hsrc & Hdst & Hb) Hu [[d0 Hd] He] Hst Hl.
  unfold deframer_fsm. rewrite Hst, Hen, Hf, Hsrc, Hdst, Hl. clear Hst.
  destruct (rejected cur) eqn:Hrej.
  { unfold state_of. by rewrite Hrej, rejected_snoc. }
  assert (Hd6 : (6 <= length cur)%nat -> dst_mac s = mac_of (take 6 cur)).
  { intros. rewrite Hd. apply mac_of_six; [by apply Forall_take|]. rewrite length_take. lia. }
  assert (He6 : (12 <= length cur)%nat -> src_mac s = mac_of (take 6 (drop 6 cur))).
  { intros. destruct (He eq_refl) as [e0 ->]. apply mac_of_six; [by apply Forall_take, Forall_drop|].
    rewrite length_take, length_drop. lia. }
  clear Hd He Hu Hrej. unfold state_of, rejected, dst_ok, src_ok, upper_ok, lower_ok.
  generalize (tdata (s_axis i)). intros b.
  destruct cur as [|x0 [|x1 [|x2 [|x3 [|x4 [|x5 cur]]]]]]; try reflexivity.
  specialize (Hd6 ltac:(cbn; lia)). rewrite Hd6. cbn [take app]. rewrite ?take_0.
  generalize (mac_match (mac_of [x0; x1; x2; x3; x4; x5]) dst). intros dok.
  destruct cur as [|x6 [|x7 [|x8 [|x9 [|x10 [|x11 cur]]]]]]; try (by destruct dok).
  specialize (He6 ltac:(cbn; lia)). rewrite He6. cbn [take drop app]. rewrite ?take_0.
  generalize (mac_match (mac_of [x6; x7; x8; x9; x10; x11]) src). intros sok.
  destruct cur as [|x12 [|x13 cur]]; cbn.
  - by destruct dok, sok, filter_src, (b =? _).
  - by destruct dok, sok, filter_src, (x12 =? _), (b =? _).
  - by destruct dok, sok, filter_src, (x12 =? _), (x13 =? _).
Qed.

(** ** The invariant *)
Definition in_payload (cur : list Z) : bool := negb (rejected cur) && (13 <? length cur)%nat.
Definition body (cur : list Z) : list Z := if in_payload cur then drop 14 cur else [].

(** What becomes visible at the buffer's output with byte [b] after [cur]. *)
Definition out_beats (cur : list Z) (b : Z) (last : bool) : list user_beat :=
  let cur' := cur ++ [b] in
  if in_payload cur && (18 <? length cur')%nat
  then [(nth (length cur' - 5) cur' 0, last, last && negb (fcs_good cur'))] else [].

Definition drop_count (cur : list Z) (last : bool) : Z :=
  if last && rejected cur then 1 else 0.

Fixpoint deframes (cur : list Z) (evs : list beat) : list user_beat :=
  match evs with
  | [] => []
  | (b, last) :: evs' =>
      out_beats cur b last ++ deframes (if last then [] else cur ++ [b]) evs'
  end.
Fixpoint drops (cur : list Z) (evs : list beat) : Z :=
  match evs with
  | [] => 0
  | (b, last) :: evs' => drop_count cur last + drops (if last then [] else cur ++ [b]) evs'
  end.

(** [cur]: the bytes of the packet under way; [gap]: a packet ended on the edge
    before. *)
Definition deframer_inv (s : deframer_regs) (cur : list Z) (gap : bool) : Prop :=
  deframer_state s = state_of cur /\ macs_ok s cur /\ Forall (is_u 8) cur /\
  length (buffers (data_fifo s)) = 4%nat /\ is_u 16 (dropped_packet_count s) /\
  match cur with
  | [] =>
      if gap then
        fcs_reset s = true /\
        (payload_finished s = true \/ cb_holds 2 (data_fifo s) [] /\ tvalid (deframed_r1 s) = false)
      else
        fcs_reset s = false /\ crc_reg (fcs s) = C_INIT_VAL_SLV /\ tvalid (deframed_r1 s) = false /\
        (payload_finished s = true \/ cb_holds 2 (data_fifo s) [])
  | _ =>
      gap = false /\ fcs_reset s = false /\ crc_reg (fcs s) = crc_reg (fcs_feed cur fcs_init) /\
      payload_finished s = false /\
      exists taken q, cb_holds 2 (data_fifo s) q /\
        body cur = taken ++ q ++ axis_bytes (deframed_r1 s) /\ (taken <> [] -> length q = 4%nat)
  end.

Definition r6_beats (s : deframer_regs) : list user_beat :=
  if tvalid (deframed_r6 s)
  then [(tdata (deframed_r6 s), tlast (deframed_r6 s), deframed_tuser_r6 s)] else [].

(** The buffer takes the byte of [deframed_r1]. *)
Lemma fifo_step fifo r1 bytes taken q :
  cb_holds 2 fifo q -> bytes = taken ++ q ++ axis_bytes r1 -> (taken <> [] -> length q = 4%nat) ->
  exists taken' q',
    cb_holds 2 (cb_clock 2 false (tdata r1) (tvalid r1) (cb_full 2 fifo && tvalid r1) fifo) q' /\
    bytes = taken' ++ q' /\ (taken' <> [] -> length q' = 4%nat).
Proof.
  intros Hq -> Ht. pose proof (cb_full_holds 2 ltac:(lia) fifo q Hq) as Hfull.
  assert (Hlen : (length q <= 4)%nat) by (destruct Hq as (_ & H & _); unfold C_NUM_ROWS in H; lia).
  pose proof (cb_clock_holds 2 ltac:(lia) fifo q Hq (tdata r1) (tvalid r1)
                (cb_full 2 fifo && tvalid r1)) as Hc.
  change (C_NUM_ROWS 2) with 4 in *. unfold axis_bytes.
  destruct (tvalid r1); [|rewrite andb_false_r in Hc].
  - rewrite andb_true_r in Hc. destruct (cb_full 2 fifo).
    + assert (length q = 4%nat) as H4 by (pose proof (proj1 Hfull eq_refl); lia).
      destruct q as [|x q]; [done|]. exists (taken ++ [x]), (q ++ [tdata r1]).
      split; [apply Hc; auto|]. split; [by rewrite <- !app_assoc|].
      intros _. rewrite length_app. cbn in *. lia.
    + exists taken, (q ++ [tdata r1]). split; [|split; [done|]].
      * apply Hc. intros _. left. destruct (Z.eq_dec (Z.of_nat (length q)) 4) as [E|]; [|lia].
        by apply Hfull in E.
      * intros Hne. apply Ht in Hne. discriminate (proj2 Hfull ltac:(lia)).
  - rewrite andb_false_r. exists taken, q. rewrite !app_nil_r in *. split; [|done]. apply Hc. done.
Qed.

Lemma emitted_clock i s : in_reset i = false -> emitted (deframer_clock i s) = r6_beats s.
Proof. intros Hr. unfold emitted, r6_beats, deframer_clock. cbn [m_axis m_tuser]. by rewrite Hr. Qed.

Lemma r6_beats_r1 s : tvalid (deframed_r1 s) = false -> r6_beats s = [].
Proof. intros H. unfold r6_beats, deframed_r6. cbn [tvalid]. by rewrite H, andb_false_r. Qed.

Lemma fifo_length x w rd sr fifo :
  length (buffers fifo) = 4%nat -> length (buffers (cb_clock 2 sr x w rd fifo)) = 4%nat.
Proof. intros H. cbn. destruct w; [by rewrite length_insert|done]. Qed.

(** An edge without a byte. *)
Lemma deframer_step_gap i s cur gap :
  in_ok i -> deframer_inv s cur gap -> tvalid (s_axis i) = false ->
  r6_beats (deframer_clock i s) = [] /\ deframer_inv (deframer_clock i s) cur false /\
  dropped_packet_count (deframer_clock i s) = dropped_packet_count s.
Proof.
  intros (Hr & _) (Hst & Hm & Hu & Hl & Hd & Hinv) Hv.
  assert (Hr1 : tvalid (deframed_r1 (deframer_clock i s)) = false).
  { unfold deframer_clock. cbn [deframed_r1]. by rewrite Hv. }
  split; [by apply r6_beats_r1|].
  unfold deframer_inv. rewrite Hr1. unfold deframer_clock, ends_payload, ends_discard.
  cbn [deframer_state src_mac dst_mac payload_finished dropped_packet_count fcs_reset fcs
       deframed_r1 data_fifo]. rewrite Hr, Hv. cbn [andb orb]. rewrite orb_false_r.
  split; [|done]. do 3 (split; [done|]). split; [by apply fifo_length|]. split; [done|].
  assert (Hfcs : fcs_clock false (fcs_reset s) 0 (tdata (s_axis i)) false false (fcs s) =
                 if fcs_reset s then FcsRegs C_INIT_VAL_SLV (fcs_byte (fcs s)) else fcs s).
  { unfold fcs_clock. cbn [andb]. by destruct (fcs_reset s). }
  rewrite Hfcs. destruct cur as [|c cur].
  - assert (Hf : payload_finished s = true \/
        payload_finished s = false /\ cb_holds 2 (data_fifo s) [] /\ tvalid (deframed_r1 s) = false).
    { destruct gap; [destruct Hinv as (_ & [H|[H1 H2]])|destruct Hinv as (_ & _ & H2 & [H|H1])];
        destruct (payload_finished s); auto. }
    split; [done|]. split.
    { destruct gap; [by destruct Hinv as [-> _]|]. by destruct Hinv as (-> & -> & _). }
    split; [done|]. destruct Hf as [->|(-> & Hq & H1)]; [by left|right].
    destruct (fifo_step (data_fifo s) (deframed_r1 s) [] [] []) as (t & q & Hc & E & _); [done| |done|].
    + unfold axis_bytes. by rewrite H1.
    + symmetry in E. apply app_eq_nil in E as [_ ->]. exact Hc.
  - destruct Hinv as (_ & -> & Hcrc & -> & taken & q & Hq & Hb & Ht).
    do 3 (split; [done|]). split; [done|].
    destruct (fifo_step _ _ _ _ _ Hq Hb Ht) as (t & q' & Hc & E & Ht').
    exists t, q'. split; [exact Hc|]. split; [|done]. cbn [axis_bytes tvalid]. by rewrite app_nil_r.
Qed.

Lemma in_payload_state cur :
  in_payload cur = match state_of cur with S_PAYLOAD_AND_FCS => true | _ => false end.
Proof.
  unfold in_payload, state_of. destruct (rejected cur); [done|]. cbn [negb andb].
  do 14 (destruct cur as [|? cur]; [done|]). reflexivity.
Qed.

Lemma rejected_state cur : rejected cur = match state_of cur with S_DISCARD => true | _ => false end.
Proof.
  unfold state_of. destruct (rejected cur); [done|]. do 14 (destruct cur as [|? cur]; [done|]). reflexivity.
Qed.

Lemma takes_dst_state cur : takes_dst (state_of cur) = (length cur <? 6)%nat.
Proof.
  unfold state_of. destruct (rejected cur) eqn:E.
  - do 7 (destruct cur as [|? cur]; [discriminate E|]). done.
  - do 14 (destruct cur as [|? cur]; [done|]). reflexivity.
Qed.

Lemma takes_src_state cur :
  takes_src (state_of cur) = negb (rejected cur) && (5 <? length cur)%nat && (length cur <? 12)%nat.
Proof.
  unfold state_of. destruct (rejected cur); [done|]. cbn [negb andb].
  do 14 (destruct cur as [|? cur]; [done|]). reflexivity.
Qed.

(** The registers the frame's bytes go to. *)
Lemma macs_ok_snoc i s cur :
  in_ok i -> tvalid (s_axis i) = true -> deframer_state s = state_of cur -> macs_ok s cur ->
  macs_ok (deframer_clock i s) (cur ++ [tdata (s_axis i)]).
Proof.
  intros (Hr & _) Hv Hst [[d0 Hd] Hs]. unfold macs_ok, deframer_clock. cbn [dst_mac src_mac].
  rewrite Hr, Hv, Hst, takes_dst_state, takes_src_state. cbn [andb]. split.
  - exists d0. destruct (Nat.ltb_spec (length cur) 6).
    + rewrite (take_ge cur) in Hd by lia. rewrite take_ge by (rewrite length_app; cbn; lia).
      by rewrite foldl_app, Hd.
    + rewrite take_app_le by lia. done.
  - intros Hrej. destruct (rejected cur) eqn:E; [by rewrite rejected_snoc in Hrej|].
    destruct (Hs eq_refl) as [e0 He]. cbn [negb andb].
    destruct (Nat.ltb_spec 5 (length cur)) as [H5|H5]; cbn [andb].
    + exists e0. rewrite drop_app_le by lia. destruct (Nat.ltb_spec (length cur) 12).
      * rewrite (take_ge (drop 6 cur)) in He by (rewrite length_drop; lia).
        rewrite take_ge by (rewrite length_app, length_drop; cbn; lia). by rewrite foldl_app, He.
      * rewrite take_app_le by (rewrite length_drop; lia). done.
    + exists (src_mac s). rewrite drop_ge by (rewrite length_app; cbn; lia). done.
Qed.

Lemma rejected_stable cur b : (14 <= length cur)%nat -> rejected (cur ++ [b]) = rejected cur.
Proof.
  intros H. unfold rejected, dst_ok, src_ok, upper_ok, lower_ok. rewrite length_app. cbn [length].
  rewrite !(proj2 (Nat.ltb_lt _ _)) by lia.
  by rewrite drop_app_le, !take_app_le, !app_nth1 by (rewrite ?length_drop; lia).
Qed.

Lemma in_payload_length cur : in_payload cur = true -> (14 <= length cur)%nat.
Proof. unfold in_payload. intros H. apply andb_true_iff in H as [_ H]. by apply Nat.ltb_lt in H. Qed.

Lemma body_snoc cur b :
  body (cur ++ [b]) = body cur ++ (if in_payload cur then [b] else []).
Proof.
  unfold body. destruct (in_payload cur) eqn:E.
  - pose proof (in_payload_length _ E) as Hl. unfold in_payload in *.
    rewrite rejected_stable, length_app by done. apply andb_true_iff in E as [-> _].
    rewrite (proj2 (Nat.ltb_lt 13 _)) by (cbn; lia). cbn [andb]. by rewrite drop_app_le.
  - destruct (in_payload (cur ++ [b])) eqn:E'; [|done]. pose proof (in_payload_length _ E') as Hl.
    rewrite length_app in Hl. cbn [length] in Hl. destruct (Nat.eq_dec (length cur) 13).
    + by rewrite drop_ge by (rewrite length_app; cbn; lia).
    + unfold in_payload in *. rewrite rejected_stable in E' by lia.
      apply andb_true_iff in E' as [E' _]. rewrite E', (proj2 (Nat.ltb_lt 13 _)) in E by lia. done.
Qed.

(** The buffer's output behind a byte of the payload or the check sequence. *)
Lemma r6_byte s cur b last taken q :
  cb_holds 2 (data_fifo s) q -> body cur = taken ++ q -> (taken <> [] -> length q = 4%nat) ->
  in_payload cur = true -> tvalid (deframed_r1 s) = true -> payload_finished s = last ->
  crc_reg (fcs s) = crc_reg (fcs_feed (cur ++ [b]) fcs_init) ->
  r6_beats s = out_beats cur b last.
Proof.
  intros Hq Hb Ht Hin Hv Hp Hcrc. pose proof (in_payload_length _ Hin) as H14.
  assert (Hlen : (length q <= 4)%nat) by (destruct Hq as (_ & H & _); unfold C_NUM_ROWS in H; lia).
  assert (Hbody : body cur = drop 14 cur) by (unfold body; by rewrite Hin).
  assert (Hcount : (length taken + length q = length cur - 14)%nat).
  { rewrite <- length_app, <- Hb, Hbody. apply length_drop. }
  unfold r6_beats, out_beats, deframed_r6, deframed_tuser_r6. cbn [tdata tvalid tlast].
  rewrite Hin, Hv, Hp, andb_true_r, length_app. cbn [length andb].
  pose proof (cb_full_holds 2 ltac:(lia) _ _ Hq) as Hfull. change (C_NUM_ROWS 2) with 4 in Hfull.
  destruct (Nat.ltb_spec 18 (length cur + 1)) as [H18|H18].
  - assert (length q = 4%nat) as H4.
    { destruct taken as [|t taken]; [cbn in Hcount; lia|]. by apply Ht. }
    rewrite (proj2 Hfull) by lia. destruct q as [|x q]; [done|].
    destruct (cb_empty (data_fifo s)) eqn:Em;
      [by apply (cb_empty_holds 2 ltac:(lia) _ _ Hq) in Em|]. cbn [andb negb].
    rewrite (cb_read_data_holds 2 ltac:(lia) _ _ Hq x q eq_refl). unfold fcs_good, verify_out.
    rewrite Hcrc. do 3 f_equal.
    replace (length cur + 1 - 5)%nat with (14 + length taken)%nat by (cbn in H4, Hcount; lia).
    rewrite app_nth1 by (cbn in H4, Hcount; lia). symmetry. apply nth_lookup_Some.
    rewrite <- lookup_drop, <- Hbody, Hb. by rewrite lookup_app_r, Nat.sub_diag.
  - destruct (cb_full 2 (data_fifo s)) eqn:Ef; [|done].
    pose proof (proj1 Hfull eq_refl). lia.
Qed.

(** An edge with a byte. *)
Lemma deframer_step_byte i s cur :
  let a := s_axis i in
  in_ok i -> deframer_inv s cur false -> tvalid a = true ->
  (tlast a = true -> (14 <= length cur)%nat) ->
  r6_beats (deframer_clock i s) = out_beats cur (tdata a) (tlast a) /\
  deframer_inv (deframer_clock i s) (if tlast a then [] else cur ++ [tdata a]) (tlast a) /\
  dropped_packet_count (deframer_clock i s) =
    wrap 16 (dropped_packet_count s + drop_count cur (tlast a)).
Proof.
  intros a Hok (Hst & Hm & Hu & Hl & Hd & Hinv) Hv Hend.
  pose proof Hok as (Hr & _ & _ & _ & _ & Hb8).
  pose proof (macs_ok_snoc i s cur Hok Hv Hst Hm) as Hm'.
  assert (Hfsm : deframer_state (deframer_clock i s) =
                 state_of (if tlast a then [] else cur ++ [tdata a])).
  { unfold deframer_clock. cbn [deframer_state]. fold a. rewrite Hr, Hv.
    destruct (tlast a) eqn:El; [|by apply fsm_state_of].
    unfold deframer_fsm. fold a. rewrite Hst, El. specialize (Hend eq_refl).
    pose proof (in_payload_state cur) as H1. pose proof (rejected_state cur) as H2.
    assert (in_payload cur = negb (rejected cur)) as E.
    { unfold in_payload. rewrite (proj2 (Nat.ltb_lt 13 _)) by lia. by rewrite andb_true_r. }
    rewrite E, H2 in H1. by destruct (state_of cur). }
  assert (Hpf : payload_finished (deframer_clock i s) = tlast a && in_payload cur).
  { unfold deframer_clock, ends_payload. cbn [payload_finished]. fold a.
    rewrite Hr, Hv, Hst, in_payload_state. cbn [andb].
    destruct cur as [|c cur]; [by rewrite andb_false_r|]. destruct Hinv as (_ & _ & _ & -> & _).
    by destruct (state_of (c :: cur)), (tlast a). }
  assert (Hfr : fcs_reset (deframer_clock i s) = tlast a /\
                dropped_packet_count (deframer_clock i s) =
                  wrap 16 (dropped_packet_count s + drop_count cur (tlast a))).
  { unfold deframer_clock, ends_payload, ends_discard, drop_count.
    cbn [fcs_reset dropped_packet_count]. fold a. rewrite Hr, Hv, Hst.
    rewrite <- in_payload_state, <- rejected_state. cbn [andb].
    destruct (tlast a); cbn [andb orb]; [|by rewrite Z.add_0_r, wrap_small].
    unfold in_payload. rewrite (proj2 (Nat.ltb_lt 13 _)) by (specialize (Hend eq_refl); lia).
    rewrite andb_true_r. destruct (rejected cur); [done|]. by rewrite Z.add_0_r, wrap_small. }
  assert (Hr1 : deframed_r1 (deframer_clock i s) =
                if in_payload cur then Axis (tdata a) true (tlast a) else no_axis).
  { unfold deframer_clock. cbn [deframed_r1]. fold a. rewrite Hr, Hv, Hst, in_payload_state.
    by destruct (state_of cur). }
  assert (Hcrc : crc_reg (fcs (deframer_clock i s)) = crc_reg (fcs_feed (cur ++ [tdata a]) fcs_init)).
  { unfold deframer_clock. cbn [fcs]. fold a. rewrite Hr, Hv, orb_false_r. unfold fcs_feed.
    rewrite foldl_app. cbn [foldl]. fold (fcs_feed cur fcs_init).
    assert (fcs_reset s = false /\ crc_reg (fcs s) = crc_reg (fcs_feed cur fcs_init)) as [-> E].
    { destruct cur; [by destruct Hinv as (-> & -> & _)|by destruct Hinv as (_ & -> & -> & _)]. }
    unfold fcs_calc, fcs_clock. cbn [andb crc_reg]. by rewrite E. }
  assert (Hfifo : exists taken q, cb_holds 2 (data_fifo (deframer_clock i s)) q /\
                    body cur = taken ++ q /\ (taken <> [] -> length q = 4%nat)).
  { unfold deframer_clock. cbn [data_fifo]. destruct cur as [|c cur].
    - destruct Hinv as (_ & _ & H1 & Hq). destruct (payload_finished s).
      + exists [], []. split; [by apply cb_clock_reset|done].
      + destruct Hq as [|Hq]; [done|]. apply (fifo_step _ _ _ [] [] Hq); [|done].
        unfold axis_bytes. by rewrite H1.
    - destruct Hinv as (_ & _ & _ & -> & taken & q & Hq & Hb & Ht). by apply (fifo_step _ _ _ taken q). }
  assert (Hlen' : length (buffers (data_fifo (deframer_clock i s))) = 4%nat) by by apply fifo_length.
  assert (Hu' : Forall (is_u 8) (cur ++ [tdata a])).
  { apply Forall_app. split; [done|]. by constructor. }
  destruct Hfifo as (taken & q & Hq & Hb & Ht). destruct Hfr as [Hfr Hdrop].
  assert (Hd' : is_u 16 (dropped_packet_count (deframer_clock i s))).
  { rewrite Hdrop. apply wrap_range. lia. }
  generalize dependent (deframer_clock i s). intros s' **. split; [|split; [|done]].
  - destruct (in_payload cur) eqn:Hin.
    + apply (r6_byte _ _ _ _ taken q); try done; [by rewrite Hr1|by rewrite Hpf, andb_true_r].
    + rewrite r6_beats_r1 by by rewrite Hr1. unfold out_beats. by rewrite Hin.
  - unfold deframer_inv. destruct (tlast a) eqn:El.
    + split; [done|]. split; [split; [by exists (dst_mac s')|intros _; by exists (src_mac s')]|].
      do 3 (split; [done|]). split; [done|]. rewrite Hpf, Hr1. destruct (in_payload cur) eqn:Hin; [by left|].
      right. split; [|done]. unfold body in Hb. rewrite Hin in Hb. symmetry in Hb.
      by apply app_eq_nil in Hb as [_ ->].
    + do 5 (split; [done|]). destruct (cur ++ [tdata a]) as [|c cur'] eqn:Ec.
      { by apply app_eq_nil in Ec as [_ ?]. }
      split; [done|]. split; [done|]. split; [done|]. split; [done|].
      exists taken, q. split; [done|]. split; [|done].
      rewrite <- Ec, body_snoc, Hb, Hr1, <- app_assoc. by destruct (in_payload cur).
Qed.

(** ** Runs *)
Definition pending (s : deframer_regs) : list user_beat := emitted s ++ r6_beats s.
Definition in_beats (ins : list deframer_in) : list beat :=
  concat ((fun i => axis_beats (s_axis i)) <$> ins).

(** At least one edge without a byte behind each packet. *)
Fixpoint spaced (gap : bool) (ins : list deframer_in) : Prop :=
  match ins with
  | [] => True
  | i :: ins' =>
      (tvalid (s_axis i) = true -> gap = false) /\
      spaced (tvalid (s_axis i) && tlast (s_axis i)) ins'
  end.

(** No packet ends within the header. *)
Fixpoint beats_ok (cur : list Z) (evs : list beat) : Prop :=
  match evs with
  | [] => True
  | (b, last) :: evs' =>
      (last = true -> (14 <= length cur)%nat) /\ beats_ok (if last then [] else cur ++ [b]) evs'
  end.

Lemma wrap_add_l w a b : 0 <= w -> wrap w (wrap w a + b) = wrap w (a + b).
Proof. intros. apply Z.add_mod_idemp_l, Z.pow_nonzero; lia. Qed.

Lemma deframer_run_step ins s cur gap :
  Forall in_ok ins -> spaced gap ins -> beats_ok cur (in_beats ins) -> deframer_inv s cur gap ->
  let '(out, s') := deframer_run ins s in
  out ++ pending s' = pending s ++ deframes cur (in_beats ins) /\
  (exists cur' gap', deframer_inv s' cur' gap') /\
  dropped_packet_count s' = wrap 16 (dropped_packet_count s + drops cur (in_beats ins)).
Proof.
  intros Hins. revert s cur gap. induction Hins as [|i ins Hi _ IH]; intros s cur gap Hsp Hb Hinv.
  - cbn. rewrite app_nil_r, Z.add_0_r. split; [done|]. split; [by exists cur, gap|].
    symmetry. apply wrap_small, Hinv.
  - destruct Hsp as [Hgap Hsp]. cbn [deframer_run].
    change (in_beats (i :: ins)) with (axis_beats (s_axis i) ++ in_beats ins) in *.
    unfold axis_beats in *. destruct (tvalid (s_axis i)) eqn:Hv; cbn [andb app] in *.
    + rewrite (Hgap eq_refl) in Hinv. destruct Hb as [Hend Hb].
      destruct (deframer_step_byte i s cur Hi Hinv Hv Hend) as (Hr6 & Hinv' & Hd).
      specialize (IH _ _ _ Hsp Hb Hinv').
      destruct (deframer_run ins (deframer_clock i s)) as [out s']. destruct IH as (H1 & H2 & H3).
      split; [|split; [exact H2|]].
      * rewrite <- app_assoc, H1. unfold pending. rewrite emitted_clock, Hr6 by apply Hi.
        by rewrite <- !app_assoc.
      * rewrite H3, Hd, wrap_add_l by lia. cbn [drops]. by rewrite Z.add_assoc.
    + destruct (deframer_step_gap i s cur gap Hi Hinv Hv) as (Hr6 & Hinv' & Hd).
      specialize (IH _ _ _ Hsp Hb Hinv').
      destruct (deframer_run ins (deframer_clock i s)) as [out s']. destruct IH as (H1 & H2 & H3).
      split; [|split; [exact H2|]].
      * rewrite <- app_assoc, H1. unfold pending. rewrite emitted_clock, Hr6 by apply Hi.
        by rewrite app_nil_r, <- !app_assoc.
      * by rewrite H3, Hd.
Qed.

Lemma deframer_run_app ins1 ins2 s :
  deframer_run (ins1 ++ ins2) s =
    ((deframer_run ins1 s).1 ++ (deframer_run ins2 (deframer_run ins1 s).2).1,
     (deframer_run ins2 (deframer_run ins1 s).2).2).
Proof.
  revert s. induction ins1 as [|i ins1 IH]; intros s; cbn [deframer_run app].
  - cbn [fst snd]. by destruct (deframer_run ins2 s).
  - rewrite IH. destruct (deframer_run ins1 (deframer_clock i s)) as [out s'].
    cbn [fst snd]. by rewrite app_assoc.
Qed.

(** ** Whole frames *)
Definition committed (cur : list Z) : list user_beat :=
  quiet_beats (take (length cur - 18) (body cur)).

Lemma body_last cur b :
  in_payload cur = true -> (18 < length cur + 1)%nat ->
  take (length cur + 1 - 18) (body cur ++ [b]) =
    take (length cur - 18) (body cur) ++ [nth (length cur + 1 - 5) (cur ++ [b]) 0].
Proof.
  intros Hin H18. pose proof (in_payload_length _ Hin). unfold body. rewrite Hin.
  replace (length cur + 1 - 18)%nat with (S (length cur - 18)) by lia.
  rewrite take_app_le by (rewrite length_drop; lia). rewrite app_nth1 by lia.
  replace (length cur + 1 - 5)%nat with (14 + (length cur - 18))%nat by lia.
  destruct (lookup_lt_is_Some_2 (drop 14 cur) (length cur - 18)) as [x Hx].
  { rewrite length_drop. lia. }
  rewrite (take_S_r _ _ x Hx). f_equal. f_equal. symmetry. apply nth_lookup_Some.
  by rewrite <- lookup_drop.
Qed.

Lemma committed_snoc cur b : committed (cur ++ [b]) = committed cur ++ out_beats cur b false.
Proof.
  unfold committed, out_beats. rewrite body_snoc, length_app. cbn [length andb].
  destruct (in_payload cur) eqn:Hin; cbn [andb].
  - destruct (Nat.ltb_spec 18 (length cur + 1)).
    + rewrite body_last by done. unfold quiet_beats. by rewrite fmap_app.
    + replace (length cur + 1 - 18)%nat with 0%nat by lia.
      replace (length cur - 18)%nat with 0%nat by lia. by rewrite !take_0.
  - unfold body. rewrite Hin. by rewrite !app_nil_r, !take_nil.
Qed.

Lemma deframes_prefix l evs :
  deframes [] (data_beats l ++ evs) = committed l ++ deframes l evs.
Proof.
  revert evs. induction l as [|b l IH] using rev_ind; intros evs; [done|].
  rewrite data_beats_app, <- app_assoc, IH. cbn [data_beats fmap list_fmap app deframes].
  by rewrite committed_snoc, <- app_assoc.
Qed.

Lemma accepts_rejected f : (14 <= length f)%nat -> accepts f = negb (rejected f).
Proof.
  intros H. unfold accepts, rejected. rewrite !(proj2 (Nat.ltb_lt _ _)) by lia. cbn [andb].
  by destruct (dst_ok f), (src_ok f), (upper_ok f), (lower_ok f).
Qed.

Lemma deframe_snoc l b :
  (14 <= length l)%nat -> deframe (l ++ [b]) = committed l ++ out_beats l b true.
Proof.
  intros H. unfold deframe, committed, out_beats.
  rewrite accepts_rejected, rejected_stable, length_app by (rewrite ?length_app; lia).
  cbn [length andb].
  assert (Hin : in_payload l = negb (rejected l)).
  { unfold in_payload. rewrite (proj2 (Nat.ltb_lt _ _)) by lia. by rewrite andb_true_r. }
  destruct (rejected l); cbn [negb] in *; [by unfold body; rewrite Hin, take_nil|].
  assert (Hd : drop 14 (l ++ [b]) = body l ++ [b]) by (unfold body; rewrite Hin; by apply drop_app_le).
  rewrite Hd, Hin. cbn [andb]. destruct (Nat.ltb_spec 18 (length l + 1)).
  - by rewrite body_last, rev_unit, rev_involutive by done.
  - replace (length l + 1 - 18)%nat with 0%nat by lia.
    replace (length l - 18)%nat with 0%nat by lia. by rewrite !take_0.
Qed.

Lemma deframes_frame f evs :
  (15 <= length f)%nat -> deframes [] (last_beats f ++ evs) = deframe f ++ deframes [] evs.
Proof.
  intros Hl. destruct f as [|b l _] using rev_ind; [cbn in Hl; lia|].
  rewrite length_app in Hl. cbn in Hl.
  rewrite last_beats_snoc, <- app_assoc, deframes_prefix, deframe_snoc by lia.
  by rewrite <- app_assoc.
Qed.

Lemma drops_prefix l evs : drops [] (data_beats l ++ evs) = drops l evs.
Proof.
  revert evs. induction l as [|b l IH] using rev_ind; intros evs; [done|].
  rewrite data_beats_app, <- app_assoc, IH. reflexivity.
Qed.

Lemma drops_frame f evs :
  (15 <= length f)%nat ->
  drops [] (last_beats f ++ evs) = (if accepts f then 0 else 1) + drops [] evs.
Proof.
  intros Hl. destruct f as [|b l _] using rev_ind; [cbn in Hl; lia|].
  rewrite length_app in Hl. cbn in Hl.
  rewrite last_beats_snoc, <- app_assoc, drops_prefix. cbn [app drops]. unfold drop_count.
  rewrite accepts_rejected, rejected_stable by (rewrite ?length_app; lia). by destruct (rejected l).
Qed.

Lemma beats_ok_prefix l evs : beats_ok [] (data_beats l ++ evs) <-> beats_ok l evs.
Proof.
  revert evs. induction l as [|b l IH] using rev_ind; intros evs; [done|].
  rewrite data_beats_app, <- app_assoc, IH. cbn [data_beats fmap list_fmap app beats_ok].
  split; [by intros [_ H]|]. by split.
Qed.

Lemma beats_ok_frames fs :
  Forall (fun f => (15 <= length f)%nat) fs -> beats_ok [] (concat (last_beats <$> fs)).
Proof.
  induction 1 as [|f fs Hl _ IH]; [done|]. cbn [fmap list_fmap concat].
  destruct f as [|b l _] using rev_ind; [cbn in Hl; lia|]. rewrite length_app in Hl. cbn in Hl.
  rewrite last_beats_snoc, <- app_assoc, beats_ok_prefix. cbn [app beats_ok]. split; [lia|done].
Qed.

Lemma deframes_frames fs :
  Forall (fun f => (15 <= length f)%nat) fs ->
  deframes [] (concat (last_beats <$> fs)) = concat (deframe <$> fs) /\
  drops [] (concat (last_beats <$> fs)) = Z.of_nat (length (filter (fun f => accepts f = false) fs)).
Proof.
  induction 1 as [|f fs Hl _ [IH1 IH2]]; [done|]. cbn [fmap list_fmap concat].
  rewrite deframes_frame, drops_frame by done. fold (fmap last_beats fs). rewrite IH1, IH2.
  split; [done|]. rewrite filter_cons. destruct (accepts f).
  - by rewrite decide_False.
  - rewrite decide_True by done. cbn. lia.
Qed.
End Deframer.

Lemma after_reset_inv filter_src src dst : deframer_inv filter_src src dst after_reset [] false.
Proof.
  split; [done|]. split; [by split; [exists 0|intros _; exists 0]|]. split; [done|].
  split; [done|]. split; [by vm_compute|]. do 3 (split; [done|]). right. by apply cb_holds_nil.
Qed.

Lemma spaced_quiet gap ins quiet :
  spaced gap ins -> Forall (fun i => tvalid (s_axis i) = false) quiet -> spaced gap (ins ++ quiet).
Proof.
  intros H Hq. revert gap H. induction ins as [|i ins IH]; intros gap H; cbn in *.
  - revert gap H. induction Hq as [|i quiet Hi _ IH]; intros gap H; cbn; [done|].
    rewrite Hi. split; [done|]. by apply IH.
  - destruct H as [H1 H2]. split; [done|]. by apply IH.
Qed.

Lemma in_beats_app l l' : in_beats (l ++ l') = in_beats l ++ in_beats l'.
Proof. unfold in_beats. by rewrite fmap_app, concat_app. Qed.

Lemma pending_two_gaps i1 i2 s :
  in_reset i2 = false -> tvalid (s_axis i1) = false -> tvalid (s_axis i2) = false ->
  pending (deframer_clock i2 (deframer_clock i1 s)) = [].
Proof.
  intros Hr H1 H2. unfold pending. rewrite emitted_clock by done.
  rewrite !r6_beats_r1; [done|..]; unfold deframer_clock; cbn [deframed_r1]; by rewrite ?H1, ?H2.
Qed.

Lemma deframer_delivers_all filter_src src dst ins fs g1 g2 :
  Forall (in_ok filter_src src dst) (ins ++ [g1; g2]) -> spaced false ins ->
  in_beats ins = concat (last_beats <$> fs) -> Forall (fun f => (15 <= length f)%nat) fs ->
  tvalid (s_axis g1) = false -> tvalid (s_axis g2) = false ->
  (deframer_run (ins ++ [g1; g2]) after_reset).1 = concat (deframe filter_src src dst <$> fs) /\
  dropped_packet_count (deframer_run (ins ++ [g1; g2]) after_reset).2 =
    wrap 16 (Z.of_nat (length (filter (fun f => accepts filter_src src dst f = false) fs))).
Proof.
  intros Hins Hsp Hbeats Hfs Hg1 Hg2.
  assert (Hb : in_beats (ins ++ [g1; g2]) = concat (last_beats <$> fs)).
  { rewrite in_beats_app, Hbeats. unfold in_beats, axis_beats. cbn. rewrite Hg1, Hg2. apply app_nil_r. }
  assert (Hquiet : Forall (fun i => tvalid (s_axis i) = false) [g1; g2]) by (repeat constructor; done).
  pose proof (deframer_run_step filter_src src dst (ins ++ [g1; g2]) after_reset [] false Hins
    (spaced_quiet _ _ _ Hsp Hquiet)) as H.
  rewrite Hb in H. specialize (H (beats_ok_frames fs Hfs) (after_reset_inv _ _ _)).
  destruct (deframes_frames filter_src src dst fs Hfs) as [E1 E2]. rewrite E1, E2 in H.
  assert (Hp : pending (deframer_run (ins ++ [g1; g2]) after_reset).2 = []).
  { rewrite deframer_run_app. cbn [snd deframer_run]. apply pending_two_gaps; [|done..].
    apply Forall_app in Hins as [_ Hins]. inversion_clear Hins as [|? ? _ Hins'].
    inversion_clear Hins' as [|? ? Hi _]. apply Hi. }
  destruct (deframer_run (ins ++ [g1; g2]) after_reset) as [out s']. cbn [fst snd] in *.
  destruct H as (H1 & _ & H3). rewrite Hp, app_nil_r in H1. by split.
Qed.

(** ** Properties *)


(** ** Witness and examples *)
Definition demo_station : Z := 0x020000000002.
Definition demo_in (enable : bool) (a : axis) : deframer_in :=
  DeframerIn false enable false 0 demo_station a.
Definition demo_gap : deframer_in := demo_in true no_axis.
Definition demo_inputs (enable : bool) (f : list Z) : list deframer_in :=
  ((fun bl => demo_in enable (Axis bl.1 true bl.2)) <$> last_beats f) ++ [demo_in enable no_axis].

Definition demo_header (last_dst : Z) : list Z :=
  [2; 0; 0; 0; 0; last_dst; 2; 0; 0; 0; 0; 1; 8; 0].
Definition demo_body (last_dst : Z) : list Z := demo_header last_dst ++ [0x41; 0x42; 0x43].
Definition demo_frame (last_dst : Z) : list Z :=
  demo_body last_dst ++ fcs_trailer (fcs_feed (demo_body last_dst) fcs_init).


(** A frame that passes while the deframer is disabled goes into the FCS
    register, which nothing clears: the next frame, good and for this
    station, is passed on as damaged. *)
Example disabled_traffic_spoils_next :
  (deframer_run (demo_inputs false (demo_frame 2) ++ demo_inputs true (demo_frame 2) ++
     [demo_gap]) after_reset).1 =
  [(0x41, false, false); (0x42, false, false); (0x43, true, true)].
Proof. vm_compute. reflexivity. Qed.

(** A reset within a payload leaves up to four of its bytes in the buffer; they
    come out in front of the next payload, and the check sequence is reported
    as good. *)
Example reset_keeps_bytes :
  (deframer_run (take 18 (demo_inputs true (demo_frame 2)) ++ [reset_in] ++
     demo_inputs true (demo_frame 2) ++ [demo_gap]) after_reset).1 =
  [(0x41, false, false); (0x42, false, false); (0x43, false, false); (0x1A, false, false);
   (0x41, false, false); (0x42, false, false); (0x43, true, false)].
Proof. vm_compute. reflexivity. Qed.

(** A packet that ends within the header is not taken for ended: the header
    states do not look at [tlast], so the frame behind it is lost. *)
Example runt_swallows_next :
  (deframer_run (demo_inputs true [2; 0; 0; 0; 0; 2; 2; 0] ++ demo_inputs true (demo_frame 2) ++
     [demo_gap]) after_reset).1 = [].
Proof. vm_compute. reflexivity. Qed.

(** Two good frames without an edge between them: the FCS register is cleared on
    the edge that takes the first byte of the second, which is passed on as
    damaged. *)
Example back_to_back_spoils_next :
  (deframer_run (removelast (demo_inputs true (demo_frame 2)) ++ demo_inputs true (demo_frame 2) ++
     [demo_gap; demo_gap]) after_reset).1 =
  [(0x41, false, false); (0x42, false, false); (0x43, true, false);
   (0x41, false, false); (0x42, false, false); (0x43, true, true)].
Proof. vm_compute. reflexivity. Qed.
