(* ===== verification/EthernetLink.v ===== *)
(** * From framer to deframer

    The Ethernet framer and the deframer put together over a line that passes on
    the framer's bytes unchanged, with gaps of its own: what one station's
    packets become at another station. *)

From S2P Require Import Prelude.
From S2P Require Import Axis.
From S2P Require Import EthernetFcs.
From S2P Require Import EthernetFramer.
From S2P Require EthernetDeframer.

(** ** Addresses *)

(** The bits of an address from its bytes. *)
Lemma testbit_foldl_mac l d i :
  Forall (is_u 8) l -> (length l <= 6)%nat -> 0 <= i < 8 * Z.of_nat (length l) ->
  Z.testbit (foldl EthernetDeframer.mac_shift d l) i =
    Z.testbit (nth (length l - 1 - Z.to_nat (i / 8)) l 0) (i mod 8).
Proof.
  revert i. induction l as [|b l IH] using rev_ind; intros i Hl H6 Hi; [cbn in Hi; lia|].
  apply Forall_app in Hl as [Hl Hb]. inversion_clear Hb.
  rewrite length_app in *. cbn [length] in *. rewrite foldl_app. cbn [foldl].
  rewrite EthernetDeframer.testbit_mac_shift by (done || lia). destruct (Z.ltb_spec i 8).
  - rewrite Z.div_small, Z.mod_small by lia. cbn [Z.to_nat]. rewrite Nat.sub_0_r.
    rewrite app_nth2 by lia. by replace (length l + 1 - 1 - length l)%nat with 0%nat by lia.
  - rewrite (proj2 (Z.ltb_lt i 48)) by lia. cbn [andb]. rewrite IH by (done || lia).
    assert (E : i / 8 = (i - 8) / 8 + 1 /\ i mod 8 = (i - 8) mod 8 /\
                0 <= (i - 8) / 8 < Z.of_nat (length l)).
    { Z.to_euclidean_division_equations. lia. }
    destruct E as (-> & -> & Hr). rewrite Z2Nat.inj_add, app_nth1 by lia. do 2 f_equal. lia.
Qed.

Lemma mac_byte_range mac k : is_u 8 (mac_byte mac k).
Proof. by apply wrap_range. Qed.

Lemma mac_of_mac_bytes mac :
  is_u 48 mac -> EthernetDeframer.mac_of (mac_byte mac <$> [0; 1; 2; 3; 4; 5]) = mac.
Proof.
  intros Hmac. set (l := mac_byte mac <$> [0; 1; 2; 3; 4; 5]).
  assert (Hl : Forall (is_u 8) l) by (repeat constructor; apply mac_byte_range).
  apply Z.bits_inj'. intros i Hi. destruct (Z.lt_ge_cases i 48).
  - unfold EthernetDeframer.mac_of. rewrite testbit_foldl_mac by (done || cbn; lia).
    assert (E : i = 8 * (i / 8) + i mod 8) by (apply Z.div_mod; lia).
    pose proof (Z.mod_pos_bound i 8 ltac:(lia)).
    assert (Hn : nth (length l - 1 - Z.to_nat (i / 8)) l 0 = mac_byte mac (5 - i / 8)).
    { assert (i / 8 = 0 \/ i / 8 = 1 \/ i / 8 = 2 \/ i / 8 = 3 \/ i / 8 = 4 \/ i / 8 = 5)
        as [-> | [-> | [-> | [-> | [-> | ->]]]]]; [|reflexivity..].
      Z.to_euclidean_division_equations. lia. }
    rewrite Hn. unfold mac_byte. rewrite testbit_wrap, testbit_shiftr by lia.
    zcases. cbn [andb]. f_equal. lia.
  - rewrite (testbit_high 48 mac) by done. apply (testbit_high 48); [|lia].
    rewrite <- (EthernetDeframer.mac_of_six l 0 Hl eq_refl). unfold l. cbn [fmap list_fmap foldl].
    apply EthernetDeframer.mac_shift_is_u, mac_byte_range.
Qed.

(** ** One frame *)

Lemma header_length dst src arp : length (header dst src arp) = 14%nat.
Proof. reflexivity. Qed.

Lemma frame_fcs_length bytes : length (frame_fcs bytes) = 4%nat.
Proof. reflexivity. Qed.

Lemma fcs_good_frame body :
  body <> [] -> EthernetDeframer.fcs_good (body ++ frame_fcs body) = true.
Proof.
  intros Hne. unfold EthernetDeframer.fcs_good, frame_fcs. change EthernetDeframer.fcs_init with fcs_init.
  unfold verify_out. apply Z.eqb_eq. unfold fcs_feed at 1. rewrite foldl_app.
  fold (fcs_feed body fcs_init). apply feed_trailer, fcs_feed_synced, Hne.
Qed.

(** A payload with [tlast] on its last byte, and no error there. *)
Definition good_payload (l : list Z) : list EthernetDeframer.user_beat :=
  (fun bl => (bl.1, bl.2, false)) <$> last_beats l.

(** Whether a station takes a packet. *)
Definition for_station (filter_src : bool) (peer station : Z) (src : Z) (p : packet) : bool :=
  negb (pkt_arp p) && EthernetDeframer.mac_match (pkt_dst p) station &&
  (negb filter_src || EthernetDeframer.mac_match src peer).

Definition packet_ok (p : packet) : Prop :=
  is_u 48 (pkt_dst p) /\ pkt_payload p <> [].

Section Station.
Context (filter_src : bool) (peer station : Z) (src : Z) (Hsrc : is_u 48 src).

Lemma accepts_frame p :
  packet_ok p ->
  EthernetDeframer.accepts filter_src peer station (packet_frame src p) =
    for_station filter_src peer station src p.
Proof.
  intros [Hdst Hne]. destruct p as [dst arp payload]. cbn [pkt_dst pkt_payload pkt_arp] in *.
  unfold EthernetDeframer.accepts, for_station, packet_frame, frame, header.
  cbn [pkt_dst pkt_payload pkt_arp].
  unfold EthernetDeframer.dst_ok, EthernetDeframer.src_ok, EthernetDeframer.upper_ok,
    EthernetDeframer.lower_ok.
  rewrite <- !app_assoc.
  rewrite (take_app_length' _ _ 6), (drop_app_length' _ _ 6), (take_app_length' _ _ 6) by done.
  rewrite !mac_of_mac_bytes by done. cbn [fmap list_fmap app nth].
  destruct arp; cbn; by rewrite ?andb_false_r, ?andb_true_r.
Qed.

Lemma deframe_frame p :
  packet_ok p ->
  EthernetDeframer.deframe filter_src peer station (packet_frame src p) =
    if for_station filter_src peer station src p then good_payload (pkt_payload p) else [].
Proof.
  intros Hp. unfold EthernetDeframer.deframe. rewrite accepts_frame by done.
  destruct (for_station _ _ _ _ _); [|done]. destruct Hp as [_ Hne].
  destruct p as [dst arp payload]. unfold packet_frame, frame. cbn [pkt_dst pkt_payload pkt_arp] in *.
  set (body := header dst src arp ++ payload).
  assert (Hl : (length (body ++ frame_fcs body) - 18 = length payload)%nat).
  { unfold body. rewrite !length_app, header_length, frame_fcs_length. lia. }
  rewrite Hl. unfold body at 1. rewrite <- app_assoc.
  rewrite (drop_app_length' _ _ 14), (take_app_length' _ _ (length payload)) by done.
  destruct (exists_last Hne) as (l & b & ->). rewrite rev_unit, rev_involutive.
  unfold good_payload. rewrite last_beats_snoc, fmap_app, fcs_good_frame by done.
  f_equal. unfold data_beats. by rewrite <- list_fmap_compose.
Qed.

Lemma deframe_packets ps :
  Forall packet_ok ps ->
  concat (EthernetDeframer.deframe filter_src peer station <$> (packet_frame src <$> ps)) =
    concat ((fun p => good_payload (pkt_payload p)) <$>
              filter (fun p => for_station filter_src peer station src p = true) ps).
Proof.
  induction 1 as [|p ps Hp _ IH]; [done|]. rewrite filter_cons, !fmap_cons. cbn [concat].
  rewrite IH, (deframe_frame p Hp). by destruct (for_station _ _ _ _ p).
Qed.
End Station.

Lemma packet_frame_length src p : pkt_payload p <> [] -> (15 <= length (packet_frame src p))%nat.
Proof.
  destruct p as [dst arp [|b l]]; [done|]. intros _. unfold packet_frame, frame. cbn [pkt_payload].
  rewrite !length_app, header_length, frame_fcs_length. lia.
Qed.

(** ** Properties *)


(** ** Witness: the framer's demonstration packet, a broadcast, at the
    deframer's demonstration station *)
Definition demo_line : list EthernetDeframer.deframer_in :=
  EthernetDeframer.demo_inputs true (packet_frame demo_src demo_packet).

