(* ===== verification/Fifo.v ===== *)
(** * The first-word-fall-through FIFO: [fifo/fifo.vhd]

    A RAM with two pointers of the width of an address, and an output register
    that fetches the next word by itself.  One row of the RAM always stays free.
    The theorem: the register and the RAM together are a queue; a write into a
    full FIFO is ignored. *)

From S2P Require Import Prelude.
From S2P Require Import CircularBuffer.

Record fifo := Fifo {
  ram : list Z;
  f_read_pointer : Z;
  f_write_pointer : Z;
  data_out_r : Z;
  output_valid_r : bool
}.

Section Fifo.
Context (G_LOG2_DEPTH : Z).

Definition f_rows : Z := 2 ^ G_LOG2_DEPTH.

Definition f_empty_sig (f : fifo) : bool := f_read_pointer f =? f_write_pointer f.
Definition f_full (f : fifo) : bool :=
  wrap G_LOG2_DEPTH (f_write_pointer f - f_read_pointer f) =? wrap G_LOG2_DEPTH (f_rows - 1).
Definition f_empty (f : fifo) : bool := negb (output_valid_r f).
Definition fwft_read (read_en : bool) (f : fifo) : bool := read_en || negb (output_valid_r f).

Definition f_new : fifo := Fifo (replicate (Z.to_nat f_rows) 0) 0 0 0 false.

(** One rising edge: [p_write], [p_read], [p_fwft]. *)
Definition f_clock (sreset : bool) (write_data : Z) (write_en read_en : bool) (f : fifo) : fifo :=
  let wr := write_en && negb (f_full f) in
  let rd := fwft_read read_en f in
  Fifo
    (if wr then <[Z.to_nat (f_write_pointer f) := write_data]> (ram f) else ram f)
    (if sreset then 0
     else if rd && negb (f_empty_sig f) then wrap G_LOG2_DEPTH (f_read_pointer f + 1)
     else f_read_pointer f)
    (if sreset then 0
     else if wr then wrap G_LOG2_DEPTH (f_write_pointer f + 1) else f_write_pointer f)
    (if rd then nth (Z.to_nat (f_read_pointer f)) (ram f) 0 else data_out_r f)
    (if sreset then false else if rd then negb (f_empty_sig f) else output_valid_r f).

(** ** The queue: the output register [o] and the RAM [q] *)
Context (Hdepth : 0 < G_LOG2_DEPTH).

Definition f_holds (f : fifo) (o : option Z) (q : list Z) : Prop :=
  length (ram f) = Z.to_nat f_rows /\ Z.of_nat (length q) < f_rows /\
  output_valid_r f = (match o with Some _ => true | None => false end) /\
  (forall x, o = Some x -> data_out_r f = x) /\
  exists r, 0 <= r /\
    f_read_pointer f = wrap G_LOG2_DEPTH r /\
    f_write_pointer f = wrap G_LOG2_DEPTH (r + Z.of_nat (length q)) /\
    forall k x, q !! k = Some x -> ram f !! Z.to_nat (wrap G_LOG2_DEPTH (r + Z.of_nat k)) = Some x.

Lemma f_rows_pos : 1 < f_rows.
Proof. unfold f_rows. apply Z.pow_gt_1; lia. Qed.

Section Holds.
Context (f : fifo) (o : option Z) (q : list Z) (Hq : f_holds f o q).

Lemma f_empty_sig_holds : f_empty_sig f = true <-> q = [].
Proof.
  destruct Hq as (_ & Hlen & _ & _ & r & Hr & Hrp & Hwp & _). unfold f_empty_sig, f_rows in *.
  rewrite Z.eqb_eq, Hrp, Hwp, wrap_eq_iff by lia. destruct q; cbn [length]; split; done || lia.
Qed.

Lemma f_full_holds : f_full f = true <-> Z.of_nat (length q) = f_rows - 1.
Proof.
  destruct Hq as (_ & Hlen & _ & _ & r & Hr & Hrp & Hwp & _). unfold f_full.
  rewrite Z.eqb_eq, Hrp, Hwp. pose proof f_rows_pos. unfold f_rows in *.
  unfold wrap. rewrite <- Zminus_mod.
  replace (r + Z.of_nat (length q) - r) with (Z.of_nat (length q)) by lia.
  rewrite !Z.mod_small by lia. done.
Qed.

Lemma f_clock_holds x wr rd :
  f_holds (f_clock false x wr rd f)
    (if fwft_read rd f then head q else o)
    ((if fwft_read rd f then tail q else q) ++ (if wr && negb (f_full f) then [x] else [])).
Proof.
  pose proof f_empty_sig_holds as Hempty. pose proof f_full_holds as Hfull. pose proof f_rows_pos as Hpos.
  destruct Hq as (Hrows & Hlen & Hov & Hdo & r & Hr & Hrp & Hwp & Hk).
  set (w := wr && negb (f_full f)). set (re := fwft_read rd f).
  assert (Hw : w = true -> Z.of_nat (length q) < f_rows - 1).
  { unfold w. intros H. apply andb_true_iff in H as [_ H].
    destruct (Z.eq_dec (Z.of_nat (length q)) (f_rows - 1)) as [E|]; [|lia].
    apply Hfull in E. by rewrite E in H. }
  unfold f_holds, f_clock. fold w re.
  cbn [ram f_read_pointer f_write_pointer data_out_r output_valid_r].
  split; [by destruct w; rewrite ?length_insert|].
  split.
  { rewrite length_app. destruct w, re, q; cbn [length tail] in *; try specialize (Hw eq_refl); lia. }
  split.
  { destruct re; [|done]. destruct (f_empty_sig f) eqn:E.
    - by rewrite (proj1 Hempty eq_refl).
    - destruct q; [by discriminate (proj2 Hempty eq_refl)|done]. }
  split.
  { intros y Hy. destruct re; [|by apply Hdo]. destruct q as [|z q0]; [done|]. injection Hy as <-.
    specialize (Hk 0%nat z eq_refl). rewrite Z.add_0_r, <- Hrp in Hk. by apply nth_lookup_Some. }
  exists (if re && negb (f_empty_sig f) then r + 1 else r).
  split; [destruct (re && negb (f_empty_sig f)); lia|]. split.
  { rewrite Hrp. destruct (re && negb (f_empty_sig f)); [|done]. unfold wrap.
    rewrite Z.add_mod_idemp_l by (apply Z.pow_nonzero; lia). done. }
  assert (Hcount : (if re && negb (f_empty_sig f) then r + 1 else r) +
                   Z.of_nat (length (if re then tail q else q)) = r + Z.of_nat (length q)).
  { destruct re; [|done]. cbn [andb]. destruct (f_empty_sig f) eqn:E; cbn [negb].
    - by rewrite (proj1 Hempty eq_refl).
    - destruct q; [by discriminate (proj2 Hempty eq_refl)|cbn [tail length]; lia]. }
  split.
  { rewrite length_app, Nat2Z.inj_add, Z.add_assoc, Hcount. destruct w; cbn [length].
    - rewrite Hwp. unfold wrap. rewrite Z.add_mod_idemp_l by (apply Z.pow_nonzero; lia).
      f_equal; lia.
    - by rewrite Z.add_0_r. }
  assert (Hold : forall k y, (if re then tail q else q) !! k = Some y ->
    exists k', q !! k' = Some y /\
      (if re && negb (f_empty_sig f) then r + 1 else r) + Z.of_nat k = r + Z.of_nat k').
  { intros k y Hy. destruct re; [|by exists k]. destruct q as [|z q0]; [done|]. exists (S k).
    split; [done|]. destruct (f_empty_sig f); [by discriminate (proj1 Hempty eq_refl)|]. cbn. lia. }
  intros k y Hky. apply lookup_app_Some in Hky as [Hky|[Hge Hky]].
  - destruct (Hold k y Hky) as (k' & Hk' & ->). pose proof (lookup_lt_Some _ _ _ Hk') as Hlt.
    apply Hk in Hk'. destruct w; [|done]. rewrite list_lookup_insert_ne; [done|]. rewrite Hwp.
    intros E. apply Z2Nat.inj in E; [|apply wrap_range; lia..]. symmetry in E.
    replace (r + Z.of_nat (length q)) with
      (r + Z.of_nat k' + (Z.of_nat (length q) - Z.of_nat k')) in E by lia.
    unfold f_rows in *. apply wrap_eq_iff in E; lia.
  - destruct w; [|done]. destruct (k - _)%nat eqn:Ek; [|done]. injection Hky as <-.
    assert (Hki : (if re && negb (f_empty_sig f) then r + 1 else r) + Z.of_nat k =
                  r + Z.of_nat (length q)) by lia.
    rewrite Hki, Hwp. apply list_lookup_insert_eq. rewrite Hrows.
    pose proof (wrap_range G_LOG2_DEPTH (r + Z.of_nat (length q)) ltac:(lia)) as Hu.
    unfold is_u in Hu. unfold f_rows. lia.
Qed.
End Holds.

Lemma f_holds_nil f :
  length (ram f) = Z.to_nat f_rows -> f_read_pointer f = 0 -> f_write_pointer f = 0 ->
  output_valid_r f = false -> f_holds f None [].
Proof.
  intros Hl Hr Hw Hv. pose proof f_rows_pos. split; [done|]. split; [cbn; lia|]. split; [done|].
  split; [done|]. exists 0. cbn [length]. rewrite Z.add_0_r, Hr, Hw.
  assert (wrap G_LOG2_DEPTH 0 = 0) as -> by (apply Z.mod_0_l, Z.pow_nonzero; lia). done.
Qed.

Lemma f_clock_reset x wr rd f :
  length (ram f) = Z.to_nat f_rows -> f_holds (f_clock true x wr rd f) None [].
Proof.
  intros Hl. apply f_holds_nil; [|done..]. cbn. destruct (_ && _); [by rewrite length_insert|done].
Qed.
End Fifo.

(** ** The queue as one list *)
Section Contents.
Context (G_LOG2_DEPTH : Z) (Hdepth : 0 < G_LOG2_DEPTH).

Definition contents (o : option Z) (q : list Z) : list Z := from_option (fun x => [x]) [] o ++ q.

(** A read that finds a word takes the first; a write that finds room appends;
    and the next word is visible as soon as there is one in the RAM. *)
Lemma f_clock_contents f o q x wr rd :
  f_holds G_LOG2_DEPTH f o q -> (wr = true -> f_full G_LOG2_DEPTH f = false) ->
  (rd = true -> o <> None) ->
  exists o' q',
    f_holds G_LOG2_DEPTH (f_clock G_LOG2_DEPTH false x wr rd f) o' q' /\
    contents o' q' = (if rd then tail (contents o q) else contents o q) ++ (if wr then [x] else []) /\
    (o' = None -> (rd = true \/ o = None) /\ q = []) /\
    (rd = false -> o <> None -> o' = o) /\
    (contents o q = [] -> o' = None).
Proof.
  intros Hq Hw Hr. pose proof (f_clock_holds G_LOG2_DEPTH Hdepth f o q Hq x wr rd) as H.
  assert (Hwr : wr && negb (f_full G_LOG2_DEPTH f) = wr).
  { destruct wr; [by rewrite Hw|done]. }
  rewrite Hwr in H. assert (Hv : output_valid_r f = match o with Some _ => true | None => false end) by apply Hq.
  unfold fwft_read in H. rewrite Hv in H. eexists _, _. split; [exact H|]. unfold contents.
  destruct o as [y|], rd; cbn [orb negb from_option app tail]; rewrite ?Hr by done.
  - destruct q; repeat split; naive_solver.
  - repeat split; naive_solver.
  - by destruct Hr.
  - destruct q; repeat split; naive_solver.
Qed.
End Contents.
