(* ===== verification/UdpIpFramer.v ===== *)
(** * The UDP/IP framer: [udp/framer/udp_ip_framer.vhd]

    The entity clock by clock: the input stage that counts the packet's length,
    the data and the length FIFO, the state machine with the header checksum's
    two registers, and the output stage.  The theorem: what leaves is the
    sequence of datagrams (IP header of UdpDevice.v, UDP header, payload) of the packets that entered,
    for any gaps and back-pressure. *)

From S2P Require Import Prelude.
From S2P Require Import Axis.
From S2P Require Import Fifo.
From S2P Require Import UdpDevice.

Inductive fsm_state_t :=
  | S_IDLE
  | S_IP_VERSION | S_IP_DSCP | S_IP_LEN_1 | S_IP_LEN_2 | S_IP_ID_1 | S_IP_ID_2
  | S_IP_FLAGS_1 | S_IP_FLAGS_2 | S_IP_TTL | S_IP_PROTOCOL
  | S_IP_HDR_CHECKSUM_1 | S_IP_HDR_CHECKSUM_2
  | S_IP_SRC_IP_1 | S_IP_SRC_IP_2 | S_IP_SRC_IP_3 | S_IP_SRC_IP_4
  | S_IP_DST_IP_1 | S_IP_DST_IP_2 | S_IP_DST_IP_3 | S_IP_DST_IP_4
  | S_SRC_PORT_1 | S_SRC_PORT_2 | S_DST_PORT_1 | S_DST_PORT_2
  | S_LENGTH_1 | S_LENGTH_2 | S_CHECKSUM_1 | S_CHECKSUM_2
  | S_DATA.

Definition C_FIFO_LOG2_DEPTH : Z := 12.
Definition C_LENGTH_FIFO_LOG2_DEPTH : Z := 10.

Record udp_framer_regs := UdpFramerRegs {
  framer_state : fsm_state_t;
  first_word : bool;
  data_fifo_we : bool;
  data_fifo_din : Z;
  packet_length_valid : bool;
  payload_length_counter : Z;
  data_fifo : fifo;
  length_fifo : fifo;
  payload_words_remaining : Z;
  ip_length : Z;
  udp_length : Z;
  ip_checksum_c1 : Z;
  ip_checksum_c2 : Z;
  framed : axis;
  output : axis
}.

(** The input ports; the configuration ports (with [enable_in]) as in
    UdpDevice.v. *)
Record udp_framer_in := UdpFramerIn {
  in_reset : bool;
  in_cfg : framer_config;
  s_axis : axis;
  m_tready : bool
}.

Definition output_ready (i : udp_framer_in) (s : udp_framer_regs) : bool :=
  m_tready i || negb (tvalid (output s)).

(** [ready] and [s_axis_tready_out] *)
Definition ready (s : udp_framer_regs) : bool :=
  negb (f_full C_FIFO_LOG2_DEPTH (data_fifo s) || f_full C_LENGTH_FIFO_LOG2_DEPTH (length_fifo s))
  || negb (data_fifo_we s).

Definition data_fifo_re (i : udp_framer_in) (s : udp_framer_regs) : bool :=
  match framer_state s with S_DATA => output_ready i s | _ => false end.
Definition length_fifo_re (i : udp_framer_in) (s : udp_framer_regs) : bool :=
  match framer_state s with S_LENGTH_2 => output_ready i s | _ => false end.
Definition ip_checksum_go (i : udp_framer_in) (s : udp_framer_regs) : bool :=
  match framer_state s with S_IP_TTL => output_ready i s | _ => false end.

(** A packet is started on this edge (if [output_ready]). *)
Definition starts (i : udp_framer_in) (s : udp_framer_regs) : bool :=
  match framer_state s with
  | S_IDLE => negb (f_empty (length_fifo s)) && framer_enable (in_cfg i)
  | _ => false
  end.

(** The state machine when [output_ready] is high: next state and [framed]. *)
Definition framer_fsm (i : udp_framer_in) (s : udp_framer_regs) : fsm_state_t * axis :=
  let c := in_cfg i in
  let put st b := (st, Axis b true false) in
  match framer_state s with
  | S_IDLE => (if starts i s then S_IP_VERSION else S_IDLE, Axis (tdata (framed s)) false false)
  | S_IP_VERSION => put S_IP_DSCP 0x45
  | S_IP_DSCP => put S_IP_LEN_1 0
  | S_IP_LEN_1 => put S_IP_LEN_2 (slice (ip_length s) 15 8)
  | S_IP_LEN_2 => put S_IP_ID_1 (slice (ip_length s) 7 0)
  | S_IP_ID_1 => put S_IP_ID_2 0
  | S_IP_ID_2 => put S_IP_FLAGS_1 0
  | S_IP_FLAGS_1 => put S_IP_FLAGS_2 0
  | S_IP_FLAGS_2 => put S_IP_TTL 0
  | S_IP_TTL => put S_IP_PROTOCOL 0x80
  | S_IP_PROTOCOL => put S_IP_HDR_CHECKSUM_1 0x11
  | S_IP_HDR_CHECKSUM_1 => put S_IP_HDR_CHECKSUM_2 (slice (ip_checksum_c2 s) 15 8)
  | S_IP_HDR_CHECKSUM_2 => put S_IP_SRC_IP_1 (slice (ip_checksum_c2 s) 7 0)
  | S_IP_SRC_IP_1 => put S_IP_SRC_IP_2 (slice (src_address c) 31 24)
  | S_IP_SRC_IP_2 => put S_IP_SRC_IP_3 (slice (src_address c) 23 16)
  | S_IP_SRC_IP_3 => put S_IP_SRC_IP_4 (slice (src_address c) 15 8)
  | S_IP_SRC_IP_4 => put S_IP_DST_IP_1 (slice (src_address c) 7 0)
  | S_IP_DST_IP_1 => put S_IP_DST_IP_2 (slice (destination_address c) 31 24)
  | S_IP_DST_IP_2 => put S_IP_DST_IP_3 (slice (destination_address c) 23 16)
  | S_IP_DST_IP_3 => put S_IP_DST_IP_4 (slice (destination_address c) 15 8)
  | S_IP_DST_IP_4 => put S_SRC_PORT_1 (slice (destination_address c) 7 0)
  | S_SRC_PORT_1 => put S_SRC_PORT_2 (slice (source_port c) 15 8)
  | S_SRC_PORT_2 => put S_DST_PORT_1 (slice (source_port c) 7 0)
  | S_DST_PORT_1 => put S_DST_PORT_2 (slice (destination_port c) 15 8)
  | S_DST_PORT_2 => put S_LENGTH_1 (slice (destination_port c) 7 0)
  | S_LENGTH_1 => put S_LENGTH_2 (slice (udp_length s) 15 8)
  | S_LENGTH_2 => put S_CHECKSUM_1 (slice (udp_length s) 7 0)
  | S_CHECKSUM_1 => put S_CHECKSUM_2 0
  | S_CHECKSUM_2 => put S_DATA 0
  | S_DATA =>
      let last := payload_words_remaining s =? 0 in
      (if last then S_IDLE else S_DATA, Axis (data_out_r (data_fifo s)) true last)
  end.

(** One rising edge. *)
Definition udp_framer_clock (i : udp_framer_in) (s : udp_framer_regs) : udp_framer_regs :=
  let c := in_cfg i in
  let rst := in_reset i in
  let rdy := output_ready i s in
  let acc := ready s && framer_enable c in
  let v := acc && tvalid (s_axis i) in
  let start := rdy && starts i s in
  let len := data_out_r (length_fifo s) in
  {| framer_state :=
       if rst then S_IDLE else if rdy then (framer_fsm i s).1 else framer_state s;
     first_word := if rst then true else if v then tlast (s_axis i) else first_word s;
     data_fifo_we := if rst then false else if acc then tvalid (s_axis i) else data_fifo_we s;
     data_fifo_din := if acc then tdata (s_axis i) else data_fifo_din s;
     packet_length_valid :=
       if rst then false else if acc then tlast (s_axis i) else packet_length_valid s;
     payload_length_counter :=
       if v then (if first_word s then 1 else wrap 11 (payload_length_counter s + 1))
       else payload_length_counter s;
     data_fifo := f_clock C_FIFO_LOG2_DEPTH rst (data_fifo_din s) (data_fifo_we s && ready s)
                    (data_fifo_re i s) (data_fifo s);
     length_fifo := f_clock C_LENGTH_FIFO_LOG2_DEPTH rst (payload_length_counter s)
                      (packet_length_valid s && ready s) (length_fifo_re i s) (length_fifo s);
     payload_words_remaining :=
       if start then wrap 11 (len - 1)
       else if rdy && match framer_state s with S_DATA => true | _ => false end
       then wrap 11 (payload_words_remaining s - 1) else payload_words_remaining s;
     ip_length := if start then wrap 16 (len + 28) else ip_length s;
     udp_length := if start then wrap 16 (len + 8) else udp_length s;
     ip_checksum_c1 :=
       if ip_checksum_go i s then wrap 16 (ip_checksum_init c + ip_length s) else ip_checksum_c1 s;
     ip_checksum_c2 := wrap 16 (Z.lnot (ip_checksum_c1 s));
     framed :=
       if rst then Axis (tdata (if rdy then (framer_fsm i s).2 else framed s)) false false
       else if rdy then (framer_fsm i s).2 else framed s;
     output := if rst then Axis 0 false false else if rdy then framed s else output s |}.

(** ** What goes in and what comes out *)
Definition emitted (i : udp_framer_in) (s : udp_framer_regs) : list beat :=
  if tvalid (output s) && m_tready i then [(tdata (output s), tlast (output s))] else [].

Definition accepted (i : udp_framer_in) (s : udp_framer_regs) : list beat :=
  if ready s && tvalid (s_axis i) then [(tdata (s_axis i), tlast (s_axis i))] else [].

Fixpoint udp_framer_run (ins : list udp_framer_in) (s : udp_framer_regs)
    : list beat * list beat * udp_framer_regs :=
  match ins with
  | [] => ([], [], s)
  | i :: ins' =>
      let '(evs, out, s') := udp_framer_run ins' (udp_framer_clock i s) in
      (accepted i s ++ evs, emitted i s ++ out, s')
  end.

(** ** Datagrams *)
Definition udp_header (c : framer_config) (payload : Z) : list Z :=
  let len := wrap 16 (payload + 8) in
  [slice (source_port c) 15 8; slice (source_port c) 7 0;
   slice (destination_port c) 15 8; slice (destination_port c) 7 0;
   slice len 15 8; slice len 7 0; 0; 0].

Definition full_header (c : framer_config) (payload : Z) : list Z :=
  framer_ip_header c payload ++ udp_header c payload.

Definition datagram (c : framer_config) (payload : list Z) : list Z :=
  full_header c (Z.of_nat (length payload)) ++ payload.

(** The stream for the bytes taken; [part] is the packet so far. *)
Fixpoint datagrams (c : framer_config) (part : list Z) (evs : list beat) : list beat :=
  match evs with
  | [] => []
  | (b, last) :: evs' =>
      if last then last_beats (datagram c (part ++ [b])) ++ datagrams c [] evs'
      else datagrams c (part ++ [b]) evs'
  end.

(** ** The invariant *)

(** Header bytes already put into [framed]; 28 in [S_DATA]. *)
Definition header_index (st : fsm_state_t) : option nat :=
  match st with
  | S_IDLE => None
  | S_IP_VERSION => Some 0 | S_IP_DSCP => Some 1 | S_IP_LEN_1 => Some 2 | S_IP_LEN_2 => Some 3
  | S_IP_ID_1 => Some 4 | S_IP_ID_2 => Some 5 | S_IP_FLAGS_1 => Some 6 | S_IP_FLAGS_2 => Some 7
  | S_IP_TTL => Some 8 | S_IP_PROTOCOL => Some 9
  | S_IP_HDR_CHECKSUM_1 => Some 10 | S_IP_HDR_CHECKSUM_2 => Some 11
  | S_IP_SRC_IP_1 => Some 12 | S_IP_SRC_IP_2 => Some 13 | S_IP_SRC_IP_3 => Some 14
  | S_IP_SRC_IP_4 => Some 15 | S_IP_DST_IP_1 => Some 16 | S_IP_DST_IP_2 => Some 17
  | S_IP_DST_IP_3 => Some 18 | S_IP_DST_IP_4 => Some 19
  | S_SRC_PORT_1 => Some 20 | S_SRC_PORT_2 => Some 21 | S_DST_PORT_1 => Some 22
  | S_DST_PORT_2 => Some 23 | S_LENGTH_1 => Some 24 | S_LENGTH_2 => Some 25
  | S_CHECKSUM_1 => Some 26 | S_CHECKSUM_2 => Some 27 | S_DATA => Some 28
  end%nat.

(** The current packet's length is still at the head of the length FIFO. *)
Definition length_held (st : fsm_state_t) : bool :=
  match header_index st with Some k => (k <=? 25)%nat | None => false end.

Section UdpFramer.
Context (c : framer_config).

Definition in_ok (i : udp_framer_in) : Prop :=
  in_reset i = false /\ in_cfg i = c /\ framer_enable c = true /\
  (tlast (s_axis i) = true -> tvalid (s_axis i) = true).

(** [rem]: what is left of the packet being sent; [pks]: complete packets
    behind it; [part]: the packet coming in. *)
Definition stage (s : udp_framer_regs) : list Z := if data_fifo_we s then [data_fifo_din s] else [].
Definition stage_length (s : udp_framer_regs) : list Z :=
  if packet_length_valid s then [payload_length_counter s] else [].
Definition packet_lengths (pks : list (list Z)) : list Z := (fun p => Z.of_nat (length p)) <$> pks.

Definition input_inv (s : udp_framer_regs) (part : list Z) : Prop :=
  (packet_length_valid s = true -> data_fifo_we s = true /\ part = []) /\
  (data_fifo_we s = true -> packet_length_valid s = false -> part <> []) /\
  first_word s = (match part with [] => true | _ => false end) /\
  (part <> [] -> payload_length_counter s = Z.of_nat (length part)).

(** The header registers of the packet under way. *)
Definition header_inv (s : udp_framer_regs) (rem : list Z) (k : nat) : Prop :=
  rem <> [] /\ Z.of_nat (length rem) = payload_words_remaining s + 1 /\
  is_u 11 (payload_words_remaining s) /\
  ((k < 28)%nat ->
     ip_length s = framer_ip_length (Z.of_nat (length rem)) /\
     udp_length s = wrap 16 (Z.of_nat (length rem) + 8)) /\
  ((9 <= k <= 11)%nat -> ip_checksum_c1 s = wrap 16 (ip_checksum_init c + ip_length s)) /\
  ((10 <= k <= 11)%nat -> ip_checksum_c2 s = wrap 16 (Z.lnot (ip_checksum_c1 s))).

Definition state_inv (s : udp_framer_regs) (rem : list Z) : Prop :=
  match header_index (framer_state s) with
  | None => rem = []
  | Some k => header_inv s rem k
  end.

Definition udp_framer_inv (s : udp_framer_regs) (part rem : list Z) (pks : list (list Z)) : Prop :=
  input_inv s part /\ state_inv s rem /\
  Forall (fun p => p <> [] /\ (length p <= 2047)%nat) pks /\
  exists o q lo ql,
    f_holds C_FIFO_LOG2_DEPTH (data_fifo s) o q /\
    f_holds C_LENGTH_FIFO_LOG2_DEPTH (length_fifo s) lo ql /\
    contents o q ++ stage s = rem ++ concat pks ++ part /\
    contents lo ql ++ stage_length s =
      (if length_held (framer_state s) then [Z.of_nat (length rem)] else []) ++ packet_lengths pks /\
    (rem <> [] -> o <> None) /\ (lo <> None -> o <> None) /\
    (length_held (framer_state s) = true -> lo <> None).

(** What will leave without further input. *)
Definition rem_beats (st : fsm_state_t) (c : framer_config) (rem : list Z) : list beat :=
  match header_index st with
  | None => []
  | Some k =>
      if (k <? 28)%nat
      then data_beats (drop k (full_header c (Z.of_nat (length rem)))) ++ last_beats rem
      else last_beats rem
  end.
Definition packet_beats (p : list Z) : list beat := last_beats (datagram c p).
Definition pending (s : udp_framer_regs) (rem : list Z) (pks : list (list Z)) : list beat :=
  axis_beats (output s) ++ axis_beats (framed s) ++ rem_beats (framer_state s) c rem ++
  concat (packet_beats <$> pks).

(** No packet reaches the range of the length counter. *)
Fixpoint lengths_ok (part : list Z) (evs : list beat) : Prop :=
  match evs with
  | [] => True
  | (b, last) :: evs' =>
      (length part < 2047)%nat /\ lengths_ok (if last then [] else part ++ [b]) evs'
  end.

(** ** The input side of an edge *)
Definition part_next (i : udp_framer_in) (s : udp_framer_regs) (part : list Z) : list Z :=
  match accepted i s with
  | (b, false) :: _ => part ++ [b]
  | (_, true) :: _ => []
  | [] => part
  end.
Definition new_packets (i : udp_framer_in) (s : udp_framer_regs) (part : list Z) : list (list Z) :=
  match accepted i s with
  | (b, true) :: _ => [part ++ [b]]
  | _ => []
  end.

Lemma clock_stage i s :
  in_ok i ->
  stage (udp_framer_clock i s) =
    (if ready s then (if tvalid (s_axis i) then [tdata (s_axis i)] else []) else stage s) /\
  packet_length_valid (udp_framer_clock i s) =
    (if ready s then tlast (s_axis i) else packet_length_valid s).
Proof.
  intros (Hr & Hc & He & _). unfold stage, udp_framer_clock. cbn [data_fifo_we data_fifo_din packet_length_valid].
  rewrite Hr, Hc, He, andb_true_r. by destruct (ready s).
Qed.

Lemma input_step i s part :
  in_ok i -> input_inv s part -> lengths_ok part (accepted i s) ->
  let s' := udp_framer_clock i s in
  input_inv s' (part_next i s part) /\
  (if ready s then [] else stage s) ++ (concat (new_packets i s part) ++ part_next i s part) =
    (if ready s then part else stage s ++ part) ++ (if ready s then stage s' else []) /\
  stage_length s' = (if ready s then packet_lengths (new_packets i s part) else stage_length s) /\
  Forall (fun p => p <> [] /\ (length p <= 2047)%nat) (new_packets i s part) /\
  (ready s = false -> stage s' = stage s).
Proof.
  intros Hi (Hplv & Hwe & Hfw & Hcnt) Hlen s'. destruct (clock_stage i s Hi) as [Hst Hpv].
  fold s' in Hst, Hpv. destruct Hi as (Hr & Hc & He & Hl).
  assert (Hreg : (data_fifo_we s' = if ready s then tvalid (s_axis i) else data_fifo_we s) /\
    (first_word s' = if ready s && tvalid (s_axis i) then tlast (s_axis i) else first_word s) /\
    (payload_length_counter s' = if ready s && tvalid (s_axis i)
       then (if first_word s then 1 else wrap 11 (payload_length_counter s + 1))
       else payload_length_counter s)).
  { unfold s', udp_framer_clock. cbn [data_fifo_we first_word payload_length_counter].
    rewrite Hr, Hc, He, !andb_true_r. done. }
  destruct Hreg as (Hwe' & Hfw' & Hcnt').
  unfold input_inv, stage_length, part_next, new_packets, accepted in *.
  rewrite Hst, Hpv, Hwe', Hfw', Hcnt'. clear Hst Hpv Hwe' Hfw' Hcnt'. clearbody s'.
  destruct (ready s); cbn [andb]; [|by rewrite app_nil_r; cbn; rewrite ?app_nil_r].
  destruct (tvalid (s_axis i)) eqn:Ev.
  - cbn [lengths_ok andb] in Hlen. destruct Hlen as [Hlen _].
    assert (Hc1 : (if first_word s then 1 else wrap 11 (payload_length_counter s + 1)) =
                  Z.of_nat (length (part ++ [tdata (s_axis i)]))).
    { rewrite length_app, Hfw. destruct part as [|x part]; [done|]. rewrite Hcnt by done.
      rewrite wrap_small; [cbn [length]; lia|]. unfold is_u. cbn [length] in *. lia. }
    destruct (tlast (s_axis i)) eqn:El; rewrite Hc1.
    + cbn [concat app packet_lengths fmap list_fmap]. rewrite !app_nil_r. repeat split; try done.
      constructor; [|done]. split; [by destruct part|]. rewrite length_app. cbn. lia.
    + cbn [concat app packet_lengths fmap list_fmap]. repeat split; try done; by destruct part.
  - destruct (tlast (s_axis i)); [by discriminate Hl|]. rewrite app_nil_r. repeat split; try done.
Qed.

(** ** The FIFOs on an edge *)

Lemma ready_room s :
  (data_fifo_we s && ready s = true -> f_full C_FIFO_LOG2_DEPTH (data_fifo s) = false) /\
  (data_fifo_we s = true -> ready s = true ->
     f_full C_LENGTH_FIFO_LOG2_DEPTH (length_fifo s) = false).
Proof.
  unfold ready. destruct (data_fifo_we s); [|done].
  rewrite orb_false_r. by destruct (f_full _ (data_fifo s)), (f_full _ (length_fifo s)).
Qed.

Lemma concat_length_ge (pks : list (list Z)) :
  Forall (fun p => p <> [] /\ (length p <= 2047)%nat) pks -> (length pks <= length (concat pks))%nat.
Proof.
  induction 1 as [|p pks [Hp _] _ IH]; cbn; [lia|]. rewrite length_app. destruct p; [done|cbn; lia].
Qed.

(** The words in the data FIFO against the packets announced. *)
Lemma fifo_counts s part rem pks o q lo ql (h : bool) :
  input_inv s part -> Forall (fun p => p <> [] /\ (length p <= 2047)%nat) pks ->
  contents o q ++ stage s = rem ++ concat pks ++ part ->
  contents lo ql ++ stage_length s = (if h then [Z.of_nat (length rem)] else []) ++ packet_lengths pks ->
  (length rem + length (contents lo ql) <= length (contents o q) + (if h then 1 else 0))%nat.
Proof.
  intros (Hplv & Hwe & _) Hpks E1 E2. pose proof (concat_length_ge pks Hpks).
  apply (f_equal length) in E1, E2. rewrite !length_app in *.
  unfold packet_lengths in E2. rewrite length_fmap in E2. unfold stage, stage_length in *.
  destruct (packet_length_valid s).
  - destruct Hplv as [Hw ->]; [done|]. rewrite Hw in E1. destruct h; cbn [length] in *; lia.
  - destruct (data_fifo_we s); [|destruct h; cbn [length] in *; lia].
    specialize (Hwe eq_refl eq_refl). destruct part; [done|]. destruct h; cbn [length] in *; lia.
Qed.

Lemma tail_app {A} (l l' : list A) : l <> [] -> tail (l ++ l') = tail l ++ l'.
Proof. by destruct l. Qed.

Lemma contents_some o q : o <> None -> contents o q <> [].
Proof. by destruct o. Qed.

Lemma fifo_side i s part rem pks rem' pks1 :
  let s' := udp_framer_clock i s in
  in_ok i -> lengths_ok part (accepted i s) -> udp_framer_inv s part rem pks ->
  (data_fifo_re i s = true -> rem <> [] /\ length_held (framer_state s) = false /\ rem' = tail rem) ->
  (length_fifo_re i s = true -> length_held (framer_state s) = true) ->
  rem' ++ concat pks1 = (if data_fifo_re i s then tail (rem ++ concat pks) else rem ++ concat pks) ->
  (if length_held (framer_state s') then [Z.of_nat (length rem')] else []) ++ packet_lengths pks1 =
    (let l := (if length_held (framer_state s) then [Z.of_nat (length rem)] else []) ++ packet_lengths pks in
     if length_fifo_re i s then tail l else l) ->
  (length_held (framer_state s') = true ->
     length_fifo_re i s = false /\ f_empty (length_fifo s) = false) ->
  (rem' <> [] -> rem <> [] \/ f_empty (length_fifo s) = false) ->
  Forall (fun p => p <> [] /\ (length p <= 2047)%nat) pks1 -> state_inv s' rem' ->
  udp_framer_inv s' (part_next i s part) rem' (pks1 ++ new_packets i s part).
Proof.
  intros s' Hi Hlen (Hin & Hst & Hpks & o & q & lo & ql & Hd & Hl & Ed & El & Hv1 & Hv2 & Hv3)
    Hre Hlre HD HL Hheld Hrem Hpks1 Hst'.
  pose proof (fifo_counts s part rem pks o q lo ql _ Hin Hpks Ed El) as Hcount.
  destruct (input_step i s part Hi Hin Hlen) as (Hin' & Eparts & Eslen & Hnew & Hstage).
  destruct (ready_room s) as [Hroom Hlroom]. fold s' in Hin', Eparts, Eslen, Hstage.
  destruct Hi as (Hr & _).
  assert (Hne : output_valid_r (length_fifo s) = match lo with Some _ => true | _ => false end) by apply Hl.
  assert (Hlo : f_empty (length_fifo s) = false <-> lo <> None).
  { unfold f_empty. rewrite Hne. by destruct lo. }
  destruct (f_clock_contents C_FIFO_LOG2_DEPTH ltac:(done) _ o q (data_fifo_din s)
    (data_fifo_we s && ready s) (data_fifo_re i s) Hd Hroom) as (o' & q' & Hd' & Ed' & Hn' & _).
  { intros H. apply Hv1. by apply Hre. }
  destruct (f_clock_contents C_LENGTH_FIFO_LOG2_DEPTH ltac:(done) _ lo ql (payload_length_counter s)
    (packet_length_valid s && ready s) (length_fifo_re i s) Hl) as (lo' & ql' & Hl' & El' & _ & Hk' & Hz').
  { intros H. apply andb_true_iff in H as [H1 H2]. destruct Hin as [Hp _]. apply Hlroom; [by apply Hp|done]. }
  { intros H. by apply Hv3, Hlre. }
  split; [done|]. split; [done|]. split; [by apply Forall_app|].
  exists o', q', lo', ql'.
  split; [unfold s', udp_framer_clock; cbn [data_fifo]; by rewrite Hr|].
  split; [unfold s', udp_framer_clock; cbn [length_fifo]; by rewrite Hr|].
  assert (Htail : (if data_fifo_re i s then tail (contents o q) else contents o q) ++ stage s =
                  rem' ++ concat pks1 ++ part).
  { rewrite app_assoc, HD. destruct (data_fifo_re i s).
    - destruct (Hre eq_refl) as (Hr1 & _). rewrite <- !tail_app, <- app_assoc, Ed;
        [done|by destruct rem|by apply contents_some, Hv1].
    - by rewrite <- app_assoc. }
  split.
  { rewrite Ed', concat_app, <- app_assoc. destruct (ready s) eqn:Erdy.
    - rewrite andb_true_r in *. fold (stage s). rewrite app_assoc, Htail, <- !app_assoc. do 2 f_equal.
      symmetry. exact Eparts.
    - rewrite andb_false_r. cbn [app]. rewrite Hstage, Htail by done. rewrite <- app_assoc. do 2 f_equal.
      rewrite app_nil_r in Eparts. by apply app_inv_head in Eparts. }
  split.
  { assert (Hnew' : ready s = false -> new_packets i s part = []).
    { intros E. unfold new_packets, accepted. by rewrite E. }
    unfold packet_lengths at 1. rewrite fmap_app. fold (packet_lengths pks1).
    fold (packet_lengths (new_packets i s part)). rewrite app_assoc, HL, El', Eslen.
    assert (Ht : (if length_fifo_re i s then tail (contents lo ql) else contents lo ql) ++ stage_length s =
      let l := (if length_held (framer_state s) then [Z.of_nat (length rem)] else []) ++ packet_lengths pks in
      if length_fifo_re i s then tail l else l).
    { cbn zeta. destruct (length_fifo_re i s); [|done]. rewrite <- El, tail_app; [done|].
      by apply contents_some, Hv3, Hlre. }
    destruct (ready s) eqn:Erdy.
    - rewrite andb_true_r. fold (stage_length s). by rewrite Ht.
    - rewrite andb_false_r, app_nil_r, Hnew' by done. cbn. rewrite app_nil_r. exact Ht. }
  assert (Hnone : o' = None -> rem' = [] /\ lo' = None).
  { intros Ho'. destruct (Hn' Ho') as [Hcase Hq]. subst q. destruct (data_fifo_re i s) eqn:Ere.
    - destruct (Hre eq_refl) as (Hr1 & Hh & ->). rewrite Hh in Hcount.
      unfold contents at 2 in Hcount. rewrite app_nil_r in Hcount.
      assert (length (contents lo ql) = 0%nat /\ length rem = 1%nat) as [H0 H1].
      { destruct rem; [done|]. destruct o; cbn in Hcount |- *; lia. }
      split; [destruct rem as [|x [|y rem]]; done|]. apply Hz'. by apply length_zero_iff_nil.
    - destruct Hcase as [|Ho]; [done|]. subst o.
      assert (rem = []) as Hrem0 by (destruct rem; [done|]; by destruct Hv1).
      assert (lo = None) as Hlo0 by (destruct lo; [by destruct Hv2|done]).
      assert (length_held (framer_state s) = false) as Hh.
      { destruct (length_held (framer_state s)); [by destruct Hv3|done]. }
      rewrite Hh in Hcount. split.
      + destruct rem'; [done|]. destruct Hrem as [H|H]; [done|by rewrite Hrem0 in H|].
        by apply Hlo in H.
      + apply Hz'. apply length_zero_iff_nil. cbn in Hcount. lia. }
  split; [intros H H'; by apply H, Hnone|]. split; [intros H H'; by apply H, Hnone|].
  intros H. destruct (Hheld H) as [H1 H2]. rewrite Hk'; [by apply Hlo|done|by apply Hlo].
Qed.

(** ** The state machine on an edge *)

Lemma clock_state i s :
  in_ok i ->
  framer_state (udp_framer_clock i s) =
    (if output_ready i s then (framer_fsm i s).1 else framer_state s) /\
  framed (udp_framer_clock i s) = (if output_ready i s then (framer_fsm i s).2 else framed s) /\
  output (udp_framer_clock i s) = (if output_ready i s then framed s else output s).
Proof.
  intros (Hr & _). unfold udp_framer_clock. cbn [framer_state framed output]. by rewrite Hr.
Qed.

(** A register that only changes when a packet is started. *)
Lemma clock_registers i s :
  in_ok i -> starts i s && output_ready i s = false ->
  ip_length (udp_framer_clock i s) = ip_length s /\
  udp_length (udp_framer_clock i s) = udp_length s /\
  ip_checksum_c2 (udp_framer_clock i s) = wrap 16 (Z.lnot (ip_checksum_c1 s)) /\
  ip_checksum_c1 (udp_framer_clock i s) =
    (if ip_checksum_go i s then wrap 16 (ip_checksum_init c + ip_length s) else ip_checksum_c1 s) /\
  (output_ready i s && match framer_state s with S_DATA => true | _ => false end = false ->
   payload_words_remaining (udp_framer_clock i s) = payload_words_remaining s).
Proof.
  intros (Hr & Hc & _) Hs. rewrite andb_comm in Hs. unfold udp_framer_clock.
  cbn [ip_length udp_length ip_checksum_c1 ip_checksum_c2 payload_words_remaining].
  rewrite Hs, Hc. do 4 (split; [done|]). by intros ->.
Qed.

Lemma state_inv_held i s rem :
  in_ok i -> output_ready i s = false -> state_inv s rem -> state_inv (udp_framer_clock i s) rem.
Proof.
  intros Hi Hrdy Hst. destruct (clock_state i s Hi) as (Hs' & _). rewrite Hrdy in Hs'.
  destruct (clock_registers i s Hi) as (H1 & H2 & H3 & H4 & H5); [by rewrite Hrdy, andb_false_r|].
  rewrite Hrdy in H5. specialize (H5 eq_refl).
  assert (Hgo : ip_checksum_go i s = false) by (unfold ip_checksum_go; rewrite Hrdy; by destruct (framer_state s)).
  rewrite Hgo in H4. unfold state_inv in *. rewrite Hs'.
  destruct (header_index (framer_state s)) as [k|]; [|done].
  unfold header_inv in *. rewrite H1, H2, H3, H4, H5.
  destruct Hst as (Ha & Hb & Hw & Hd & He & _). done.
Qed.

(** A header byte. *)
Lemma udp_fsm_header i s rem k :
  in_ok i -> state_inv s rem -> header_index (framer_state s) = Some k -> (k < 28)%nat ->
  framer_fsm i s =
    ((framer_fsm i s).1, Axis (nth k (full_header c (Z.of_nat (length rem))) 0) true false) /\
  header_index (framer_fsm i s).1 = Some (S k) /\ starts i s = false /\
  data_fifo_re i s = false /\ length_fifo_re i s = (if (k =? 25)%nat then output_ready i s else false) /\
  ip_checksum_go i s = (if (k =? 8)%nat then output_ready i s else false).
Proof.
  intros (_ & Hc & _) Hst Hk Hlt. unfold state_inv in Hst. rewrite Hk in Hst.
  destruct Hst as (_ & _ & _ & Hlen & Hc1 & Hc2). destruct (Hlen Hlt) as [Hip Hudp].
  unfold framer_fsm, starts, data_fifo_re, length_fifo_re, ip_checksum_go, full_header,
    framer_ip_header, udp_header, framer_checksum.
  rewrite <- Hip, <- Hudp, Hc.
  destruct (framer_state s); try discriminate Hk; injection Hk as <-; try lia; clear Hlt Hlen;
    (split; [|by repeat split]); cbn [fst app nth]; try reflexivity;
    rewrite Hc2, Hc1 by lia; reflexivity.
Qed.

Lemma full_header_length n : length (full_header c n) = 28%nat.
Proof. reflexivity. Qed.

Lemma rem_beats_header st st' k rem :
  header_index st = Some k -> header_index st' = Some (S k) -> (k < 28)%nat ->
  rem_beats st c rem =
    (nth k (full_header c (Z.of_nat (length rem))) 0, false) :: rem_beats st' c rem.
Proof.
  intros Hk Hk' Hlt. unfold rem_beats. rewrite Hk, Hk', (proj2 (Nat.ltb_lt k 28)) by done.
  set (h := full_header c (Z.of_nat (length rem))).
  assert (Hh : drop k h = nth k h 0 :: drop (S k) h).
  { destruct (lookup_lt_is_Some_2 h k) as [x Hx]; [unfold h; by rewrite full_header_length|].
    rewrite (drop_S _ _ _ Hx). f_equal. symmetry. by apply nth_lookup_Some. }
  rewrite Hh. cbn [data_beats fmap list_fmap app]. f_equal.
  destruct (Nat.ltb_spec (S k) 28); [done|].
  rewrite drop_ge by (unfold h; rewrite full_header_length; lia). done.
Qed.

Lemma state_inv_header i s rem k :
  in_ok i -> output_ready i s = true -> state_inv s rem ->
  header_index (framer_state s) = Some k -> (k < 28)%nat ->
  state_inv (udp_framer_clock i s) rem.
Proof.
  intros Hi Hrdy Hst Hk Hlt.
  destruct (udp_fsm_header i s rem k Hi Hst Hk Hlt) as (_ & Hk' & Hstart & _ & _ & Hgo).
  destruct (clock_state i s Hi) as (Hs' & _). rewrite Hrdy in Hs'.
  destruct (clock_registers i s Hi) as (H1 & H2 & H3 & H4 & H5); [by rewrite Hstart|].
  assert (H5' : payload_words_remaining (udp_framer_clock i s) = payload_words_remaining s).
  { apply H5. rewrite Hrdy. destruct (framer_state s); try done. injection Hk as <-. lia. }
  rewrite Hgo, Hrdy in H4. unfold state_inv in *. rewrite Hs', Hk'. rewrite Hk in Hst.
  unfold header_inv in *. rewrite H1, H2, H3, H4, H5'.
  destruct Hst as (Ha & Hb & Hw & Hd & He & Hf).
  split; [done|]. split; [done|]. split; [done|]. split; [intros; by apply Hd|].
  destruct (Nat.eqb_spec k 8) as [->|Hne].
  - split; [done|]. intros. lia.
  - split; [|done]. intros. apply He. lia.
Qed.

Lemma packet_beats_eq p :
  p <> [] -> packet_beats p = rem_beats S_IP_VERSION c p.
Proof. intros Hp. unfold packet_beats, datagram. by rewrite last_beats_app. Qed.

(** Any edge: what happens to the packet being sent and those behind it. *)
Lemma udp_emitted_held i s : output_ready i s = false -> emitted i s = [].
Proof.
  unfold output_ready, emitted. intros H. apply orb_false_iff in H as [-> _]. by rewrite andb_false_r.
Qed.

Lemma udp_emitted_ready i s : output_ready i s = true -> emitted i s = axis_beats (output s).
Proof.
  unfold output_ready, emitted, axis_beats. destruct (tvalid (output s)); [|done].
  cbn. rewrite orb_false_r. by intros ->.
Qed.

(** The sending side alone. *)
Record sends (i : udp_framer_in) (s : udp_framer_regs) (rem : list Z) (pks : list (list Z))
    (rem' : list Z) (pks' : list (list Z)) : Prop := {
  sends_data : data_fifo_re i s = true ->
    rem <> [] /\ length_held (framer_state s) = false /\ rem' = tail rem;
  sends_length : length_fifo_re i s = true -> length_held (framer_state s) = true;
  sends_bytes : rem' ++ concat pks' =
    (if data_fifo_re i s then tail (rem ++ concat pks) else rem ++ concat pks);
  sends_lengths :
    (if length_held (framer_state (udp_framer_clock i s)) then [Z.of_nat (length rem')] else []) ++
      packet_lengths pks' =
    (let l := (if length_held (framer_state s) then [Z.of_nat (length rem)] else []) ++ packet_lengths pks in
     if length_fifo_re i s then tail l else l);
  sends_held : length_held (framer_state (udp_framer_clock i s)) = true ->
    length_fifo_re i s = false /\ f_empty (length_fifo s) = false;
  sends_start : rem' <> [] -> rem <> [] \/ f_empty (length_fifo s) = false;
  sends_packets : Forall (fun p => p <> [] /\ (length p <= 2047)%nat) pks';
  sends_state : state_inv (udp_framer_clock i s) rem';
  sends_beats : emitted i s ++ pending (udp_framer_clock i s) rem' pks' = pending s rem pks
}.

Lemma sends_hold i s part rem pks :
  in_ok i -> output_ready i s = false -> udp_framer_inv s part rem pks -> sends i s rem pks rem pks.
Proof.
  intros Hi Hrdy (_ & Hst & Hpks & o & q & lo & ql & _ & Hl & _ & _ & _ & _ & Hv).
  destruct (clock_state i s Hi) as (Hs & Hf & Ho). rewrite Hrdy in Hs, Hf, Ho.
  assert (Hre : data_fifo_re i s = false /\ length_fifo_re i s = false).
  { unfold data_fifo_re, length_fifo_re. rewrite Hrdy. by destruct (framer_state s). }
  destruct Hre as [H1 H2]. split; rewrite ?H1, ?H2, ?Hs; try done.
  - intros H. split; [done|]. destruct Hl as (_ & _ & Hov & _). unfold f_empty. rewrite Hov.
    destruct lo; [done|]. by destruct (Hv H).
  - auto.
  - by apply state_inv_held.
  - rewrite udp_emitted_held by done. unfold pending. by rewrite Hs, Hf, Ho.
Qed.

Lemma sends_header i s part rem pks k :
  in_ok i -> output_ready i s = true -> udp_framer_inv s part rem pks ->
  header_index (framer_state s) = Some k -> (k < 28)%nat -> sends i s rem pks rem pks.
Proof.
  intros Hi Hrdy (_ & Hst & Hpks & o & q & lo & ql & _ & Hl & _ & _ & _ & _ & Hv) Hk Hlt.
  destruct (udp_fsm_header i s rem k Hi Hst Hk Hlt) as (Hf & Hk' & _ & Hre & Hlre & _).
  destruct (clock_state i s Hi) as (Hs' & Hf' & Ho'). rewrite Hrdy in Hs', Hf', Ho', Hlre.
  assert (Hheld : length_held (framer_state s) = (k <=? 25)%nat) by (unfold length_held; by rewrite Hk).
  assert (Hheld' : length_held (framer_state (udp_framer_clock i s)) = (S k <=? 25)%nat).
  { unfold length_held. by rewrite Hs', Hk'. }
  split; rewrite ?Hre, ?Hlre, ?Hheld, ?Hheld'; try done.
  - destruct (Nat.eqb_spec k 25) as [->|]; [done|done].
  - destruct (Nat.eqb_spec k 25) as [->|]; [done|]. cbn zeta.
    destruct (Nat.leb_spec k 25), (Nat.leb_spec (S k) 25); done || lia.
  - intros H. apply Nat.leb_le in H. destruct (Nat.eqb_spec k 25); [lia|]. split; [done|].
    destruct Hl as (_ & _ & Hov & _). unfold f_empty. rewrite Hov. destruct lo; [done|].
    rewrite Hheld in Hv. destruct Hv; [|done]. apply Nat.leb_le. lia.
  - auto.
  - by apply (state_inv_header i s rem k).
  - rewrite udp_emitted_ready by done. unfold pending. rewrite Ho', Hf', Hf, Hs'. f_equal. f_equal.
    by rewrite (rem_beats_header _ _ k rem Hk Hk' Hlt).
Qed.

Lemma sends_idle i s part rem pks :
  in_ok i -> output_ready i s = true -> udp_framer_inv s part rem pks ->
  framer_state s = S_IDLE ->
  exists rem' pks', sends i s rem pks rem' pks' /\
    if output_valid_r (length_fifo s) then pks = rem' :: pks' else rem' = [] /\ pks' = pks.
Proof.
  intros Hi Hrdy (_ & Hst & Hpks & o & q & lo & ql & _ & Hl & _ & El & _ & _ & _) Hk.
  unfold state_inv in Hst. rewrite Hk in Hst. cbn in Hst. subst rem.
  destruct (clock_state i s Hi) as (Hs' & Hf' & Ho'). rewrite Hrdy in Hs', Hf', Ho'.
  assert (Hre : data_fifo_re i s = false /\ length_fifo_re i s = false).
  { unfold data_fifo_re, length_fifo_re. by rewrite Hk. }
  destruct Hre as [Hre Hlre]. destruct Hl as (_ & _ & Hov & Hdo & _).
  pose proof Hi as (Hr & Hc & He & _).
  assert (Hstart : starts i s = negb (f_empty (length_fifo s))).
  { unfold starts. by rewrite Hk, Hc, He, andb_true_r. }
  unfold framer_fsm in Hs', Hf'. rewrite Hk, Hstart in Hs', Hf'. cbn [fst snd] in Hs', Hf'.
  rewrite Hk in El. cbn [length_held header_index app] in El.
  destruct lo as [n|].
  - assert (Hem : f_empty (length_fifo s) = false) by (unfold f_empty; by rewrite Hov).
    rewrite Hem in Hs', Hstart. cbn [negb] in *. unfold contents in El. cbn [from_option app] in El.
    destruct pks as [|p pks]; [done|]. injection El as En _. inversion_clear Hpks as [|? ? [Hp Hp2] Hpks'].
    exists p, pks. rewrite Hov. split; [|done]. split; rewrite ?Hre, ?Hlre, ?Hs', ?Hk; try done; [by right| |].
    + unfold state_inv. rewrite Hs'. unfold header_inv, udp_framer_clock.
      cbn [header_index payload_words_remaining ip_length udp_length].
      rewrite Hrdy, Hstart, (Hdo n eq_refl), En. cbn [andb].
      assert (1 <= Z.of_nat (length p) <= 2047) by (destruct p; [done|cbn [length] in *; lia]).
      rewrite (wrap_small 11) by (unfold is_u; lia). split; [done|]. split; [lia|].
      split; [unfold is_u; lia|]. split; [done|]. split; intros; lia.
    + rewrite udp_emitted_ready by done. unfold pending. rewrite Ho', Hf', Hs', Hk. f_equal. f_equal.
      cbn [rem_beats header_index fmap list_fmap concat axis_beats tvalid app].
      by rewrite (packet_beats_eq p Hp).
  - assert (Hem : f_empty (length_fifo s) = true) by (unfold f_empty; by rewrite Hov).
    rewrite Hem in Hs'. cbn [negb] in *.
    exists [], pks. rewrite Hov. split; [|done]. split; rewrite ?Hre, ?Hlre, ?Hs', ?Hk; try done.
    + unfold state_inv. by rewrite Hs'.
    + rewrite udp_emitted_ready by done. unfold pending. by rewrite Ho', Hf', Hs', Hk.
Qed.

Lemma sends_payload i s part rem pks :
  in_ok i -> output_ready i s = true -> udp_framer_inv s part rem pks ->
  framer_state s = S_DATA -> sends i s rem pks (tail rem) pks.
Proof.
  intros Hi Hrdy (_ & Hst & Hpks & o & q & lo & ql & Hd & _ & Ed & _ & Hv & _ & _) Hk.
  unfold state_inv in Hst. rewrite Hk in Hst. destruct Hst as (Hrem & Hlen & Hu & _).
  destruct (clock_state i s Hi) as (Hs' & Hf' & Ho'). rewrite Hrdy in Hs', Hf', Ho'.
  assert (Hre : data_fifo_re i s = true /\ length_fifo_re i s = false).
  { unfold data_fifo_re, length_fifo_re. by rewrite Hk, Hrdy. }
  destruct Hre as [Hre Hlre]. destruct rem as [|x rem]; [done|].
  assert (Hx : data_out_r (data_fifo s) = x).
  { destruct o as [y|]; [|by destruct Hv]. unfold contents in Ed. cbn in Ed. injection Ed as -> _.
    by apply Hd. }
  assert (Hw : payload_words_remaining (udp_framer_clock i s) = wrap 11 (payload_words_remaining s - 1)).
  { unfold udp_framer_clock, starts. cbn [payload_words_remaining]. by rewrite Hk, Hrdy. }
  unfold framer_fsm in Hs', Hf'. rewrite Hk, Hx in Hs', Hf'. cbn [fst snd] in Hs', Hf'.
  cbn [length tail] in *. assert (Hz : (payload_words_remaining s =? 0) = match rem with [] => true | _ => false end).
  { destruct rem; cbn [length] in *; [apply Z.eqb_eq|apply Z.eqb_neq]; lia. }
  rewrite Hz in Hs', Hf'. split; rewrite ?Hre, ?Hlre, ?Hs', ?Hk; try done.
  - by destruct rem.
  - by destruct rem.
  - by left.
  - unfold state_inv. rewrite Hs'. destruct rem as [|y rem]; [done|]. cbn [header_index].
    unfold header_inv. rewrite Hw. cbn [length] in *.
    rewrite wrap_small by (unfold is_u in *; lia). split; [done|]. split; [lia|].
    split; [unfold is_u in *; lia|]. split; [lia|]. split; lia.
  - rewrite udp_emitted_ready by done. unfold pending. rewrite Ho', Hf', Hs', Hk. f_equal. f_equal.
    cbn [axis_beats tvalid tdata tlast]. unfold rem_beats. rewrite (last_beats_cons x).
    by destruct rem.
Qed.

(** One edge, both sides. *)
Lemma sends_edge i s part rem pks rem' pks' :
  in_ok i -> lengths_ok part (accepted i s) -> udp_framer_inv s part rem pks ->
  sends i s rem pks rem' pks' ->
  udp_framer_inv (udp_framer_clock i s) (part_next i s part) rem' (pks' ++ new_packets i s part) /\
  emitted i s ++ pending (udp_framer_clock i s) rem' (pks' ++ new_packets i s part) =
    pending s rem pks ++ concat (packet_beats <$> new_packets i s part).
Proof.
  intros Hi Hlen Hinv [H1 H2 H3 H4 H5 H6 H7 H8 H9]. split.
  - by apply (fifo_side i s part rem pks).
  - rewrite <- H9. unfold pending. by rewrite fmap_app, concat_app, <- !app_assoc.
Qed.

Lemma sends_total i s part rem pks :
  in_ok i -> udp_framer_inv s part rem pks -> exists rem' pks', sends i s rem pks rem' pks'.
Proof.
  intros Hi Hinv. destruct (output_ready i s) eqn:Hrdy.
  - destruct (header_index (framer_state s)) as [k|] eqn:Hk.
    + destruct (Nat.lt_ge_cases k 28).
      * exists rem, pks. by apply (sends_header i s part rem pks k).
      * exists (tail rem), pks. apply (sends_payload i s part); try done.
        destruct (framer_state s); try discriminate Hk; injection Hk as <-; lia || done.
    + destruct (sends_idle i s part rem pks) as (rem' & pks' & H & _); try done; [|by eauto].
      by destruct (framer_state s).
  - exists rem, pks. by apply (sends_hold i s part).
Qed.

Lemma datagrams_accepted i s part evs :
  datagrams c part (accepted i s ++ evs) =
    concat (packet_beats <$> new_packets i s part) ++ datagrams c (part_next i s part) evs.
Proof.
  unfold new_packets, part_next. assert (accepted i s = [] \/ exists b l, accepted i s = [(b, l)]) as [->|(b & l & ->)].
  { unfold accepted. destruct (ready s && _); eauto. }
  - done.
  - destruct l; cbn; [|done]. by rewrite app_nil_r.
Qed.

Lemma lengths_ok_accepted i s part evs :
  lengths_ok part (accepted i s ++ evs) ->
  lengths_ok part (accepted i s) /\ lengths_ok (part_next i s part) evs.
Proof.
  unfold part_next. assert (accepted i s = [] \/ exists b l, accepted i s = [(b, l)]) as [->|(b & l & ->)].
  { unfold accepted. destruct (ready s && _); eauto. }
  - done.
  - cbn. destruct l; tauto.
Qed.

Lemma udp_framer_run_step ins s part rem pks :
  Forall in_ok ins -> udp_framer_inv s part rem pks ->
  let '(evs, out, s') := udp_framer_run ins s in
  lengths_ok part evs ->
  exists part' rem' pks', udp_framer_inv s' part' rem' pks' /\
    out ++ pending s' rem' pks' = pending s rem pks ++ datagrams c part evs.
Proof.
  intros Hins. revert s part rem pks. induction Hins as [|i ins Hi _ IH]; intros s part rem pks Hinv.
  - intros _. exists part, rem, pks. cbn. by rewrite app_nil_r.
  - cbn [udp_framer_run]. specialize (IH (udp_framer_clock i s)).
    destruct (udp_framer_run ins (udp_framer_clock i s)) as [[evs out] s'].
    intros Hlen. apply lengths_ok_accepted in Hlen as [Hl1 Hl2].
    destruct (sends_total i s part rem pks Hi Hinv) as (rem1 & pks1 & Hs).
    destruct (sends_edge i s part rem pks rem1 pks1 Hi Hl1 Hinv Hs) as (Hinv1 & Hp).
    destruct (IH _ _ _ Hinv1 Hl2) as (part' & rem' & pks' & Hinv' & Hout).
    exists part', rem', pks'. split; [done|].
    by rewrite datagrams_accepted, <- app_assoc, Hout, app_assoc, Hp, <- app_assoc.
Qed.
End UdpFramer.
