(* ===== verification/UdpIpFramerDrain.v ===== *)
(** * The UDP/IP framer from reset to the last byte

    Progress of UdpIpFramer.v: on every edge without input and with a ready receiver a
    measure decreases, so the framer empties within a number of edges linear in
    what is still to be sent.  With the run lemma: after a reset the stream that leaves is
    a prefix of the datagrams of the packets taken, and all of them once the input pauses. *)

From S2P Require Import Prelude.
From S2P Require Import Axis.
From S2P Require Import Fifo.
From S2P Require Import UdpDevice.
From S2P Require Import UdpIpFramer.

(** ** The measure *)
Definition packet_work (p : list Z) : nat := (length p + 31)%nat.

(** Edges until the length FIFO shows the next packet. *)
Definition waiting (s : udp_framer_regs) : nat :=
  match framer_state s with
  | S_IDLE =>
      if output_valid_r (length_fifo s) then 0%nat
      else if f_empty_sig (length_fifo s) then 2%nat else 1%nat
  | _ => 2%nat
  end.

Definition work (s : udp_framer_regs) (rem : list Z) (pks : list (list Z)) : nat :=
  (match header_index (framer_state s) with
   | Some k => (28 - k) + length rem + 2
   | None => match pks with [] => 0 | _ => waiting s end
   end + sum_list_with packet_work pks)%nat.

Definition edges_left (s : udp_framer_regs) (rem : list Z) (pks : list (list Z)) : nat :=
  match work s rem pks with
  | 0%nat => if tvalid (framed s) then 2%nat else if tvalid (output s) then 1%nat else 0%nat
  | S n => (S n + 2)%nat
  end.

Section Drain.
Context (c : framer_config).

(** No input, and the receiver takes what is offered. *)
Definition quiet (i : udp_framer_in) : Prop :=
  in_ok c i /\ tvalid (s_axis i) = false /\ m_tready i = true.

Lemma quiet_ready i s : quiet i -> output_ready i s = true.
Proof. intros (_ & _ & H). unfold output_ready. by rewrite H. Qed.

Lemma quiet_input i s part :
  quiet i -> accepted i s = [] /\ part_next i s part = part /\ new_packets i s part = [].
Proof.
  intros (_ & Hv & _). assert (accepted i s = []) as E.
  { unfold accepted. by rewrite Hv, andb_false_r. }
  unfold part_next, new_packets. by rewrite E.
Qed.

Lemma waiting_le s : (waiting s <= 2)%nat.
Proof. unfold waiting. repeat case_match; lia. Qed.

Lemma work_le s rem pks :
  (edges_left s rem pks <= 2 * length (pending c s rem pks) + 4)%nat.
Proof.
  assert (Hsum : (sum_list_with packet_work pks + (match pks with [] => 0 | _ => 2 end) <=
    2 * length (concat (packet_beats c <$> pks)))%nat).
  { assert (H : (sum_list_with packet_work pks + 2 * length pks <=
      2 * length (concat (packet_beats c <$> pks)))%nat).
    { induction pks as [|p pks IH]; cbn [sum_list_with fmap list_fmap concat length]; [lia|].
      rewrite length_app. unfold packet_work at 1, packet_beats at 1, datagram.
      rewrite last_beats_length, length_app, full_header_length. lia. }
    destruct pks; cbn [length] in *; lia. }
  assert (Hrem : (match header_index (framer_state s) with
    | Some k => (28 - k) + length rem | None => 0 end <= length (rem_beats (framer_state s) c rem))%nat).
  { unfold rem_beats. destruct (header_index (framer_state s)) as [k|]; [|lia].
    destruct (Nat.ltb_spec k 28); rewrite ?length_app, last_beats_length; [|lia].
    unfold data_beats. rewrite length_fmap, length_drop, full_header_length. lia. }
  assert (Hw : (work s rem pks <= 2 * length (pending c s rem pks) + 2)%nat).
  { unfold work, pending. rewrite !length_app. pose proof (waiting_le s).
    destruct (header_index (framer_state s)), pks; cbn [sum_list_with] in *; lia. }
  unfold edges_left, pending in *. destruct (work s rem pks); [repeat case_match; lia|lia].
Qed.

(** ** One quiet edge *)

(** A packet in the input stage is announced at once when the sender waits for it. *)
Lemma waiting_step i s part pks :
  quiet i -> udp_framer_inv c s part [] pks -> pks <> [] -> framer_state s = S_IDLE ->
  output_valid_r (length_fifo s) = false ->
  framer_state (udp_framer_clock i s) = S_IDLE /\
  (waiting (udp_framer_clock i s) < waiting s)%nat.
Proof.
  intros Hq (Hin & _ & Hpks & o & q & lo & ql & Hd & Hl & Ed & El & _) Hne Hk Hv.
  pose proof (quiet_ready i s Hq) as Hrdy. destruct Hq as (Hi & _).
  destruct (clock_state c i s Hi) as (Hs' & _). rewrite Hrdy in Hs'.
  unfold framer_fsm, starts, f_empty in Hs'. rewrite Hk, Hv in Hs'. cbn [andb negb fst] in Hs'. split; [done|].
  unfold waiting. rewrite Hs', Hk, Hv. destruct Hi as (Hr & _).
  assert (lo = None) as ->. { destruct Hl as (_ & _ & H & _). rewrite Hv in H. by destruct lo. }
  assert (Hlen' : length_fifo (udp_framer_clock i s) =
    f_clock C_LENGTH_FIFO_LOG2_DEPTH false (payload_length_counter s) (packet_length_valid s && ready s)
      (length_fifo_re i s) (length_fifo s)).
  { unfold udp_framer_clock. cbn [length_fifo]. by rewrite Hr. }
  assert (Hov' : output_valid_r (length_fifo (udp_framer_clock i s)) = negb (f_empty_sig (length_fifo s))).
  { rewrite Hlen'. unfold f_clock, fwft_read. cbn [output_valid_r]. by rewrite Hv, orb_true_r. }
  rewrite Hov'. destruct (f_empty_sig (length_fifo s)) eqn:Ee; cbn [negb]; [|lia].
  apply (f_empty_sig_holds C_LENGTH_FIFO_LOG2_DEPTH ltac:(done) _ _ _ Hl) in Ee as ->.
  rewrite Hk in El. cbn in El.
  assert (Hplv : packet_length_valid s = true /\ exists p, pks = [p]).
  { unfold stage_length in El. destruct (packet_length_valid s); [|by destruct pks].
    split; [done|]. destruct pks as [|p [|p' pks]]; [done|by exists p|done]. }
  destruct Hplv as [Hplv [p ->]]. destruct Hin as (Hwe & _). destruct (Hwe Hplv) as [Hwe' ->].
  assert (Hready : ready s = true).
  { unfold ready. rewrite Hwe'. cbn [negb]. rewrite orb_false_r.
    destruct (f_full C_FIFO_LOG2_DEPTH (data_fifo s)) eqn:F1.
    - apply (f_full_holds C_FIFO_LOG2_DEPTH ltac:(done) _ _ _ Hd) in F1.
      apply (f_equal length) in Ed. inversion_clear Hpks as [|? ? [_ Hp] _].
      cbn [app concat] in Ed. rewrite !app_nil_r, length_app in Ed. unfold contents in Ed.
      rewrite length_app in Ed. unfold f_rows, C_FIFO_LOG2_DEPTH in F1. lia.
    - destruct (f_full C_LENGTH_FIFO_LOG2_DEPTH (length_fifo s)) eqn:F2; [|done].
      by apply (f_full_holds C_LENGTH_FIFO_LOG2_DEPTH ltac:(done) _ _ _ Hl) in F2. }
  destruct (f_empty_sig (length_fifo (udp_framer_clock i s))) eqn:E'; [|lia].
  rewrite Hlen' in E'.
  pose proof (f_clock_holds C_LENGTH_FIFO_LOG2_DEPTH ltac:(done) _ _ _ Hl
    (payload_length_counter s) (packet_length_valid s && ready s) (length_fifo_re i s)) as Hh.
  apply (f_empty_sig_holds C_LENGTH_FIFO_LOG2_DEPTH ltac:(done) _ _ _ Hh) in E'.
  rewrite Hplv, Hready in E'. destruct (f_full C_LENGTH_FIFO_LOG2_DEPTH (length_fifo s)) eqn:F2.
  - by apply (f_full_holds C_LENGTH_FIFO_LOG2_DEPTH ltac:(done) _ _ _ Hl) in F2.
  - by destruct (fwft_read _ _).
Qed.

Lemma header_index_le st k : header_index st = Some k -> (k <= 28)%nat.
Proof. destruct st; intros [= <-]; lia. Qed.

Lemma header_index_idle st : header_index st = None -> st = S_IDLE.
Proof. by destruct st. Qed.

Lemma work_step i s part rem pks :
  quiet i -> udp_framer_inv c s part rem pks ->
  exists rem' pks', sends c i s rem pks rem' pks' /\
    (work (udp_framer_clock i s) rem' pks' < work s rem pks \/
     work s rem pks = 0 /\ work (udp_framer_clock i s) rem' pks' = 0 /\
     tvalid (framed (udp_framer_clock i s)) = false)%nat.
Proof.
  intros Hq Hinv. pose proof (quiet_ready i s Hq) as Hrdy. pose proof Hq as (Hi & _).
  pose proof (clock_state c i s Hi) as (Hs' & Hf' & _). rewrite Hrdy in Hs', Hf'.
  pose proof (waiting_le (udp_framer_clock i s)).
  destruct (header_index (framer_state s)) as [k|] eqn:Hk.
  - pose proof (header_index_le _ _ Hk). destruct (Nat.lt_ge_cases k 28).
    + exists rem, pks. split; [by apply (sends_header c i s part rem pks k)|]. left.
      destruct (udp_fsm_header c i s rem k Hi) as (_ & Hk' & _); [apply Hinv|done..|].
      unfold work. rewrite Hk, Hs', Hk'. lia.
    + assert (framer_state s = S_DATA) as Hst.
      { destruct (framer_state s); try discriminate Hk; injection Hk as <-; lia || done. }
      exists (tail rem), pks. split; [by apply (sends_payload c i s part)|]. left.
      destruct Hinv as (_ & Hinv & _). unfold state_inv in Hinv. rewrite Hk in Hinv.
      destruct Hinv as [Hrem _]. destruct rem as [|x rem]; [done|].
      unfold work. rewrite Hk, Hs'. unfold framer_fsm. rewrite Hst. cbn [fst].
      destruct (payload_words_remaining s =? 0); cbn [header_index tail length]; [|lia].
      destruct pks; lia.
  - apply header_index_idle in Hk as Hst.
    destruct (sends_idle c i s part rem pks Hi Hrdy Hinv Hst) as (rem' & pks' & Hs & Hcase).
    exists rem', pks'. split; [done|].
    assert (rem = []) as ->. { destruct Hinv as (_ & H1 & _). unfold state_inv in H1. by rewrite Hk in H1. }
    destruct (output_valid_r (length_fifo s)) eqn:Hv.
    + left. subst pks. unfold work. rewrite Hk, Hs'. unfold framer_fsm, starts, f_empty.
      destruct Hi as (_ & Hc & He & _). rewrite Hst, Hv, Hc, He. cbn.
      unfold waiting. rewrite Hst, Hv. unfold packet_work. lia.
    + destruct Hcase as [-> ->]. destruct pks as [|p pks].
      * right. unfold work. rewrite Hk, Hs', Hf'. unfold framer_fsm, starts, f_empty. by rewrite Hst, Hv.
      * left. destruct (waiting_step i s part (p :: pks) Hq Hinv) as [H1 H2]; [done..|].
        unfold work. rewrite Hk, H1. cbn [header_index]. lia.
Qed.

Lemma edges_left_step i s part rem pks :
  quiet i -> udp_framer_inv c s part rem pks ->
  exists rem' pks', sends c i s rem pks rem' pks' /\
    (edges_left (udp_framer_clock i s) rem' pks' <= edges_left s rem pks - 1)%nat.
Proof.
  intros Hq Hinv. pose proof (quiet_ready i s Hq) as Hrdy. pose proof Hq as (Hi & _).
  destruct (clock_state c i s Hi) as (_ & _ & Ho'). rewrite Hrdy in Ho'.
  destruct (work_step i s part rem pks Hq Hinv) as (rem' & pks' & Hs & Hw). exists rem', pks'.
  split; [done|]. unfold edges_left. destruct Hw as [Hw|(-> & -> & ->)].
  - destruct (work s rem pks), (work (udp_framer_clock i s) rem' pks'); repeat case_match; lia.
  - rewrite Ho'. repeat case_match; lia.
Qed.

Lemma edges_left_none s part rem pks :
  udp_framer_inv c s part rem pks -> edges_left s rem pks = 0%nat -> pending c s rem pks = [].
Proof.
  intros Hinv H. unfold edges_left in H. destruct (work s rem pks) eqn:Hw; [|done].
  unfold pending, axis_beats. destruct (tvalid (framed s)); [done|]. destruct (tvalid (output s)); [done|].
  unfold work in Hw. unfold rem_beats. destruct (header_index (framer_state s)); [lia|].
  destruct pks; [done|]. cbn in Hw. unfold packet_work in Hw. lia.
Qed.

Lemma drain_run ins s part rem pks :
  Forall quiet ins -> udp_framer_inv c s part rem pks -> (edges_left s rem pks <= length ins)%nat ->
  (udp_framer_run ins s).1 = ([], pending c s rem pks).
Proof.
  intros Hins. revert s rem pks. induction Hins as [|i ins Hq _ IH]; intros s rem pks Hinv Hn.
  - cbn in *. rewrite (edges_left_none s part rem pks Hinv); [done|lia].
  - destruct (edges_left_step i s part rem pks Hq Hinv) as (rem' & pks' & Hs & Hle).
    destruct (quiet_input i s part Hq) as (Ha & Hp & Hnew).
    destruct (sends_edge c i s part rem pks rem' pks' (proj1 Hq)) as [Hinv' Hout]; [by rewrite Ha|done..|].
    rewrite Hp, Hnew, app_nil_r in Hinv'. rewrite Hnew in Hout.
    cbn [fmap list_fmap concat] in Hout. rewrite !app_nil_r in Hout.
    cbn [length] in Hn. specialize (IH (udp_framer_clock i s) rem' pks' Hinv' ltac:(lia)).
    cbn [udp_framer_run]. destruct (udp_framer_run ins (udp_framer_clock i s)) as [[evs out] s'].
    cbn [fst] in *. injection IH as -> ->. by rewrite Ha, Hout.
Qed.

(** ** From reset *)

(** The RAMs have the rows of their generics. *)
Definition rams_ok (s : udp_framer_regs) : Prop :=
  length (ram (data_fifo s)) = 4096%nat /\ length (ram (length_fifo s)) = 1024%nat.

Lemma reset_inv i s :
  in_reset i = true -> rams_ok s ->
  udp_framer_inv c (udp_framer_clock i s) [] [] [] /\ pending c (udp_framer_clock i s) [] [] = [].
Proof.
  intros Hr [H1 H2]. unfold udp_framer_clock. rewrite Hr. split; [|done].
  split; [done|]. split; [done|]. split; [done|]. exists None, [], None, [].
  split; [by apply f_clock_reset|]. split; [by apply f_clock_reset|]. done.
Qed.

Lemma udp_framer_run_app ins ins' s :
  udp_framer_run (ins ++ ins') s =
    let '(evs, out, s') := udp_framer_run ins s in
    let '(evs', out', s'') := udp_framer_run ins' s' in (evs ++ evs', out ++ out', s'').
Proof.
  revert s. induction ins as [|i ins IH]; intros s; cbn [udp_framer_run app].
  - by destruct (udp_framer_run ins' s) as [[??]?].
  - rewrite IH. destruct (udp_framer_run ins (udp_framer_clock i s)) as [[evs out] s'].
    destruct (udp_framer_run ins' s') as [[??]?]. by rewrite !app_assoc.
Qed.

Lemma udp_framer_from_reset i0 s0 ins pause :
  in_reset i0 = true -> rams_ok s0 -> Forall (in_ok c) ins -> Forall quiet pause ->
  let s := udp_framer_clock i0 s0 in
  let evs := (udp_framer_run ins s).1.1 in
  lengths_ok [] evs -> (2 * length (datagrams c [] evs) + 4 <= length pause)%nat ->
  (udp_framer_run ins s).1.2 `prefix_of` datagrams c [] evs /\
  (udp_framer_run (ins ++ pause) s).1 = (evs, datagrams c [] evs).
Proof.
  intros Hr Hram Hins Hpause s. destruct (reset_inv i0 s0 Hr Hram) as [Hinv Hp]. fold s in Hinv, Hp.
  rewrite udp_framer_run_app. pose proof (udp_framer_run_step c ins s [] [] [] Hins Hinv) as H.
  destruct (udp_framer_run ins s) as [[evs out] s']. cbn [fst snd]. intros Hlen Hn.
  destruct (H Hlen) as (part' & rem' & pks' & Hinv' & Hout). rewrite Hp in Hout. cbn [app] in Hout.
  split; [by eexists|]. pose proof (work_le s' rem' pks') as Hw.
  assert (length (pending c s' rem' pks') <= length (datagrams c [] evs))%nat.
  { rewrite <- Hout, length_app. lia. }
  pose proof (drain_run pause s' part' rem' pks' Hpause Hinv' ltac:(lia)) as Hd.
  destruct (udp_framer_run pause s') as [[evs' out'] s'']. cbn [fst] in *. injection Hd as -> ->.
  by rewrite Hout, app_nil_r.
Qed.

End Drain.

(** ** Witness and examples *)
Definition demo_cfg : framer_config :=
  FramerConfig true false 6000 6001 0xC0A80002 0xC0A80001 0x4666.
Definition power_up : udp_framer_regs :=
  UdpFramerRegs S_IDLE true false 0 false 0 (f_new C_FIFO_LOG2_DEPTH)
    (f_new C_LENGTH_FIFO_LOG2_DEPTH) 0 0 0 0 0 no_axis no_axis.
Definition demo_in (cfg : framer_config) (a : axis) (rdy : bool) : udp_framer_in :=
  UdpFramerIn false cfg a rdy.
Definition demo_reset : udp_framer_in := UdpFramerIn true demo_cfg no_axis true.
Definition demo_ins : list udp_framer_in :=
  [demo_in demo_cfg (Axis 1 true false) true; demo_in demo_cfg no_axis false;
   demo_in demo_cfg (Axis 2 true true) false; demo_in demo_cfg (Axis 3 true true) true].
Definition demo_pause (n : nat) : list udp_framer_in := replicate n (demo_in demo_cfg no_axis true).


Definition disabled_cfg : framer_config :=
  FramerConfig false false 6000 6001 0xC0A80002 0xC0A80001 0x4666.

(** Disabling right after a byte was taken: the input stage keeps its write enable, so the
    FIFO takes the byte again on every edge; the packet that follows is longer than
    its length says. *)
Example disabling_repeats_byte :
  let s := udp_framer_clock demo_reset power_up in
  let ins := [demo_in demo_cfg (Axis 1 true false) true; demo_in disabled_cfg no_axis true;
              demo_in disabled_cfg no_axis true; demo_in demo_cfg (Axis 2 true true) true] in
  drop 28 (udp_framer_run (ins ++ demo_pause 64) s).1.2 = [(1, false); (1, true)].
Proof. vm_compute. reflexivity. Qed.

(** A disabled framer still says it is ready: the bytes offered are lost. *)
Example disabled_loses_bytes :
  let s := udp_framer_clock demo_reset power_up in
  (udp_framer_run ([demo_in disabled_cfg (Axis 1 true true) true] ++ demo_pause 64) s).1 =
  ([(1, true)], []).
Proof. vm_compute. reflexivity. Qed.

(** At 2048 bytes the eleven-bit length counter is back at zero; shown on the counter. *)
Example length_counter_wraps :
  let s := UdpFramerRegs S_IDLE false false 0 false 2047 (f_new C_FIFO_LOG2_DEPTH)
    (f_new C_LENGTH_FIFO_LOG2_DEPTH) 0 0 0 0 0 no_axis no_axis in
  payload_length_counter (udp_framer_clock (demo_in demo_cfg (Axis 1 true true) true) s) = 0.
Proof. reflexivity. Qed.
