(* ===== verification/UdpIpDeframer.v ===== *)
(** * The UDP/IP deframer: [udp/deframer/udp_ip_deframer.vhd]

    The entity clock by clock, its two counters and the drop mask included, and a
    specification that reads a whole datagram at once.  The theorem: for any datagrams, with any
    gaps, the payloads of those for this station come out, delimited; the others
    are counted, with the reason in the mask. *)

From S2P Require Import Prelude.
From S2P Require Import Axis.
From S2P Require Import UdpDevice.

Inductive fsm_state_t :=
  | S_IDLE
  | S_IP_DSCP | S_IP_LEN_1 | S_IP_LEN_2 | S_IP_ID_1 | S_IP_ID_2
  | S_IP_FLAGS_1 | S_IP_FLAGS_2 | S_IP_TTL | S_IP_PROTOCOL
  | S_IP_HDR_CHECKSUM_1 | S_IP_HDR_CHECKSUM_2
  | S_IP_SRC_IP_1 | S_IP_SRC_IP_2 | S_IP_SRC_IP_3 | S_IP_SRC_IP_4
  | S_IP_DST_IP_1 | S_IP_DST_IP_2 | S_IP_DST_IP_3 | S_IP_DST_IP_4
  | S_IP_OPTIONS
  | S_SRC_PORT_1 | S_SRC_PORT_2 | S_DST_PORT_1 | S_DST_PORT_2
  | S_LENGTH_1 | S_LENGTH_2 | S_CHECKSUM_1 | S_CHECKSUM_2
  | S_DATA | S_DISCARD.

Definition C_IP_VERSION : Z := 4.
Definition C_IP_UDP_PROTOCOL : Z := 0x11.

Record udp_deframer_regs := UdpDeframerRegs {
  dst_ip_address_rx : Z;
  dst_port_rx : Z;
  deframer_state : fsm_state_t;
  words_remaining_count : Z;
  deframed : axis;
  valid_packets_count_u : Z;
  dropped_packets_count_u : Z;
  drop_mask : Z
}.

(** The input ports; the configuration ports (with [enable_in]) as in
    UdpDevice.v. *)
Record udp_deframer_in := UdpDeframerIn {
  in_reset : bool;
  in_cfg : deframer_config;
  s_axis : axis
}.

(** [x(23 downto 0) & b] *)
Definition address_shift (x b : Z) : Z := Z.lor (Z.shiftl (wrap 24 x) 8) b.

Definition address_rx_next (b : Z) (s : udp_deframer_regs) : Z :=
  match deframer_state s with
  | S_IP_DST_IP_1 | S_IP_DST_IP_2 | S_IP_DST_IP_3 | S_IP_DST_IP_4 =>
      address_shift (dst_ip_address_rx s) b
  | _ => dst_ip_address_rx s
  end.

Definition port_rx_next (b : Z) (s : udp_deframer_regs) : Z :=
  match deframer_state s with
  | S_DST_PORT_1 => Z.lor (Z.shiftl b 8) (slice (dst_port_rx s) 7 0)
  | S_DST_PORT_2 => Z.lor (Z.shiftl (slice (dst_port_rx s) 15 8) 8) b
  | _ => dst_port_rx s
  end.

Definition dst_ip_adddress_match (c : deframer_config) (s : udp_deframer_regs) : bool :=
  (dst_ip_address_rx s =? deframer_address c) || (dst_ip_address_rx s =? broadcast_address c).
Definition dst_port_match (c : deframer_config) (s : udp_deframer_regs) : bool :=
  dst_port_rx s =? deframer_port c.

(** The state after a byte. *)
Definition next_state (c : deframer_config) (b : Z) (last : bool) (s : udp_deframer_regs) : fsm_state_t :=
  match deframer_state s with
  | S_IDLE =>
      if deframer_enable c
      then if slice b 7 4 =? C_IP_VERSION then S_IP_DSCP else S_DISCARD
      else S_IDLE
  | S_IP_DSCP => S_IP_LEN_1
  | S_IP_LEN_1 => S_IP_LEN_2
  | S_IP_LEN_2 => S_IP_ID_1
  | S_IP_ID_1 => S_IP_ID_2
  | S_IP_ID_2 => S_IP_FLAGS_1
  | S_IP_FLAGS_1 => S_IP_FLAGS_2
  | S_IP_FLAGS_2 => S_IP_TTL
  | S_IP_TTL => S_IP_PROTOCOL
  | S_IP_PROTOCOL => if b =? C_IP_UDP_PROTOCOL then S_IP_HDR_CHECKSUM_1 else S_DISCARD
  | S_IP_HDR_CHECKSUM_1 => S_IP_HDR_CHECKSUM_2
  | S_IP_HDR_CHECKSUM_2 => S_IP_SRC_IP_1
  | S_IP_SRC_IP_1 => S_IP_SRC_IP_2
  | S_IP_SRC_IP_2 => S_IP_SRC_IP_3
  | S_IP_SRC_IP_3 => S_IP_SRC_IP_4
  | S_IP_SRC_IP_4 => S_IP_DST_IP_1
  | S_IP_DST_IP_1 => S_IP_DST_IP_2
  | S_IP_DST_IP_2 => S_IP_DST_IP_3
  | S_IP_DST_IP_3 => S_IP_DST_IP_4
  | S_IP_DST_IP_4 => if words_remaining_count s =? 0 then S_SRC_PORT_1 else S_IP_OPTIONS
  | S_IP_OPTIONS => if words_remaining_count s =? 1 then S_SRC_PORT_1 else S_IP_OPTIONS
  | S_SRC_PORT_1 => if dst_ip_adddress_match c s then S_SRC_PORT_2 else S_DISCARD
  | S_SRC_PORT_2 => S_DST_PORT_1
  | S_DST_PORT_1 => S_DST_PORT_2
  | S_DST_PORT_2 => S_LENGTH_1
  | S_LENGTH_1 => if dst_port_match c s then S_LENGTH_2 else S_DISCARD
  | S_LENGTH_2 => S_CHECKSUM_1
  | S_CHECKSUM_1 => S_CHECKSUM_2
  | S_CHECKSUM_2 => if last then S_IDLE else S_DATA
  | S_DATA => if last then S_IDLE else S_DATA
  | S_DISCARD => if last then S_IDLE else S_DISCARD
  end.

(** The bit of [drop_mask] a byte sets. *)
Definition drop_bits (c : deframer_config) (b : Z) (s : udp_deframer_regs) : Z :=
  match deframer_state s with
  | S_IDLE => if deframer_enable c && negb (slice b 7 4 =? C_IP_VERSION) then 1 else 0
  | S_IP_PROTOCOL => if b =? C_IP_UDP_PROTOCOL then 0 else 2
  | S_SRC_PORT_1 => if dst_ip_adddress_match c s then 0 else 4
  | S_LENGTH_1 => if dst_port_match c s then 0 else 8
  | _ => 0
  end.

Definition words_next (c : deframer_config) (b : Z) (s : udp_deframer_regs) : Z :=
  match deframer_state s with
  | S_IDLE =>
      if deframer_enable c && (slice b 7 4 =? C_IP_VERSION)
      then wrap 6 (Z.shiftl (slice b 3 0) 2 - 20) else words_remaining_count s
  | S_IP_OPTIONS => wrap 6 (words_remaining_count s - 1)
  | _ => words_remaining_count s
  end.

Definition deframed_next (a : axis) (s : udp_deframer_regs) : axis :=
  match deframer_state s with S_DATA => a | _ => no_axis end.

(** One rising edge. *)
Definition udp_deframer_clock (i : udp_deframer_in) (s : udp_deframer_regs) : udp_deframer_regs :=
  let c := in_cfg i in
  let rst := in_reset i in
  let b := tdata (s_axis i) in
  let v := tvalid (s_axis i) in
  let last := tlast (s_axis i) in
  {| dst_ip_address_rx := if v then address_rx_next b s else dst_ip_address_rx s;
     dst_port_rx := if v then port_rx_next b s else dst_port_rx s;
     deframer_state :=
       if rst then S_IDLE else if v then next_state c b last s else deframer_state s;
     words_remaining_count := if v then words_next c b s else words_remaining_count s;
     deframed := if rst then no_axis else if v then deframed_next (s_axis i) s else no_axis;
     valid_packets_count_u :=
       if rst then 0
       else if v && last && match deframer_state s with S_DATA => true | _ => false end
       then wrap 16 (valid_packets_count_u s + 1) else valid_packets_count_u s;
     dropped_packets_count_u :=
       if rst then 0
       else if v && last && match deframer_state s with S_DISCARD => true | _ => false end
       then wrap 16 (dropped_packets_count_u s + 1) else dropped_packets_count_u s;
     drop_mask :=
       if rst then 0 else if v then Z.lor (drop_mask s) (drop_bits c b s) else drop_mask s |}.

(** The bytes on the output ports, edge by edge. *)
Fixpoint udp_deframer_run (ins : list udp_deframer_in) (s : udp_deframer_regs)
    : list beat * udp_deframer_regs :=
  match ins with
  | [] => ([], s)
  | i :: ins' =>
      let '(out, s') := udp_deframer_run ins' (udp_deframer_clock i s) in
      (axis_beats (deframed s) ++ out, s')
  end.

(** ** A whole datagram *)
Definition version (f : list Z) : Z := slice (nth 0 f 0) 7 4.
Definition protocol (f : list Z) : Z := nth 9 f 0.

(** Bytes of options, from the header length in six bits. *)
Definition options (f : list Z) : nat :=
  Z.to_nat (wrap 6 (Z.shiftl (slice (nth 0 f 0) 3 0) 2 - 20)).
Definition be_word (l : list Z) : Z := foldl address_shift 0 l.
Definition datagram_address (f : list Z) : Z := be_word (take 4 (drop 16 f)).
Definition datagram_port (f : list Z) : Z :=
  let u := drop (20 + options f) f in Z.lor (Z.shiftl (wrap 8 (nth 2 u 0)) 8) (nth 3 u 0).
Definition datagram_payload (f : list Z) : list Z := drop (28 + options f) f.

(** Why a datagram is dropped, as the mask's bit; 0 when it is not. *)
Definition drop_reason (c : deframer_config) (f : list Z) : Z :=
  if negb (version f =? C_IP_VERSION) then 1
  else if negb (protocol f =? C_IP_UDP_PROTOCOL) then 2
  else if negb ((datagram_address f =? deframer_address c) ||
                (datagram_address f =? broadcast_address c)) then 4
  else if negb (datagram_port f =? deframer_port c) then 8
  else 0.

Definition udp_deframe (c : deframer_config) (f : list Z) : list beat :=
  if drop_reason c f =? 0 then last_beats (datagram_payload f) else [].

(** The datagram does not end before the deframer has decided. *)
Definition complete (f : list Z) : Prop :=
  if negb (version f =? C_IP_VERSION) then (2 <= length f)%nat
  else if negb (protocol f =? C_IP_UDP_PROTOCOL) then (11 <= length f)%nat
  else (28 + options f <= length f)%nat.

Definition is_valid (c : deframer_config) (f : list Z) : bool :=
  match udp_deframe c f with [] => false | _ => true end.
Definition is_dropped (c : deframer_config) (f : list Z) : bool := negb (drop_reason c f =? 0).

(** ** Bytes without the gaps *)
Section UdpDeframer.
Context (c : deframer_config) (Hen : deframer_enable c = true).

Definition in_ok (i : udp_deframer_in) : Prop := in_reset i = false /\ in_cfg i = c.

Definition in_beats (ins : list udp_deframer_in) : list beat := concat ((fun i => axis_beats (s_axis i)) <$> ins).

Definition take_beat (b : Z) (last : bool) (s : udp_deframer_regs) : udp_deframer_regs :=
  udp_deframer_clock (UdpDeframerIn false c (Axis b true last)) s.

Fixpoint feed (bs : list beat) (s : udp_deframer_regs) : list beat * udp_deframer_regs :=
  match bs with
  | [] => ([], s)
  | (b, last) :: bs' =>
      let s1 := take_beat b last s in
      let '(out, s2) := feed bs' s1 in (axis_beats (deframed s1) ++ out, s2)
  end.

Definition clear (s : udp_deframer_regs) : udp_deframer_regs :=
  UdpDeframerRegs (dst_ip_address_rx s) (dst_port_rx s) (deframer_state s) (words_remaining_count s)
    no_axis (valid_packets_count_u s) (dropped_packets_count_u s) (drop_mask s).

Lemma clock_clear i s : udp_deframer_clock i (clear s) = udp_deframer_clock i s.
Proof. reflexivity. Qed.

Lemma clock_gap i s : in_ok i -> tvalid (s_axis i) = false -> udp_deframer_clock i s = clear s.
Proof.
  intros [Hr _] Hv. unfold udp_deframer_clock, clear. by rewrite Hr, Hv.
Qed.

Lemma clock_beat i s :
  in_ok i -> tvalid (s_axis i) = true ->
  udp_deframer_clock i s = take_beat (tdata (s_axis i)) (tlast (s_axis i)) s.
Proof.
  intros [Hr Hc] Hv. destruct i as [r cfg [d v l]]. cbn in *. by subst.
Qed.

Lemma feed_app l l' s :
  feed (l ++ l') s = let '(out, s1) := feed l s in let '(out', s2) := feed l' s1 in (out ++ out', s2).
Proof.
  revert s. induction l as [|[b last] l IH]; intros s; cbn [feed app].
  - by destruct (feed l' s).
  - rewrite IH. destruct (feed l (take_beat b last s)) as [out s1]. destruct (feed l' s1).
    by rewrite app_assoc.
Qed.

Lemma feed_clear bs s : clear (feed bs (clear s)).2 = clear (feed bs s).2 /\ (feed bs (clear s)).1 = (feed bs s).1.
Proof. by destruct bs as [|[b last] bs]. Qed.

Lemma run_feed ins s :
  Forall in_ok ins ->
  (udp_deframer_run ins s).1 ++ axis_beats (deframed (udp_deframer_run ins s).2) =
    axis_beats (deframed s) ++ (feed (in_beats ins) s).1 /\
  clear (udp_deframer_run ins s).2 = clear (feed (in_beats ins) s).2.
Proof.
  intros Hins. revert s. induction Hins as [|i ins Hi _ IH]; intros s; cbn [udp_deframer_run].
  - cbn. by rewrite app_nil_r.
  - destruct (IH (udp_deframer_clock i s)) as [H1 H2].
    destruct (udp_deframer_run ins (udp_deframer_clock i s)) as [out s']. cbn [fst snd] in *.
    rewrite <- app_assoc, H1, H2. unfold in_beats. rewrite fmap_cons. cbn [concat]. fold (in_beats ins).
    assert (Ha : axis_beats (s_axis i) =
      if tvalid (s_axis i) then [(tdata (s_axis i), tlast (s_axis i))] else []) by done.
    rewrite feed_app, Ha. destruct (tvalid (s_axis i)) eqn:Hv.
    + cbn [feed]. rewrite (clock_beat i s Hi Hv).
      destruct (feed (in_beats ins) (take_beat _ _ _)). cbn [fst snd]. by rewrite app_nil_r.
    + rewrite (clock_gap i s Hi Hv). cbn [feed]. destruct (feed_clear (in_beats ins) s) as [-> ->].
      by destruct (feed (in_beats ins) s).
Qed.

(** ** The parts of a datagram *)

(** The registers after a byte, with the state known. *)
Ltac take_byte_regs :=
  unfold take_beat, udp_deframer_clock, next_state, words_next, drop_bits, deframed_next,
    address_rx_next, port_rx_next, dst_ip_adddress_match, dst_port_match;
  cbn -[feed last_beats data_beats wrap slice address_shift Z.lor Z.shiftl Z.eqb Z.of_nat Z.sub Z.add];
  rewrite ?Z.eqb_refl; cbn [andb negb]; rewrite ?Z.lor_0_r.

Lemma feed_cons b last bs s :
  feed ((b, last) :: bs) s =
    let s1 := take_beat b last s in
    let '(out, s2) := feed bs s1 in (axis_beats (deframed s1) ++ out, s2).
Proof. reflexivity. Qed.

Lemma feed_silent b last bs s s1 :
  take_beat b last s = s1 -> deframed s1 = no_axis -> feed ((b, last) :: bs) s = feed bs s1.
Proof. intros <- H. rewrite feed_cons. cbn zeta. rewrite H. by destruct (feed bs _). Qed.

Ltac take_byte := rewrite feed_cons; take_byte_regs.

(** Takes a byte of the header, of which nothing is passed on. *)
Ltac skip_byte := erewrite feed_silent; [|take_byte_regs; reflexivity|reflexivity].

Lemma feed_discard g s :
  deframer_state s = S_DISCARD -> g <> [] ->
  feed (last_beats g) s =
    ([], UdpDeframerRegs (dst_ip_address_rx s) (dst_port_rx s) S_IDLE (words_remaining_count s) no_axis
           (valid_packets_count_u s) (wrap 16 (dropped_packets_count_u s + 1)) (drop_mask s)).
Proof.
  intros Hs Hg. destruct s as [a p st w d v n m]. cbn in Hs. subst st.
  revert d. induction g as [|b [|b' g] IH]; intros d; [done| |].
  - change (last_beats [b]) with [(b, true)]. by take_byte.
  - rewrite last_beats_cons. take_byte. by rewrite IH.
Qed.

Lemma feed_data g s :
  deframer_state s = S_DATA -> g <> [] ->
  exists d, feed (last_beats g) s =
    (last_beats g, UdpDeframerRegs (dst_ip_address_rx s) (dst_port_rx s) S_IDLE (words_remaining_count s) d
           (wrap 16 (valid_packets_count_u s + 1)) (dropped_packets_count_u s) (drop_mask s)).
Proof.
  intros Hs Hg. destruct s as [a p st w d v n m]. cbn in Hs. subst st.
  revert d. induction g as [|b [|b' g] IH]; intros d; [done| |].
  - change (last_beats [b]) with [(b, true)]. eexists. by take_byte.
  - rewrite last_beats_cons. take_byte.
    destruct (IH ltac:(done) (Axis b true false)) as [d' Hd']. exists d'. cbn in Hd'. by rewrite Hd'.
Qed.

Lemma feed_options l s w :
  deframer_state s = S_IP_OPTIONS -> words_remaining_count s = Z.of_nat (S (length l)) ->
  (S (length l) < 64)%nat ->
  feed (data_beats (w :: l)) s =
    ([], UdpDeframerRegs (dst_ip_address_rx s) (dst_port_rx s) S_SRC_PORT_1 0 no_axis
           (valid_packets_count_u s) (dropped_packets_count_u s) (drop_mask s)).
Proof.
  intros Hs Hw Hl. destruct s as [a p st n d v k m]. cbn in Hs, Hw. subst st.
  revert w n d Hw Hl. induction l as [|x l IH]; intros w n d Hw Hl; cbn [length] in *; subst n.
  - change (data_beats [w]) with [(w, false)]. by take_byte.
  - change (data_beats (w :: x :: l)) with ((w, false) :: data_beats (x :: l)). take_byte.
    rewrite (proj2 (Z.eqb_neq _ _)), wrap_small by (unfold is_u; lia).
    rewrite IH; [done| |]; lia.
Qed.

(** The IP header without options. *)
Definition header_regs (h : list Z) (s s' : udp_deframer_regs) : Prop :=
  s' = UdpDeframerRegs (foldl address_shift (dst_ip_address_rx s) (drop 16 h)) (dst_port_rx s)
         (if (options h =? 0)%nat then S_SRC_PORT_1 else S_IP_OPTIONS) (Z.of_nat (options h)) no_axis
         (valid_packets_count_u s) (dropped_packets_count_u s) (drop_mask s).

Lemma feed_ip_header h s :
  deframer_state s = S_IDLE -> length h = 20%nat ->
  version h = C_IP_VERSION -> protocol h = C_IP_UDP_PROTOCOL ->
  exists s', feed (data_beats h) s = ([], s') /\ header_regs h s s'.
Proof.
  intros Hs Hl Hv Hp. destruct s as [a p st w d v n m]. cbn in Hs. subst st.
  do 20 (destruct h as [|? h]; [discriminate Hl|]). destruct h; [|discriminate Hl].
  unfold version, protocol in *. cbn [nth] in Hv, Hp. subst. eexists. split.
  - unfold data_beats. cbn [fmap list_fmap].
    erewrite feed_silent;
      [|take_byte_regs; rewrite Hen, Hv, Z.eqb_refl; cbn [andb negb]; rewrite Z.lor_0_r; reflexivity
       |reflexivity].
    do 19 skip_byte. reflexivity.
  - unfold header_regs, options. cbn [nth drop foldl dst_ip_address_rx].
    assert (Hw : is_u 6 (wrap 6 (Z.shiftl (slice z 3 0) 2 - 20))) by by apply wrap_range.
    set (w' := wrap 6 (Z.shiftl (slice z 3 0) 2 - 20)) in *. clearbody w'. unfold is_u in Hw.
    rewrite Z2Nat.id by lia. f_equal. destruct (Z.eqb_spec w' 0) as [->|]; [done|].
    destruct (Nat.eqb_spec (Z.to_nat w') 0); [lia|done].
Qed.

(** The address register holds its last four bytes. *)
Lemma testbit_address_shift x b i :
  0 <= i ->
  Z.testbit (address_shift x b) i = (((8 <=? i) && (i <? 32) && Z.testbit x (i - 8)) || Z.testbit b i).
Proof.
  intros Hi. unfold address_shift. rewrite Z.lor_spec, testbit_shiftl, testbit_wrap by lia.
  f_equal. zcases; cbn [andb]; try done. rewrite Z.testbit_neg_r by lia. done.
Qed.

Lemma address_shift_forgets l x y i :
  0 <= i < 8 * Z.of_nat (length l) -> i < 32 ->
  Z.testbit (foldl address_shift x l) i = Z.testbit (foldl address_shift y l) i.
Proof.
  revert i. induction l as [|b l IH] using rev_ind; intros i Hi H32; [cbn in Hi; lia|].
  rewrite !foldl_app. cbn [foldl]. rewrite length_app in Hi. cbn [length] in Hi.
  rewrite !testbit_address_shift by lia. destruct (Z.leb_spec 8 i); [|done].
  by rewrite IH by lia.
Qed.

Lemma address_of_four l x : length l = 4%nat -> foldl address_shift x l = be_word l.
Proof.
  intros Hl. apply Z.bits_inj'. intros i Hi. destruct (Z.lt_ge_cases i 32).
  - apply address_shift_forgets; lia.
  - unfold be_word. destruct l as [|b l _] using rev_ind; [done|]. rewrite !foldl_app. cbn [foldl].
    rewrite !testbit_address_shift by lia. rewrite (proj2 (Z.ltb_ge i 32)) by lia. by rewrite andb_false_r.
Qed.

Lemma port_of_two p b1 b2 :
  Z.lor (Z.shiftl (slice (Z.lor (Z.shiftl b1 8) (slice p 7 0)) 15 8) 8) b2 =
  Z.lor (Z.shiftl (wrap 8 b1) 8) b2.
Proof.
  f_equal. f_equal. unfold slice. cbn [Z.sub Z.add Z.opp Z.pos_sub]. apply Z.bits_inj'. intros i Hi.
  change (15 - 8 + 1) with 8. change (7 - 0 + 1) with 8.
  rewrite !testbit_wrap, testbit_shiftr, Z.lor_spec, testbit_shiftl, testbit_wrap by lia.
  zcases; cbn [andb orb]; try done; try lia. replace (i + 8 - 8) with i by lia. by rewrite orb_false_r.
Qed.

(** ** One datagram *)
Definition counts (s s' : udp_deframer_regs) (valid dropped : Z) (mask : Z) : Prop :=
  deframer_state s' = S_IDLE /\
  valid_packets_count_u s' = wrap 16 (valid_packets_count_u s + valid) /\
  dropped_packets_count_u s' = wrap 16 (dropped_packets_count_u s + dropped) /\
  drop_mask s' = Z.lor (drop_mask s) mask.

Definition counters_ok (s : udp_deframer_regs) : Prop :=
  is_u 16 (valid_packets_count_u s) /\ is_u 16 (dropped_packets_count_u s).

(** A byte that rejects the datagram, and the rest of it. *)
Lemma feed_drop x g s :
  counters_ok s -> g <> [] -> next_state c x false s = S_DISCARD ->
  deframer_state s <> S_DISCARD ->
  exists s', feed (last_beats (x :: g)) s = ([], s') /\ counts s s' 0 1 (drop_bits c x s).
Proof.
  intros [Hv _] Hg Hn Hs. rewrite last_beats_cons. replace (match g with [] => true | _ => false end) with false by (by destruct g).
  assert (Hd : deframer_state s <> S_DATA) by (intros E; unfold next_state in Hn; by rewrite E in Hn).
  rewrite (feed_silent x false (last_beats g) s _ eq_refl).
  - rewrite feed_discard; [|exact Hn|done]. eexists. split; [done|].
    unfold counts, take_beat, udp_deframer_clock. cbn -[wrap Z.lor drop_bits].
    rewrite Z.add_0_r, wrap_small by done. by destruct (deframer_state s).
  - unfold take_beat, udp_deframer_clock, deframed_next. cbn. by destruct (deframer_state s).
Qed.

(** The UDP header up to its last byte, for this station. *)
Lemma feed_udp_header u s :
  length u = 7%nat -> deframer_state s = S_SRC_PORT_1 -> dst_ip_adddress_match c s = true ->
  Z.lor (Z.shiftl (wrap 8 (nth 2 u 0)) 8) (nth 3 u 0) = deframer_port c ->
  feed (data_beats u) s =
    ([], UdpDeframerRegs (dst_ip_address_rx s) (deframer_port c) S_CHECKSUM_2 (words_remaining_count s) no_axis
           (valid_packets_count_u s) (dropped_packets_count_u s) (drop_mask s)).
Proof.
  intros Hl Hs Hm Hp. destruct s as [a p st w d v n m]. cbn in Hs. subst st.
  do 7 (destruct u as [|? u]; [discriminate Hl|]). destruct u; [|discriminate Hl].
  cbn [nth] in Hp. unfold dst_ip_adddress_match in Hm. cbn [dst_ip_address_rx] in Hm.
  unfold data_beats. cbn [fmap list_fmap].
  erewrite feed_silent; [|take_byte_regs; rewrite Hm, Z.lor_0_r; reflexivity|reflexivity].
  do 3 skip_byte. rewrite port_of_two, Hp. do 3 skip_byte. reflexivity.
Qed.

Lemma feed_udp_bad_port u s :
  length u = 4%nat -> deframer_state s = S_SRC_PORT_1 -> dst_ip_adddress_match c s = true ->
  Z.lor (Z.shiftl (wrap 8 (nth 2 u 0)) 8) (nth 3 u 0) <> deframer_port c ->
  exists s', feed (data_beats u) s = ([], s') /\ deframer_state s' = S_LENGTH_1 /\
    dst_port_match c s' = false /\ valid_packets_count_u s' = valid_packets_count_u s /\
    dropped_packets_count_u s' = dropped_packets_count_u s /\ drop_mask s' = drop_mask s.
Proof.
  intros Hl Hs Hm Hp. destruct s as [a p st w d v n m]. cbn in Hs. subst st.
  do 4 (destruct u as [|? u]; [discriminate Hl|]). destruct u; [|discriminate Hl].
  cbn [nth] in Hp. unfold dst_ip_adddress_match in Hm. cbn [dst_ip_address_rx] in Hm.
  unfold data_beats. cbn [fmap list_fmap]. eexists. split.
  - erewrite feed_silent; [|take_byte_regs; rewrite Hm, Z.lor_0_r; reflexivity|reflexivity].
    do 3 skip_byte. rewrite port_of_two. reflexivity.
  - unfold dst_port_match. cbn [dst_port_rx]. split; [done|]. split; [by apply Z.eqb_neq|done].
Qed.

Lemma feed_to_protocol h s :
  deframer_state s = S_IDLE -> length h = 9%nat -> version h = C_IP_VERSION ->
  exists s', feed (data_beats h) s = ([], s') /\ deframer_state s' = S_IP_PROTOCOL /\
    valid_packets_count_u s' = valid_packets_count_u s /\
    dropped_packets_count_u s' = dropped_packets_count_u s /\ drop_mask s' = drop_mask s.
Proof.
  intros Hs Hl Hv. destruct s as [a p st w d v n m]. cbn in Hs. subst st.
  do 9 (destruct h as [|? h]; [discriminate Hl|]). destruct h; [|discriminate Hl].
  unfold version in Hv. cbn [nth] in Hv. unfold data_beats. cbn [fmap list_fmap]. eexists. split.
  - erewrite feed_silent;
      [|take_byte_regs; rewrite Hen, Hv, Z.eqb_refl; cbn [andb negb]; rewrite Z.lor_0_r; reflexivity
       |reflexivity].
    do 8 skip_byte. reflexivity.
  - done.
Qed.

Lemma options_bound f : (options f < 64)%nat.
Proof.
  unfold options. pose proof (wrap_range 6 (Z.shiftl (slice (nth 0 f 0) 3 0) 2 - 20) ltac:(lia)) as H.
  unfold is_u in H. lia.
Qed.

Lemma nth_take k n (f : list Z) : (k < n)%nat -> nth k (take n f) 0 = nth k f 0.
Proof. revert n f. induction k as [|k IH]; intros [|n] [|x f] H; try lia; cbn; auto with lia. Qed.

Lemma feed_headers f s :
  deframer_state s = S_IDLE -> version f = C_IP_VERSION -> protocol f = C_IP_UDP_PROTOCOL ->
  (20 + options f <= length f)%nat ->
  exists s', feed (data_beats (take (20 + options f) f)) s = ([], s') /\
    deframer_state s' = S_SRC_PORT_1 /\ dst_ip_address_rx s' = datagram_address f /\
    valid_packets_count_u s' = valid_packets_count_u s /\
    dropped_packets_count_u s' = dropped_packets_count_u s /\ drop_mask s' = drop_mask s.
Proof.
  intros Hs Hv Hp Hl. set (h := take 20 f).
  assert (Hh : length h = 20%nat) by (unfold h; rewrite length_take; lia).
  assert (Eo : options h = options f) by (unfold options, h; by rewrite nth_take by lia).
  destruct (feed_ip_header h s Hs Hh) as (s1 & Hf1 & ->).
  { unfold version, h. by rewrite nth_take by lia. }
  { unfold protocol, h. by rewrite nth_take by lia. }
  rewrite Eo in Hf1. rewrite address_of_four in Hf1 by (rewrite length_drop; lia).
  assert (Ea : be_word (drop 16 h) = datagram_address f).
  { unfold h, datagram_address. by rewrite take_drop_commute. }
  rewrite Ea in Hf1. rewrite <- take_take_drop, data_beats_app, feed_app. fold h. rewrite Hf1.
  pose proof (options_bound f). destruct (options f) as [|n] eqn:En; cbn [Nat.eqb].
  - rewrite take_0. cbn [data_beats fmap list_fmap feed]. eexists. done.
  - destruct (drop 20 f) as [|x l] eqn:Ed.
    { apply (f_equal length) in Ed. rewrite length_drop in Ed. cbn in Ed. lia. }
    cbn [take]. assert (Hn : length (take n l) = n).
    { apply (f_equal length) in Ed. rewrite length_drop in Ed. cbn [length] in Ed. rewrite length_take. lia. }
    rewrite (feed_options (take n l) _ x); cbn [deframer_state words_remaining_count]; rewrite ?Hn; try done.
    eexists. done.
Qed.

Definition same_counts (s s' : udp_deframer_regs) : Prop :=
  valid_packets_count_u s' = valid_packets_count_u s /\
  dropped_packets_count_u s' = dropped_packets_count_u s /\ drop_mask s' = drop_mask s.

(** A silent beginning, then a byte that rejects. *)
Lemma feed_prefix_drop h x g s s1 :
  counters_ok s -> feed (data_beats h) s = ([], s1) -> same_counts s s1 -> g <> [] ->
  next_state c x false s1 = S_DISCARD -> deframer_state s1 <> S_DISCARD ->
  exists s', feed (last_beats (h ++ x :: g)) s = ([], s') /\ counts s s' 0 1 (drop_bits c x s1).
Proof.
  intros Hc Hf (H1 & H2 & H3) Hg Hn Hs.
  destruct (feed_drop x g s1) as (s' & Hf' & Hcnt); [by unfold counters_ok; rewrite H1, H2|done..|].
  exists s'. rewrite last_beats_app, feed_app, Hf, Hf' by done. split; [done|].
  unfold counts in *. by rewrite <- H1, <- H2, <- H3.
Qed.

Lemma split_at (f : list Z) n :
  (n < length f)%nat -> f = take n f ++ nth n f 0 :: drop (S n) f.
Proof.
  intros H. destruct (lookup_lt_is_Some_2 f n H) as [x Hx].
  rewrite (nth_lookup_Some _ _ _ _ Hx). by rewrite take_drop_middle.
Qed.

Lemma drop_not_nil (f : list Z) n : (n < length f)%nat -> drop n f <> [].
Proof. intros H E. apply (f_equal length) in E. rewrite length_drop in E. cbn in E. lia. Qed.

(** The last byte of the UDP header and the payload. *)
Lemma feed_payload x g s :
  counters_ok s -> deframer_state s = S_CHECKSUM_2 ->
  exists s', feed (last_beats (x :: g)) s = (last_beats g, s') /\
    counts s s' (match g with [] => 0 | _ => 1 end) 0 0.
Proof.
  intros [Hv Hd] Hs. destruct s as [a p st w d v n m]. cbn in Hs, Hv, Hd. subst st.
  rewrite last_beats_cons. destruct g as [|y g].
  - erewrite feed_silent; [|take_byte_regs; reflexivity|reflexivity]. eexists. split; [done|].
    unfold counts. cbn -[wrap Z.lor Z.add]. by rewrite !Z.add_0_r, !wrap_small, Z.lor_0_r by done.
  - erewrite feed_silent; [|take_byte_regs; reflexivity|reflexivity].
    edestruct (feed_data (y :: g)) as [d' Hf]; [| |rewrite Hf]; [done|done|]. eexists. split; [done|].
    unfold counts. cbn -[wrap Z.lor Z.add]. by rewrite !Z.add_0_r, (wrap_small 16 n), Z.lor_0_r by done.
Qed.

Lemma feed_reaches_udp f s :
  counters_ok s -> deframer_state s = S_IDLE -> version f = C_IP_VERSION ->
  protocol f = C_IP_UDP_PROTOCOL -> (28 + options f <= length f)%nat ->
  let a := (datagram_address f =? deframer_address c) || (datagram_address f =? broadcast_address c) in
  let p := datagram_port f =? deframer_port c in
  exists s', feed (last_beats f) s =
      (if a && p then last_beats (datagram_payload f) else [], s') /\
    if a && p then counts s s' (match datagram_payload f with [] => 0 | _ => 1 end) 0 0
    else counts s s' 0 1 (if a then 8 else 4).
Proof.
  intros Hc Hs Hv Hp Hl a p.
  destruct (feed_headers f s Hs Hv Hp ltac:(lia)) as (s1 & Hf1 & Hs1 & Ha1 & Hc1).
  set (u := drop (20 + options f) f). set (h := take (20 + options f) f) in *.
  assert (Hu : (8 <= length u)%nat) by (unfold u; rewrite length_drop; lia).
  assert (Ef : f = h ++ u) by (unfold h, u; by rewrite take_drop).
  assert (Hm : dst_ip_adddress_match c s1 = a) by (unfold dst_ip_adddress_match; by rewrite Ha1).
  destruct a eqn:Ea; cbn [andb].
  2: { rewrite Ef, (split_at u 0) by lia. cbn [take app].
    destruct (feed_prefix_drop h (nth 0 u 0) (drop 1 u) s s1) as (s' & Hf & Hcnt); try done.
    - apply drop_not_nil. lia.
    - unfold next_state. by rewrite Hs1, Hm.
    - by rewrite Hs1.
    - exists s'. split; [done|]. unfold drop_bits in Hcnt. by rewrite Hs1, Hm in Hcnt. }
  assert (Ep : p = (Z.lor (Z.shiftl (wrap 8 (nth 2 u 0)) 8) (nth 3 u 0) =? deframer_port c)) by done.
  destruct p eqn:Ep'; symmetry in Ep; cbn [andb].
  - apply Z.eqb_eq in Ep.
    replace (last_beats f) with (last_beats (h ++ u)) by (by rewrite <- Ef).
    rewrite (split_at u 7), app_assoc, last_beats_app, data_beats_app, !feed_app, Hf1 by (lia || done).
    rewrite (feed_udp_header (take 7 u) s1); [|rewrite length_take; lia|done..|by rewrite !nth_take by lia].
    destruct Hc1 as (H1 & H2 & H3). rewrite H1, H2, H3.
    assert (Epl : datagram_payload f = drop 8 u).
    { unfold u, datagram_payload. rewrite drop_drop. f_equal. lia. }
    rewrite Epl. edestruct (feed_payload (nth 7 u 0) (drop 8 u)) as (s' & Hf & Hcnt);
      [| |rewrite Hf]; [done|done|]. by exists s'.
  - apply Z.eqb_neq in Ep.
    destruct (feed_udp_bad_port (take 4 u) s1) as (s2 & Hf2 & Hs2 & Hp2 & H1 & H2 & H3);
      [rewrite length_take; lia|done..|by rewrite !nth_take by lia|].
    rewrite Ef, (split_at u 4), app_assoc by lia. destruct Hc1 as (H1' & H2' & H3').
    destruct (feed_prefix_drop (h ++ take 4 u) (nth 4 u 0) (drop 5 u) s s2) as (s' & Hf & Hcnt); try done.
    + by rewrite data_beats_app, feed_app, Hf1, Hf2.
    + unfold same_counts. by rewrite H1, H2, H3.
    + apply drop_not_nil. lia.
    + unfold next_state. by rewrite Hs2, Hp2.
    + by rewrite Hs2.
    + exists s'. split; [done|]. unfold drop_bits in Hcnt. by rewrite Hs2, Hp2 in Hcnt.
Qed.

Lemma feed_datagram f s :
  counters_ok s -> deframer_state s = S_IDLE -> complete f ->
  exists s', feed (last_beats f) s = (udp_deframe c f, s') /\
    counts s s' (Z.b2z (is_valid c f)) (Z.b2z (is_dropped c f)) (drop_reason c f).
Proof.
  intros Hc Hs Hf. unfold complete in Hf. unfold is_valid, is_dropped, udp_deframe, drop_reason.
  destruct (Z.eqb_spec (version f) C_IP_VERSION) as [Hv|Hv]; cbn [negb] in *.
  2: { destruct f as [|x g]; [cbn in Hf; lia|].
    destruct (feed_drop x g s) as (s' & Hf' & Hcnt); [done|by destruct g; [cbn in Hf; lia|]| |by rewrite Hs|].
    - unfold next_state. rewrite Hs, Hen. unfold version in Hv. cbn [nth] in Hv.
      by rewrite (proj2 (Z.eqb_neq _ _) Hv).
    - exists s'. split; [done|]. unfold drop_bits in Hcnt. rewrite Hs, Hen in Hcnt.
      unfold version in Hv. cbn [nth] in Hv. by rewrite (proj2 (Z.eqb_neq _ _) Hv) in Hcnt. }
  destruct (Z.eqb_spec (protocol f) C_IP_UDP_PROTOCOL) as [Hp|Hp]; cbn [negb] in *.
  2: { destruct (feed_to_protocol (take 9 f) s Hs) as (s1 & Hf1 & Hs1 & Hc1).
    { rewrite length_take. lia. }
    { unfold version. by rewrite nth_take by lia. }
    unfold protocol in Hp.
    replace (last_beats f) with (last_beats (take 9 f ++ nth 9 f 0 :: drop 10 f)) by (by rewrite <- split_at by lia).
    destruct (feed_prefix_drop (take 9 f) (nth 9 f 0) (drop 10 f) s s1) as (s' & Hf' & Hcnt); try done.
    - apply drop_not_nil. lia.
    - unfold next_state. rewrite Hs1. by rewrite (proj2 (Z.eqb_neq _ _) Hp).
    - by rewrite Hs1.
    - exists s'. split; [done|]. unfold drop_bits in Hcnt.
      by rewrite Hs1, (proj2 (Z.eqb_neq _ _) Hp) in Hcnt. }
  destruct (feed_reaches_udp f s Hc Hs Hv Hp Hf) as (s' & Hf' & Hcnt). exists s'. rewrite Hf'.
  destruct ((datagram_address f =? deframer_address c) || (datagram_address f =? broadcast_address c));
    cbn [andb negb] in *; [|by split].
  destruct (datagram_port f =? deframer_port c); cbn [negb Z.eqb] in *; [|by split].
  split; [done|]. destruct (datagram_payload f) as [|x l]; [done|]. destruct (last_beats (x :: l)) eqn:E; [|done].
  apply (f_equal length) in E. by rewrite last_beats_length in E.
Qed.

(** ** Any number of datagrams *)
Definition number (p : list Z -> bool) (fs : list (list Z)) : Z :=
  Z.of_nat (length (filter (fun f => p f = true) fs)).
Definition drop_reasons (fs : list (list Z)) : Z := foldr Z.lor 0 (drop_reason c <$> fs).

Lemma number_cons p f fs : number p (f :: fs) = Z.b2z (p f) + number p fs.
Proof.
  unfold number. rewrite filter_cons.
  destruct (p f); [rewrite decide_True by done|rewrite decide_False by done]; cbn [length Z.b2z]; lia.
Qed.

Lemma feed_datagrams fs s :
  Forall complete fs -> counters_ok s -> deframer_state s = S_IDLE ->
  exists s', feed (concat (last_beats <$> fs)) s = (concat (udp_deframe c <$> fs), s') /\
    counts s s' (number (is_valid c) fs) (number (is_dropped c) fs) (drop_reasons fs).
Proof.
  intros Hfs. revert s. induction Hfs as [|f fs Hf _ IH]; intros s Hc Hs.
  - exists s. split; [done|]. destruct Hc. unfold counts. cbn -[wrap Z.add Z.lor].
    by rewrite !Z.add_0_r, !wrap_small, Z.lor_0_r.
  - destruct (feed_datagram f s Hc Hs Hf) as (s1 & E1 & Hs1 & Hv1 & Hd1 & Hm1).
    destruct (IH s1) as (s' & E & Hs' & Hv & Hd & Hm); [|done|].
    { unfold counters_ok. rewrite Hv1, Hd1. split; by apply wrap_range. }
    exists s'. rewrite !fmap_cons. cbn [concat]. rewrite feed_app, E1, E. split; [done|].
    unfold counts. rewrite Hs', Hv, Hd, Hm, Hv1, Hd1, Hm1, !wrap_add_idemp, !number_cons by lia.
    rewrite !Z.add_assoc. unfold drop_reasons. cbn [fmap list_fmap foldr]. by rewrite Z.lor_assoc.
Qed.

Lemma udp_deframer_run_app ins ins' s :
  udp_deframer_run (ins ++ ins') s =
    let '(out, s') := udp_deframer_run ins s in
    let '(out', s'') := udp_deframer_run ins' s' in (out ++ out', s'').
Proof.
  revert s. induction ins as [|i ins IH]; intros s; cbn [udp_deframer_run app].
  - by destruct (udp_deframer_run ins' s).
  - rewrite IH. destruct (udp_deframer_run ins (udp_deframer_clock i s)) as [out s'].
    destruct (udp_deframer_run ins' s'). by rewrite app_assoc.
Qed.

Lemma clear_eq s s' :
  clear s = clear s' ->
  deframer_state s = deframer_state s' /\ valid_packets_count_u s = valid_packets_count_u s' /\
  dropped_packets_count_u s = dropped_packets_count_u s' /\ drop_mask s = drop_mask s'.
Proof. by intros [=]. Qed.

(** The end of a run: one edge without input shows the last byte. *)
Lemma run_datagrams ins gap fs s :
  Forall in_ok (ins ++ [gap]) -> tvalid (s_axis gap) = false ->
  in_beats ins = concat (last_beats <$> fs) -> Forall complete fs ->
  counters_ok s -> deframer_state s = S_IDLE -> deframed s = no_axis ->
  (udp_deframer_run (ins ++ [gap]) s).1 = concat (udp_deframe c <$> fs) /\
  counts s (udp_deframer_run (ins ++ [gap]) s).2
    (number (is_valid c) fs) (number (is_dropped c) fs) (drop_reasons fs).
Proof.
  intros Hins Hg Hb Hfs Hc Hs Hd. apply Forall_app in Hins as [Hins Hgap]. inversion_clear Hgap as [|? ? Hi _].
  destruct (run_feed ins s Hins) as [H1 H2]. destruct (feed_datagrams fs s Hfs Hc Hs) as (s1 & E & Hcnt).
  rewrite Hb, E, Hd in H1. rewrite Hb, E in H2. cbn [fst snd] in *. rewrite udp_deframer_run_app.
  destruct (udp_deframer_run ins s) as [out s']. cbn [fst snd udp_deframer_run] in *.
  rewrite app_nil_r, H1. split; [done|]. apply clear_eq in H2 as (A1 & A2 & A3 & A4).
  rewrite (clock_gap gap s' Hi Hg). unfold counts in *. cbn [clear deframer_state valid_packets_count_u
    dropped_packets_count_u drop_mask]. by rewrite A1, A2, A3, A4.
Qed.

Lemma reset_edge i s :
  in_reset i = true ->
  deframer_state (udp_deframer_clock i s) = S_IDLE /\ deframed (udp_deframer_clock i s) = no_axis /\
  valid_packets_count_u (udp_deframer_clock i s) = 0 /\
  dropped_packets_count_u (udp_deframer_clock i s) = 0 /\ drop_mask (udp_deframer_clock i s) = 0.
Proof. intros Hr. unfold udp_deframer_clock. by rewrite Hr. Qed.

Lemma run_after_reset i0 s0 ins gap fs :
  in_reset i0 = true -> Forall in_ok (ins ++ [gap]) -> tvalid (s_axis gap) = false ->
  in_beats ins = concat (last_beats <$> fs) -> Forall complete fs ->
  let '(out, s') := udp_deframer_run (ins ++ [gap]) (udp_deframer_clock i0 s0) in
  out = concat (udp_deframe c <$> fs) /\ deframer_state s' = S_IDLE /\
  valid_packets_count_u s' = wrap 16 (number (is_valid c) fs) /\
  dropped_packets_count_u s' = wrap 16 (number (is_dropped c) fs) /\
  drop_mask s' = drop_reasons fs.
Proof.
  intros Hr Hins Hg Hb Hfs. destruct (reset_edge i0 s0 Hr) as (R1 & R2 & R3 & R4 & R5).
  destruct (run_datagrams ins gap fs (udp_deframer_clock i0 s0)) as [H1 H2]; try done.
  { unfold counters_ok. by rewrite R3, R4. }
  destruct (udp_deframer_run _ _) as [out s']. cbn [fst snd] in *. split; [done|].
  unfold counts in H2. by rewrite R3, R4, R5, !Z.add_0_l, Z.lor_0_l in H2.
Qed.

(** C8. After a reset from any state, for any datagrams (the address, port and options of
    each whatever they are, none cut off inside its header) with any gaps between the bytes: what comes out is exactly the
    payloads of the IPv4 UDP datagrams for this address or the broadcast address and for this
    port, with [tlast] on the last byte; the counters hold the numbers of non-empty
    payloads and of dropped datagrams modulo [2^16], and the drop mask the union of the reasons. *)
Theorem udp_deframer_delivers i0 s0 ins gap fs :
  in_reset i0 = true -> Forall in_ok (ins ++ [gap]) -> tvalid (s_axis gap) = false ->
  in_beats ins = concat (last_beats <$> fs) -> Forall complete fs ->
  let '(out, s') := udp_deframer_run (ins ++ [gap]) (udp_deframer_clock i0 s0) in
  out = concat (udp_deframe c <$> fs) /\ deframer_state s' = S_IDLE /\
  valid_packets_count_u s' = wrap 16 (number (is_valid c) fs) /\
  dropped_packets_count_u s' = wrap 16 (number (is_dropped c) fs) /\
  drop_mask s' = drop_reasons fs.
Proof. apply run_after_reset. Qed.
End UdpDeframer.

(** ** Witness and examples *)
Definition demo_cfg : deframer_config := DeframerConfig true false 6001 0xC0A80001 0xC0A800FF.
Definition demo_in (a : axis) : udp_deframer_in := UdpDeframerIn false demo_cfg a.
Definition demo_gap : udp_deframer_in := demo_in no_axis.
Definition demo_reset : udp_deframer_in := UdpDeframerIn true demo_cfg no_axis.
Definition power_up : udp_deframer_regs := UdpDeframerRegs 0 0 S_IDLE 0 no_axis 0 0 0.

(** Every byte followed by a gap. *)
Definition demo_inputs (f : list Z) : list udp_deframer_in :=
  concat ((fun bl => [demo_in (Axis bl.1 true bl.2); demo_gap]) <$> last_beats f).

Definition demo_udp (port_lsb len : Z) (payload : list Z) : list Z :=
  [0x17; 0x70; 0x17; port_lsb; 0; len; 0; 0] ++ payload.
Definition demo_ip (ihl dst_lsb : Z) (opts rest : list Z) : list Z :=
  [0x40 + ihl; 0; 0; 0; 0; 0; 0; 0; 0x80; 0x11; 0; 0; 192; 168; 0; 2; 192; 168; 0; dst_lsb] ++ opts ++ rest.

(** A datagram with options, one to the broadcast address, one for another port. *)
Definition demo_datagrams : list (list Z) :=
  [demo_ip 6 1 [1; 1; 1; 0] (demo_udp 0x71 10 [0x41; 0x42]);
   demo_ip 5 255 [] (demo_udp 0x71 9 [0x43]);
   demo_ip 5 1 [] (demo_udp 0x72 9 [0x44])].

Lemma udp_deframer_delivers_witness :
  let '(out, s') := udp_deframer_run (concat (demo_inputs <$> demo_datagrams) ++ [demo_gap])
    (udp_deframer_clock demo_reset power_up) in
  out = [(0x41, false); (0x42, true); (0x43, true)] /\ deframer_state s' = S_IDLE /\
  valid_packets_count_u s' = 2 /\ dropped_packets_count_u s' = 1 /\ drop_mask s' = 8.
Proof.
  apply (udp_deframer_delivers demo_cfg eq_refl demo_reset power_up (concat (demo_inputs <$> demo_datagrams))
    demo_gap demo_datagrams).
  - reflexivity.
  - vm_compute. repeat constructor.
  - reflexivity.
  - vm_compute. reflexivity.
  - repeat constructor; vm_compute; lia.
Defined.

Definition demo_run (fs : list (list Z)) : list beat * udp_deframer_regs :=
  udp_deframer_run (concat (demo_inputs <$> fs) ++ [demo_gap]) (udp_deframer_clock demo_reset power_up).

(** The length fields are not read: a one-byte datagram that arrives padded to
    the Ethernet minimum is delivered with its padding. *)
Example padding_delivered :
  (demo_run [demo_ip 5 1 [] (demo_udp 0x71 9 ([0x41] ++ replicate 17 0))]).1 =
  last_beats ([0x41] ++ replicate 17 0).
Proof. vm_compute. reflexivity. Qed.

(** A header length below five is not rejected: the count of options wraps in six bits. *)
Example short_header_length : options (demo_ip 4 1 [] []) = 60%nat.
Proof. vm_compute. reflexivity. Qed.

(** A datagram cut off in its header takes the next one with it. *)
Example cut_datagram_swallows_next :
  let '(out, s') := demo_run [take 12 (demo_ip 5 1 [] []); demo_ip 5 1 [] (demo_udp 0x71 9 [0x41])] in
  out = [] /\ valid_packets_count_u s' = 0 /\ dropped_packets_count_u s' = 1.
Proof. vm_compute. repeat split; reflexivity. Qed.
