(* ===== verification/Arp.v ===== *)
(** * The ARP unit: [arp/arp.vhd]

    The entity clock by clock: the parser of received frames, the request flags,
    the state machine that puts ARP packets between the packets passing through, the output
    register and the destination address for the framer.  Theorems: the stream
    that leaves is the packets that entered, undivided, with ARP packets between them; and
    under the conditions of [arp_answers] every request for this station's address is answered,
    to its sender, with nothing else sent. *)

From S2P Require Import Prelude.
From S2P Require Import Axis.
From S2P Require EthernetFramer.
From S2P Require EthernetDeframer.
From S2P Require UdpIpDeframer.

Inductive arp_state_t :=
  | S_IDLE
  | S_HW_TYPE_1 | S_HW_TYPE_2 | S_PROTOCOL_TYPE_1 | S_PROTOCOL_TYPE_2
  | HW_LENGTH | PROTOCOL_LENGTH | OPERATION_1 | OPERATION_2
  | SHA_1 | SHA_2 | SHA_3 | SHA_4 | SHA_5 | SHA_6
  | SPA_1 | SPA_2 | SPA_3 | SPA_4
  | THA
  | TPA_1 | TPA_2 | TPA_3 | TPA_4
  | S_PAD.

#[export] Instance arp_state_eq_dec : EqDecision arp_state_t.
Proof. solve_decision. Defined.

(** The signals of the received frame's parser. *)
Record arp_rx := ArpRx {
  rx_byte_cnt : Z;
  rx_dest_mac_match : bool;
  rx_ethertype_match : bool;
  rx_hw_proto_match : bool;
  rx_opcode_is_req : bool;
  rx_sha_shift : Z;
  rx_spa_shift : Z;
  rx_tpa_shift : Z
}.

Record arp_regs := ArpRegs {
  garp_pending : bool;
  reply_pending : bool;
  reply_started : bool;
  active_arp_is_reply : bool;
  sending_target_mac : Z;
  sending_target_ip : Z;
  in_data_packet : bool;
  arp_state : arp_state_t;
  pad_counter : Z;
  framed : axis;
  framed_tuser : bool;
  output : axis;
  output_tuser : bool;
  rx : arp_rx;
  req_sha : Z;
  req_spa : Z;
  eth_dest_mac_out : Z
}.

(** The input ports on one rising edge. *)
Record arp_in := ArpIn {
  in_reset : bool;
  send_garp_in : bool;
  mac_address_in : Z;
  ip_address_in : Z;
  destination_mac_in : Z;
  rx_axis : axis;
  s_axis : axis;
  m_tready : bool
}.

(** ** The parser *)

(** [rx_dest_mac_match] after byte [b], the [cnt]-th of the frame. *)
Definition dest_mac_next (mac cnt b : Z) (m : bool) : bool :=
  match cnt with
  | 0 => (b =? slice mac 47 40) || (b =? 0xff)
  | 1 => m && ((b =? slice mac 39 32) || (b =? 0xff))
  | 2 => m && ((b =? slice mac 31 24) || (b =? 0xff))
  | 3 => m && ((b =? slice mac 23 16) || (b =? 0xff))
  | 4 => m && ((b =? slice mac 15 8) || (b =? 0xff))
  | 5 => m && ((b =? slice mac 7 0) || (b =? 0xff))
  | _ => m
  end.

Definition ethertype_next (cnt b : Z) (m : bool) : bool :=
  match cnt with 12 => b =? 0x08 | 13 => m && (b =? 0x06) | _ => m end.

Definition hw_proto_next (cnt b : Z) (m : bool) : bool :=
  match cnt with
  | 14 => b =? 0x00
  | 15 => m && (b =? 0x01)
  | 16 => m && (b =? 0x08)
  | 17 => m && (b =? 0x00)
  | 18 => m && (b =? 0x06)
  | 19 => m && (b =? 0x04)
  | _ => m
  end.

Definition opcode_next (cnt b : Z) (m : bool) : bool :=
  match cnt with 20 => b =? 0x00 | 21 => m && (b =? 0x01) | _ => m end.

(** [shift(39 downto 0) & b] and [shift(23 downto 0) & b] *)
Definition in_range (lo cnt hi : Z) : bool := (lo <=? cnt) && (cnt <=? hi).

Definition parse_byte (mac b : Z) (last : bool) (r : arp_rx) : arp_rx :=
  let cnt := rx_byte_cnt r in
  {| rx_byte_cnt := if last then 0 else wrap 7 (cnt + 1);
     rx_dest_mac_match := dest_mac_next mac cnt b (rx_dest_mac_match r);
     rx_ethertype_match := ethertype_next cnt b (rx_ethertype_match r);
     rx_hw_proto_match := hw_proto_next cnt b (rx_hw_proto_match r);
     rx_opcode_is_req := opcode_next cnt b (rx_opcode_is_req r);
     rx_sha_shift :=
       if in_range 22 cnt 27 then EthernetDeframer.mac_shift (rx_sha_shift r) b else rx_sha_shift r;
     rx_spa_shift :=
       if in_range 28 cnt 31 then UdpIpDeframer.address_shift (rx_spa_shift r) b else rx_spa_shift r;
     rx_tpa_shift :=
       if in_range 38 cnt 41 then UdpIpDeframer.address_shift (rx_tpa_shift r) b else rx_tpa_shift r |}.

(** Byte 41 completes a request for this station. *)
Definition request_seen (ip b : Z) (r : arp_rx) : bool :=
  (rx_byte_cnt r =? 41) && rx_dest_mac_match r && rx_ethertype_match r && rx_hw_proto_match r &&
  rx_opcode_is_req r && (UdpIpDeframer.address_shift (rx_tpa_shift r) b =? ip).

Definition rx_new : arp_rx := ArpRx 0 false false false false 0 0 0.

(** ** The transmit state machine *)
Definition output_tready (i : arp_in) (s : arp_regs) : bool := m_tready i || negb (tvalid (output s)).

Definition s_axis_tready_out (i : arp_in) (s : arp_regs) : bool :=
  match arp_state s with S_IDLE => output_tready i s | _ => false end.

Definition ready_to_send (s : arp_regs) : bool := negb (garp_pending s).

(** The stream through the unit is between two packets. *)
Definition between_packets (i : arp_in) (s : arp_regs) : bool :=
  (negb (tvalid (s_axis i)) && negb (in_data_packet s)) || (tvalid (s_axis i) && tlast (s_axis i)).

(** The machine leaves [S_IDLE] for a reply or an announcement. *)
Definition starts_reply (i : arp_in) (s : arp_regs) : bool :=
  s_axis_tready_out i s && between_packets i s && reply_pending s.
Definition starts_garp (i : arp_in) (s : arp_regs) : bool :=
  s_axis_tready_out i s && between_packets i s && negb (reply_pending s) && garp_pending s.

(** [sending_target_mac(8k+7 downto 8k)] *)
Definition target_byte (s : arp_regs) : Z :=
  if active_arp_is_reply s then
    match pad_counter s with
    | 5 => slice (sending_target_mac s) 47 40
    | 4 => slice (sending_target_mac s) 39 32
    | 3 => slice (sending_target_mac s) 31 24
    | 2 => slice (sending_target_mac s) 23 16
    | 1 => slice (sending_target_mac s) 15 8
    | 0 => slice (sending_target_mac s) 7 0
    | _ => 0
    end
  else 0.

(** The [case] of the state machine: next state, [framed_tdata] and [framed_tlast], outside [S_IDLE]. *)
Definition arp_fsm (i : arp_in) (s : arp_regs) : arp_state_t * Z * bool :=
  let put st b := (st, b, false) in
  let mac := mac_address_in i in
  let ip := ip_address_in i in
  match arp_state s with
  | S_IDLE => (if starts_reply i s || starts_garp i s then S_HW_TYPE_1 else S_IDLE,
               tdata (s_axis i), tlast (s_axis i))
  | S_HW_TYPE_1 => put S_HW_TYPE_2 0
  | S_HW_TYPE_2 => put S_PROTOCOL_TYPE_1 0x01
  | S_PROTOCOL_TYPE_1 => put S_PROTOCOL_TYPE_2 0x08
  | S_PROTOCOL_TYPE_2 => put HW_LENGTH 0x00
  | HW_LENGTH => put PROTOCOL_LENGTH 0x06
  | PROTOCOL_LENGTH => put OPERATION_1 0x04
  | OPERATION_1 => put OPERATION_2 0x00
  | OPERATION_2 => put SHA_1 (if active_arp_is_reply s then 0x02 else 0x01)
  | SHA_1 => put SHA_2 (slice mac 47 40)
  | SHA_2 => put SHA_3 (slice mac 39 32)
  | SHA_3 => put SHA_4 (slice mac 31 24)
  | SHA_4 => put SHA_5 (slice mac 23 16)
  | SHA_5 => put SHA_6 (slice mac 15 8)
  | SHA_6 => put SPA_1 (slice mac 7 0)
  | SPA_1 => put SPA_2 (slice ip 31 24)
  | SPA_2 => put SPA_3 (slice ip 23 16)
  | SPA_3 => put SPA_4 (slice ip 15 8)
  | SPA_4 => put THA (slice ip 7 0)
  | THA => put (if pad_counter s =? 0 then TPA_1 else THA) (target_byte s)
  | TPA_1 => put TPA_2 (slice (sending_target_ip s) 31 24)
  | TPA_2 => put TPA_3 (slice (sending_target_ip s) 23 16)
  | TPA_3 => put TPA_4 (slice (sending_target_ip s) 15 8)
  | TPA_4 => put S_PAD (slice (sending_target_ip s) 7 0)
  | S_PAD => (if pad_counter s =? 0 then S_IDLE else S_PAD, 0, pad_counter s =? 0)
  end.

Definition pad_next (s : arp_regs) : Z :=
  match arp_state s with
  | SPA_4 => 5
  | TPA_4 => 18
  | _ => wrap 5 (pad_counter s - 1)
  end.

(** One rising edge. *)
Definition arp_clock (i : arp_in) (s : arp_regs) : arp_regs :=
  let rst := in_reset i in
  let rdy := output_tready i s in
  let idle := match arp_state s with S_IDLE => true | _ => false end in
  let v := tvalid (s_axis i) in
  let '(st, b, last) := arp_fsm i s in
  let rxv := tvalid (rx_axis i) in
  let rxb := tdata (rx_axis i) in
  let seen := rxv && request_seen (ip_address_in i) rxb (rx s) in
  {| garp_pending :=
       if rst || (idle && garp_pending s && negb (reply_pending s) &&
                  ((tlast (s_axis i) && v) || negb (in_data_packet s))) then false
       else if send_garp_in i && negb (garp_pending s) then true else garp_pending s;
     reply_pending :=
       if rst then false else if reply_started s then false else if seen then true else reply_pending s;
     reply_started := starts_reply i s;
     active_arp_is_reply :=
       if starts_reply i s then true else if starts_garp i s then false else active_arp_is_reply s;
     sending_target_mac :=
       if starts_reply i s then req_sha s else if starts_garp i s then 0 else sending_target_mac s;
     sending_target_ip :=
       if starts_reply i s then req_spa s else if starts_garp i s then ip_address_in i else sending_target_ip s;
     in_data_packet :=
       if rst then false
       else if v && rdy && tlast (s_axis i) then false
       else if v && rdy && negb (in_data_packet s) then true else in_data_packet s;
     arp_state := if rst then S_IDLE else if rdy then st else arp_state s;
     pad_counter := if rdy then pad_next s else pad_counter s;
     framed :=
       if rst then no_axis
       else if rdy then Axis b (if idle then v else true) last else framed s;
     framed_tuser := if rst then false else if rdy then negb idle else framed_tuser s;
     output := if rst then no_axis else if rdy then framed s else output s;
     output_tuser := if rst then false else if rdy then framed_tuser s else output_tuser s;
     rx := if rst then rx_new else if rxv then parse_byte (mac_address_in i) rxb (tlast (rx_axis i)) (rx s) else rx s;
     req_sha := if rst then 0 else if seen then rx_sha_shift (rx s) else req_sha s;
     req_spa := if rst then 0 else if seen then rx_spa_shift (rx s) else req_spa s;
     eth_dest_mac_out :=
       if rst then Z.ones 48
       else if negb idle || output_tuser s
       then (if active_arp_is_reply s then sending_target_mac s else Z.ones 48)
       else destination_mac_in i |}.

(** ** The stream *)

(** A transferred byte with its [tlast] and [tuser] (set for ARP). *)
Abbreviation ubeat := (beat * bool)%type.

Definition mac_bytes (m : Z) : list Z :=
  [slice m 47 40; slice m 39 32; slice m 31 24; slice m 23 16; slice m 15 8; slice m 7 0].
Definition ip_bytes (ip : Z) : list Z := [slice ip 31 24; slice ip 23 16; slice ip 15 8; slice ip 7 0].

(** RFC 826 over Ethernet and IPv4; [None] is the announcement. *)
Definition arp_packet (mac ip : Z) (target : option (Z * Z)) : list Z :=
  [0x00; 0x01; 0x08; 0x00; 0x06; 0x04; 0x00] ++
  [match target with Some _ => 0x02 | None => 0x01 end] ++ mac_bytes mac ++ ip_bytes ip ++
  match target with Some (tm, tip) => mac_bytes tm ++ ip_bytes tip | None => replicate 6 0 ++ ip_bytes ip end ++
  replicate 19 0.

Definition user_beats (u : bool) (bs : list beat) : list ubeat := (fun bl => (bl, u)) <$> bs.
Definition ubeats (a : axis) (u : bool) : list ubeat := user_beats u (axis_beats a).

(** The byte taken by the framer on an edge. *)
Definition emitted (i : arp_in) (s : arp_regs) : list ubeat :=
  if m_tready i then ubeats (output s) (output_tuser s) else [].

(** What goes in: a byte of a passing packet is taken, an ARP packet starts. *)
Inductive arp_event := Pass (b : Z) (last : bool) | Send (target : option (Z * Z)).

Definition accepted (i : arp_in) (s : arp_regs) : list arp_event :=
  (if s_axis_tready_out i s && tvalid (s_axis i) then [Pass (tdata (s_axis i)) (tlast (s_axis i))] else []) ++
  (if starts_reply i s then [Send (Some (req_sha s, req_spa s))]
   else if starts_garp i s then [Send None] else []).

Fixpoint arp_run (ins : list arp_in) (s : arp_regs) : list arp_event * list ubeat * arp_regs :=
  match ins with
  | [] => ([], [], s)
  | i :: ins' =>
      let '(evs, out, s') := arp_run ins' (arp_clock i s) in
      (accepted i s ++ evs, emitted i s ++ out, s')
  end.

(** What [eth_dest_mac_out] shows the framer beside each byte it takes. *)
Definition offered_dest (i : arp_in) (s : arp_regs) : list Z :=
  if m_tready i && tvalid (output s) then [eth_dest_mac_out s] else [].
Fixpoint arp_dests (ins : list arp_in) (s : arp_regs) : list Z :=
  match ins with
  | [] => []
  | i :: ins' => offered_dest i s ++ arp_dests ins' (arp_clock i s)
  end.

Lemma arp_dests_app ins ins' s :
  arp_dests (ins ++ ins') s = arp_dests ins s ++ arp_dests ins' (arp_run ins s).2.
Proof.
  revert s. induction ins as [|i ins IH]; intros s; cbn [app arp_dests arp_run]; [done|].
  rewrite IH. destruct (arp_run ins (arp_clock i s)) as [[evs out] s1]. by rewrite app_assoc.
Qed.

Lemma arp_run_app ins ins' s :
  arp_run (ins ++ ins') s =
    let '(evs, out, s1) := arp_run ins s in
    let '(evs', out', s2) := arp_run ins' s1 in (evs ++ evs', out ++ out', s2).
Proof.
  revert s. induction ins as [|i ins IH]; intros s; cbn [app arp_run].
  - by destruct (arp_run ins' s) as [[evs' out'] s2].
  - rewrite IH. destruct (arp_run ins (arp_clock i s)) as [[evs out] s1].
    destruct (arp_run ins' s1) as [[evs' out'] s2]. by rewrite !app_assoc.
Qed.

(** No ARP packet within a packet; [open] says that one is under way. *)
Fixpoint whole_packets (open : bool) (evs : list arp_event) : Prop :=
  match evs with
  | [] => True
  | Pass _ last :: evs' => whole_packets (negb last) evs'
  | Send _ :: evs' => open = false /\ whole_packets false evs'
  end.

Definition event_open (open : bool) (e : arp_event) : bool :=
  match e with Pass _ last => negb last | Send _ => open end.

Lemma whole_packets_app open evs evs' :
  whole_packets open (evs ++ evs') <->
  whole_packets open evs /\ whole_packets (foldl event_open open evs) evs'.
Proof.
  revert open. induction evs as [|[b last|t] evs IH]; intros open; cbn [app whole_packets foldl event_open].
  - tauto.
  - apply IH.
  - rewrite IH. split; [intros (-> & ? & ?)|intros [[-> ?] ?]]; done.
Qed.

Section Stream.
Context (mac ip : Z).

Definition event_beats (e : arp_event) : list ubeat :=
  match e with
  | Pass b last => [((b, last), false)]
  | Send t => user_beats true (last_beats (arp_packet mac ip t))
  end.
Definition arp_stream (evs : list arp_event) : list ubeat := concat (event_beats <$> evs).

Definition arp_target (s : arp_regs) : option (Z * Z) :=
  if active_arp_is_reply s then Some (sending_target_mac s, sending_target_ip s) else None.

(** The bytes of the packet under way already put into [framed]. *)
Definition arp_index (s : arp_regs) : option nat :=
  match arp_state s with
  | S_IDLE => None
  | S_HW_TYPE_1 => Some 0%nat | S_HW_TYPE_2 => Some 1%nat
  | S_PROTOCOL_TYPE_1 => Some 2%nat | S_PROTOCOL_TYPE_2 => Some 3%nat
  | HW_LENGTH => Some 4%nat | PROTOCOL_LENGTH => Some 5%nat
  | OPERATION_1 => Some 6%nat | OPERATION_2 => Some 7%nat
  | SHA_1 => Some 8%nat | SHA_2 => Some 9%nat | SHA_3 => Some 10%nat
  | SHA_4 => Some 11%nat | SHA_5 => Some 12%nat | SHA_6 => Some 13%nat
  | SPA_1 => Some 14%nat | SPA_2 => Some 15%nat | SPA_3 => Some 16%nat | SPA_4 => Some 17%nat
  | THA => Some (23 - Z.to_nat (pad_counter s))%nat
  | TPA_1 => Some 24%nat | TPA_2 => Some 25%nat | TPA_3 => Some 26%nat | TPA_4 => Some 27%nat
  | S_PAD => Some (46 - Z.to_nat (pad_counter s))%nat
  end.

Definition pad_ok (s : arp_regs) : Prop :=
  match arp_state s with
  | THA => 0 <= pad_counter s <= 5
  | S_PAD => 0 <= pad_counter s <= 18
  | _ => True
  end.

Definition arp_rest (s : arp_regs) : list ubeat :=
  match arp_index s with
  | Some k => user_beats true (last_beats (drop k (arp_packet mac ip (arp_target s))))
  | None => []
  end.

(** On the way out. *)
Definition pending (s : arp_regs) : list ubeat :=
  ubeats (output s) (output_tuser s) ++ ubeats (framed s) (framed_tuser s) ++ arp_rest s.

(** An announcement carries this station's address. *)
Definition target_ok (s : arp_regs) : Prop :=
  match arp_state s with
  | S_IDLE => True
  | _ => active_arp_is_reply s = false -> sending_target_ip s = ip
  end.

Definition arp_inv (s : arp_regs) : Prop := pad_ok s /\ target_ok s.

Definition steady (i : arp_in) : Prop :=
  in_reset i = false /\ mac_address_in i = mac /\ ip_address_in i = ip.

Lemma arp_packet_length t : length (arp_packet mac ip t) = 47%nat.
Proof. by destruct t as [[]|]. Qed.

Lemma arp_emitted_ready i s :
  output_tready i s = true -> emitted i s = ubeats (output s) (output_tuser s).
Proof.
  unfold output_tready, emitted, ubeats, axis_beats. destruct (m_tready i); [done|].
  destruct (tvalid (output s)); done.
Qed.

Lemma arp_emitted_held i s : output_tready i s = false -> emitted i s = [].
Proof. unfold output_tready, emitted. by destruct (m_tready i). Qed.

Lemma arp_accepted_held i s : output_tready i s = false -> accepted i s = [].
Proof.
  intros H. unfold accepted, starts_reply, starts_garp, s_axis_tready_out. rewrite H. by destruct (arp_state s).
Qed.

Lemma starts_busy i s :
  arp_state s <> S_IDLE -> starts_reply i s = false /\ starts_garp i s = false /\ accepted i s = [].
Proof.
  intros H. unfold accepted, starts_reply, starts_garp, s_axis_tready_out. by destruct (arp_state s).
Qed.

(** The byte put out by a state other than [S_IDLE], and the state after it. *)
Lemma fsm_put i s :
  steady i -> arp_inv s -> arp_state s <> S_IDLE -> output_tready i s = true ->
  exists k b rest, arp_index s = Some k /\ drop k (arp_packet mac ip (arp_target s)) = b :: rest /\
    (arp_fsm i s).1.2 = b /\ (arp_fsm i s).2 = (match rest with [] => true | _ => false end) /\
    match rest with
    | [] => (arp_fsm i s).1.1 = S_IDLE
    | _ => (arp_fsm i s).1.1 <> S_IDLE /\ arp_index (arp_clock i s) = Some (S k)
    end /\ pad_ok (arp_clock i s).
Proof.
  intros (Hr & Hmac & Hip) [Hpad Htgt] Hst Hrdy.
  unfold arp_index, pad_ok, target_ok, arp_target, arp_clock, arp_fsm, target_byte, pad_next in *.
  rewrite Hr, Hrdy, Hmac, Hip. clear Hr Hrdy Hmac Hip.
  destruct s as [gp rp rs [] stm sti idp st pc fr fu ou ouu rxs rqs rqp ed]; cbn [arp_state pad_counter
    active_arp_is_reply sending_target_mac sending_target_ip] in *.
  all: assert (Hpc : match st with THA => exists n, (n <= 5)%nat /\ pc = Z.of_nat n
                      | S_PAD => exists n, (n <= 18)%nat /\ pc = Z.of_nat n | _ => True end)
    by (destruct st; try done; exists (Z.to_nat pc); lia); clear Hpad.
  all: destruct st; try done; try specialize (Htgt eq_refl); try subst sti;
    try (do 3 eexists; (split; [reflexivity|]); (split; [reflexivity|]); by repeat split);
    destruct Hpc as (n & Hn & ->);
    do 19 (destruct n as [|n];
      [first [exfalso; clear -Hn; lia|do 3 eexists; (split; [reflexivity|]); (split; [reflexivity|]);
       repeat split; try done; vm_compute; discriminate]|]); lia.
Qed.

Lemma arp_clock_held i s :
  in_reset i = false -> output_tready i s = false ->
  let s' := arp_clock i s in
  arp_state s' = arp_state s /\ pad_counter s' = pad_counter s /\ arp_target s' = arp_target s /\
  active_arp_is_reply s' = active_arp_is_reply s /\ sending_target_ip s' = sending_target_ip s /\
  framed s' = framed s /\ framed_tuser s' = framed_tuser s /\ output s' = output s /\
  output_tuser s' = output_tuser s.
Proof.
  intros Hr Hrdy. assert (starts_reply i s = false /\ starts_garp i s = false) as [E1 E2].
  { unfold starts_reply, starts_garp, s_axis_tready_out. rewrite Hrdy. by destruct (arp_state s). }
  unfold arp_target, arp_clock. destruct (arp_fsm i s) as [[st b] last].
  cbn [arp_state pad_counter active_arp_is_reply sending_target_mac sending_target_ip framed framed_tuser
    output output_tuser]. rewrite Hr, Hrdy, E1, E2. done.
Qed.

Lemma arp_edge_held i s :
  steady i -> arp_inv s -> output_tready i s = false ->
  emitted i s ++ pending (arp_clock i s) = pending s ++ arp_stream (accepted i s) /\ arp_inv (arp_clock i s).
Proof.
  intros (Hr & _) Hinv Hrdy. destruct (arp_clock_held i s Hr Hrdy) as (E1 & E2 & E3 & E4 & E5 & E6 & E7 & E8 & E9).
  rewrite arp_emitted_held, arp_accepted_held by done. unfold arp_stream, pending, arp_rest, arp_index, arp_inv, pad_ok,
    target_ok in *. rewrite E1, E2, E3, E4, E5, E6, E7, E8, E9. cbn [fmap list_fmap concat app].
  by rewrite app_nil_r.
Qed.

(** [arp_clock] on a ready edge, for the signals of the stream. *)
Lemma clock_put i s :
  in_reset i = false -> output_tready i s = true -> arp_state s <> S_IDLE ->
  let s' := arp_clock i s in
  arp_state s' = (arp_fsm i s).1.1 /\ arp_target s' = arp_target s /\
  active_arp_is_reply s' = active_arp_is_reply s /\ sending_target_ip s' = sending_target_ip s /\
  framed s' = Axis (arp_fsm i s).1.2 true (arp_fsm i s).2 /\ framed_tuser s' = true /\
  output s' = framed s /\ output_tuser s' = framed_tuser s.
Proof.
  intros Hr Hrdy Hst. destruct (starts_busy i s Hst) as (E1 & E2 & _).
  unfold arp_target, arp_clock. destruct (arp_fsm i s) as [[st b] last].
  cbn [arp_state active_arp_is_reply sending_target_mac sending_target_ip framed framed_tuser
    output output_tuser fst snd]. rewrite Hr, Hrdy, E1, E2. by destruct (arp_state s).
Qed.

Lemma arp_edge_busy i s :
  steady i -> arp_inv s -> output_tready i s = true -> arp_state s <> S_IDLE ->
  emitted i s ++ pending (arp_clock i s) = pending s ++ arp_stream (accepted i s) /\ arp_inv (arp_clock i s).
Proof.
  intros Hi Hinv Hrdy Hst. pose proof Hi as (Hr & _).
  destruct (fsm_put i s Hi Hinv Hst Hrdy) as (k & b & rest & Hk & Hd & Eb & El & Hnext & Hpad).
  destruct (clock_put i s Hr Hrdy Hst) as (E1 & E3 & E4 & E5 & E6 & E7 & E8 & E9).
  destruct (starts_busy i s Hst) as (_ & _ & ->). destruct Hinv as [_ Htgt]. split.
  - rewrite arp_emitted_ready by done. unfold arp_stream, pending, arp_rest. cbn [fmap list_fmap concat].
    rewrite app_nil_r, Hk, Hd, E3, E6, E7, E8, E9, Eb, El, last_beats_cons. f_equal. f_equal.
    cbn [user_beats fmap list_fmap ubeats]. unfold ubeats. cbn [axis_beats tvalid tdata tlast user_beats fmap list_fmap app].
    f_equal. destruct rest as [|b' rest].
    + unfold arp_index. by rewrite E1, Hnext.
    + destruct Hnext as [_ ->]. replace (S k) with (k + 1)%nat by lia. by rewrite <- drop_drop, Hd.
  - split; [done|]. unfold target_ok in *. rewrite E1, E4, E5.
    destruct (arp_state s) eqn:E; try done; by destruct ((arp_fsm i s).1.1).
Qed.

Lemma arp_edge_idle i s :
  steady i -> output_tready i s = true -> arp_state s = S_IDLE ->
  emitted i s ++ pending (arp_clock i s) = pending s ++ arp_stream (accepted i s) /\ arp_inv (arp_clock i s).
Proof.
  intros (Hr & _ & Hip) Hrdy Hst. rewrite arp_emitted_ready by done.
  assert (Hacc : accepted i s =
    (if tvalid (s_axis i) then [Pass (tdata (s_axis i)) (tlast (s_axis i))] else []) ++
    (if starts_reply i s then [Send (Some (req_sha s, req_spa s))]
     else if starts_garp i s then [Send None] else [])).
  { unfold accepted, s_axis_tready_out. by rewrite Hst, Hrdy. }
  assert (Hrest : arp_rest s = []) by (unfold arp_rest, arp_index; by rewrite Hst).
  rewrite Hacc. unfold pending, arp_stream. rewrite Hrest.
  rewrite fmap_app, concat_app, app_nil_r, <- !app_assoc.
  assert (Hpass : ubeats (s_axis i) false =
    concat (event_beats <$> (if tvalid (s_axis i) then [Pass (tdata (s_axis i)) (tlast (s_axis i))] else []))).
  { unfold ubeats, axis_beats. by destruct (tvalid (s_axis i)). }
  rewrite <- Hpass. unfold arp_clock, arp_fsm, arp_inv, arp_rest, arp_index, arp_target, pad_ok, target_ok.
  rewrite Hst, Hr, Hrdy. cbn [arp_state pad_counter active_arp_is_reply sending_target_mac sending_target_ip framed
    framed_tuser output output_tuser fst snd negb].
  assert (Ha : Axis (tdata (s_axis i)) (tvalid (s_axis i)) (tlast (s_axis i)) = s_axis i) by by destruct (s_axis i).
  rewrite Ha. destruct (starts_reply i s); [|destruct (starts_garp i s)]; cbn [orb];
    (split; [do 2 f_equal|]); done.
Qed.

(** One edge, whatever the state and the inputs. *)
Lemma arp_edge i s :
  steady i -> arp_inv s ->
  emitted i s ++ pending (arp_clock i s) = pending s ++ arp_stream (accepted i s) /\ arp_inv (arp_clock i s).
Proof.
  intros Hi Hinv. destruct (output_tready i s) eqn:Hrdy; [|by apply arp_edge_held].
  destruct (arp_state s) eqn:E; [by apply arp_edge_idle|..]; apply arp_edge_busy; by rewrite ?E.
Qed.

Lemma arp_stream_app evs evs' : arp_stream (evs ++ evs') = arp_stream evs ++ arp_stream evs'.
Proof. unfold arp_stream. by rewrite fmap_app, concat_app. Qed.

Lemma arp_run_stream ins s :
  Forall steady ins -> arp_inv s ->
  let '(evs, out, s') := arp_run ins s in
  out ++ pending s' = pending s ++ arp_stream evs /\ arp_inv s'.
Proof.
  intros Hins. revert s. induction Hins as [|i ins Hi _ IH]; intros s Hinv; cbn [arp_run].
  - by rewrite app_nil_r.
  - destruct (arp_edge i s Hi Hinv) as [E1 Hinv']. specialize (IH _ Hinv').
    destruct (arp_run ins (arp_clock i s)) as [[evs out] s']. destruct IH as [E2 Hinv2]. split; [|done].
    by rewrite <- app_assoc, E2, app_assoc, E1, arp_stream_app, <- app_assoc.
Qed.

(** *** Packets stay whole *)
Definition open_inv (open : bool) (s : arp_regs) : Prop :=
  open = true -> arp_state s = S_IDLE /\ in_data_packet s = true.

Lemma arp_edge_whole i s open :
  in_reset i = false -> open_inv open s ->
  whole_packets open (accepted i s) /\ open_inv (foldl event_open open (accepted i s)) (arp_clock i s).
Proof.
  intros Hr Hopen. unfold open_inv in *. destruct (output_tready i s) eqn:Hrdy.
  2: { rewrite arp_accepted_held by done. split; [done|]. cbn [foldl]. intros ->. destruct (Hopen eq_refl) as [H1 H2].
       unfold arp_clock. destruct (arp_fsm i s) as [[st b] last]. cbn [arp_state in_data_packet].
       by rewrite Hr, Hrdy, H1, H2, !andb_false_r. }
  destruct (decide (arp_state s = S_IDLE)) as [E|E].
  2: { destruct (starts_busy i s E) as (_ & _ & ->). split; [done|]. cbn [foldl]. intros ->.
       by destruct (Hopen eq_refl). }
  unfold accepted, starts_reply, starts_garp, between_packets, s_axis_tready_out, arp_clock, arp_fsm,
    starts_reply, starts_garp, between_packets, s_axis_tready_out. rewrite E, Hrdy, Hr.
  cbn [arp_state in_data_packet andb fst snd].
  destruct (s_axis i) as [b [] []]; cbn [tvalid tlast negb andb orb app whole_packets event_open foldl].
  - destruct (reply_pending s), (garp_pending s); cbn; by repeat split.
  - repeat split. by destruct (in_data_packet s).
  - destruct (in_data_packet s) eqn:Ed; cbn [negb andb orb whole_packets foldl].
    + split; [done|]. intros ->. by destruct (Hopen eq_refl).
    + assert (open = false) as ->.
      { destruct open; [|done]. by destruct (Hopen eq_refl). }
      destruct (reply_pending s), (garp_pending s); cbn; by repeat split.
  - destruct (in_data_packet s) eqn:Ed; cbn [negb andb orb whole_packets foldl].
    + split; [done|]. intros ->. by destruct (Hopen eq_refl).
    + assert (open = false) as ->.
      { destruct open; [|done]. by destruct (Hopen eq_refl). }
      destruct (reply_pending s), (garp_pending s); cbn; by repeat split.
Qed.

Lemma arp_run_whole ins s open :
  Forall steady ins -> open_inv open s -> whole_packets open (arp_run ins s).1.1.
Proof.
  intros Hins. revert s open. induction Hins as [|i ins [Hr _] _ IH]; intros s open Hopen; cbn [arp_run]; [done|].
  destruct (arp_edge_whole i s open Hr Hopen) as [H1 H2]. specialize (IH _ _ H2).
  destruct (arp_run ins (arp_clock i s)) as [[evs out] s']. cbn [fst] in *. by apply whole_packets_app.
Qed.
End Stream.

(** ** The parser on whole frames *)

(** The requests seen in a stream: the sender's addresses. *)
Fixpoint parse (mac ip : Z) (bs : list beat) (r : arp_rx) : list (Z * Z) * arp_rx :=
  match bs with
  | [] => ([], r)
  | (b, last) :: bs' =>
      let '(qs, r') := parse mac ip bs' (parse_byte mac b last r) in
      ((if request_seen ip b r then [(rx_sha_shift r, rx_spa_shift r)] else []) ++ qs, r')
  end.

(** A request for the station: each destination byte is the station's or
    that of the broadcast address. *)
Definition dest_ok (mac : Z) (f : list Z) : bool :=
  forallb (fun bm : Z * Z => (bm.1 =? bm.2) || (bm.1 =? 0xff)) (zip (take 6 f) (mac_bytes mac)).
Definition request_fields : list Z := [0x08; 0x06; 0x00; 0x01; 0x08; 0x00; 0x06; 0x04; 0x00; 0x01].
Definition is_request (mac ip : Z) (f : list Z) : bool :=
  (42 <=? Z.of_nat (length f)) && dest_ok mac f && bool_decide (take 10 (drop 12 f) = request_fields) &&
  (UdpIpDeframer.be_word (take 4 (drop 38 f)) =? ip).
Definition request_sender (f : list Z) : Z * Z :=
  (EthernetDeframer.mac_of (take 6 (drop 22 f)), UdpIpDeframer.be_word (take 4 (drop 28 f))).

Section Parse.
Context (mac ip : Z).

Lemma parse_app bs bs' r :
  parse mac ip (bs ++ bs') r =
    let '(qs, r1) := parse mac ip bs r in let '(qs', r2) := parse mac ip bs' r1 in (qs ++ qs', r2).
Proof.
  revert r. induction bs as [|[b last] bs IH]; intros r; cbn [app parse].
  - by destruct (parse mac ip bs' r).
  - rewrite IH. destruct (parse mac ip bs _) as [qs r1]. destruct (parse mac ip bs' r1). by rewrite app_assoc.
Qed.

Lemma request_seen_cnt b r : rx_byte_cnt r <> 41 -> request_seen ip b r = false.
Proof. intros H. unfold request_seen. by rewrite (proj2 (Z.eqb_neq _ _) H). Qed.

(** Away from byte 41 nothing is seen. *)
Lemma parse_quiet l r :
  0 <= rx_byte_cnt r -> rx_byte_cnt r + Z.of_nat (length l) <= 127 ->
  rx_byte_cnt r + Z.of_nat (length l) <= 41 \/ 41 < rx_byte_cnt r ->
  exists r', parse mac ip (data_beats l) r = ([], r') /\ rx_byte_cnt r' = rx_byte_cnt r + Z.of_nat (length l).
Proof.
  revert r. induction l as [|b l IH]; intros r H0 Hmax H41; [exists r; cbn; split; [done|lia]|].
  cbn [length] in *. change (data_beats (b :: l)) with ((b, false) :: data_beats l). cbn [parse].
  rewrite request_seen_cnt by lia. set (r1 := parse_byte mac b false r).
  assert (E : rx_byte_cnt r1 = rx_byte_cnt r + 1).
  { unfold r1, parse_byte. cbn [rx_byte_cnt]. apply wrap_small. unfold is_u. lia. }
  destruct (IH r1) as (r' & -> & E'); [lia..|]. exists r'. split; [done|]. lia.
Qed.

(** The end of a frame, past byte 41 or before it. *)
Lemma parse_tail l r :
  l <> [] -> 0 <= rx_byte_cnt r -> rx_byte_cnt r + Z.of_nat (length l) <= 128 ->
  rx_byte_cnt r + Z.of_nat (length l) <= 41 \/ 41 < rx_byte_cnt r ->
  exists r', parse mac ip (last_beats l) r = ([], r') /\ rx_byte_cnt r' = 0.
Proof.
  intros Hne H0 Hmax H41. destruct (exists_last Hne) as (l' & b & ->). rewrite length_app in *. cbn [length] in *.
  rewrite last_beats_snoc, parse_app. destruct (parse_quiet l' r) as (r1 & -> & E); [lia..|]. cbn [parse].
  rewrite request_seen_cnt by lia. eexists. by split.
Qed.

Lemma parse_state bs r : (parse mac ip bs r).2 = foldl (fun r bl => parse_byte mac bl.1 bl.2 r) r bs.
Proof.
  revert r. induction bs as [|[b last] bs IH]; intros r; cbn [parse foldl fst snd]; [done|].
  rewrite <- IH. by destruct (parse mac ip bs _).
Qed.

(** The registers with 41 bytes in. *)
Lemma parse_41 r b0 b1 b2 b3 b4 b5 b6 b7 b8 b9 b10 b11 b12 b13 b14 b15 b16 b17 b18 b19 b20 b21
    b22 b23 b24 b25 b26 b27 b28 b29 b30 b31 b32 b33 b34 b35 b36 b37 b38 b39 b40 :
  rx_byte_cnt r = 0 ->
  let h := [b0; b1; b2; b3; b4; b5; b6; b7; b8; b9; b10; b11; b12; b13; b14; b15; b16; b17; b18; b19; b20; b21;
    b22; b23; b24; b25; b26; b27; b28; b29; b30; b31; b32; b33; b34; b35; b36; b37; b38; b39; b40] in
  (parse mac ip (data_beats h) r).2 =
    ArpRx 41 (dest_ok mac h) ((b12 =? 0x08) && (b13 =? 0x06))
      ((b14 =? 0x00) && (b15 =? 0x01) && (b16 =? 0x08) && (b17 =? 0x00) && (b18 =? 0x06) && (b19 =? 0x04))
      ((b20 =? 0x00) && (b21 =? 0x01))
      (foldl EthernetDeframer.mac_shift (rx_sha_shift r) [b22; b23; b24; b25; b26; b27])
      (foldl UdpIpDeframer.address_shift (rx_spa_shift r) [b28; b29; b30; b31])
      (foldl UdpIpDeframer.address_shift (rx_tpa_shift r) [b38; b39; b40]).
Proof.
  destruct r as [c d e h o sh sp tp]. intros Hc hd. cbn [rx_byte_cnt] in Hc. subst c.
  assert (Hd : dest_ok mac hd =
    ((b0 =? slice mac 47 40) || (b0 =? 0xff)) && ((b1 =? slice mac 39 32) || (b1 =? 0xff)) &&
    ((b2 =? slice mac 31 24) || (b2 =? 0xff)) && ((b3 =? slice mac 23 16) || (b3 =? 0xff)) &&
    ((b4 =? slice mac 15 8) || (b4 =? 0xff)) && ((b5 =? slice mac 7 0) || (b5 =? 0xff))).
  { unfold hd, dest_ok, mac_bytes. cbn [take zip_with zip forallb fst snd]. by rewrite andb_true_r, !andb_assoc. }
  rewrite Hd, parse_state. unfold hd. clear hd Hd.
  cbv -[Z.eqb slice EthernetDeframer.mac_shift UdpIpDeframer.address_shift]. reflexivity.
Qed.

Lemma fields_decide a0 a1 a2 a3 a4 a5 a6 a7 a8 a9 :
  bool_decide ([a0; a1; a2; a3; a4; a5; a6; a7; a8; a9] = request_fields) =
    ((a0 =? 0x08) && (a1 =? 0x06)) &&
    ((a2 =? 0x00) && (a3 =? 0x01) && (a4 =? 0x08) && (a5 =? 0x00) && (a6 =? 0x06) && (a7 =? 0x04)) &&
    ((a8 =? 0x00) && (a9 =? 0x01)).
Proof.
  apply eq_true_iff_eq. rewrite bool_decide_eq_true, !andb_true_iff, !Z.eqb_eq. unfold request_fields. split.
  - intros [=]. by subst.
  - intros. destruct_and?. by subst.
Qed.

(** What byte 41 decides. *)
Lemma request_seen_41 b0 b1 b2 b3 b4 b5 b6 b7 b8 b9 b10 b11 b12 b13 b14 b15 b16 b17 b18 b19 b20 b21
    b22 b23 b24 b25 b26 b27 b28 b29 b30 b31 b32 b33 b34 b35 b36 b37 b38 b39 b40 b rest sh sp x :
  let h := [b0; b1; b2; b3; b4; b5; b6; b7; b8; b9; b10; b11; b12; b13; b14; b15; b16; b17; b18; b19; b20; b21;
    b22; b23; b24; b25; b26; b27; b28; b29; b30; b31; b32; b33; b34; b35; b36; b37; b38; b39; b40] in
  request_seen ip b (ArpRx 41 (dest_ok mac h) ((b12 =? 0x08) && (b13 =? 0x06))
      ((b14 =? 0x00) && (b15 =? 0x01) && (b16 =? 0x08) && (b17 =? 0x00) && (b18 =? 0x06) && (b19 =? 0x04))
      ((b20 =? 0x00) && (b21 =? 0x01)) sh sp (foldl UdpIpDeframer.address_shift x [b38; b39; b40])) =
    is_request mac ip (h ++ b :: rest).
Proof.
  intros h. unfold is_request. rewrite (proj2 (Z.leb_le _ _)) by (rewrite length_app; cbn; lia).
  assert (E : foldl UdpIpDeframer.address_shift x [b38; b39; b40; b] = UdpIpDeframer.be_word [b38; b39; b40; b])
    by (by apply UdpIpDeframer.address_of_four).
  change (take 10 (drop 12 (h ++ b :: rest))) with [b12; b13; b14; b15; b16; b17; b18; b19; b20; b21].
  change (take 4 (drop 38 (h ++ b :: rest))) with [b38; b39; b40; b].
  change (dest_ok mac (h ++ b :: rest)) with (dest_ok mac h).
  rewrite fields_decide, <- E. unfold request_seen. cbn [rx_byte_cnt rx_dest_mac_match rx_ethertype_match
    rx_hw_proto_match rx_opcode_is_req rx_tpa_shift foldl]. rewrite Z.eqb_refl, !andb_true_l, <- !andb_assoc. done.
Qed.

Lemma parse_frame f r :
  rx_byte_cnt r = 0 -> f <> [] -> (length f <= 128)%nat -> Forall (is_u 8) f ->
  exists r', parse mac ip (last_beats f) r = (if is_request mac ip f then [request_sender f] else [], r') /\
    rx_byte_cnt r' = 0.
Proof.
  intros Hr Hne Hmax Hb. destruct (Nat.lt_ge_cases (length f) 42) as [Hlen|Hlen].
  { unfold is_request. rewrite (proj2 (Z.leb_gt _ _)) by lia. cbn [andb].
    apply parse_tail; [done|lia..]. }
  assert (Hb' : Forall (is_u 8) (take 6 (drop 22 f))) by (apply Forall_take; by apply Forall_drop).
  do 41 (destruct f as [|? f]; [cbn in Hlen; lia|]). destruct f as [|b rest]; [cbn in Hlen; lia|].
  match type of Hmax with context [length ?g] =>
    change g with (take 41 g ++ b :: rest) end.
  rewrite last_beats_app by done. rewrite parse_app. cbn [take].
  match goal with |- context [parse mac ip (data_beats ?h) r] =>
    destruct (parse_quiet h r) as (r1 & E & Ec); [rewrite Hr; cbn; lia..|];
    pose proof (parse_41 r _ _ _ _ _ _ _ _ _ _ _ _ _ _ _ _ _ _ _ _ _ _ _ _ _ _ _ _ _ _ _ _ _ _ _ _ _ _ _ _ _ Hr : (parse mac ip (data_beats h) r).2 = _) as E41
  end.
  rewrite E in *. cbn [snd] in E41. clear E Ec. rewrite last_beats_cons. cbn [parse].
  assert (Ec : rx_byte_cnt (parse_byte mac b (match rest with [] => true | _ => false end) r1) =
    match rest with [] => 0 | _ => 42 end) by (by subst r1; destruct rest).
  assert (Hrest : exists r', parse mac ip (last_beats rest)
      (parse_byte mac b (match rest with [] => true | _ => false end) r1) = ([], r') /\ rx_byte_cnt r' = 0).
  { destruct rest as [|b' rest]; [eexists; by split|].
    apply parse_tail; [done|rewrite Ec; cbn [length] in *; lia..]. }
  destruct Hrest as (r' & -> & Hr'). exists r'. split; [|done]. f_equal. subst r1. rewrite app_nil_l, app_nil_r.
  rewrite request_seen_41 with (rest := rest). unfold request_sender. cbn [rx_sha_shift rx_spa_shift].
  rewrite EthernetDeframer.mac_of_six, UdpIpDeframer.address_of_four by done. done.
Qed.
End Parse.

(** ** Answers *)
Definition from_reset (i0 : arp_in) (s0 : arp_regs) : arp_regs := arp_clock i0 s0.

Lemma arp_reset_inv mac ip i0 s0 :
  in_reset i0 = true ->
  arp_inv ip (from_reset i0 s0) /\ pending mac ip (from_reset i0 s0) = [] /\ arp_state (from_reset i0 s0) = S_IDLE.
Proof.
  intros Hr. unfold from_reset, arp_inv, pad_ok, target_ok, pending, arp_rest, arp_index, arp_clock.
  destruct (arp_fsm i0 s0) as [[st b] last]. cbn [arp_state framed framed_tuser output output_tuser].
  by rewrite Hr.
Qed.

(** The machine has answered when this many ready edges have passed. *)
Definition answer_rank (s : arp_regs) : Z :=
  match arp_index s with
  | Some k => 47 - Z.of_nat k
  | None => if reply_pending s then 48 else 0
  end.

(** A request taken but not yet started on. *)
Definition owed (s : arp_regs) : list (Z * Z) :=
  match arp_state s with
  | S_IDLE => if reply_pending s then [(req_sha s, req_spa s)] else []
  | _ => []
  end.

(** Frames come at the earliest 60 bytes after each other. *)
Fixpoint paced (cnt : Z) (bs : list beat) : Prop :=
  match bs with
  | [] => True
  | (_, last) :: bs' => if last then 59 <= cnt <= 127 /\ paced 0 bs' else cnt < 127 /\ paced (cnt + 1) bs'
  end.

Lemma paced_frame f cnt bs :
  f <> [] -> 60 <= cnt + Z.of_nat (length f) <= 128 -> paced 0 bs -> paced cnt (last_beats f ++ bs).
Proof.
  revert cnt. induction f as [|b f IH]; intros cnt Hne Hlen Hbs; [done|]. rewrite last_beats_cons. cbn [app paced length] in *.
  destruct f as [|b' f]; cbn [length] in *; (split; [lia|]); [done|]. apply IH; [done|cbn [length]; lia|done].
Qed.

Lemma paced_frames fs :
  Forall (fun f => (60 <= length f <= 128)%nat) fs -> paced 0 (concat (last_beats <$> fs)).
Proof.
  induction 1 as [|f fs Hf _ IH]; [done|]. cbn [fmap list_fmap concat]. apply paced_frame; [by destruct f; cbn in Hf; [lia|]|lia|done].
Qed.

Definition rx_beats (ins : list arp_in) : list beat := concat ((fun i => axis_beats (rx_axis i)) <$> ins).

Section Answers.
Context (mac ip : Z).

(** No packets to pass on, no announcements, and the framer is ready. *)
Definition answering (i : arp_in) : Prop :=
  steady mac ip i /\ send_garp_in i = false /\ tvalid (s_axis i) = false /\ m_tready i = true.

Definition answer_inv (s : arp_regs) : Prop :=
  arp_inv ip s /\ garp_pending s = false /\ in_data_packet s = false /\
  (reply_pending s = true -> if reply_started s then arp_state s = S_HW_TYPE_1 else arp_state s = S_IDLE) /\
  (reply_started s = true -> arp_state s = S_HW_TYPE_1 \/ rx_byte_cnt (rx s) = 0) /\
  let cnt := rx_byte_cnt (rx s) in
  0 <= cnt /\ answer_rank s <= (if cnt <=? 41 then 41 - cnt else Z.max 0 (90 - cnt)).

Lemma answering_steady ins : Forall answering ins -> Forall (steady mac ip) ins.
Proof. intros H. eapply Forall_impl; [exact H|]. intros i Hi. apply Hi. Qed.

Lemma rank_busy s : arp_inv ip s -> arp_state s <> S_IDLE -> 0 < answer_rank s.
Proof.
  intros [Hpad _] Hst. unfold answer_rank, arp_index, pad_ok in *. by destruct (arp_state s); try done; lia.
Qed.

(** One edge without a frame's byte in the parser's way. *)
Lemma answer_edge i s :
  answering i -> answer_inv s ->
  let seen := tvalid (rx_axis i) && request_seen ip (tdata (rx_axis i)) (rx s) in
  let s' := arp_clock i s in
  accepted i s = (Send <$> (Some <$> owed s)) /\
  owed s' = (if seen then [(rx_sha_shift (rx s), rx_spa_shift (rx s))] else []) /\
  (seen = true -> owed s = []) /\
  answer_rank s' = (if seen then 48 else Z.max 0 (answer_rank s - 1)) /\
  garp_pending s' = false /\ in_data_packet s' = false /\
  (reply_pending s' = true -> if reply_started s' then arp_state s' = S_HW_TYPE_1 else arp_state s' = S_IDLE) /\
  (reply_started s' = true -> arp_state s' = S_HW_TYPE_1).
Proof.
  intros ((Hr & Hmac & Hip) & Hg & Hv & Hm) (Hinv & Hgp & Hidp & Hrp & Hrs & Hcnt & Hrank) seen s'.
  assert (Hrdy : output_tready i s = true) by (unfold output_tready; by rewrite Hm).
  assert (Hgarp : starts_garp i s = false) by (unfold starts_garp; by rewrite Hgp, andb_false_r).
  assert (Hseen : seen = true -> rx_byte_cnt (rx s) = 41).
  { unfold seen, request_seen. intros H. apply andb_true_iff in H as [_ H].
    do 5 apply andb_true_iff in H as [H _]. by apply Z.eqb_eq. }
  assert (Hrank0 : seen = true -> answer_rank s <= 0).
  { intros H. rewrite (Hseen H) in Hrank. exact Hrank. }
  destruct (decide (arp_state s = S_IDLE)) as [E|E].
  - assert (Hstart : starts_reply i s = reply_pending s).
    { unfold starts_reply, s_axis_tready_out, between_packets. by rewrite E, Hrdy, Hv, Hidp. }
    assert (Hr0 : answer_rank s = if reply_pending s then 48 else 0) by (unfold answer_rank, arp_index; by rewrite E).
    assert (Ho : owed s = if reply_pending s then [(req_sha s, req_spa s)] else []) by (unfold owed; by rewrite E).
    assert (Hrs' : reply_pending s = true -> reply_started s = false).
    { intros H. specialize (Hrp H). destruct (reply_started s); [by rewrite E in Hrp|done]. }
    rewrite Hr0, Ho in *. unfold accepted. rewrite Hstart, Hgarp, Hv, andb_false_r.
    unfold s', arp_clock, arp_fsm, owed, answer_rank, arp_index. rewrite E, Hr, Hrdy, Hstart, Hgarp, Hv, Hgp, Hidp, Hg, Hip.
    cbn [arp_state reply_pending reply_started garp_pending in_data_packet req_sha req_spa pad_counter andb orb negb fst snd].
    fold seen. destruct (reply_pending s) eqn:Ep.
    + rewrite (Hrs' eq_refl). assert (seen = false) as -> by (destruct seen; [specialize (Hrank0 eq_refl); lia|done]).
      cbn. repeat split; done.
    + assert (Hs : reply_started s = true -> seen = false).
      { intros H. destruct (Hrs H) as [H'|H']; [by rewrite E in H'|]. destruct seen; [|done]. specialize (Hseen eq_refl). lia. }
      destruct (reply_started s); [rewrite Hs by done; cbn; repeat split; done|].
      destruct seen; cbn; repeat split; done.
  - destruct (starts_busy i s E) as (Hst & _ & Hacc).
    assert (seen = false) as Es.
    { destruct seen; [|done]. specialize (Hrank0 eq_refl). pose proof (rank_busy s Hinv E). lia. }
    assert (Ho : owed s = []) by (unfold owed; by destruct (arp_state s)).
    rewrite Es, Ho, Hacc. destruct (fsm_put mac ip i s) as (k & b & rest & Hk & Hd & _ & _ & Hnext & _); [done..|].
    destruct (clock_put i s Hr Hrdy E) as (E1 & _). fold s' in E1, Hnext.
    assert (Hp' : reply_pending s' = (if reply_started s then false else reply_pending s)).
    { unfold s', arp_clock. destruct (arp_fsm i s) as [[st' b'] last']. cbn [reply_pending].
      rewrite Hr, Hip. fold seen. by rewrite Es. }
    assert (Hp0 : reply_pending s' = false).
    { rewrite Hp'. destruct (reply_pending s) eqn:Ep; [|by destruct (reply_started s)].
      specialize (Hrp eq_refl). by destruct (reply_started s). }
    assert (Hs0 : reply_started s' = false).
    { unfold s', arp_clock. by destruct (arp_fsm i s) as [[st' b'] last']. }
    rewrite Hs0, Hp0.
    assert (Hlen : Z.of_nat k + Z.of_nat (length (b :: rest)) = 47).
    { pose proof (f_equal length Hd) as Hl. rewrite length_drop, arp_packet_length in Hl. cbn [length] in *. lia. }
    repeat split; try done.
    + unfold owed. rewrite Hp0. by destruct (arp_state s').
    + assert (answer_rank s = 47 - Z.of_nat k) as -> by (unfold answer_rank; by rewrite Hk).
      unfold answer_rank. cbn [length] in Hlen. destruct rest as [|b' rest].
      * unfold arp_index. rewrite E1, Hnext, Hp0. cbn [length] in *. lia.
      * destruct Hnext as [_ ->]. cbn [length] in *. lia.
    + unfold s', arp_clock. destruct (arp_fsm i s) as [[st' b'] last']. cbn [garp_pending].
      rewrite Hr, Hg, Hgp. by destruct (arp_state s).
    + unfold s', arp_clock. destruct (arp_fsm i s) as [[st' b'] last']. cbn [in_data_packet]. by rewrite Hr, Hv, Hidp.
Qed.

(** The parser's counter and the machine's rank move together. *)
Lemma answer_edge_inv i s bs :
  answering i -> answer_inv s -> paced (rx_byte_cnt (rx s)) (axis_beats (rx_axis i) ++ bs) ->
  answer_inv (arp_clock i s) /\ paced (rx_byte_cnt (rx (arp_clock i s))) bs.
Proof.
  intros Hi Hinv Hpaced. pose proof Hi as ((Hr & Hmac & Hip) & _).
  destruct (answer_edge i s Hi Hinv) as (_ & _ & _ & Erank & Hgp & Hidp & Hrp & Hrs).
  destruct (arp_edge mac ip i s) as [_ Harp]; [apply Hi|apply Hinv|].
  destruct Hinv as (_ & _ & _ & _ & _ & Hcnt & Hrank).
  assert (Hrx : rx (arp_clock i s) = if tvalid (rx_axis i)
    then parse_byte mac (tdata (rx_axis i)) (tlast (rx_axis i)) (rx s) else rx s).
  { unfold arp_clock. destruct (arp_fsm i s) as [[st b] last]. cbn [rx]. by rewrite Hr, Hmac. }
  set (seen := tvalid (rx_axis i) && _) in *.
  assert (Hseen : seen = true -> rx_byte_cnt (rx s) = 41 /\ tvalid (rx_axis i) = true).
  { unfold seen, request_seen. intros H. apply andb_true_iff in H as [H0 H].
    do 5 apply andb_true_iff in H as [H _]. split; [by apply Z.eqb_eq|done]. }
  assert (Hgoal : 0 <= rx_byte_cnt (rx (arp_clock i s)) /\
    answer_rank (arp_clock i s) <=
      (if rx_byte_cnt (rx (arp_clock i s)) <=? 41 then 41 - rx_byte_cnt (rx (arp_clock i s))
       else Z.max 0 (90 - rx_byte_cnt (rx (arp_clock i s)))) /\
    paced (rx_byte_cnt (rx (arp_clock i s))) bs).
  { rewrite Erank, Hrx. destruct (rx_axis i) as [b v last]. unfold axis_beats in Hpaced.
    cbn [tvalid tdata tlast] in *. destruct v.
    - cbn [app paced parse_byte rx_byte_cnt] in *. destruct last; destruct Hpaced as [Hpos Hp].
      + split; [lia|]. split; [|done]. change (0 <=? 41) with true. cbn [andb].
        destruct seen; [destruct (Hseen eq_refl); lia|].
        destruct (Z.leb_spec (rx_byte_cnt (rx s)) 41); lia.
      + rewrite wrap_small by (unfold is_u; lia). split; [lia|]. split; [|done].
        destruct seen; [destruct (Hseen eq_refl) as [-> _]; by vm_compute|].
        destruct (Z.leb_spec (rx_byte_cnt (rx s)) 41), (Z.leb_spec (rx_byte_cnt (rx s) + 1) 41); lia.
    - cbn [app] in Hpaced. split; [done|]. split; [|done].
      destruct seen; [by destruct (Hseen eq_refl)|].
      destruct (Z.leb_spec (rx_byte_cnt (rx s)) 41); lia. }
  destruct Hgoal as (H1 & H2 & H3). split; [|done].
  unfold answer_inv. cbn zeta. split_and!; try done. intros H. left. by apply Hrs.
Qed.

(** What the parser sees on the edge is owed after it. *)
Lemma answer_edge_parse i s :
  answering i -> answer_inv s ->
  rx (arp_clock i s) = (parse mac ip (axis_beats (rx_axis i)) (rx s)).2 /\
  (parse mac ip (axis_beats (rx_axis i)) (rx s)).1 = owed (arp_clock i s).
Proof.
  intros Hi Hinv. pose proof Hi as ((Hr & Hmac & Hip) & _). destruct (answer_edge i s Hi Hinv) as (_ & Ho & _). split.
  - unfold arp_clock. destruct (arp_fsm i s) as [[st b] last]. cbn [rx]. rewrite Hr, Hmac.
    unfold axis_beats. by destruct (tvalid (rx_axis i)).
  - rewrite Ho. unfold axis_beats. destruct (tvalid (rx_axis i)); [|done]. cbn [parse fst andb]. apply app_nil_r.
Qed.

Lemma answer_run ins s :
  Forall answering ins -> answer_inv s -> paced (rx_byte_cnt (rx s)) (rx_beats ins) ->
  let '(evs, _, s') := arp_run ins s in
  Send <$> (Some <$> (owed s ++ (parse mac ip (rx_beats ins) (rx s)).1)) = evs ++ (Send <$> (Some <$> owed s')) /\
  answer_inv s'.
Proof.
  intros Hins. revert s. induction Hins as [|i ins Hi _ IH]; intros s Hinv Hp; cbn [arp_run].
  - by rewrite app_nil_r.
  - change (rx_beats (i :: ins)) with (axis_beats (rx_axis i) ++ rx_beats ins) in *.
    destruct (answer_edge_inv i s _ Hi Hinv Hp) as [Hinv' Hp']. specialize (IH _ Hinv' Hp').
    destruct (answer_edge i s Hi Hinv) as (-> & _). destruct (answer_edge_parse i s Hi Hinv) as [Hrx Hq].
    destruct (arp_run ins (arp_clock i s)) as [[evs out] s']. destruct IH as [E Hinv2]. split; [|done].
    rewrite parse_app. destruct (parse mac ip (axis_beats (rx_axis i)) (rx s)) as [qs r1]. cbn [fst snd] in *. subst qs r1.
    destruct (parse mac ip (rx_beats ins) (rx (arp_clock i s))) as [qs' r2]. cbn [fst] in *.
    by rewrite (fmap_app Some), fmap_app, E, app_assoc.
Qed.

Lemma parse_frames fs r :
  rx_byte_cnt r = 0 -> Forall (fun f => (60 <= length f <= 128)%nat /\ Forall (is_u 8) f) fs ->
  (parse mac ip (concat (last_beats <$> fs)) r).1 = request_sender <$> filter (fun f => is_request mac ip f = true) fs.
Proof.
  intros Hr Hfs. revert r Hr. induction Hfs as [|f fs [Hlen Hb] _ IH]; intros r Hr; [done|].
  cbn [fmap list_fmap concat]. rewrite parse_app.
  destruct (parse_frame mac ip f r) as (r' & -> & Hr'); [done|by intros ->; cbn in Hlen; lia|lia|done|].
  specialize (IH r' Hr'). destruct (parse mac ip (concat (last_beats <$> fs)) r') as [qs r2]. cbn [fst] in *. subst qs.
  rewrite filter_cons. destruct (is_request mac ip f) eqn:E.
  - by rewrite decide_True.
  - by rewrite decide_False.
Qed.

(** Without frames the machine comes to rest and the output register empties. *)
Lemma answer_rest n ins s :
  Forall answering ins -> Forall (fun i => tvalid (rx_axis i) = false) ins -> answer_inv s ->
  answer_rank s <= Z.of_nat n -> length ins = (n + 2)%nat ->
  let s' := (arp_run ins s).2 in owed s' = [] /\ pending mac ip s' = [].
Proof.
  intros Hins. revert n s. induction Hins as [|i ins Hi Hins IH]; intros n s Hrx Hinv Hn Hlen; [cbn in Hlen; lia|].
  inversion_clear Hrx as [|? ? Hrxi Hrx']. cbn [arp_run length] in *.
  pose proof (answer_edge_inv i s [] Hi Hinv) as Hstep. unfold axis_beats in Hstep. rewrite Hrxi in Hstep.
  destruct (Hstep I) as [Hinv' _].
  destruct (answer_edge i s Hi Hinv) as (_ & _ & _ & Hrank & _). rewrite Hrxi in Hrank. cbn [andb] in Hrank.
  destruct n as [|n].
  2: { specialize (IH n (arp_clock i s) Hrx' Hinv' ltac:(lia) ltac:(lia)).
       by destruct (arp_run ins (arp_clock i s)) as [[evs out] s']. }
  destruct ins as [|i2 [|i3 ins]]; [done| |done]. cbn [arp_run snd].
  assert (Hidle : forall t, answer_inv t -> answer_rank t <= 0 -> arp_state t = S_IDLE /\ owed t = []).
  { intros t (Ht & _) H0. destruct (decide (arp_state t = S_IDLE)) as [E|E]; [|by pose proof (rank_busy t Ht E); lia].
    split; [done|]. unfold answer_rank, arp_index, owed in *. rewrite E in *. by destruct (reply_pending t); [lia|]. }
  assert (Hput : forall j t, answering j -> arp_state t = S_IDLE ->
    tvalid (framed (arp_clock j t)) = false /\ output (arp_clock j t) = framed t).
  { intros j t ((Hr & _) & _ & Hv & Hm) E. unfold arp_clock, output_tready. destruct (arp_fsm j t) as [[st b] last].
    cbn [framed output]. by rewrite Hr, Hm, E, Hv. }
  inversion_clear Hins as [|? ? Hi2 _]. inversion_clear Hrx' as [|? ? Hrx2 _].
  pose proof (answer_edge_inv i2 _ [] Hi2 Hinv') as Hstep2. unfold axis_beats in Hstep2. rewrite Hrx2 in Hstep2.
  destruct (Hstep2 I) as [Hinv2 _].
  destruct (answer_edge i2 _ Hi2 Hinv') as (_ & _ & _ & Hrank2 & _). rewrite Hrx2 in Hrank2. cbn [andb] in Hrank2.
  destruct (Hidle s Hinv Hn) as [E0 _]. destruct (Hidle _ Hinv' ltac:(lia)) as [E1 _]. destruct (Hidle _ Hinv2 ltac:(lia)) as [E2 Ho].
  split; [done|]. destruct (Hput i s Hi E0) as [F1 _]. destruct (Hput i2 _ Hi2 E1) as [F2 O2].
  unfold pending, arp_rest, arp_index, ubeats, axis_beats. by rewrite E2, F2, O2, F1.
Qed.
(** *** The destination beside the bytes *)

(** A packet under way is a reply, and its last byte follows another one. *)
Definition dest_inv (s : arp_regs) : Prop :=
  (arp_state s <> S_IDLE \/ tvalid (framed s) = true -> active_arp_is_reply s = true) /\
  (tvalid (framed s) = true -> arp_state s = S_IDLE -> output_tuser s = true) /\
  (arp_state s <> S_IDLE -> arp_state s <> S_HW_TYPE_1 -> framed_tuser s = true).

(** The destinations due beside the bytes on the way out. *)
Definition dests_due (s : arp_regs) : list Z :=
  (if tvalid (output s) then [eth_dest_mac_out s] else []) ++
  (if tvalid (framed s) then [sending_target_mac s] else []) ++
  match arp_index s with Some k => replicate (47 - k) (sending_target_mac s) | None => [] end.

Definition reply_dests (q : Z * Z) : list Z := replicate 47 q.1.

Lemma dest_edge i s :
  answering i -> answer_inv s -> dest_inv s ->
  offered_dest i s ++ dests_due (arp_clock i s) = dests_due s ++ concat (reply_dests <$> owed s) /\
  dest_inv (arp_clock i s).
Proof.
  intros Hi Hinv (Hact & Hlast & Htu). pose proof Hi as ((Hr & Hmac & Hip) & Hg & Hv & Hm).
  pose proof Hinv as (Harp & Hgp & Hidp & _).
  assert (Hrdy : output_tready i s = true) by (unfold output_tready; by rewrite Hm).
  assert (Hgarp : starts_garp i s = false) by (unfold starts_garp; by rewrite Hgp, andb_false_r).
  unfold offered_dest. rewrite Hm. cbn [andb].
  destruct (decide (arp_state s = S_IDLE)) as [E|E].
  - assert (Hstart : starts_reply i s = reply_pending s).
    { unfold starts_reply, s_axis_tready_out, between_packets. by rewrite E, Hrdy, Hv, Hidp. }
    unfold dests_due, owed, dest_inv, arp_clock, arp_fsm, arp_index. rewrite E, Hr, Hrdy, Hgarp, Hstart, Hv.
    cbn [arp_state output framed eth_dest_mac_out sending_target_mac pad_counter tvalid active_arp_is_reply
      output_tuser framed_tuser negb orb fst snd app].
    rewrite app_nil_r, <- app_assoc. split.
    + f_equal. destruct (tvalid (framed s)) eqn:Ef.
      * rewrite (Hlast eq_refl E), (Hact (or_intror eq_refl)). by destruct (reply_pending s).
      * by destruct (reply_pending s).
    + destruct (reply_pending s); split_and!; try done. intros [H|H]; done.
  - destruct (fsm_put mac ip i s) as (k & b & rest & Hk & Hd & _ & _ & Hnext & _); [done..|].
    destruct (clock_put i s Hr Hrdy E) as (E1 & E2 & E3 & _ & E5 & E6 & E7 & E8).
    assert (Ea : active_arp_is_reply s = true) by (apply Hact; by left).
    assert (Hlen : (k + length (b :: rest) = 47)%nat).
    { pose proof (f_equal length Hd) as Hl. rewrite length_drop, arp_packet_length in Hl. cbn [length] in *. lia. }
    assert (Et : sending_target_mac (arp_clock i s) = sending_target_mac s).
    { unfold arp_target in E2. rewrite E3, Ea in E2. by injection E2. }
    assert (Ed : eth_dest_mac_out (arp_clock i s) = sending_target_mac s).
    { unfold arp_clock. destruct (arp_fsm i s) as [[st' b'] last']. cbn [eth_dest_mac_out].
      rewrite Hr, Ea. by destruct (arp_state s). }
    assert (Ho : owed s = []) by (unfold owed; by destruct (arp_state s)).
    rewrite Ho. cbn [fmap list_fmap concat]. rewrite app_nil_r. split.
    + unfold dests_due. rewrite E5, E7, Et, Ed, Hk. cbn [tvalid]. f_equal. f_equal.
      replace (47 - k)%nat with (S (length rest)) by (cbn [length] in Hlen; lia). cbn [replicate app]. f_equal.
      destruct rest as [|b' rest].
      * unfold arp_index. by rewrite E1, Hnext.
      * destruct Hnext as [_ ->]. f_equal. cbn [length] in *. lia.
    + unfold dest_inv. rewrite E1, E3, E6, E8. split_and!; [done| |done].
      intros _ Hidle. apply Htu; [done|]. intros Ehw. unfold arp_fsm in Hidle. rewrite Ehw in Hidle. done.
Qed.

Lemma answer_dests ins s :
  Forall answering ins -> answer_inv s -> dest_inv s -> paced (rx_byte_cnt (rx s)) (rx_beats ins) ->
  let s' := (arp_run ins s).2 in
  arp_dests ins s ++ dests_due s' ++ concat (reply_dests <$> owed s') =
    dests_due s ++ concat (reply_dests <$> (owed s ++ (parse mac ip (rx_beats ins) (rx s)).1)) /\
  dest_inv s'.
Proof.
  intros Hins. revert s. induction Hins as [|i ins Hi _ IH]; intros s Hinv Hd Hp; cbn [arp_run arp_dests].
  - by rewrite app_nil_r.
  - change (rx_beats (i :: ins)) with (axis_beats (rx_axis i) ++ rx_beats ins) in *.
    destruct (answer_edge_inv i s _ Hi Hinv Hp) as [Hinv' Hp']. destruct (dest_edge i s Hi Hinv Hd) as [Ed Hd'].
    specialize (IH _ Hinv' Hd' Hp'). destruct (answer_edge_parse i s Hi Hinv) as [Hrx Hq].
    destruct (arp_run ins (arp_clock i s)) as [[evs out] s']. destruct IH as [E Hd2]. split; [|done]. cbn [snd] in *.
    rewrite <- app_assoc, E, app_assoc, Ed, parse_app.
    destruct (parse mac ip (axis_beats (rx_axis i)) (rx s)) as [qs r1]. cbn [fst snd] in *. subst qs r1.
    destruct (parse mac ip (rx_beats ins) (rx (arp_clock i s))) as [qs' r2]. cbn [fst].
    by rewrite !fmap_app, !concat_app, <- !app_assoc.
Qed.
End Answers.

(** ** Properties *)

Lemma pending_length mac ip s : arp_inv ip s -> (length (pending mac ip s) <= 49)%nat.
Proof.
  intros _. unfold pending, arp_rest, ubeats, user_beats, axis_beats. rewrite !length_app, !length_fmap.
  assert (H : (length (match arp_index s with
    | Some k => (fun bl : beat => (bl, true)) <$> last_beats (drop k (arp_packet mac ip (arp_target s)))
    | None => [] end) <= 47)%nat).
  { destruct (arp_index s) as [k|]; [|cbn; lia].
    rewrite length_fmap, last_beats_length, length_drop, arp_packet_length. lia. }
  destruct (tvalid (output s)), (tvalid (framed s)); cbn [length]; lia.
Qed.

(** C18. From a reset, for any traffic, requests and back-pressure: what has left the
    unit is at any time a prefix, short of at most 49 bytes, of the packets that entered with
    well-formed ARP packets for this station between them, never within one. *)
Theorem arp_stream_whole mac ip i0 s0 ins :
  in_reset i0 = true -> Forall (steady mac ip) ins ->
  let '(evs, out, _) := arp_run ins (from_reset i0 s0) in
  whole_packets false evs /\
  exists rest, out ++ rest = arp_stream mac ip evs /\ (length rest <= 49)%nat.
Proof.
  intros Hr Hins. destruct (arp_reset_inv mac ip i0 s0 Hr) as (Hinv & Hp & _).
  pose proof (arp_run_whole mac ip ins (from_reset i0 s0) false Hins ltac:(done)) as Hw.
  pose proof (arp_run_stream mac ip ins (from_reset i0 s0) Hins Hinv) as Hs.
  destruct (arp_run ins (from_reset i0 s0)) as [[evs out] s']. destruct Hs as [Hs Hinv']. split; [done|].
  exists (pending mac ip s'). split; [by rewrite Hs, Hp|by apply (pending_length mac ip)].
Qed.

Lemma reset_answer_inv ip i0 s0 :
  in_reset i0 = true -> answer_inv ip (from_reset i0 s0) /\ rx_byte_cnt (rx (from_reset i0 s0)) = 0.
Proof.
  intros Hr. unfold answer_inv, arp_inv, pad_ok, target_ok, answer_rank, arp_index, from_reset, arp_clock.
  destruct (arp_fsm i0 s0) as [[st b] last].
  cbn [arp_state garp_pending in_data_packet reply_pending reply_started rx]. rewrite Hr. cbn. repeat split; try done; auto.
Qed.

Lemma reset_dest_inv i0 s0 :
  in_reset i0 = true -> dest_inv (from_reset i0 s0) /\ dests_due (from_reset i0 s0) = [].
Proof.
  intros Hr. unfold dest_inv, dests_due, arp_index, from_reset, arp_clock. destruct (arp_fsm i0 s0) as [[st b] last].
  cbn [arp_state output framed framed_tuser output_tuser]. rewrite Hr. cbn [tvalid no_axis app].
  split_and!; try done. by intros [H|H].
Qed.

Lemma pending_dests mac ip s : pending mac ip s = [] -> dests_due s = [].
Proof.
  unfold pending, dests_due, arp_rest, ubeats, user_beats, axis_beats. intros H.
  apply app_eq_nil in H as [H1 H]. apply app_eq_nil in H as [H2 H3].
  destruct (tvalid (output s)); [done|]. destruct (tvalid (framed s)); [done|].
  destruct (arp_index s) as [k|]; [|done]. cbn [app].
  apply (f_equal length) in H3. rewrite length_fmap, last_beats_length, length_drop, arp_packet_length in H3.
  cbn [length] in H3. by rewrite H3.
Qed.

Lemma quiet_beats quiet : Forall (fun i => tvalid (rx_axis i) = false) quiet -> rx_beats quiet = [].
Proof.
  induction 1 as [|i q Hi _ IH]; [done|]. unfold rx_beats in *. cbn [fmap list_fmap concat].
  rewrite IH. unfold axis_beats. by rewrite Hi.
Qed.

Lemma rx_beats_app ins ins' : rx_beats (ins ++ ins') = rx_beats ins ++ rx_beats ins'.
Proof. unfold rx_beats. by rewrite fmap_app, concat_app. Qed.

(** Fifty edges without frames and all is answered and out. *)
Lemma answers_settle mac ip ins quiet s :
  Forall (answering mac ip) ins -> Forall (answering mac ip) quiet ->
  Forall (fun i => tvalid (rx_axis i) = false) quiet -> length quiet = 50%nat ->
  answer_inv ip s -> paced (rx_byte_cnt (rx s)) (rx_beats ins) ->
  let s' := (arp_run (ins ++ quiet) s).2 in owed s' = [] /\ pending mac ip s' = [].
Proof.
  intros Hins Hquiet Hrx Hn Hinv Hp. rewrite arp_run_app. pose proof (answer_run mac ip ins s Hins Hinv Hp) as Hrun.
  destruct (arp_run ins s) as [[evs out] s1]. destruct Hrun as [_ Hai1].
  assert (Hrank : answer_rank s1 <= Z.of_nat 48).
  { destruct Hai1 as (_ & _ & _ & _ & _ & H0 & H). destruct (Z.leb_spec (rx_byte_cnt (rx s1)) 41); lia. }
  pose proof (answer_rest mac ip 48 quiet s1 Hquiet Hrx Hai1 Hrank Hn) as H.
  by destruct (arp_run quiet s1) as [[evs2 out2] s2].
Qed.

Lemma reply_stream mac ip (qs : list (Z * Z)) :
  arp_stream mac ip (Send <$> (Some <$> qs)) =
    user_beats true (concat ((fun q => last_beats (arp_packet mac ip (Some q))) <$> qs)).
Proof.
  unfold arp_stream, user_beats. induction qs as [|q qs IH]; [done|].
  cbn [fmap list_fmap concat event_beats] in *. rewrite IH. unfold user_beats. by rewrite fmap_app.
Qed.

(** C17. With no packet to pass on, no announcement asked for and the framer always ready, from a
    reset, for frames of 60 to 128 bytes with any gaps: exactly the requests for this station's address
    are answered, in order, each with the reply to its sender, and beside every byte of a reply
    [eth_dest_mac_out] is the MAC address of that sender. *)
Theorem arp_answers mac ip i0 s0 ins quiet fs :
  in_reset i0 = true -> Forall (answering mac ip) ins -> Forall (answering mac ip) quiet ->
  rx_beats ins = concat (last_beats <$> fs) ->
  Forall (fun f => (60 <= length f <= 128)%nat /\ Forall (is_u 8) f) fs ->
  Forall (fun i => tvalid (rx_axis i) = false) quiet -> length quiet = 50%nat ->
  let answered := filter (fun f => is_request mac ip f = true) fs in
  (arp_run (ins ++ quiet) (from_reset i0 s0)).1.2 =
    user_beats true (concat ((fun f => last_beats (arp_packet mac ip (Some (request_sender f)))) <$> answered)) /\
  arp_dests (ins ++ quiet) (from_reset i0 s0) =
    concat ((fun f => replicate 47 (request_sender f).1) <$> answered).
Proof.
  intros Hr Hins Hquiet Hbs Hfs Hrx Hn answered. destruct (arp_reset_inv mac ip i0 s0 Hr) as (Hinv & Hp & Hidle).
  destruct (reset_answer_inv ip i0 s0 Hr) as [Hai Hc]. destruct (reset_dest_inv i0 s0 Hr) as [Hd Hdue].
  pose proof (Forall_app_2 _ _ _ Hins Hquiet) as Hall.
  assert (Hbs' : rx_beats (ins ++ quiet) = concat (last_beats <$> fs)).
  { by rewrite rx_beats_app, (quiet_beats quiet) by done; rewrite app_nil_r. }
  assert (Hpaced : paced (rx_byte_cnt (rx (from_reset i0 s0))) (concat (last_beats <$> fs))).
  { rewrite Hc. apply paced_frames. eapply Forall_impl; [exact Hfs|]. by intros f []. }
  destruct (answers_settle mac ip ins quiet (from_reset i0 s0)) as [Ho2 Hp2]; [done..|by rewrite Hbs|].
  pose proof (answer_run mac ip _ _ Hall Hai) as Hrun. pose proof (answer_dests mac ip _ _ Hall Hai Hd) as Hdest.
  rewrite Hbs' in Hrun, Hdest. destruct (Hdest Hpaced) as [Ed _]. specialize (Hrun Hpaced).
  pose proof (arp_run_stream mac ip _ _ (answering_steady mac ip _ Hall) Hinv) as Hs.
  assert (Ho : owed (from_reset i0 s0) = []).
  { unfold owed. rewrite Hidle. unfold from_reset, arp_clock. destruct (arp_fsm i0 s0) as [[st b] last].
    cbn [reply_pending]. by rewrite Hr. }
  rewrite Ho2, (pending_dests mac ip _ Hp2), Hdue, Ho in Ed. rewrite Ho in Hrun.
  destruct (arp_run (ins ++ quiet) (from_reset i0 s0)) as [[evs out] s2]. cbn [fst snd] in *.
  destruct Hrun as [E _], Hs as [Hs _]. rewrite Hp2, Hp, app_nil_r in Hs. rewrite Ho2, app_nil_r in E.
  rewrite !app_nil_l, parse_frames in E, Ed by done. fold answered in E, Ed. split.
  - rewrite Hs, <- E, reply_stream, app_nil_l. do 2 f_equal. symmetry. apply (list_fmap_compose request_sender (fun q => last_beats (arp_packet mac ip (Some q)))).
  - cbn [fmap list_fmap concat] in Ed. rewrite !app_nil_r in Ed. rewrite Ed. cbn [app]. f_equal. symmetry. apply (list_fmap_compose request_sender reply_dests).
Qed.

(** ** Witnesses and examples *)
Definition demo_mac : Z := 0xAABBCCDDEEFF.
Definition demo_ip : Z := 0xC0A8002C.
Definition demo_in (rxa sa : axis) (garp : bool) : arp_in := ArpIn false garp demo_mac demo_ip 0x010203040506 rxa sa true.
Definition demo_reset : arp_in := ArpIn true false demo_mac demo_ip 0 no_axis no_axis true.
Definition demo_power_up : arp_regs :=
  ArpRegs false false false false 0 0 false S_IDLE 0 no_axis false no_axis false rx_new 0 0 0.

(** Who has [tip]? *)
Definition demo_request (dst : list Z) (tip : Z) : list Z :=
  dst ++ mac_bytes 0x112233445566 ++ request_fields ++ mac_bytes 0x112233445566 ++ ip_bytes 0xC0A80001 ++
  replicate 6 0 ++ ip_bytes tip ++ replicate 18 0.
Definition demo_rx_ins (bs : list beat) : list arp_in :=
  (fun bl : beat => demo_in (Axis bl.1 true bl.2) no_axis false) <$> bs.
Definition demo_quiet (n : nat) : list arp_in := replicate n (demo_in no_axis no_axis false).

Lemma arp_stream_whole_witness :
  let '(evs, out, _) := arp_run (demo_in no_axis (Axis 0x45 true false) true :: demo_in no_axis (Axis 0 true true) false ::
    demo_quiet 60) (from_reset demo_reset demo_power_up) in
  whole_packets false evs /\
  exists rest, out ++ rest = arp_stream demo_mac demo_ip evs /\ (length rest <= 49)%nat.
Proof. apply (arp_stream_whole demo_mac demo_ip demo_reset demo_power_up); [reflexivity|by repeat constructor]. Defined.

Lemma arp_answers_witness :
  (arp_run (demo_rx_ins (concat (last_beats <$> [demo_request (replicate 6 0xff) 0xC0A80099;
                                                 demo_request (replicate 6 0xff) demo_ip])) ++ demo_quiet 50)
     (from_reset demo_reset demo_power_up)).1.2 =
  user_beats true (last_beats (arp_packet demo_mac demo_ip (Some (0x112233445566, 0xC0A80001)))) /\
  arp_dests (demo_rx_ins (concat (last_beats <$> [demo_request (replicate 6 0xff) 0xC0A80099;
                                                 demo_request (replicate 6 0xff) demo_ip])) ++ demo_quiet 50)
     (from_reset demo_reset demo_power_up) = replicate 47 0x112233445566.
Proof.
  destruct (arp_answers demo_mac demo_ip demo_reset demo_power_up
    (demo_rx_ins (concat (last_beats <$> [demo_request (replicate 6 0xff) 0xC0A80099;
                                          demo_request (replicate 6 0xff) demo_ip])))
    (demo_quiet 50) [demo_request (replicate 6 0xff) 0xC0A80099; demo_request (replicate 6 0xff) demo_ip])
    as [-> ->].
  - reflexivity.
  - vm_compute. by repeat constructor.
  - by repeat constructor.
  - vm_compute. reflexivity.
  - repeat apply Forall_cons_2; try apply Forall_nil_2;
      (split; [cbn; lia|]); vm_compute; repeat constructor; discriminate.
  - by repeat constructor.
  - reflexivity.
  - split; vm_compute; reflexivity.
Defined.

(** An announcement asked for when the first byte of a packet comes in is forgotten: the flag is cleared
    without the machine having started. *)
Example garp_lost :
  let ins := demo_in no_axis no_axis true :: demo_in no_axis (Axis 0x45 true false) false ::
             demo_in no_axis (Axis 0x00 true true) false :: demo_quiet 100 in
  (arp_run ins (from_reset demo_reset demo_power_up)).1.1 = [Pass 0x45 false; Pass 0x00 true].
Proof. vm_compute. reflexivity. Qed.

(** The byte counter wraps after 128 bytes: a request inside the payload of a long
    frame for any other station is answered. *)
Example request_in_payload_answered :
  let frame := replicate 128 0 ++ demo_request (replicate 6 0xff) demo_ip in
  (arp_run (demo_rx_ins (last_beats frame) ++ demo_quiet 50) (from_reset demo_reset demo_power_up)).1.1 =
    [Send (Some (0x112233445566, 0xC0A80001))] /\ is_request demo_mac demo_ip frame = false.
Proof. vm_compute. split; reflexivity. Qed.

(** The bytes of the destination are compared one by one, so a mixture of the station's and the broadcast address
    passes. *)
Example mixed_destination_answered :
  is_request demo_mac demo_ip (demo_request [0xff; 0xbb; 0xff; 0xdd; 0xff; 0xff] demo_ip) = true.
Proof. vm_compute. reflexivity. Qed.
