(* ===== verification/RxPacketBuffer.v ===== *)
(** * The receive packet buffer: [ethernet/rx_packet_buffer/rx_packet_buffer.vhd]

    A RAM into which packets are written as they arrive.  At the last byte a good packet is
    released to the read side; a bad one is taken back by moving the write
    pointer.  The theorem: as long as no overflow is flagged and no bad packet is taken back
    while the read side is fetching from it, exactly the good packets come out. *)

From S2P Require Import Prelude.
From S2P Require Import Axis.
From S2P Require Import CircularBuffer.

(** The words of the RAM: a byte with its [tlast]. *)
Record rx_regs := RxRegs {
  ram : list beat;
  r_read_pointer : Z;
  r_write_pointer : Z;
  packet_length_counter : Z;
  fifo_dout : beat;
  output_valid_r : bool;
  good_packets_remaining : Z;
  dropped_packets_count_u : Z;
  overflowed_out : bool
}.

Record rx_in := RxIn { in_reset : bool; s_axis : axis; s_tuser : bool }.

Section RxPacketBuffer.
Context (G_LOG2_DEPTH : Z).

Definition rx_rows : Z := 2 ^ G_LOG2_DEPTH.
Definition r_read_address (s : rx_regs) : Z := wrap G_LOG2_DEPTH (r_read_pointer s).
Definition r_write_address (s : rx_regs) : Z := wrap G_LOG2_DEPTH (r_write_pointer s).
Definition empty_sig (s : rx_regs) : bool := r_write_pointer s =? r_read_pointer s.
Definition full_sig (s : rx_regs) : bool :=
  (r_read_address s =? r_write_address s) &&
  negb (eqb (Z.testbit (r_read_pointer s) G_LOG2_DEPTH) (Z.testbit (r_write_pointer s) G_LOG2_DEPTH)).

(** The last word of a good packet is on the input. *)
Definition packet_good (i : rx_in) : bool :=
  tlast (s_axis i) && tvalid (s_axis i) && negb (s_tuser i).
Definition read_packet (s : rx_regs) : bool := negb (good_packets_remaining s =? 0).
Definition fwft_read (i : rx_in) (s : rx_regs) : bool := read_packet s || packet_good i.

(** The last word of a packet is in the output register. *)
Definition last_out (s : rx_regs) : bool := (fifo_dout s).2 && output_valid_r s.

(** One rising edge: [p_overflow], [p_write], [p_read], [p_fwft] and the count of packets. *)
Definition rx_clock (i : rx_in) (s : rx_regs) : rx_regs :=
  let rst := in_reset i in
  let a := s_axis i in
  let wr := tvalid a && negb (full_sig s) in
  let bad := wr && tlast a && s_tuser i in
  let rd := fwft_read i s in
  {| ram :=
       if wr then <[Z.to_nat (r_write_address s) := (tdata a, tlast a)]> (ram s) else ram s;
     r_read_pointer :=
       if rst then 0
       else if rd && negb (empty_sig s) then wrap (G_LOG2_DEPTH + 1) (r_read_pointer s + 1)
       else r_read_pointer s;
     r_write_pointer :=
       if rst then 0
       else if bad then wrap (G_LOG2_DEPTH + 1) (r_write_pointer s - packet_length_counter s)
       else if wr then wrap (G_LOG2_DEPTH + 1) (r_write_pointer s + 1) else r_write_pointer s;
     packet_length_counter :=
       if rst then 0
       else if wr then (if tlast a then 0 else wrap G_LOG2_DEPTH (packet_length_counter s + 1))
       else packet_length_counter s;
     fifo_dout := if rd then nth (Z.to_nat (r_read_address s)) (ram s) (0, false) else fifo_dout s;
     output_valid_r :=
       if rst then false else if rd then negb (empty_sig s) else output_valid_r s;
     good_packets_remaining :=
       if rst then 0
       else if packet_good i && negb (last_out s)
       then wrap G_LOG2_DEPTH (good_packets_remaining s + 1)
       else if negb (packet_good i) && last_out s
       then wrap G_LOG2_DEPTH (good_packets_remaining s - 1)
       else good_packets_remaining s;
     dropped_packets_count_u :=
       if rst then 0
       else if bad then wrap 16 (dropped_packets_count_u s + 1) else dropped_packets_count_u s;
     overflowed_out :=
       if rst then false else if tvalid a && full_sig s then true else overflowed_out s |}.

(** The word on the output ports on an edge, when valid. *)
Definition emitted (i : rx_in) (s : rx_regs) : list beat :=
  if fwft_read i s && output_valid_r s then [fifo_dout s] else [].

Fixpoint rx_run (ins : list rx_in) (s : rx_regs) : list beat * rx_regs :=
  match ins with
  | [] => ([], s)
  | i :: ins' => let '(out, s') := rx_run ins' (rx_clock i s) in (emitted i s ++ out, s')
  end.

(** ** Packets *)

(** A byte on the input with [tlast] and [tuser]. *)
Definition arrivals (i : rx_in) : list (Z * bool * bool) :=
  if tvalid (s_axis i) then [(tdata (s_axis i), tlast (s_axis i), s_tuser i)] else [].

(** The packets of a stream; [part] is the packet so far. *)
Fixpoint packets (part : list Z) (evs : list (Z * bool * bool)) : list (list Z * bool) :=
  match evs with
  | [] => []
  | (b, last, bad) :: evs' =>
      if last then (part ++ [b], bad) :: packets [] evs' else packets (part ++ [b]) evs'
  end.
Fixpoint partial (part : list Z) (evs : list (Z * bool * bool)) : list Z :=
  match evs with
  | [] => part
  | (b, last, _) :: evs' => partial (if last then [] else part ++ [b]) evs'
  end.

(** What the buffer has to pass on. *)
Definition good_beats (ps : list (list Z * bool)) : list beat :=
  concat ((fun p : list Z * bool => if p.2 then [] else last_beats p.1) <$> ps).
Definition bad_count (ps : list (list Z * bool)) : Z :=
  Z.of_nat (length (filter (fun p : list Z * bool => p.2 = true) ps)).

(** A bad packet may be taken back on this edge: the read side neither has a word of it nor
    is fetching one. *)
Definition may_take_back (s : rx_regs) : bool :=
  if good_packets_remaining s =? 0 then negb (output_valid_r s)
  else negb (last_out s && (good_packets_remaining s =? 1)).

Definition ends_bad (i : rx_in) : bool := tvalid (s_axis i) && tlast (s_axis i) && s_tuser i.

(** Along a run, every bad packet ends on such an edge. *)
Fixpoint calm (ins : list rx_in) (s : rx_regs) : Prop :=
  match ins with
  | [] => True
  | i :: ins' =>
      (ends_bad i = true -> may_take_back s = true) /\
      calm ins' (rx_clock i s)
  end.

(** ** The RAM as a queue *)
Context (Hdepth : 2 <= G_LOG2_DEPTH).

Definition rx_queue (m : list beat) (rp wp : Z) (q : list beat) : Prop :=
  length m = Z.to_nat rx_rows /\ Z.of_nat (length q) <= rx_rows /\
  exists r, 0 <= r /\
    rp = wrap (G_LOG2_DEPTH + 1) r /\ wp = wrap (G_LOG2_DEPTH + 1) (r + Z.of_nat (length q)) /\
    forall k x, q !! k = Some x -> m !! Z.to_nat (wrap G_LOG2_DEPTH (r + Z.of_nat k)) = Some x.

Lemma rx_rows_ge : 4 <= rx_rows.
Proof. unfold rx_rows. change 4 with (2 ^ 2). apply Z.pow_le_mono_r; lia. Qed.

Lemma rx_queue_room m rp wp q x :
  rx_queue m rp wp q -> Z.of_nat (length q) < rx_rows ->
  rx_queue (<[Z.to_nat (wrap G_LOG2_DEPTH wp) := x]> m) rp wp q.
Proof.
  intros (Hm & Hl & r & Hr & Hrp & Hwp & Hk) Hroom. split; [by rewrite length_insert|].
  split; [done|]. exists r. do 3 (split; [done|]). intros k y Hy.
  rewrite list_lookup_insert_ne; [by apply Hk|]. rewrite Hwp, wrap_pointer by lia.
  intros E. apply Z2Nat.inj in E; [|apply wrap_range; lia..]. symmetry in E.
  pose proof (lookup_lt_Some _ _ _ Hy).
  replace (r + Z.of_nat (length q)) with (r + Z.of_nat k + (Z.of_nat (length q) - Z.of_nat k)) in E by lia.
  unfold rx_rows in *. apply wrap_eq_iff in E; lia.
Qed.

Lemma rx_queue_write m rp wp q x :
  rx_queue m rp wp q -> Z.of_nat (length q) < rx_rows ->
  rx_queue (<[Z.to_nat (wrap G_LOG2_DEPTH wp) := x]> m) rp (wrap (G_LOG2_DEPTH + 1) (wp + 1)) (q ++ [x]).
Proof.
  intros Hq Hroom. destruct (rx_queue_room m rp wp q x Hq Hroom) as (Hm' & _).
  destruct Hq as (Hm & Hl & r & Hr & Hrp & Hwp & Hk). split; [done|]. rewrite length_app. cbn [length].
  split; [lia|]. exists r. split; [done|]. split; [done|]. split.
  { rewrite Hwp, wrap_add_idemp by lia. f_equal. lia. }
  intros k y Hy. apply lookup_app_Some in Hy as [Hy|[Hge Hy]].
  - rewrite list_lookup_insert_ne; [by apply Hk|]. rewrite Hwp, wrap_pointer by lia.
    intros E. apply Z2Nat.inj in E; [|apply wrap_range; lia..]. symmetry in E.
    pose proof (lookup_lt_Some _ _ _ Hy).
    replace (r + Z.of_nat (length q)) with (r + Z.of_nat k + (Z.of_nat (length q) - Z.of_nat k)) in E by lia.
    unfold rx_rows in *. apply wrap_eq_iff in E; lia.
  - destruct (k - length q)%nat eqn:Ek; [|done]. injection Hy as <-.
    replace k with (length q) by lia. rewrite Hwp, wrap_pointer by lia. apply list_lookup_insert_eq.
    rewrite Hm. pose proof (wrap_range G_LOG2_DEPTH (r + Z.of_nat (length q)) ltac:(lia)) as Hu.
    unfold is_u in Hu. unfold rx_rows. lia.
Qed.

Lemma rx_queue_back m rp wp q n :
  rx_queue m rp wp q -> (n <= length q)%nat ->
  rx_queue m rp (wrap (G_LOG2_DEPTH + 1) (wp - Z.of_nat n)) (take (length q - n) q).
Proof.
  intros (Hm & Hl & r & Hr & Hrp & Hwp & Hk) Hn. split; [done|]. rewrite length_take.
  split; [lia|]. exists r. split; [done|]. split; [done|]. split.
  - rewrite Hwp, <- Z.add_opp_r, wrap_add_idemp by lia. f_equal. lia.
  - intros k x Hx. apply lookup_take_Some in Hx as [Hx _]. by apply Hk.
Qed.

Lemma rx_queue_read m rp wp x q :
  rx_queue m rp wp (x :: q) -> rx_queue m (wrap (G_LOG2_DEPTH + 1) (rp + 1)) wp q.
Proof.
  intros (Hm & Hl & r & Hr & Hrp & Hwp & Hk). cbn [length] in *. split; [done|]. split; [lia|].
  exists (r + 1). split; [lia|]. split; [by rewrite Hrp, wrap_add_idemp by lia|].
  split; [rewrite Hwp; f_equal; lia|]. intros k y Hy. specialize (Hk (S k) y Hy).
  by replace (r + 1 + Z.of_nat k) with (r + Z.of_nat (S k)) by lia.
Qed.

Lemma rx_queue_empty m rp wp q : rx_queue m rp wp q -> (wp =? rp) = match q with [] => true | _ => false end.
Proof.
  intros (_ & Hl & r & Hr & -> & -> & _). pose proof rx_rows_ge. unfold rx_rows in *. destruct q as [|x q].
  - apply Z.eqb_eq. by rewrite Z.add_0_r.
  - apply Z.eqb_neq. intros E. symmetry in E.
    apply wrap_eq_iff in E; [cbn in E; lia|lia|]. rewrite Z.pow_add_r by lia. cbn [length] in *. lia.
Qed.

Lemma rx_queue_full s q :
  rx_queue (ram s) (r_read_pointer s) (r_write_pointer s) q ->
  full_sig s = false -> Z.of_nat (length q) < rx_rows.
Proof.
  intros (_ & Hl & r & Hr & Hrp & Hwp & _) Hf.
  destruct (Z.eq_dec (Z.of_nat (length q)) rx_rows) as [E|]; [|lia].
  unfold full_sig, r_read_address, r_write_address in Hf. unfold rx_rows in E.
  rewrite Hrp, Hwp, E, !wrap_pointer, !testbit_wrap, wrap_add_full, Z.eqb_refl, testbit_add_full in Hf by lia.
  rewrite (proj2 (Z.ltb_lt G_LOG2_DEPTH (G_LOG2_DEPTH + 1))) in Hf by lia. cbn [andb] in Hf.
  by destruct (Z.testbit r G_LOG2_DEPTH).
Qed.

Lemma rx_queue_head m rp wp x q d :
  rx_queue m rp wp (x :: q) -> nth (Z.to_nat (wrap G_LOG2_DEPTH rp)) m d = x.
Proof.
  intros (_ & _ & r & Hr & -> & _ & Hk). rewrite wrap_pointer by lia. apply nth_lookup_Some.
  specialize (Hk 0%nat x eq_refl). by rewrite Z.add_0_r in Hk.
Qed.

(** ** One edge *)

(** The RAM after the write side. *)
Definition written (i : rx_in) (s : rx_regs) (q : list beat) : list beat :=
  let a := s_axis i in
  if tvalid a
  then if tlast a && s_tuser i
       then take (length q - Z.to_nat (packet_length_counter s)) q
       else q ++ [(tdata a, tlast a)]
  else q.

Lemma rx_queue_edge i s q :
  in_reset i = false -> tvalid (s_axis i) && full_sig s = false ->
  rx_queue (ram s) (r_read_pointer s) (r_write_pointer s) q ->
  (ends_bad i = true -> 0 <= packet_length_counter s <= Z.of_nat (length q) /\
     (fwft_read i s = true -> written i s q <> [])) ->
  let s' := rx_clock i s in
  rx_queue (ram s') (r_read_pointer s') (r_write_pointer s')
    (if fwft_read i s && match q with [] => false | _ => true end then tail (written i s q) else written i s q).
Proof.
  intros Hr Hfull Hq Hbad s'. pose proof (rx_queue_empty _ _ _ _ Hq) as Hempty.
  set (m1 := ram s'). set (wp1 := r_write_pointer s').
  assert (Hw : rx_queue m1 (r_read_pointer s) wp1 (written i s q)).
  { unfold m1, wp1, s', rx_clock, written. cbn [ram r_write_pointer]. rewrite Hr.
    destruct (tvalid (s_axis i)) eqn:Hv; cbn [andb] in *; [|done]. rewrite Hfull. cbn [negb andb].
    pose proof (rx_queue_full s q Hq Hfull) as Hroom. destruct (tlast (s_axis i) && s_tuser i) eqn:Hb.
    - destruct Hbad as [Hn _]; [unfold ends_bad; by rewrite Hv|].
      replace (packet_length_counter s) with (Z.of_nat (Z.to_nat (packet_length_counter s))) at 1 by lia.
      apply rx_queue_back; [by apply rx_queue_room|lia].
    - by apply rx_queue_write. }
  assert (Hrp : r_read_pointer s' = if fwft_read i s && match q with [] => false | _ => true end
    then wrap (G_LOG2_DEPTH + 1) (r_read_pointer s + 1) else r_read_pointer s).
  { unfold s', rx_clock. cbn [r_read_pointer]. rewrite Hr. unfold empty_sig. rewrite Hempty. by destruct q. }
  rewrite Hrp. destruct (fwft_read i s) eqn:Hrd; cbn [andb]; [|done]. destruct q as [|y q0] eqn:Eq; [done|].
  destruct (written i s (y :: q0)) as [|z l] eqn:Ew; [|by eapply rx_queue_read].
  exfalso. unfold written in Ew. destruct (tvalid (s_axis i)) eqn:Hv; [|done].
  destruct (tlast (s_axis i) && s_tuser i) eqn:Hb; [|done].
  destruct Hbad as [_ Hne]; [unfold ends_bad; by rewrite Hv|]. by apply (Hne eq_refl).
Qed.

Definition good_of (ps : list (list Z * bool)) : list (list Z) :=
  fst <$> filter (fun p : list Z * bool => p.2 = false) ps.

Lemma good_beats_of ps : good_beats ps = concat (last_beats <$> good_of ps).
Proof.
  unfold good_beats, good_of. induction ps as [|[p []] ps IH]; [done|..]; cbn [fmap list_fmap concat].
  - rewrite filter_cons_False by done. exact IH.
  - rewrite filter_cons_True by done. cbn [fmap list_fmap concat fst snd]. by rewrite IH.
Qed.

(** What the buffer holds: [pks] are the packets released to the read side, the
    first perhaps without the bytes already passed on; [part] is the packet coming in. *)
Definition held (pks : list (list Z)) (part : list Z) : list beat :=
  concat (last_beats <$> pks) ++ data_beats part.
Definition olist (o : option beat) : list beat := from_option (fun x => [x]) [] o.

Definition rx_inv (s : rx_regs) (part : list Z) (pks : list (list Z)) : Prop :=
  exists o q,
    rx_queue (ram s) (r_read_pointer s) (r_write_pointer s) q /\
    output_valid_r s = (match o with Some _ => true | None => false end) /\
    (forall x, o = Some x -> fifo_dout s = x) /\
    olist o ++ q = held pks part /\
    Forall (fun p => p <> []) pks /\ Forall (fun p => (2 <= length p)%nat) (tail pks) /\
    good_packets_remaining s = Z.of_nat (length pks) /\
    packet_length_counter s = wrap G_LOG2_DEPTH (Z.of_nat (length part)).

Lemma held_nil part : held [] part = data_beats part.
Proof. done. Qed.

(** The head of what is held belongs to the first packet released. *)
Lemma held_cons x p pks part :
  held ((x :: p) :: pks) part =
    (x, match p with [] => true | _ => false end) ::
    held (match p with [] => pks | _ => p :: pks end) part.
Proof.
  unfold held. cbn [fmap list_fmap concat]. rewrite last_beats_cons. destruct p; cbn [fmap list_fmap concat app]; done.
Qed.

Lemma released_le pks :
  Forall (fun p => p <> []) pks -> Forall (fun p => (2 <= length p)%nat) (tail pks) ->
  (2 * length pks <= length (concat (last_beats <$> pks)) + 1)%nat.
Proof.
  destruct pks as [|p pks]; [cbn; lia|]. intros Hne H2. inversion_clear Hne as [|? ? Hp _].
  cbn [tail fmap list_fmap concat length] in *. rewrite length_app, last_beats_length.
  assert (H : (2 * length pks <= length (concat (last_beats <$> pks)))%nat).
  { induction H2 as [|p' pks Hp' _ IH]; [cbn; lia|]. cbn [fmap list_fmap concat length].
    rewrite length_app, last_beats_length. lia. }
  destruct p; [done|]. cbn [length]. lia.
Qed.

(** The input of an edge, on packets. *)
Definition rx_part (i : rx_in) (part : list Z) : list Z := partial part (arrivals i).
Definition rx_new (i : rx_in) (part : list Z) : list (list Z) := good_of (packets part (arrivals i)).

Lemma arrival_cases i part :
  let a := s_axis i in
  rx_part i part = (if tvalid a then if tlast a then [] else part ++ [tdata a] else part) /\
  rx_new i part = (if packet_good i then [part ++ [tdata a]] else []).
Proof.
  unfold rx_part, rx_new, packet_good, arrivals. destruct (tvalid (s_axis i)), (tlast (s_axis i)); cbn; try done.
  by destruct (s_tuser i).
Qed.

Lemma last_out_inv s part pks o q :
  output_valid_r s = (match o with Some _ => true | None => false end) ->
  (forall x, o = Some x -> fifo_dout s = x) -> olist o ++ q = held pks part ->
  Forall (fun p => p <> []) pks ->
  last_out s = true <-> (exists x pks', pks = [x] :: pks' /\ o = Some (x, true)).
Proof.
  intros Hv Hd E Hne. unfold last_out. rewrite Hv. destruct o as [w|].
  - rewrite (Hd w eq_refl), andb_true_r. destruct pks as [|[|x p] pks].
    + rewrite held_nil in E. destruct part as [|b part]; [done|]. injection E as -> _.
      split; [done|]. by intros (? & ? & ? & ?).
    + inversion Hne. done.
    + rewrite held_cons in E. injection E as -> _. cbn [snd]. split.
      * destruct p; [|done]. eauto.
      * by intros (y & pks' & [= -> -> ->] & _).
  - rewrite andb_false_r. split; [done|]. by intros (? & ? & _ & ?).
Qed.

Lemma held_app_new pks p part : held (pks ++ [p]) part = concat (last_beats <$> pks) ++ last_beats p ++ data_beats part.
Proof. unfold held. rewrite fmap_app, concat_app. cbn [fmap list_fmap concat]. by rewrite app_nil_r, <- app_assoc. Qed.

(** A bad packet goes without a trace. *)
Lemma written_bad i s part pks o q :
  tvalid (s_axis i) && full_sig s = false -> ends_bad i = true -> may_take_back s = true ->
  rx_queue (ram s) (r_read_pointer s) (r_write_pointer s) q ->
  output_valid_r s = (match o with Some _ => true | None => false end) ->
  (forall x, o = Some x -> fifo_dout s = x) -> olist o ++ q = held pks part ->
  Forall (fun p => p <> []) pks -> good_packets_remaining s = Z.of_nat (length pks) ->
  packet_length_counter s = wrap G_LOG2_DEPTH (Z.of_nat (length part)) ->
  0 <= packet_length_counter s <= Z.of_nat (length q) /\
  olist o ++ written i s q = held pks [] /\ (fwft_read i s = true -> written i s q <> []).
Proof.
  intros Hfull Hbad Hok Hq Hv Hd E Hne Hg Hc. unfold ends_bad in Hbad.
  apply andb_true_iff in Hbad as [Hbad Hu]. apply andb_true_iff in Hbad as [Hva Hl].
  rewrite Hva in Hfull. pose proof (rx_queue_full s q Hq Hfull) as Hroom.
  assert (Hw : forall C, q = C ++ data_beats part ->
    0 <= packet_length_counter s <= Z.of_nat (length q) /\ written i s q = C).
  { intros C ->. rewrite length_app in *. unfold data_beats in *. rewrite length_fmap in *.
    rewrite wrap_small in Hc by (unfold is_u, rx_rows in *; lia). split; [lia|].
    unfold written. rewrite Hva, Hl, Hu, Hc. cbn [andb].
    rewrite length_app, length_fmap, Nat2Z.id, Nat.add_sub. by apply take_app_length. }
  unfold held at 1. cbn [data_beats fmap list_fmap]. rewrite app_nil_r. unfold may_take_back in Hok.
  destruct pks as [|p pks].
  - rewrite Hg in Hok. cbn in Hok. rewrite Hv in Hok. destruct o; [done|].
    destruct (Hw [] E) as [H1 ->]. split; [done|]. split; [done|].
    unfold fwft_read, read_packet, packet_good. rewrite Hg, Hu, andb_false_r. done.
  - destruct o as [w|].
    + destruct p as [|x p]; [by inversion Hne|]. rewrite held_cons in E. cbn [olist from_option app] in E.
      injection E as -> E. destruct (Hw _ E) as [H1 ->]. split; [done|].
      assert (Ec : concat (last_beats <$> ((x :: p) :: pks)) =
        (x, match p with [] => true | _ => false end) ::
        concat (last_beats <$> (match p with [] => pks | _ => p :: pks end))).
      { pose proof (held_cons x p pks []) as H. unfold held in H. cbn [data_beats fmap list_fmap] in H.
        by rewrite !app_nil_r in H. }
      rewrite Ec. split; [done|]. intros _ Hnil. destruct p as [|y p].
      * destruct pks as [|p' pks].
        -- rewrite Hg in Hok. unfold last_out in Hok. by rewrite (Hd _ eq_refl), Hv in Hok.
        -- inversion_clear Hne as [|? ? _ Hne']. inversion_clear Hne' as [|? ? Hp' _].
           destruct p' as [|z p']; [done|]. cbn [fmap list_fmap concat] in Hnil. by rewrite last_beats_cons in Hnil.
      * cbn [fmap list_fmap concat] in Hnil. by rewrite last_beats_cons in Hnil.
    + destruct (Hw _ E) as [H1 ->]. split; [done|]. split; [done|]. intros _ Hnil.
      inversion_clear Hne as [|? ? Hp _]. destruct p as [|x p]; [done|]. cbn [fmap list_fmap concat] in Hnil.
      by rewrite last_beats_cons in Hnil.
Qed.

Lemma written_held i s part pks o q :
  tvalid (s_axis i) && full_sig s = false -> (ends_bad i = true -> may_take_back s = true) ->
  rx_queue (ram s) (r_read_pointer s) (r_write_pointer s) q ->
  output_valid_r s = (match o with Some _ => true | None => false end) ->
  (forall x, o = Some x -> fifo_dout s = x) -> olist o ++ q = held pks part ->
  Forall (fun p => p <> []) pks -> good_packets_remaining s = Z.of_nat (length pks) ->
  packet_length_counter s = wrap G_LOG2_DEPTH (Z.of_nat (length part)) ->
  olist o ++ written i s q = held (pks ++ rx_new i part) (rx_part i part).
Proof.
  intros Hfull Hok Hq Hv Hd E Hne Hg Hc. destruct (arrival_cases i part) as [-> ->].
  destruct (ends_bad i) eqn:Hb.
  - destruct (written_bad i s part pks o q) as (_ & -> & _); auto. unfold ends_bad in Hb. unfold packet_good.
    destruct (tvalid (s_axis i)), (tlast (s_axis i)), (s_tuser i); try done. by rewrite app_nil_r.
  - unfold ends_bad in Hb. unfold written, packet_good. destruct (tvalid (s_axis i)) eqn:Hva; cbn [andb] in *.
    2: { rewrite andb_false_r. by rewrite app_nil_r. }
    rewrite Hb, app_assoc, E, andb_true_r. destruct (tlast (s_axis i)); cbn [andb] in *.
    + rewrite Hb. cbn [negb]. rewrite held_app_new, last_beats_snoc. unfold held. cbn [data_beats fmap list_fmap].
      by rewrite app_nil_r, <- app_assoc.
    + rewrite app_nil_r. unfold held. by rewrite data_beats_app, <- !app_assoc.
Qed.

(** The packets left after the read side's step. *)
Definition pop_word (pks : list (list Z)) : list (list Z) :=
  match pks with
  | (_ :: ((_ :: _) as p)) :: pks' => p :: pks'
  | _ :: pks' => pks'
  | [] => []
  end.

Lemma pop_word_ok pks :
  Forall (fun p => p <> []) pks -> Forall (fun p => (2 <= length p)%nat) (tail pks) ->
  Forall (fun p => p <> []) (pop_word pks) /\ Forall (fun p => (2 <= length p)%nat) (tail (pop_word pks)).
Proof.
  intros Hne H2. destruct pks as [|[|x [|y p]] pks]; cbn [pop_word tail] in *; inversion_clear Hne; try done.
  - split; [done|]. by destruct pks; inversion_clear H2.
  - split; [by constructor|done].
Qed.

Lemma head_written i s y q :
  written i s (y :: q) <> [] -> written i s (y :: q) = y :: tail (written i s (y :: q)).
Proof.
  unfold written. destruct (tvalid (s_axis i)); [|done].
  destruct (tlast (s_axis i) && s_tuser i); [|done].
  generalize (length (y :: q) - Z.to_nat (packet_length_counter s))%nat. by intros [|n].
Qed.

(** The count of packets, over the cases of the code. *)
Lemma good_count i s part pks o q :
  rx_queue (ram s) (r_read_pointer s) (r_write_pointer s) q ->
  output_valid_r s = (match o with Some _ => true | None => false end) ->
  (forall x, o = Some x -> fifo_dout s = x) -> olist o ++ q = held pks part ->
  Forall (fun p => p <> []) pks -> good_packets_remaining s = Z.of_nat (length pks) ->
  (packet_good i = true -> part <> []) ->
  let pks1 := pks ++ rx_new i part in
  let pks' := if fwft_read i s && output_valid_r s then pop_word pks1 else pks1 in
  Z.of_nat (length pks') = good_packets_remaining s +
    (if packet_good i && negb (last_out s) then 1 else 0) -
    (if negb (packet_good i) && last_out s then 1 else 0).
Proof.
  intros Hq Hv Hd E Hne Hg Hpart. pose proof (last_out_inv s part pks o q Hv Hd E Hne) as Hlo. cbn zeta.
  destruct (arrival_cases i part) as [_ ->]. rewrite Hg, Hv.
  assert (Hrd : fwft_read i s = match pks with [] => packet_good i | _ => true end).
  { unfold fwft_read, read_packet. rewrite Hg. by destruct pks. }
  rewrite Hrd. assert (Hcase : last_out s = match pks, o with [_] :: _, Some _ => true | _, _ => false end).
  { destruct (last_out s) eqn:El.
    - destruct (proj1 Hlo eq_refl) as (x & pks' & -> & ->). done.
    - destruct pks as [|[|x [|]] pks]; [done..| |done]. destruct o as [w|]; [|done]. exfalso.
      cbn [olist from_option app] in E. rewrite held_cons in E. injection E as -> _.
      assert (false = true); [|done]. apply Hlo. eauto. }
  rewrite Hcase. clear Hlo Hcase Hrd Hq.
  destruct pks as [|[|x [|y p]] pks]; [|by inversion Hne|..]; destruct o as [w|], (packet_good i) eqn:Hpg;
    cbn [andb negb app pop_word length] in *; rewrite ?length_app; cbn [length]; try lia.
  destruct part as [|z part]; [by destruct Hpart|]. by destruct part.
Qed.

Lemma release_ok i part pks :
  Forall (fun p => p <> []) pks -> Forall (fun p => (2 <= length p)%nat) (tail pks) ->
  (packet_good i = true -> part <> []) ->
  Forall (fun p => p <> []) (pks ++ rx_new i part) /\
  Forall (fun p => (2 <= length p)%nat) (tail (pks ++ rx_new i part)).
Proof.
  intros Hne H2 Hpart. destruct (arrival_cases i part) as [_ ->].
  destruct (packet_good i); [|by rewrite app_nil_r].
  specialize (Hpart eq_refl). assert (Hl : (2 <= length (part ++ [tdata (s_axis i)]))%nat).
  { rewrite length_app. destruct part; [done|cbn; lia]. }
  split; [apply Forall_app; split; [done|]; constructor; [by destruct part|done]|].
  destruct pks; cbn [app tail]; [done|]. apply Forall_app. by split; [|constructor].
Qed.

(** The read side's step moves the words along. *)
Lemma read_move i s o q :
  (ends_bad i = true -> fwft_read i s = true -> written i s q <> []) ->
  (if fwft_read i s then olist o else []) ++
    olist (if fwft_read i s then head q else o) ++
    (if fwft_read i s && match q with [] => false | _ => true end
     then tail (written i s q) else written i s q) = olist o ++ written i s q.
Proof.
  intros Hbad. destruct (fwft_read i s) eqn:Hrd; cbn [andb]; [|done].
  destruct q as [|y q0]; [done|]. cbn [head olist from_option app]. f_equal. symmetry. apply head_written.
  unfold written in *. destruct (tvalid (s_axis i)) eqn:Hva; [|done].
  destruct (tlast (s_axis i) && s_tuser i) eqn:Hlu; [|done].
  apply Hbad; [|done]. unfold ends_bad. by rewrite Hva.
Qed.

(** What has been moved out is the head of the released packets. *)
Lemma read_pops pks part w rest :
  pks <> [] -> Forall (fun p => p <> []) pks -> w :: rest = held pks part ->
  w :: concat (last_beats <$> pop_word pks) = concat (last_beats <$> pks) /\ rest = held (pop_word pks) part.
Proof.
  intros Hn Hne E. assert (Hh : forall part', held pks part' = w :: held (pop_word pks) part').
  { intros part'. destruct pks as [|[|x p] l]; [done|by inversion Hne|]. rewrite held_cons in *.
    injection E as -> _. by destruct p. }
  split; [|rewrite Hh in E; by injection E]. specialize (Hh []). unfold held in Hh.
  cbn [data_beats fmap list_fmap] in Hh. by rewrite !app_nil_r in Hh.
Qed.

Lemma rx_edge i s part pks :
  in_reset i = false -> tvalid (s_axis i) && full_sig s = false ->
  (packet_good i = true -> part <> []) -> (ends_bad i = true -> may_take_back s = true) ->
  rx_inv s part pks ->
  exists pks', rx_inv (rx_clock i s) (rx_part i part) pks' /\
    emitted i s ++ concat (last_beats <$> pks') = concat (last_beats <$> (pks ++ rx_new i part)).
Proof.
  intros Hr Hfull Hpart Hok (o & q & Hq & Hv & Hd & E & Hne & H2 & Hg & Hc).
  set (pks1 := pks ++ rx_new i part).
  assert (Hheld : olist o ++ written i s q = held pks1 (rx_part i part))
    by (by apply written_held).
  assert (Hbad : ends_bad i = true -> 0 <= packet_length_counter s <= Z.of_nat (length q) /\
    (fwft_read i s = true -> written i s q <> [])).
  { intros Hb. destruct (written_bad i s part pks o q) as (H1 & _ & H3); auto. }
  pose proof (rx_queue_edge i s q Hr Hfull Hq Hbad) as Hq'.
  pose proof (good_count i s part pks o q Hq Hv Hd E Hne Hg Hpart) as Hcount.
  fold pks1 in Hcount. cbn zeta in Hcount, Hq'.
  set (pks' := if fwft_read i s && output_valid_r s then pop_word pks1 else pks1) in *.
  set (o' := if fwft_read i s then head q else o).
  set (q' := if fwft_read i s && match q with [] => false | _ => true end
             then tail (written i s q) else written i s q) in *.
  destruct (release_ok i part pks Hne H2 Hpart) as [Hne1 H21]. fold pks1 in Hne1, H21.
  assert (Hemit : emitted i s = if fwft_read i s then olist o else []).
  { unfold emitted. rewrite Hv. destruct (fwft_read i s), o as [w|]; try done. cbn. by rewrite (Hd w). }
  assert (Hmove : (if fwft_read i s then olist o else []) ++ olist o' ++ q' = olist o ++ written i s q).
  { apply read_move. intros Hb. by apply Hbad. }
  assert (Hpop : emitted i s ++ concat (last_beats <$> pks') = concat (last_beats <$> pks1) /\
    olist o' ++ q' = held pks' (rx_part i part)).
  { rewrite Hheld in Hmove. unfold pks'. rewrite Hemit, Hv.
    destruct (fwft_read i s) eqn:Hrd; cbn [andb] in *; [|done].
    destruct o as [w|]; cbn [olist from_option app] in *; [|done].
    apply read_pops; [|done..]. unfold pks1. unfold fwft_read, read_packet in Hrd. rewrite Hg in Hrd.
    destruct (arrival_cases i part) as [_ ->]. destruct pks; [|done].
    change (packet_good i = true) in Hrd. by rewrite Hrd. }
  destruct Hpop as [Hout Hheld']. exists pks'. split; [|done].
  assert (Hne' : Forall (fun p => p <> []) pks' /\ Forall (fun p => (2 <= length p)%nat) (tail pks')).
  { unfold pks'. destruct (fwft_read i s && output_valid_r s); [by apply pop_word_ok|done]. }
  destruct Hne' as [Hne' H2']. exists o', q'. split; [exact Hq'|].
  unfold rx_clock. cbn [output_valid_r fifo_dout good_packets_remaining packet_length_counter]. rewrite Hr.
  split.
  { unfold o', empty_sig. rewrite (rx_queue_empty _ _ _ _ Hq). by destruct (fwft_read i s), q. }
  split.
  { intros x. unfold o'. destruct (fwft_read i s); [|apply Hd]. destruct q as [|y q0]; [done|].
    intros [= <-]. by apply (rx_queue_head _ _ (r_write_pointer s) y q0). }
  do 3 (split; [done|]). split.
  - assert (Hbound : Z.of_nat (length pks') < rx_rows).
    { pose proof (released_le pks' Hne' H2') as Hb. apply (f_equal length) in Hheld'. unfold held in Hheld'.
      rewrite !length_app in Hheld'. destruct Hq' as (_ & Hl & _). pose proof rx_rows_ge.
      assert (length (olist o') <= 1)%nat by (destruct o'; cbn; lia). lia. }
    unfold rx_rows in Hbound.
    destruct (packet_good i), (last_out s); cbn [andb negb] in *; rewrite ?Z.add_0_r, ?Z.sub_0_r in Hcount;
      rewrite <- ?Hcount; try (apply wrap_small; unfold is_u); lia.
  - destruct (arrival_cases i part) as [-> _]. destruct (tvalid (s_axis i)) eqn:Hva; cbn [andb] in *; [|done].
    rewrite Hfull. cbn [negb]. destruct (tlast (s_axis i)); [done|].
    rewrite Hc, wrap_add_idemp, length_app by lia. cbn [length]. f_equal. lia.
Qed.

(** ** Runs *)
Definition rx_stream (ins : list rx_in) : list (Z * bool * bool) := concat (arrivals <$> ins).

(** Good packets have at least two bytes (with one-byte packets the count of packets could
    reach the number of rows and wrap). *)
Definition packets_ok (ps : list (list Z * bool)) : Prop :=
  Forall (fun p : list Z * bool => p.2 = false -> (2 <= length p.1)%nat) ps.

Definition live (i : rx_in) : Prop := in_reset i = false.
Definition quiet (i : rx_in) : Prop := live i /\ tvalid (s_axis i) = false.

Lemma packets_app part evs evs' :
  packets part (evs ++ evs') = packets part evs ++ packets (partial part evs) evs' /\
  partial part (evs ++ evs') = partial (partial part evs) evs'.
Proof.
  revert part. induction evs as [|[[b last] bad] evs IH]; intros part; [done|]. cbn [app packets partial].
  destruct last; [|apply IH]. destruct (IH []) as [-> ->]. done.
Qed.

Lemma packets_arrivals i part ps :
  packets_ok (packets part (arrivals i) ++ ps) ->
  (packet_good i = true -> part <> []) /\ packets_ok ps.
Proof.
  intros [H1 H2]%Forall_app. split; [|done]. unfold packet_good, arrivals in *.
  destruct (tlast (s_axis i)) eqn:Hl, (tvalid (s_axis i)) eqn:Hv, (s_tuser i) eqn:Hu; try done. intros _ ->.
  inversion_clear H1 as [|? ? H _]. specialize (H eq_refl). cbn in H. lia.
Qed.

Lemma overflow_sticky ins s :
  Forall live ins -> overflowed_out (rx_run ins s).2 = false ->
  overflowed_out s = false.
Proof.
  intros Hins. revert s. induction Hins as [|i ins Hi _ IH]; intros s; [done|]. cbn [rx_run].
  specialize (IH (rx_clock i s)). destruct (rx_run ins (rx_clock i s)) as [out s']. cbn [snd] in *.
  intros H. apply IH in H. unfold rx_clock in H. cbn [overflowed_out] in H. rewrite Hi in H.
  by destruct (tvalid (s_axis i) && full_sig s).
Qed.

Lemma rx_dropped i s :
  live i -> tvalid (s_axis i) && full_sig s = false ->
  dropped_packets_count_u (rx_clock i s) =
    if ends_bad i then wrap 16 (dropped_packets_count_u s + 1) else dropped_packets_count_u s.
Proof.
  intros Hr Hf. unfold rx_clock, ends_bad. cbn [dropped_packets_count_u]. rewrite Hr.
  destruct (tvalid (s_axis i)); cbn [andb] in *; [|done]. by rewrite Hf.
Qed.

Lemma bad_count_app ps ps' : bad_count (ps ++ ps') = bad_count ps + bad_count ps'.
Proof. unfold bad_count. rewrite filter_app, length_app. lia. Qed.

Lemma bad_count_arrivals i part :
  bad_count (packets part (arrivals i)) = if ends_bad i then 1 else 0.
Proof.
  unfold bad_count, ends_bad, arrivals. destruct (tvalid (s_axis i)), (tlast (s_axis i)); try done. cbn [packets].
  by destruct (s_tuser i).
Qed.

Lemma good_beats_app ps ps' : good_beats (ps ++ ps') = good_beats ps ++ good_beats ps'.
Proof. unfold good_beats. by rewrite fmap_app, concat_app. Qed.

Lemma rx_run_step ins s part pks :
  Forall live ins -> calm ins s -> overflowed_out (rx_run ins s).2 = false ->
  packets_ok (packets part (rx_stream ins)) -> rx_inv s part pks -> is_u 16 (dropped_packets_count_u s) ->
  exists pks', rx_inv (rx_run ins s).2 (partial part (rx_stream ins)) pks' /\
    (rx_run ins s).1 ++ concat (last_beats <$> pks') =
      concat (last_beats <$> pks) ++ good_beats (packets part (rx_stream ins)) /\
    dropped_packets_count_u (rx_run ins s).2 =
      wrap 16 (dropped_packets_count_u s + bad_count (packets part (rx_stream ins))).
Proof.
  intros Hins. revert s part pks. induction Hins as [|i ins Hi Hins IH]; intros s part pks Hcalm Hov Hok Hinv Hu.
  - exists pks. cbn. rewrite app_nil_r. split; [done|]. split; [done|]. unfold bad_count. cbn.
    by rewrite Z.add_0_r, wrap_small.
  - destruct Hcalm as [Hback Hcalm]. cbn [rx_run] in *. unfold rx_stream in *. rewrite fmap_cons in *.
    cbn [concat] in *. fold (rx_stream ins) in *. destruct (packets_app part (arrivals i) (rx_stream ins)) as [Ep Ept].
    rewrite Ep in Hok. destruct (packets_arrivals i part _ Hok) as [Hpart Hok'].
    assert (Hov' : overflowed_out (rx_run ins (rx_clock i s)).2 = false).
    { by destruct (rx_run ins (rx_clock i s)). }
    assert (Hfull : tvalid (s_axis i) && full_sig s = false).
    { pose proof (overflow_sticky ins (rx_clock i s) Hins Hov') as H. unfold rx_clock in H.
      cbn [overflowed_out] in H. rewrite Hi in H. by destruct (tvalid (s_axis i) && full_sig s). }
    destruct (rx_edge i s part pks Hi Hfull Hpart Hback Hinv) as (pks1 & Hinv1 & Hout1).
    pose proof (rx_dropped i s Hi Hfull) as Hd.
    destruct (IH (rx_clock i s) (rx_part i part) pks1 Hcalm Hov' Hok' Hinv1) as (pks' & Hinv' & Hout & Hdrop).
    { rewrite Hd. destruct (ends_bad i); [by apply wrap_range|done]. }
    exists pks'. destruct (rx_run ins (rx_clock i s)) as [out s']. cbn [fst snd] in *. rewrite Ept. split; [done|].
    rewrite <- app_assoc, Hout, app_assoc, Hout1, fmap_app, concat_app, Ep, good_beats_app, <- app_assoc.
    unfold rx_new. rewrite !good_beats_of. split; [done|].
    unfold rx_part in Hdrop. rewrite Hdrop, Hd, bad_count_app, bad_count_arrivals. destruct (ends_bad i).
    + rewrite wrap_add_idemp by lia. f_equal. lia.
    + by rewrite Z.add_0_l.
Qed.

(** ** Progress *)
Definition rank (s : rx_regs) (pks : list (list Z)) : nat :=
  match concat (last_beats <$> pks) with
  | [] => 0
  | C => 2 * length C + (if output_valid_r s then 0 else 1)
  end%nat.

Lemma quiet_step i s part pks :
  quiet i -> rx_inv s part pks ->
  exists pks', rx_inv (rx_clock i s) part pks' /\
    emitted i s ++ concat (last_beats <$> pks') = concat (last_beats <$> pks) /\
    (rank (rx_clock i s) pks' <= rank s pks - 1)%nat.
Proof.
  intros [Hr Hv] Hinv. assert (Hpg : packet_good i = false) by (unfold packet_good; by rewrite Hv, andb_false_r).
  destruct (rx_edge i s part pks Hr) as (pks' & Hinv' & Hout); [by rewrite Hv|by rewrite Hpg| |done|].
  { unfold ends_bad. by rewrite Hv. }
  destruct (arrival_cases i part) as [Ep En]. rewrite Hv in Ep. rewrite Hpg in En.
  rewrite Ep in Hinv'. rewrite En, app_nil_r in Hout. exists pks'. split; [done|]. split; [done|].
  unfold rank. rewrite <- Hout. destruct Hinv as (o & q & Hq & Hov & _ & E & Hne & _ & Hg & _).
  destruct (emitted i s) as [|w l] eqn:He; cbn [app length].
  - destruct (concat (last_beats <$> pks')) eqn:Ec; [lia|]. cbn [app] in Hout.
    assert (Hp : pks <> []) by (intros ->; discriminate Hout).
    assert (Hrd : fwft_read i s = true).
    { unfold fwft_read, read_packet. rewrite Hg. by destruct pks. }
    unfold emitted in He. rewrite Hrd in He. destruct (output_valid_r s) eqn:Hs; [done|].
    destruct o as [|]; [done|]. cbn [olist from_option app] in E.
    assert (output_valid_r (rx_clock i s) = true) as ->.
    { unfold rx_clock. cbn [output_valid_r]. rewrite Hr, Hrd. unfold empty_sig.
      rewrite (rx_queue_empty _ _ _ _ Hq), E. unfold held. by rewrite <- Hout. }
    lia.
  - rewrite length_app. destruct (concat (last_beats <$> pks')); cbn [length]; [lia|].
    destruct (output_valid_r s), (output_valid_r (rx_clock i s)); lia.
Qed.

Lemma drain_rx_run ins s part pks :
  Forall quiet ins -> rx_inv s part pks -> (rank s pks <= length ins)%nat ->
  (rx_run ins s).1 = concat (last_beats <$> pks).
Proof.
  intros Hins. revert s pks. induction Hins as [|i ins Hi _ IH]; intros s pks Hinv Hn; cbn [rx_run length] in *.
  - unfold rank in Hn. destruct (concat (last_beats <$> pks)); [done|cbn [length] in *; lia].
  - destruct (quiet_step i s part pks Hi Hinv) as (pks' & Hinv' & <- & Hr).
    specialize (IH (rx_clock i s) pks' Hinv' ltac:(lia)). destruct (rx_run ins _). cbn [fst] in *. by rewrite IH.
Qed.

Lemma reset_rx_inv i s :
  in_reset i = true -> length (ram s) = Z.to_nat rx_rows ->
  rx_inv (rx_clock i s) [] [] /\ dropped_packets_count_u (rx_clock i s) = 0.
Proof.
  intros Hr Hl. pose proof rx_rows_ge. unfold rx_inv, rx_clock.
  cbn [ram r_read_pointer r_write_pointer output_valid_r fifo_dout good_packets_remaining packet_length_counter
       dropped_packets_count_u]. rewrite Hr. split; [|done]. exists None, [].
  assert (Hw : forall w, 0 <= w -> wrap w 0 = 0) by (intros w Hw; apply Z.mod_0_l, Z.pow_nonzero; lia).
  split.
  { split; [by destruct (_ && _); rewrite ?length_insert|]. split; [cbn; lia|]. exists 0.
    cbn [length]. rewrite Z.add_0_r, Hw by lia. done. }
  do 6 (split; [done|]). cbn [length]. by rewrite Hw by lia.
Qed.

Lemma rx_run_app ins ins' s :
  (rx_run (ins ++ ins') s).1 = (rx_run ins s).1 ++ (rx_run ins' (rx_run ins s).2).1.
Proof.
  revert s. induction ins as [|i ins IH]; intros s; cbn [rx_run app]; [done|]. specialize (IH (rx_clock i s)).
  destruct (rx_run (ins ++ ins') _), (rx_run ins _). cbn [fst snd] in *. by rewrite IH, app_assoc.
Qed.

Lemma rx_from_reset i0 s0 ins pause :
  in_reset i0 = true -> length (ram s0) = Z.to_nat rx_rows -> Forall live ins -> Forall quiet pause ->
  let s := rx_clock i0 s0 in
  let ps := packets [] (rx_stream ins) in
  calm ins s -> overflowed_out (rx_run ins s).2 = false -> packets_ok ps ->
  (2 * length (good_beats ps) + 1 <= length pause)%nat ->
  (rx_run ins s).1 `prefix_of` good_beats ps /\
  (rx_run (ins ++ pause) s).1 = good_beats ps /\
  dropped_packets_count_u (rx_run ins s).2 = wrap 16 (bad_count ps).
Proof.
  intros Hr Hl Hins Hpause s ps Hcalm Hov Hok Hn. destruct (reset_rx_inv i0 s0 Hr Hl) as [Hinv Hd0].
  fold s in Hinv, Hd0. destruct (rx_run_step ins s [] [] Hins Hcalm Hov Hok Hinv) as (pks' & Hinv' & Hout & Hd).
  { by rewrite Hd0. }
  fold ps in Hout, Hd. cbn [fmap list_fmap concat app] in Hout. rewrite Hd0 in Hd.
  split; [by eexists|]. split; [|done]. rewrite rx_run_app.
  rewrite (drain_rx_run pause _ _ pks' Hpause Hinv'); [done|].
  rewrite <- Hout, length_app in Hn. unfold rank.
  destruct (concat (last_beats <$> pks')); [lia|]. cbn [length] in *. destruct (output_valid_r _); lia.
Qed.

(** Without bad packets every run is calm. *)
Lemma calm_good ins s :
  Forall (fun i => ends_bad i = false) ins -> calm ins s.
Proof.
  intros H. revert s. induction H as [|i ins Hi _ IH]; intros s; [done|]. cbn [calm]. by rewrite Hi.
Qed.

(** C9. After a reset, for any packets with any gaps: as long as no overflow is flagged, every
    good packet has at least two bytes, and every bad packet ends on an edge on which the read side neither has
    nor fetches a word of it, what comes out is at every point a prefix of
    the good packets' bytes, all of them once the input pauses for twice their number and one more edges, and the
    bad packets are counted modulo [2^16]. *)
Theorem rx_buffer_passes_good i0 s0 ins pause :
  in_reset i0 = true -> length (ram s0) = Z.to_nat rx_rows -> Forall live ins -> Forall quiet pause ->
  let s := rx_clock i0 s0 in
  let ps := packets [] (rx_stream ins) in
  calm ins s -> overflowed_out (rx_run ins s).2 = false -> packets_ok ps ->
  (2 * length (good_beats ps) + 1 <= length pause)%nat ->
  (rx_run ins s).1 `prefix_of` good_beats ps /\
  (rx_run (ins ++ pause) s).1 = good_beats ps /\
  dropped_packets_count_u (rx_run ins s).2 = wrap 16 (bad_count ps).
Proof. apply rx_from_reset. Qed.
End RxPacketBuffer.

(** ** Witness and examples *)
Definition demo_power_up : rx_regs := RxRegs (replicate 16 (0, false)) 0 0 0 (0, false) false 0 0 false.
Definition demo_reset : rx_in := RxIn true no_axis false.
Definition demo_gap : rx_in := RxIn false no_axis false.
Definition demo_packet (bytes : list Z) (bad : bool) : list rx_in :=
  (fun bl => RxIn false (Axis bl.1 true bl.2) (bl.2 && bad)) <$> last_beats bytes.

(** A good packet; a bad one when it has been read; a good one. *)
Definition demo_ins : list rx_in :=
  demo_packet [1; 2; 3; 4] false ++ replicate 5 demo_gap ++ demo_packet [9; 9; 9] true ++
  demo_packet [5; 6] false.

Lemma rx_buffer_passes_good_witness :
  (rx_run 4 (demo_ins ++ replicate 13 demo_gap) (rx_clock 4 demo_reset demo_power_up)).1 =
    last_beats [1; 2; 3; 4] ++ last_beats [5; 6] /\
  dropped_packets_count_u (rx_run 4 demo_ins (rx_clock 4 demo_reset demo_power_up)).2 = 1.
Proof.
  apply (rx_buffer_passes_good 4 ltac:(lia) demo_reset demo_power_up demo_ins (replicate 13 demo_gap)).
  - reflexivity.
  - reflexivity.
  - repeat constructor.
  - repeat constructor.
  - vm_compute. repeat split; intros H; done || reflexivity.
  - vm_compute. reflexivity.
  - repeat constructor; vm_compute; lia.
  - vm_compute. lia.
Defined.

(** A bad packet that arrives while the previous one is still read out: the read side fetches its
    first byte as soon as it has finished, the write pointer then moves back
    behind the read pointer, and the good packet that follows is broken. *)
Definition damage_ins : list rx_in :=
  demo_packet [1; 2; 3; 4] false ++ demo_packet [9; 9; 9; 9; 9; 9] true ++
  replicate 3 demo_gap ++ demo_packet [5; 6; 7; 8] false ++ replicate 10 demo_gap.
Example bad_packet_damages_next :
  let s := rx_clock 4 demo_reset demo_power_up in
  (rx_run 4 damage_ins s).1 = last_beats [1; 2; 3; 4] ++ last_beats [9; 6; 7; 8].
Proof. vm_compute. reflexivity. Qed.
