(* ===== verification/UdpLink.v ===== *)
(** * Datagrams from station to station

    The UDP framer and the UDP deframer put together directly; UdpStack.v puts the
    Ethernet components between them. *)

From S2P Require Import Prelude.
From S2P Require Import Axis.
From S2P Require Import UdpDevice.
From S2P Require Import UdpIpFramer.
From S2P Require Import UdpIpFramerDrain.
From S2P Require UdpIpDeframer.

(** ** One datagram *)
Definition wired (c : framer_config) : Prop :=
  is_u 16 (destination_port c) /\ is_u 32 (destination_address c).

(** The framer's destination is the deframer's station. *)
Definition for_udp_station (c : framer_config) (d : deframer_config) : bool :=
  ((destination_address c =? deframer_address d) || (destination_address c =? broadcast_address d)) &&
  (destination_port c =? deframer_port d).

Lemma address_of_slices a :
  is_u 32 a -> UdpIpDeframer.be_word [slice a 31 24; slice a 23 16; slice a 15 8; slice a 7 0] = a.
Proof.
  intros Ha. apply Z.bits_inj'. intros i Hi. unfold UdpIpDeframer.be_word. cbn [foldl].
  destruct (Z.lt_ge_cases i 32).
  2: { rewrite (testbit_high 32 a), UdpIpDeframer.testbit_address_shift, testbit_slice by (done || lia).
    zcases; cbn [andb orb]; done || lia. }
  assert (0 <= i < 8 \/ 8 <= i < 16 \/ 16 <= i < 24 \/ 24 <= i < 32) as [Hb|[Hb|[Hb|Hb]]] by lia;
    repeat (rewrite UdpIpDeframer.testbit_address_shift by lia);
    rewrite !testbit_slice by lia; zcases; cbn [andb orb]; rewrite ?orb_false_r; try done; try lia;
    f_equal; lia.
Qed.

Lemma port_of_slices p :
  is_u 16 p -> Z.lor (Z.shiftl (wrap 8 (slice p 15 8)) 8) (slice p 7 0) = p.
Proof.
  intros Hp. apply Z.bits_inj'. intros i Hi.
  rewrite Z.lor_spec, testbit_shiftl, testbit_slice by lia. destruct (Z.lt_ge_cases i 16).
  - destruct (Z.lt_ge_cases i 8).
    + rewrite testbit_wrap by lia. rewrite (Z.testbit_neg_r _ (i - 8)) by lia.
      rewrite !andb_false_r, (proj2 (Z.leb_le i (7 - 0))) by lia. cbn [andb orb]. f_equal. lia.
    + rewrite testbit_wrap, testbit_slice by lia.
      zcases; cbn [andb orb]; rewrite ?orb_false_r; try done; try lia. f_equal. lia.
  - rewrite !(testbit_high 16 p) by (done || lia).
    rewrite (testbit_high 8 (wrap 8 (slice p 15 8))); [|by apply wrap_range|lia].
    by rewrite !andb_false_r.
Qed.

Lemma options_datagram c p : UdpIpDeframer.options (datagram c p) = 0%nat.
Proof. reflexivity. Qed.

Lemma complete_datagram c p : UdpIpDeframer.complete (datagram c p).
Proof.
  unfold UdpIpDeframer.complete. change (UdpIpDeframer.version (datagram c p)) with 4.
  change (UdpIpDeframer.protocol (datagram c p)) with 0x11. cbn [negb Z.eqb Pos.eqb UdpIpDeframer.C_IP_VERSION
    UdpIpDeframer.C_IP_UDP_PROTOCOL].
  rewrite options_datagram. unfold datagram. rewrite length_app, full_header_length. lia.
Qed.

Lemma drop_reason_datagram c d p :
  wired c -> (UdpIpDeframer.drop_reason d (datagram c p) =? 0) = for_udp_station c d.
Proof.
  intros [Hp Ha]. unfold UdpIpDeframer.drop_reason.
  assert (Ea : UdpIpDeframer.datagram_address (datagram c p) = destination_address c).
  { unfold UdpIpDeframer.datagram_address. by apply address_of_slices. }
  assert (Ep : UdpIpDeframer.datagram_port (datagram c p) = destination_port c).
  { unfold UdpIpDeframer.datagram_port. rewrite options_datagram. by apply port_of_slices. }
  rewrite Ea, Ep. change (UdpIpDeframer.version (datagram c p)) with 4.
  change (UdpIpDeframer.protocol (datagram c p)) with 0x11. cbn [negb Z.eqb Pos.eqb
    UdpIpDeframer.C_IP_VERSION UdpIpDeframer.C_IP_UDP_PROTOCOL]. unfold for_udp_station.
  by destruct (_ || _), (destination_port c =? deframer_port d).
Qed.

Lemma deframe_datagram c d p :
  wired c -> UdpIpDeframer.udp_deframe d (datagram c p) = if for_udp_station c d then last_beats p else [].
Proof.
  intros Hc. unfold UdpIpDeframer.udp_deframe. rewrite drop_reason_datagram by done.
  destruct (for_udp_station c d); [|done]. unfold UdpIpDeframer.datagram_payload. rewrite options_datagram.
  unfold datagram. by rewrite (drop_app_length' _ _ 28).
Qed.

(** ** Streams *)

(** The framer's limits: a payload is not empty and fits the length counter. *)
Definition payload_ok (p : list Z) : Prop := p <> [] /\ (length p <= 2047)%nat.

Lemma lengths_ok_snoc part p evs :
  (length part + length p <= 2047)%nat -> lengths_ok [] evs ->
  p <> [] -> lengths_ok part (last_beats p ++ evs).
Proof.
  revert part. induction p as [|b p IH]; intros part Hl Hev Hne; [done|]. rewrite last_beats_cons.
  cbn [length app lengths_ok] in *. split; [lia|]. destruct p as [|b' p]; [done|].
  apply IH; [|done..]. rewrite length_app. cbn [length] in *. lia.
Qed.

Lemma datagrams_snoc c part p evs :
  p <> [] -> datagrams c part (last_beats p ++ evs) = last_beats (datagram c (part ++ p)) ++ datagrams c [] evs.
Proof.
  revert part. induction p as [|b p IH]; intros part Hne; [done|]. rewrite last_beats_cons.
  cbn [app datagrams]. destruct p as [|b' p]; [done|]. rewrite IH by done. by rewrite <- app_assoc.
Qed.

Lemma packets_stream c ps :
  Forall payload_ok ps ->
  lengths_ok [] (concat (last_beats <$> ps)) /\
  datagrams c [] (concat (last_beats <$> ps)) = concat (last_beats <$> (datagram c <$> ps)).
Proof.
  induction 1 as [|p ps [Hp Hl] _ [IH1 IH2]]; [done|]. cbn [fmap list_fmap concat]. split.
  - apply lengths_ok_snoc; [cbn; lia|done..].
  - by rewrite datagrams_snoc, IH2 by done.
Qed.

(** Sent by the framer: the datagrams of the packets taken. *)
Lemma framer_stream c i0 s0 ins pause ps :
  in_reset i0 = true -> rams_ok s0 -> Forall (in_ok c) ins -> Forall (quiet c) pause ->
  Forall payload_ok ps ->
  (udp_framer_run ins (udp_framer_clock i0 s0)).1.1 = concat (last_beats <$> ps) ->
  (2 * length (concat (last_beats <$> (datagram c <$> ps))) + 4 <= length pause)%nat ->
  (udp_framer_run (ins ++ pause) (udp_framer_clock i0 s0)).1.2 = concat (last_beats <$> (datagram c <$> ps)).
Proof.
  intros Hr Hram Hins Hpause Hps Hev Hn. destruct (packets_stream c ps Hps) as [Hl Hd].
  pose proof (udp_framer_from_reset c i0 s0 ins pause Hr Hram Hins Hpause) as H. cbn zeta in H.
  rewrite Hev, Hd in H. destruct (H Hl Hn) as [_ E]. by rewrite E.
Qed.

Lemma deframe_datagrams c d ps :
  wired c -> for_udp_station c d = true ->
  concat (UdpIpDeframer.udp_deframe d <$> (datagram c <$> ps)) = concat (last_beats <$> ps).
Proof.
  intros Hc Hd. induction ps as [|p ps IH]; [done|]. cbn [fmap list_fmap concat].
  by rewrite IH, deframe_datagram, Hd.
Qed.

Lemma number_all (f : list Z -> bool) (b : bool) (g : list Z -> list Z) ps :
  Forall (fun p => f (g p) = b) ps ->
  UdpIpDeframer.number f (g <$> ps) = if b then Z.of_nat (length ps) else 0.
Proof.
  induction 1 as [|p ps Hp _ IH]; [by destruct b|]. cbn [fmap list_fmap length].
  rewrite UdpIpDeframer.number_cons, IH, Hp. destruct b; cbn [Z.b2z]; lia.
Qed.

(** The counters of a station that all datagrams are for. *)
Lemma all_counted c d ps :
  wired c -> for_udp_station c d = true -> Forall payload_ok ps ->
  UdpIpDeframer.number (UdpIpDeframer.is_valid d) (datagram c <$> ps) = Z.of_nat (length ps) /\
  UdpIpDeframer.number (UdpIpDeframer.is_dropped d) (datagram c <$> ps) = 0.
Proof.
  intros Hc Hd Hps. split.
  - apply (number_all _ true). eapply Forall_impl; [exact Hps|]. intros p [Hp _].
    unfold UdpIpDeframer.is_valid. rewrite deframe_datagram, Hd by done.
    destruct p as [|x p]; [done|]. by rewrite last_beats_cons.
  - apply (number_all _ false). eapply Forall_impl; [exact Hps|]. intros p _.
    unfold UdpIpDeframer.is_dropped. by rewrite drop_reason_datagram, Hd.
Qed.

(** UDP payloads arrive: the packets the UDP framer takes after a reset (any gaps,
    any back-pressure), its bytes arriving at a UDP deframer with any gaps, come out of it as the
    same packets in order when address and port match; the deframer counts them
    all as valid and none as dropped. *)
Theorem udp_roundtrip c d i0 s0 ins pause ps j0 r0 dins gap :
  wired c -> for_udp_station c d = true -> deframer_enable d = true ->
  in_reset i0 = true -> rams_ok s0 -> Forall (in_ok c) ins -> Forall (quiet c) pause ->
  Forall payload_ok ps ->
  (udp_framer_run ins (udp_framer_clock i0 s0)).1.1 = concat (last_beats <$> ps) ->
  (2 * length (concat (last_beats <$> (datagram c <$> ps))) + 4 <= length pause)%nat ->
  UdpIpDeframer.in_reset j0 = true -> Forall (UdpIpDeframer.in_ok d) (dins ++ [gap]) ->
  tvalid (UdpIpDeframer.s_axis gap) = false ->
  UdpIpDeframer.in_beats dins = (udp_framer_run (ins ++ pause) (udp_framer_clock i0 s0)).1.2 ->
  let '(out, r) := UdpIpDeframer.udp_deframer_run (dins ++ [gap]) (UdpIpDeframer.udp_deframer_clock j0 r0) in
  out = concat (last_beats <$> ps) /\
  UdpIpDeframer.valid_packets_count_u r = wrap 16 (Z.of_nat (length ps)) /\
  UdpIpDeframer.dropped_packets_count_u r = 0.
Proof.
  intros Hc Hd He Hr Hram Hins Hpause Hps Hev Hn Hr' Hdins Hgap Hline.
  rewrite (framer_stream c i0 s0 ins pause ps) in Hline by done.
  pose proof (UdpIpDeframer.run_after_reset d He j0 r0 dins gap (datagram c <$> ps) Hr' Hdins Hgap Hline) as H.
  destruct (UdpIpDeframer.udp_deframer_run _ _) as [out r]. destruct H as (H1 & _ & H2 & H3 & _).
  { apply Forall_fmap, Forall_true. intros p. apply complete_datagram. }
  destruct (all_counted c d ps Hc Hd Hps) as [E1 E2].
  by rewrite H1, H2, H3, E1, E2, deframe_datagrams by done.
Qed.
