(* ===== verification/RmiiTx.v ===== *)
(** * The RMII transmitter: [ethernet/rmii/rmii_mac_tx.vhd]

    The entity clock by clock, fed from a queue of whole packets (as [packet_afifo] in
    [rmii_mac.vhd] provides them).  Theorem: the line carries, between idle times,
    preamble, start delimiter and the dibits of every packet in order, and
    the queue empties in a number of edges linear in what is in it. *)

From S2P Require Import Prelude.
From S2P Require Import Axis.

Definition C_PREAMBLE_LENGTH_DIBITS_U : Z := 31.
Definition C_IPG_LENGTH_U : Z := 56.

Inductive fsm_state_t := S_IDLE | S_PREAMBLE | S_SFD | S_DATA | S_IPG.

Record tx_regs := TxRegs {
  di_bit_select : Z;
  cycle_counter : Z;
  fsm_state : fsm_state_t;
  tx_en : bool;
  txd : Z;
  s_axis_tready : bool
}.

(** One rising edge of [clk50]. *)
Definition tx_clock (reset : bool) (a : axis) (s : tx_regs) : tx_regs :=
  let zero := cycle_counter s =? 0 in
  let d := di_bit_select s in
  {| di_bit_select :=
       if reset then 0
       else match fsm_state s with
            | S_IDLE => if tvalid a then 0 else d
            | S_DATA => wrap 2 (d + 1)
            | _ => d
            end;
     cycle_counter :=
       match fsm_state s with
       | S_IDLE => if tvalid a then C_PREAMBLE_LENGTH_DIBITS_U - 1 else wrap 12 (cycle_counter s - 1)
       | S_DATA => if tlast a && (d =? 3) then C_IPG_LENGTH_U else wrap 12 (cycle_counter s - 1)
       | _ => wrap 12 (cycle_counter s - 1)
       end;
     fsm_state :=
       if reset then S_IDLE
       else match fsm_state s with
            | S_IDLE => if tvalid a then S_PREAMBLE else S_IDLE
            | S_PREAMBLE => if zero then S_SFD else S_PREAMBLE
            | S_SFD => S_DATA
            | S_DATA => if tlast a && (d =? 3) then S_IPG else S_DATA
            | S_IPG => if zero then S_IDLE else S_IPG
            end;
     tx_en :=
       if reset then false
       else match fsm_state s with S_PREAMBLE | S_SFD | S_DATA => true | _ => false end;
     txd :=
       if reset then 0
       else match fsm_state s with
            | S_PREAMBLE => 1
            | S_SFD => 3
            | S_DATA =>
                if d =? 0 then slice (tdata a) 1 0
                else if d =? 1 then slice (tdata a) 3 2
                else if d =? 2 then slice (tdata a) 5 4
                else slice (tdata a) 7 6
            | _ => 0
            end;
     s_axis_tready := match fsm_state s with S_DATA => d =? 2 | _ => false end |}.

(** ** The transmitter on a queue *)

(** What the queue shows; [stale] is on the data ports when it is empty. *)
Definition queue_axis (stale : Z * bool) (q : list beat) : axis :=
  match q with
  | [] => Axis stale.1 false stale.2
  | (b, last) :: _ => Axis b true last
  end.

(** An edge without reset, on which the queue pops and the packets [ps] arrive. *)
Definition tx_step (stale : Z * bool) (ps : list (list Z)) (x : tx_regs * list beat) : tx_regs * list beat :=
  let '(s, q) := x in
  (tx_clock false (queue_axis stale q) s,
   (if s_axis_tready s then tail q else q) ++ concat (last_beats <$> ps)).

(** The line: [tx_en] and [txd] after every edge. *)
Abbreviation dibit := (bool * Z)%type.

Fixpoint tx_run (ins : list ((Z * bool) * list (list Z))) (x : tx_regs * list beat)
    : list dibit * (tx_regs * list beat) :=
  match ins with
  | [] => ([], x)
  | (stale, ps) :: ins' =>
      let x1 := tx_step stale ps x in
      let '(out, x2) := tx_run ins' x1 in ((tx_en x1.1, txd x1.1) :: out, x2)
  end.

(** ** The line *)
Definition line_idle (n : nat) : list dibit := replicate n (false, 0).
Definition byte_dibits (b : Z) : list dibit :=
  [(true, slice b 1 0); (true, slice b 3 2); (true, slice b 5 4); (true, slice b 7 6)].
Definition data_dibits (p : list Z) : list dibit := concat (byte_dibits <$> p).
Definition preamble : list dibit := replicate 31 (true, 1) ++ [(true, 3)].

(** Packets on the line, each after a gap. *)
Definition line_frames (fs : list (nat * list Z)) : list dibit :=
  concat ((fun gp => line_idle gp.1 ++ preamble ++ data_dibits gp.2) <$> fs).

(** The gaps between packets are at least the inter-packet gap. *)
Definition gaps_ok (fs : list (nat * list Z)) : Prop :=
  Forall (fun gp : nat * list Z => (58 <= gp.1)%nat) (tail fs).

(** ** The invariant *)

(** The part of the packet under way that is on the line, [rem] still to be
    sent from the queue (the current byte included). *)
Definition tx_inv (x : tx_regs * list beat) (L : list dibit) (sent waiting : list (list Z)) : Prop :=
  let '(s, q) := x in
  exists fs, gaps_ok fs /\ Forall (fun p => p <> []) waiting /\
  match fsm_state s with
  | S_IDLE =>
      exists g, L = line_frames fs ++ line_idle g /\ snd <$> fs = sent /\
        q = concat (last_beats <$> waiting) /\ (s_axis_tready s = true -> waiting = []) /\
        (fs <> [] -> (57 <= g)%nat)
  | S_PREAMBLE =>
      exists g k, L = line_frames fs ++ line_idle g ++ replicate k (true, 1) /\ snd <$> fs = sent /\
        q = concat (last_beats <$> waiting) /\ waiting <> [] /\ s_axis_tready s = false /\
        di_bit_select s = 0 /\ (k <= 30)%nat /\ cycle_counter s = 30 - Z.of_nat k /\ (fs <> [] -> (58 <= g)%nat)
  | S_SFD =>
      exists g, L = line_frames fs ++ line_idle g ++ replicate 31 (true, 1) /\ snd <$> fs = sent /\
        q = concat (last_beats <$> waiting) /\ waiting <> [] /\ s_axis_tready s = false /\
        di_bit_select s = 0 /\ (fs <> [] -> (58 <= g)%nat)
  | S_DATA =>
      exists g done b rem k, L = line_frames fs ++ line_idle g ++ preamble ++ data_dibits done ++ take k (byte_dibits b) /\
        (snd <$> fs) ++ [done ++ b :: rem] = sent /\
        q = last_beats (b :: rem) ++ concat (last_beats <$> waiting) /\
        (k < 4)%nat /\ di_bit_select s = Z.of_nat k /\ s_axis_tready s = (k =? 3)%nat /\
        (fs <> [] -> (58 <= g)%nat)
  | S_IPG =>
      exists k, L = line_frames fs ++ line_idle k /\ snd <$> fs = sent /\
        q = concat (last_beats <$> waiting) /\ s_axis_tready s = false /\
        (k <= 56)%nat /\ cycle_counter s = 56 - Z.of_nat k
  end.

Lemma line_idle_snoc n : line_idle n ++ [(false, 0)] = line_idle (S n).
Proof. unfold line_idle. by rewrite <- replicate_S_end. Qed.

Lemma line_frames_snoc fs g p :
  line_frames (fs ++ [(g, p)]) = line_frames fs ++ line_idle g ++ preamble ++ data_dibits p.
Proof. unfold line_frames. rewrite fmap_app, concat_app. cbn. by rewrite app_nil_r. Qed.

Lemma gaps_ok_snoc fs g p : gaps_ok fs -> (fs <> [] -> (58 <= g)%nat) -> gaps_ok (fs ++ [(g, p)]).
Proof.
  unfold gaps_ok. destruct fs as [|f fs]; [constructor|]. cbn [app tail]. intros H Hg.
  apply Forall_app. split; [done|]. constructor; [by apply Hg|constructor].
Qed.

Lemma data_dibits_snoc p b : data_dibits (p ++ [b]) = data_dibits p ++ byte_dibits b.
Proof. unfold data_dibits. rewrite fmap_app, concat_app. cbn [fmap list_fmap concat]. by rewrite app_nil_r. Qed.

Lemma queue_shows stale (p : list Z) ps :
  p <> [] -> exists b rem, p = b :: rem /\
    queue_axis stale (concat (last_beats <$> (p :: ps))) =
      Axis b true (match rem with [] => true | _ => false end) /\
    concat (last_beats <$> (p :: ps)) = last_beats (b :: rem) ++ concat (last_beats <$> ps).
Proof.
  intros Hp. destruct p as [|b rem]; [done|]. exists b, rem. split; [done|]. cbn [fmap list_fmap concat].
  rewrite last_beats_cons. done.
Qed.

Section Edge.
Context (stale : Z * bool) (ps : list (list Z)) (Hps : Forall (fun p => p <> []) ps).

Abbreviation next s q := (tx_step stale ps (s, q)).
Abbreviation out s q := ((tx_en (next s q).1, txd (next s q).1)).

Lemma waiting_app (waiting : list (list Z)) :
  concat (last_beats <$> waiting) ++ concat (last_beats <$> ps) = concat (last_beats <$> (waiting ++ ps)).
Proof. by rewrite fmap_app, concat_app. Qed.

Lemma edge_idle s q L sent waiting :
  fsm_state s = S_IDLE -> tx_inv (s, q) L sent waiting ->
  tx_inv (next s q) (L ++ [out s q]) sent (waiting ++ ps).
Proof.
  intros Hst (fs & Hg & Hw & H). rewrite Hst in H. destruct H as (g & -> & <- & -> & Hr & Hgap).
  assert (Ho : out s (concat (last_beats <$> waiting)) = (false, 0)) by (cbn; by rewrite Hst).
  rewrite Ho, <- app_assoc, line_idle_snoc. exists fs. split; [done|].
  split; [by apply Forall_app|]. cbn [tx_step fst].
  assert (Hq : (if s_axis_tready s then tail (concat (last_beats <$> waiting)) else concat (last_beats <$> waiting)) =
    concat (last_beats <$> waiting)).
  { destruct (s_axis_tready s); [|done]. by rewrite (Hr eq_refl). }
  rewrite Hq, waiting_app. clear Hq.
  destruct waiting as [|p waiting].
  - cbn [fmap list_fmap concat queue_axis]. unfold tx_clock at 1. cbn [fsm_state tvalid]. rewrite Hst.
    exists (S g). do 3 (split; [done|]). split; [|intros Hf; specialize (Hgap Hf); lia].
    unfold tx_clock. cbn [s_axis_tready]. by rewrite Hst.
  - inversion_clear Hw as [|? ? Hp _]. destruct (queue_shows stale p waiting Hp) as (b & rem & -> & -> & _).
    unfold tx_clock. cbn [fsm_state tvalid s_axis_tready di_bit_select cycle_counter]. rewrite Hst.
    exists (S g), 0%nat. cbn [replicate]. rewrite app_nil_r. do 3 (split; [done|]). split; [done|]. split; [done|].
    split; [done|]. split; [lia|]. split; [done|]. intros Hf. specialize (Hgap Hf). lia.
Qed.

Lemma edge_preamble s q L sent waiting :
  fsm_state s = S_PREAMBLE -> tx_inv (s, q) L sent waiting ->
  tx_inv (next s q) (L ++ [out s q]) sent (waiting ++ ps).
Proof.
  intros Hst (fs & Hg & Hw & H). rewrite Hst in H.
  destruct H as (g & k & -> & <- & -> & Hne & Hr & Hd & Hk & Hc & Hgap).
  assert (Ho : out s (concat (last_beats <$> waiting)) = (true, 1)) by (cbn; by rewrite Hst).
  rewrite Ho, <- !app_assoc, <- replicate_S_end. exists fs. split; [done|].
  split; [by apply Forall_app|]. cbn [tx_step fst]. rewrite Hr, waiting_app.
  unfold tx_clock. cbn [fsm_state s_axis_tready di_bit_select cycle_counter]. rewrite Hst, Hc.
  assert (Hne' : waiting ++ ps <> []) by (by destruct waiting).
  destruct (Z.eqb_spec (30 - Z.of_nat k) 0) as [E|E].
  - exists g. replace k with 30%nat by lia. repeat split; try done.
  - exists g, (S k). do 7 (split; [done || lia|]). split; [|done]. rewrite wrap_small; [lia|]. unfold is_u. lia.
Qed.

Lemma edge_sfd s q L sent waiting :
  fsm_state s = S_SFD -> tx_inv (s, q) L sent waiting ->
  exists p rest, waiting = p :: rest /\
    tx_inv (next s q) (L ++ [out s q]) (sent ++ [p]) (rest ++ ps).
Proof.
  intros Hst (fs & Hg & Hw & H). rewrite Hst in H. destruct H as (g & -> & <- & -> & Hne & Hr & Hd & Hgap).
  destruct waiting as [|p rest]; [done|]. exists p, rest. split; [done|].
  assert (Ho : out s (concat (last_beats <$> (p :: rest))) = (true, 3)) by (cbn; by rewrite Hst).
  inversion_clear Hw as [|? ? Hp Hw']. rewrite Ho, <- !app_assoc. exists fs. split; [done|].
  split; [by apply Forall_app|]. cbn [tx_step fst]. rewrite Hr.
  destruct (queue_shows stale p rest Hp) as (b & rem & -> & -> & ->). rewrite <- app_assoc, waiting_app.
  unfold tx_clock. cbn [fsm_state s_axis_tready di_bit_select cycle_counter]. rewrite Hst.
  exists g, [], b, rem, 0%nat. cbn [take]. unfold data_dibits. cbn [fmap list_fmap concat]. rewrite !app_nil_r.
  repeat split; try done. lia.
Qed.

(** The dibit sent for the byte at the head of the queue. *)
Lemma edge_data_dibit s q b last k :
  fsm_state s = S_DATA -> queue_axis stale q = Axis b true last -> di_bit_select s = Z.of_nat k -> (k < 4)%nat ->
  exists x, out s q = x /\ take (S k) (byte_dibits b) = take k (byte_dibits b) ++ [x].
Proof.
  intros Hst Hq Hd Hk. eexists. split; [reflexivity|]. cbn [tx_step fst]. rewrite Hq.
  unfold tx_clock. cbn [tx_en txd]. rewrite Hst, Hd. cbn [tdata].
  destruct k as [|[|[|[|k]]]]; [reflexivity..|lia].
Qed.

Lemma edge_data s q L sent waiting :
  fsm_state s = S_DATA -> tx_inv (s, q) L sent waiting ->
  tx_inv (next s q) (L ++ [out s q]) sent (waiting ++ ps).
Proof.
  intros Hst (fs & Hg & Hw & H). rewrite Hst in H.
  destruct H as (g & done & b & rem & k & -> & <- & -> & Hk & Hd & Hr & Hgap).
  set (q := last_beats (b :: rem) ++ concat (last_beats <$> waiting)).
  assert (Hq : queue_axis stale q = Axis b true (match rem with [] => true | _ => false end)).
  { unfold q. by rewrite last_beats_cons. }
  destruct (edge_data_dibit s q b _ k Hst Hq Hd Hk) as (x & -> & Htake).
  rewrite <- !app_assoc, <- Htake. cbn [tx_step fst]. rewrite Hr, Hq.
  assert (Hw' : Forall (fun p => p <> []) (waiting ++ ps)) by (by apply Forall_app).
  destruct (Nat.eqb_spec k 3) as [->|Hk3].
  - change (take 4 (byte_dibits b)) with (byte_dibits b). unfold q. rewrite last_beats_cons. cbn [app tail].
    rewrite <- app_assoc, waiting_app. destruct rem as [|b' rem].
    + exists (fs ++ [(g, done ++ [b])]). split; [by apply gaps_ok_snoc|]. split; [done|].
      unfold tx_clock. cbn [fsm_state s_axis_tready di_bit_select cycle_counter tlast]. rewrite Hst, Hd.
      exists 0%nat. rewrite line_frames_snoc, data_dibits_snoc, fmap_app, <- !app_assoc.
      cbn [fmap list_fmap snd]. change (line_idle 0) with (@nil dibit). rewrite app_nil_r.
      repeat split; done || lia.
    + exists fs. split; [done|]. split; [done|].
      unfold tx_clock. cbn [fsm_state s_axis_tready di_bit_select cycle_counter tlast]. rewrite Hst, Hd.
      exists g, (done ++ [b]), b', rem, 0%nat. rewrite data_dibits_snoc, <- !app_assoc. cbn [take]. rewrite app_nil_r.
      repeat split; done || lia.
  - exists fs. split; [done|]. split; [done|]. unfold tx_clock.
    cbn [fsm_state s_axis_tready di_bit_select cycle_counter tlast]. rewrite Hst, Hd.
    rewrite (proj2 (Z.eqb_neq (Z.of_nat k) 3)), andb_false_r by lia.
    exists g, done, b, rem, (S k). split; [done|]. split; [done|]. unfold q.
    split; [by rewrite <- app_assoc, waiting_app|]. split; [lia|].
    split; [rewrite wrap_small by (unfold is_u; lia); lia|]. split; [|done].
    destruct k as [|[|[|k]]]; try done; lia.
Qed.

Lemma edge_ipg s q L sent waiting :
  fsm_state s = S_IPG -> tx_inv (s, q) L sent waiting ->
  tx_inv (next s q) (L ++ [out s q]) sent (waiting ++ ps).
Proof.
  intros Hst (fs & Hg & Hw & H). rewrite Hst in H. destruct H as (k & -> & <- & -> & Hr & Hk & Hc).
  assert (Ho : out s (concat (last_beats <$> waiting)) = (false, 0)) by (cbn; by rewrite Hst).
  rewrite Ho, <- app_assoc, line_idle_snoc. exists fs. split; [done|].
  split; [by apply Forall_app|]. cbn [tx_step fst]. rewrite Hr, waiting_app.
  unfold tx_clock. cbn [fsm_state s_axis_tready di_bit_select cycle_counter]. rewrite Hst, Hc.
  destruct (Z.eqb_spec (56 - Z.of_nat k) 0) as [E|E].
  - exists (S k). do 4 (split; [done|]). intros _. lia.
  - exists (S k). do 4 (split; [done|]). split; [lia|]. rewrite wrap_small by (unfold is_u; lia). lia.
Qed.

(** Any edge. *)
Lemma tx_edge x L sent waiting :
  tx_inv x L sent waiting ->
  exists sent' waiting', tx_inv (tx_step stale ps x) (L ++ [(tx_en (tx_step stale ps x).1, txd (tx_step stale ps x).1)])
      sent' waiting' /\ sent' ++ waiting' = (sent ++ waiting) ++ ps.
Proof.
  destruct x as [s q]. intros Hinv. destruct (fsm_state s) eqn:Hst.
  - exists sent, (waiting ++ ps). split; [by apply edge_idle|by rewrite app_assoc].
  - exists sent, (waiting ++ ps). split; [by apply edge_preamble|by rewrite app_assoc].
  - destruct (edge_sfd s q L sent waiting Hst Hinv) as (p & rest & -> & H).
    exists (sent ++ [p]), (rest ++ ps). split; [done|]. by rewrite <- !app_assoc.
  - exists sent, (waiting ++ ps). split; [by apply edge_data|by rewrite app_assoc].
  - exists sent, (waiting ++ ps). split; [by apply edge_ipg|by rewrite app_assoc].
Qed.
End Edge.

(** ** Progress *)
Definition lasts (q : list beat) : Z := Z.of_nat (length (filter (fun bl : beat => bl.2 = true) q)).

(** Edges until the transmitter is idle with an empty queue. *)
Definition tx_rank (x : tx_regs * list beat) : Z :=
  let '(s, q) := x in
  4 * Z.of_nat (length q) + 90 * lasts q +
  match fsm_state s with
  | S_IDLE => 0
  | S_PREAMBLE => cycle_counter s - 31
  | S_SFD => -32
  | S_DATA => -33 - di_bit_select s
  | S_IPG => cycle_counter s + 1
  end.

Lemma lasts_cons bl q : lasts (bl :: q) = Z.b2z bl.2 + lasts q.
Proof.
  unfold lasts. rewrite filter_cons. destruct bl as [b []].
  - rewrite decide_True by done. cbn [length Z.b2z snd]. lia.
  - rewrite decide_False by done. done.
Qed.

Lemma lasts_app q q' : lasts (q ++ q') = lasts q + lasts q'.
Proof. unfold lasts. rewrite filter_app, length_app. lia. Qed.

Lemma lasts_packet p : p <> [] -> lasts (last_beats p) = 1.
Proof.
  induction p as [|b p IH]; [done|]. intros _. rewrite last_beats_cons, lasts_cons. cbn [snd].
  destruct p as [|b' p]; [done|]. rewrite IH by done. done.
Qed.

Lemma lasts_nonneg q : 0 <= lasts q.
Proof. unfold lasts. lia. Qed.

Lemma lasts_waiting ps :
  Forall (fun p => p <> []) ps -> lasts (concat (last_beats <$> ps)) = Z.of_nat (length ps).
Proof.
  induction 1 as [|p ps Hp _ IH]; [done|]. cbn [fmap list_fmap concat length].
  rewrite lasts_app, lasts_packet, IH by done. lia.
Qed.

Lemma lasts_ge_one p ps :
  Forall (fun p => p <> []) (p :: ps) -> 1 <= lasts (concat (last_beats <$> (p :: ps))).
Proof. intros H. rewrite lasts_waiting by done. cbn [length]. lia. Qed.

Lemma tx_rank_step stale x L sent waiting :
  tx_inv x L sent waiting ->
  0 <= tx_rank x /\
  (tx_rank x = 0 -> fsm_state x.1 = S_IDLE /\ waiting = []) /\
  tx_rank (tx_step stale [] x) = Z.max 0 (tx_rank x - 1).
Proof.
  destruct x as [s q]. intros (fs & _ & Hw & H). unfold tx_rank at 1 2 4. cbn [fst].
  unfold tx_step, tx_rank. cbn [fst snd fmap list_fmap concat].
  rewrite app_nil_r. unfold tx_clock. cbn [fsm_state cycle_counter di_bit_select].
  pose proof (lasts_nonneg q) as Hq0. destruct (fsm_state s) eqn:Hst.
  - destruct H as (g & _ & _ & -> & Hr & _). destruct waiting as [|p waiting].
    + cbn [fmap list_fmap concat queue_axis tvalid]. destruct (s_axis_tready s); cbn; auto.
    + pose proof (lasts_ge_one p waiting Hw) as H1. inversion_clear Hw as [|? ? Hp _].
      destruct (queue_shows stale p waiting Hp) as (b & rem & _ & -> & _). cbn [tvalid].
      destruct (s_axis_tready s); [by discriminate Hr|]. unfold C_PREAMBLE_LENGTH_DIBITS_U. repeat split; lia.
  - destruct H as (g & k & _ & _ & -> & Hne & -> & _ & Hk & -> & _). destruct waiting as [|p waiting]; [done|].
    pose proof (lasts_ge_one p waiting Hw) as H1. destruct (Z.eqb_spec (30 - Z.of_nat k) 0).
    + repeat split; lia.
    + rewrite wrap_small by (unfold is_u; lia). repeat split; lia.
  - destruct H as (g & _ & _ & -> & Hne & -> & -> & _). destruct waiting as [|p waiting]; [done|].
    pose proof (lasts_ge_one p waiting Hw) as H1. repeat split; lia.
  - destruct H as (g & done & b & rem & k & _ & _ & -> & Hk & -> & -> & _).
    rewrite !last_beats_cons in *. cbn [app tail queue_axis tlast length] in *.
    rewrite !lasts_cons in *. cbn [snd] in *. set (w := concat (last_beats <$> waiting)) in *.
    pose proof (lasts_nonneg (last_beats rem ++ w)) as H0. destruct (Nat.eqb_spec k 3) as [->|Hk3].
    + change (Z.of_nat 3) with 3. destruct rem as [|b' rem]; cbn [andb Z.eqb Pos.eqb Z.b2z] in *.
      * unfold C_IPG_LENGTH_U. repeat split; lia.
      * assert (1 <= lasts (last_beats (b' :: rem) ++ w)).
        { rewrite lasts_app, lasts_packet by done. pose proof (lasts_nonneg w). lia. }
        change (wrap 2 (3 + 1)) with 0. repeat split; lia.
    + rewrite (proj2 (Z.eqb_neq (Z.of_nat k) 3)), andb_false_r by lia. cbn [length]. rewrite lasts_cons. cbn [snd].
      rewrite (wrap_small 2) by (unfold is_u; lia).
      assert (1 <= Z.b2z (match rem with [] => true | _ => false end) + lasts (last_beats rem ++ w)).
      { destruct rem as [|b' rem]; [cbn [Z.b2z]; lia|]. rewrite lasts_app, lasts_packet by done.
        pose proof (lasts_nonneg w). cbn [Z.b2z]. lia. }
      repeat split; lia.
  - destruct H as (k & _ & _ & -> & -> & Hk & ->). destruct (Z.eqb_spec (56 - Z.of_nat k) 0).
    + repeat split; lia.
    + rewrite wrap_small by (unfold is_u; lia). repeat split; lia.
Qed.

(** ** Runs *)
Definition arrived (ins : list ((Z * bool) * list (list Z))) : list (list Z) := concat (snd <$> ins).
Definition no_arrival (i : (Z * bool) * list (list Z)) : Prop := i.2 = [].

(** Edges a packet takes, the gap included. *)
Definition frame_edges (ps : list (list Z)) : Z :=
  4 * Z.of_nat (length (concat ps)) + 90 * Z.of_nat (length ps).

Lemma frame_edges_app ps ps' : frame_edges (ps ++ ps') = frame_edges ps + frame_edges ps'.
Proof. unfold frame_edges. rewrite concat_app, !length_app. lia. Qed.

Lemma beats_length ps : length (concat (last_beats <$> ps)) = length (concat ps).
Proof.
  induction ps as [|p ps IH]; [done|]. cbn [fmap list_fmap concat]. by rewrite !length_app, last_beats_length, IH.
Qed.

Lemma rank_arrivals stale ps x :
  Forall (fun p => p <> []) ps -> tx_rank (tx_step stale ps x) = tx_rank (tx_step stale [] x) + frame_edges ps.
Proof.
  intros Hps. destruct x as [s q]. unfold tx_rank, tx_step, frame_edges.
  cbn [fmap list_fmap concat]. rewrite !app_nil_r, length_app, lasts_app, lasts_waiting, beats_length by done. lia.
Qed.

Lemma tx_run_inv ins x L sent waiting :
  Forall (fun i => Forall (fun p => p <> []) i.2) ins -> tx_inv x L sent waiting ->
  exists sent' waiting', tx_inv (tx_run ins x).2 (L ++ (tx_run ins x).1) sent' waiting' /\
    sent' ++ waiting' = (sent ++ waiting) ++ arrived ins /\
    tx_rank (tx_run ins x).2 <= tx_rank x + frame_edges (arrived ins).
Proof.
  intros Hins. revert x L sent waiting. induction Hins as [|[stale ps] ins Hps _ IH]; intros x L sent waiting Hinv.
  - exists sent, waiting. cbn. unfold frame_edges. cbn. rewrite !app_nil_r. repeat split; done || lia.
  - destruct (tx_edge stale ps Hps x L sent waiting Hinv) as (sent1 & waiting1 & Hinv1 & E1).
    destruct (IH _ _ _ _ Hinv1) as (sent' & waiting' & Hinv' & E' & Hr). exists sent', waiting'.
    destruct (tx_rank_step stale x L sent waiting Hinv) as (H0 & _ & Hr1).
    pose proof (rank_arrivals stale ps x Hps) as Hr2. cbn [tx_run].
    destruct (tx_run ins (tx_step stale ps x)) as [out x2]. cbn [fst snd] in *. unfold arrived in *.
    rewrite fmap_cons in *. cbn [concat snd] in *. rewrite <- app_assoc in Hinv'. split; [exact Hinv'|].
    split; [by rewrite E', E1, <- app_assoc|]. rewrite frame_edges_app. lia.
Qed.

Lemma tx_run_rank pause x L sent waiting :
  Forall no_arrival pause -> tx_inv x L sent waiting ->
  tx_rank (tx_run pause x).2 = Z.max 0 (tx_rank x - Z.of_nat (length pause)).
Proof.
  intros Hp. revert x L sent waiting. induction Hp as [|[stale ps] pause Hi _ IH]; intros x L sent waiting Hinv.
  - destruct (tx_rank_step (0, false) x L sent waiting Hinv) as (H0 & _). cbn. lia.
  - cbv in Hi. subst ps. destruct (tx_rank_step stale x L sent waiting Hinv) as (H0 & _ & Hr).
    destruct (tx_edge stale [] ltac:(constructor) x L sent waiting Hinv) as (sent1 & waiting1 & Hinv1 & _).
    specialize (IH _ _ _ _ Hinv1). cbn [tx_run length]. destruct (tx_run pause (tx_step stale [] x)) as [out x2].
    cbn [fst snd] in *. lia.
Qed.

Lemma tx_run_app ins ins' x :
  tx_run (ins ++ ins') x =
    let '(out, x1) := tx_run ins x in let '(out', x2) := tx_run ins' x1 in (out ++ out', x2).
Proof.
  revert x. induction ins as [|[stale ps] ins IH]; intros x; cbn [tx_run app].
  - by destruct (tx_run ins' x).
  - rewrite IH. destruct (tx_run ins (tx_step stale ps x)) as [out x1]. by destruct (tx_run ins' x1).
Qed.

Lemma tx_reset a s : tx_inv (tx_clock true a s, []) [] [] [] /\ tx_rank (tx_clock true a s, []) = 0.
Proof.
  split; [|done]. exists []. split; [constructor|]. split; [constructor|]. cbn [tx_clock fsm_state].
  exists 0%nat. done.
Qed.

Lemma tx_from_reset a s ins pause :
  Forall (fun i => Forall (fun p => p <> []) i.2) ins -> Forall no_arrival pause ->
  frame_edges (arrived ins) <= Z.of_nat (length pause) ->
  exists fs g, gaps_ok fs /\ snd <$> fs = arrived ins /\ (fs <> [] -> (57 <= g)%nat) /\
    (tx_run (ins ++ pause) (tx_clock true a s, [])).1 = line_frames fs ++ line_idle g.
Proof.
  intros Hins Hp Hn. destruct (tx_reset a s) as [Hinv Hr0]. set (x := (tx_clock true a s, [])) in *.
  destruct (tx_run_inv ins x [] [] [] Hins Hinv) as (sent1 & waiting1 & Hinv1 & E1 & Hr1).
  assert (Hp' : Forall (fun i : (Z * bool) * list (list Z) => Forall (fun p => p <> []) i.2) pause).
  { eapply Forall_impl; [exact Hp|]. intros i Hi. unfold no_arrival in Hi. rewrite Hi. constructor. }
  assert (Ea : arrived pause = []).
  { clear -Hp. unfold arrived. induction Hp as [|i pause Hi _ IH]; [done|]. cbn [fmap list_fmap concat].
    by rewrite Hi, IH. }
  rewrite tx_run_app. destruct (tx_run ins x) as [out1 x1]. cbn [fst snd app] in *.
  destruct (tx_run_inv pause x1 out1 sent1 waiting1 Hp' Hinv1) as (sent & waiting & Hinv2 & E2 & _).
  pose proof (tx_run_rank pause x1 out1 sent1 waiting1 Hp Hinv1) as Hr2.
  destruct (tx_run pause x1) as [out2 x2]. cbn [fst snd] in *. rewrite Ea, app_nil_r in E2.
  destruct (tx_rank_step (0, false) x2 _ _ _ Hinv2) as (_ & Hidle & _).
  destruct Hidle as [Hst Hwait]; [lia|]. subst waiting. destruct x2 as [s2 q2]. cbn [fst] in Hst.
  destruct Hinv2 as (fs & Hg & _ & H). rewrite Hst in H. destruct H as (g & HL & <- & _ & _ & Hgap).
  exists fs, g. split; [done|]. rewrite app_nil_r in E2. by rewrite E2, E1.
Qed.

(** After a reset, whatever whole packets arrive on whatever edges: once no more arrive for 90 edges a packet
    and four a byte, the line has carried all of them in order, each as 31 dibits 01, one 11 and
    its bytes from the lowest dibit up, idle between them for at least the inter-packet gap. *)
Theorem tx_sends_frames a s ins pause :
  Forall (fun i => Forall (fun p => p <> []) i.2) ins -> Forall no_arrival pause ->
  frame_edges (arrived ins) <= Z.of_nat (length pause) ->
  exists fs g, gaps_ok fs /\ snd <$> fs = arrived ins /\ (fs <> [] -> (57 <= g)%nat) /\
    (tx_run (ins ++ pause) (tx_clock true a s, [])).1 = line_frames fs ++ line_idle g.
Proof. apply tx_from_reset. Qed.
