(* ===== verification/RmiiRx.v ===== *)
(** * The RMII receiver: [ethernet/rmii/rmii_mac_rx.vhd]

    The entity clock by clock: input registers, byte assembly, the machine that
    strips preamble and delimiter, output registers.  Theorem: from a line of frames with
    gaps of at least four dibits it recovers the bytes of every frame, the
    last one marked. *)

From S2P Require Import Prelude.
From S2P Require Import Axis.
From S2P Require Import RmiiTx.

Inductive rx_state_t := Rx_S_WAIT_FOR_SFD | Rx_S_DATA.

Record rmii_rx_regs := RmiiRxRegs {
  crs_dv_r : bool;
  rxd_r : Z;
  byte_counter_reset : bool;
  byte_counter : Z;
  rx_byte : Z;
  rx_byte_valid : bool;
  rx_byte_last : bool;
  rx_fsm_state : rx_state_t;
  rx_byte_out : axis;
  m_axis_out : axis
}.

(** One rising edge of [clk50]. *)
Definition rmii_rx_clock (reset : bool) (line : dibit) (s : rmii_rx_regs) : rmii_rx_regs :=
  let '(crs_dv, rxd) := line in
  {| crs_dv_r := crs_dv;
     rxd_r := rxd;
     byte_counter_reset :=
       if reset || negb (crs_dv_r s) then true
       else if crs_dv_r s && (rxd_r s =? 1) then false else byte_counter_reset s;
     byte_counter := if byte_counter_reset s then 1 else wrap 2 (byte_counter s + 1);
     rx_byte := Z.lor (Z.shiftl (rxd_r s) 6) (slice (rx_byte s) 7 2);
     rx_byte_valid := if reset then false else (byte_counter s =? 3) && crs_dv_r s;
     rx_byte_last := crs_dv_r s && negb crs_dv;
     rx_fsm_state :=
       if reset then Rx_S_WAIT_FOR_SFD
       else match rx_fsm_state s with
            | Rx_S_WAIT_FOR_SFD =>
                if rx_byte_valid s && (rx_byte s =? 0xd5) then Rx_S_DATA else Rx_S_WAIT_FOR_SFD
            | Rx_S_DATA =>
                if rx_byte_valid s && rx_byte_last s then Rx_S_WAIT_FOR_SFD else Rx_S_DATA
            end;
     rx_byte_out :=
       if reset then no_axis
       else match rx_fsm_state s with
            | Rx_S_WAIT_FOR_SFD => no_axis
            | Rx_S_DATA => Axis (rx_byte s) (rx_byte_valid s) (rx_byte_last s)
            end;
     m_axis_out := if reset then no_axis else rx_byte_out s |}.

(** The output after every edge. *)
Fixpoint rmii_rx_run (line : list dibit) (s : rmii_rx_regs) : list beat * rmii_rx_regs :=
  match line with
  | [] => ([], s)
  | d :: line' =>
      let s1 := rmii_rx_clock false d s in
      let '(out, s2) := rmii_rx_run line' s1 in (axis_beats (m_axis_out s1) ++ out, s2)
  end.

(** ** Bytes from dibits *)
Definition push_dibit (x d : Z) : Z := Z.lor (Z.shiftl d 6) (slice x 7 2).

Lemma testbit_push x d i :
  is_u 2 d -> 0 <= i ->
  Z.testbit (push_dibit x d) i = if i <? 6 then Z.testbit x (i + 2) else Z.testbit d (i - 6).
Proof.
  intros Hd Hi. unfold push_dibit. rewrite Z.lor_spec, testbit_shiftl, testbit_slice by lia.
  zcases; cbn [andb orb]; try lia; try done.
  - by rewrite Z.testbit_neg_r by lia.
  - by rewrite orb_false_r.
Qed.

Lemma four_dibits x b :
  is_u 8 b ->
  push_dibit (push_dibit (push_dibit (push_dibit x (slice b 1 0)) (slice b 3 2)) (slice b 5 4)) (slice b 7 6) = b.
Proof.
  intros Hb. assert (Hs : forall hi lo, hi - lo = 1 -> is_u 2 (slice b hi lo)).
  { intros hi lo E. apply slice_range; lia. }
  apply Z.bits_inj'. intros i Hi. destruct (Z.lt_ge_cases i 8).
  - assert (i = 0 \/ i = 1 \/ i = 2 \/ i = 3 \/ i = 4 \/ i = 5 \/ i = 6 \/ i = 7) as Hcases by lia.
    destruct Hcases as [-> | [-> | [-> | [-> | [-> | [-> | [-> | ->]]]]]]];
      rewrite !testbit_push by (try apply Hs; lia); zcases; rewrite testbit_slice by lia; reflexivity.
  - rewrite (testbit_high 8 b) by done. rewrite testbit_push by (try apply Hs; lia).
    rewrite (proj2 (Z.ltb_ge i 6)), testbit_slice by lia. by rewrite (proj2 (Z.leb_gt (i - 6) (7 - 6))) by lia.
Qed.

(** ** The pipeline, byte by byte *)
Definition rx_idle (s : rmii_rx_regs) : Prop :=
  crs_dv_r s = false /\ byte_counter_reset s = true /\ rx_byte_valid s = false /\ rx_byte_last s = false /\
  rx_fsm_state s = Rx_S_WAIT_FOR_SFD /\ rx_byte_out s = no_axis /\ m_axis_out s = no_axis.

(** The last dibit of [b] is in the input register, the others in [rx_byte]. *)
Definition holding (st : rx_state_t) (b : Z) (s : rmii_rx_regs) : Prop :=
  crs_dv_r s = true /\ byte_counter_reset s = false /\ byte_counter s = 3 /\
  push_dibit (rx_byte s) (rxd_r s) = b /\
  rx_byte_valid s = false /\ rx_byte_last s = false /\ rx_fsm_state s = st /\
  tvalid (rx_byte_out s) = false /\ tvalid (m_axis_out s) = false.

Definition next_rx_state (st : rx_state_t) (b : Z) : rx_state_t :=
  match st with
  | Rx_S_WAIT_FOR_SFD => if b =? 0xd5 then Rx_S_DATA else Rx_S_WAIT_FOR_SFD
  | Rx_S_DATA => Rx_S_DATA
  end.
Definition rx_passes (st : rx_state_t) (b : Z) (last : bool) : list beat :=
  match st with Rx_S_WAIT_FOR_SFD => [] | Rx_S_DATA => [(b, last)] end.

Lemma rx_idle_step s : rx_idle s -> rmii_rx_run [(false, 0)] s = ([], rmii_rx_clock false (false, 0) s) /\
  rx_idle (rmii_rx_clock false (false, 0) s).
Proof.
  destruct s. unfold rx_idle. cbn. intros (-> & -> & -> & -> & -> & -> & ->).
  split; [done|]. by rewrite andb_false_r.
Qed.

Lemma rmii_rx_run_app l l' s :
  rmii_rx_run (l ++ l') s =
    let '(out, s1) := rmii_rx_run l s in let '(out', s2) := rmii_rx_run l' s1 in (out ++ out', s2).
Proof.
  revert s. induction l as [|d l IH]; intros s; cbn [rmii_rx_run app].
  - by destruct (rmii_rx_run l' s).
  - rewrite IH. destruct (rmii_rx_run l (rmii_rx_clock false d s)) as [out s1].
    destruct (rmii_rx_run l' s1). by rewrite app_assoc.
Qed.

Lemma rx_gap n s : rx_idle s -> exists s', rmii_rx_run (line_idle n) s = ([], s') /\ rx_idle s'.
Proof.
  revert s. induction n as [|n IH]; intros s Hs; [by exists s|].
  destruct (rx_idle_step s Hs) as [H1 H2]. destruct (IH _ H2) as (s' & H3 & H4). exists s'.
  change (line_idle (S n)) with ([(false, 0)] ++ line_idle n). rewrite rmii_rx_run_app, H1, H3. done.
Qed.

Lemma rx_start_edge d' d cnt x :
  rmii_rx_clock false (true, d')
    (RmiiRxRegs false d true cnt x false false Rx_S_WAIT_FOR_SFD no_axis no_axis) =
  RmiiRxRegs true d' true 1 (push_dibit x d) false false Rx_S_WAIT_FOR_SFD no_axis no_axis.
Proof. unfold rmii_rx_clock. cbn -[wrap push_dibit Z.eqb]. by rewrite andb_false_r. Qed.

Lemma rx_first s :
  rx_idle s -> exists s', rmii_rx_run (byte_dibits 0x55) s = ([], s') /\ holding Rx_S_WAIT_FOR_SFD 0x55 s'.
Proof.
  intros Hs. destruct s as [crs d rst cnt x v l st o m]. unfold rx_idle in Hs.
  cbn [crs_dv_r byte_counter_reset rx_byte_valid rx_byte_last rx_fsm_state rx_byte_out m_axis_out] in Hs.
  destruct Hs as (-> & -> & -> & -> & -> & -> & ->).
  exists (RmiiRxRegs true 1 false 3 (push_dibit (push_dibit (push_dibit (push_dibit x d) 1) 1) 1)
    false false Rx_S_WAIT_FOR_SFD no_axis no_axis).
  split; [unfold byte_dibits; cbn [rmii_rx_run]; rewrite rx_start_edge; reflexivity|].
  repeat split; try done. apply (four_dibits (push_dibit x d) 0x55). by vm_compute.
Qed.

(** An edge within a frame. *)
Lemma rx_edge_on d' d cnt x v l st o m :
  rmii_rx_clock false (true, d') (RmiiRxRegs true d false cnt x v l st o m) =
  RmiiRxRegs true d' false (wrap 2 (cnt + 1)) (push_dibit x d) (cnt =? 3) false
    (match st with
     | Rx_S_WAIT_FOR_SFD => if v && (x =? 0xd5) then Rx_S_DATA else Rx_S_WAIT_FOR_SFD
     | Rx_S_DATA => if v && l then Rx_S_WAIT_FOR_SFD else Rx_S_DATA
     end)
    (match st with Rx_S_WAIT_FOR_SFD => no_axis | Rx_S_DATA => Axis x v l end) o.
Proof.
  unfold rmii_rx_clock. cbn -[wrap push_dibit Z.eqb]. rewrite andb_true_r. destruct (d =? 1); reflexivity.
Qed.

Lemma rx_next st b b' s :
  holding st b s -> is_u 8 b' ->
  exists s', rmii_rx_run (byte_dibits b') s = (rx_passes st b false, s') /\ holding (next_rx_state st b) b' s'.
Proof.
  intros Hs Hb'. destruct s as [crs d rst cnt x v l st0 o m]. unfold holding in Hs.
  cbn [crs_dv_r byte_counter_reset byte_counter rx_byte rxd_r rx_byte_valid rx_byte_last rx_fsm_state rx_byte_out
       m_axis_out] in Hs.
  destruct Hs as (-> & -> & -> & <- & -> & -> & -> & Ho & Hm). unfold byte_dibits. cbn [rmii_rx_run].
  rewrite !rx_edge_on.
  destruct st; [destruct (push_dibit x d =? 213) eqn:Hsfd|]; eexists; (split;
    [cbn [m_axis_out rx_byte_out]; unfold axis_beats at 1; rewrite Ho; reflexivity|]);
    unfold holding; cbn [crs_dv_r byte_counter_reset byte_counter rx_byte rxd_r rx_byte_valid rx_byte_last
      rx_fsm_state rx_byte_out m_axis_out];
    (split; [done|]; split; [done|]; split; [done|]; split; [by apply four_dibits|]; split; [done|];
     split; [done|]); [..|done]; unfold next_rx_state; by rewrite Hsfd.
Qed.

Lemma rx_edge_off d x o m :
  rmii_rx_clock false (false, 0) (RmiiRxRegs true d false 3 x false false Rx_S_DATA o m) =
  RmiiRxRegs false 0 false 0 (push_dibit x d) true true Rx_S_DATA (Axis x false false) o.
Proof. unfold rmii_rx_clock. cbn -[push_dibit Z.eqb]. destruct (d =? 1); reflexivity. Qed.

Lemma rx_end b s :
  holding Rx_S_DATA b s -> exists s', rmii_rx_run (line_idle 4) s = ([(b, true)], s') /\ rx_idle s'.
Proof.
  intros Hs. destruct s as [crs d rst cnt x v l st0 o m]. unfold holding in Hs.
  cbn [crs_dv_r byte_counter_reset byte_counter rx_byte rxd_r rx_byte_valid rx_byte_last rx_fsm_state rx_byte_out
       m_axis_out] in Hs.
  destruct Hs as (-> & -> & -> & <- & -> & -> & -> & Ho & Hm). destruct o as [od ov ol]. cbn in Ho. subst ov.
  change (line_idle 4) with [(false, 0); (false, 0); (false, 0); (false, 0)].
  cbn [rmii_rx_run]. rewrite rx_edge_off. eexists. split.
  - unfold axis_beats. reflexivity.
  - repeat split; reflexivity.
Qed.

(** ** Frames *)
Lemma preamble_bytes : preamble = byte_dibits 0x55 ++ data_dibits (replicate 6 0x55) ++ byte_dibits 0xd5.
Proof. reflexivity. Qed.

Lemma rx_preamble s :
  rx_idle s -> exists s', rmii_rx_run preamble s = ([], s') /\ holding Rx_S_WAIT_FOR_SFD 0xd5 s'.
Proof.
  intros Hs. rewrite preamble_bytes. destruct (rx_first s Hs) as (s1 & E1 & H1).
  assert (Hn : forall n s, holding Rx_S_WAIT_FOR_SFD 0x55 s ->
    exists s', rmii_rx_run (data_dibits (replicate n 0x55) ++ byte_dibits 0xd5) s = ([], s') /\
      holding Rx_S_WAIT_FOR_SFD 0xd5 s').
  { induction n as [|n IH]; intros s2 H2.
    - cbn [replicate]. change (data_dibits []) with (@nil dibit). cbn [app].
      destruct (rx_next _ _ 0xd5 s2 H2) as (s3 & E3 & H3); [by vm_compute|]. by exists s3.
    - destruct (rx_next _ _ 0x55 s2 H2) as (s3 & E3 & H3); [by vm_compute|].
      destruct (IH s3 H3) as (s4 & E4 & H4). exists s4. split; [|done].
      change (data_dibits (replicate (S n) 0x55)) with (byte_dibits 0x55 ++ data_dibits (replicate n 0x55)).
      by rewrite <- app_assoc, rmii_rx_run_app, E3, E4. }
  destruct (Hn 6%nat s1 H1) as (s2 & E2 & H2). exists s2. by rewrite rmii_rx_run_app, E1, E2.
Qed.

Section Rest.
Context (rest : list dibit) (out : list beat)
  (Hrest : forall b s, holding Rx_S_DATA b s ->
     exists s', rmii_rx_run rest s = ((b, true) :: out, s') /\ rx_idle s').

Lemma rx_data p b s :
  holding Rx_S_DATA b s -> Forall (is_u 8) p ->
  exists s', rmii_rx_run (data_dibits p ++ rest) s = (last_beats (b :: p) ++ out, s') /\ rx_idle s'.
Proof.
  intros Hs Hp. revert b s Hs. induction Hp as [|b' p Hb' _ IH]; intros b s Hs.
  - exact (Hrest b s Hs).
  - destruct (rx_next _ _ b' s Hs Hb') as (s1 & E1 & H1). destruct (IH b' s1 H1) as (s2 & E2 & H2).
    exists s2. change (data_dibits (b' :: p)) with (byte_dibits b' ++ data_dibits p).
    rewrite <- app_assoc, rmii_rx_run_app, E1, E2. by rewrite (last_beats_cons b).
Qed.

Lemma rx_frame p s :
  rx_idle s -> p <> [] -> Forall (is_u 8) p ->
  exists s', rmii_rx_run (preamble ++ data_dibits p ++ rest) s = (last_beats p ++ out, s') /\ rx_idle s'.
Proof.
  intros Hs Hne Hp. destruct p as [|b p]; [done|]. inversion_clear Hp as [|? ? Hb Hp'].
  destruct (rx_preamble s Hs) as (s1 & E1 & H1). destruct (rx_next _ _ b s1 H1 Hb) as (s2 & E2 & H2).
  destruct (rx_data p b s2 H2 Hp') as (s3 & E3 & H3). exists s3.
  change (data_dibits (b :: p)) with (byte_dibits b ++ data_dibits p).
  by rewrite rmii_rx_run_app, E1, <- app_assoc, rmii_rx_run_app, E2, E3.
Qed.
End Rest.

Definition frame_bytes_ok (gp : nat * list Z) : Prop := gp.2 <> [] /\ Forall (is_u 8) gp.2.

Lemma line_idle_app n k : line_idle (n + k) = line_idle n ++ line_idle k.
Proof. unfold line_idle. apply replicate_add. Qed.

Lemma rx_after_data fs g b s :
  holding Rx_S_DATA b s -> Forall (fun gp : nat * list Z => (4 <= gp.1)%nat) fs -> Forall frame_bytes_ok fs ->
  (4 <= g)%nat ->
  exists s', rmii_rx_run (line_frames fs ++ line_idle g) s = ((b, true) :: concat (last_beats <$> (snd <$> fs)), s') /\
    rx_idle s'.
Proof.
  intros Hs Hgap Hok Hg. revert b s Hs. induction fs as [|[n p] fs IH]; intros b s Hs.
  - destruct (rx_end b s Hs) as (s1 & E1 & H1). destruct (rx_gap (g - 4) s1 H1) as (s2 & E2 & H2). exists s2.
    change (line_frames []) with (@nil dibit). cbn [app].
    replace g with (4 + (g - 4))%nat by lia. by rewrite line_idle_app, rmii_rx_run_app, E1, E2.
  - inversion_clear Hgap as [|? ? Hn Hgap']. inversion_clear Hok as [|? ? [Hne Hp] Hok']. cbn [fst snd] in *.
    destruct (rx_end b s Hs) as (s1 & E1 & H1). destruct (rx_gap (n - 4) s1 H1) as (s2 & E2 & H2).
    destruct (rx_frame (line_frames fs ++ line_idle g) (concat (last_beats <$> (snd <$> fs)))
      (IH Hgap' Hok') p s2 H2 Hne Hp) as (s3 & E3 & H3). exists s3. split; [|done].
    change (line_frames ((n, p) :: fs)) with ((line_idle n ++ preamble ++ data_dibits p) ++ line_frames fs).
    replace (line_idle n) with (line_idle 4 ++ line_idle (n - 4)) by (rewrite <- line_idle_app; f_equal; lia).
    rewrite <- !app_assoc, rmii_rx_run_app, E1, rmii_rx_run_app, E2, E3. done.
Qed.

Lemma rx_line fs g s :
  rx_idle s -> Forall (fun gp : nat * list Z => (4 <= gp.1)%nat) (tail fs) -> Forall frame_bytes_ok fs ->
  (fs <> [] -> (4 <= g)%nat) ->
  exists s', rmii_rx_run (line_frames fs ++ line_idle g) s = (concat (last_beats <$> (snd <$> fs)), s') /\ rx_idle s'.
Proof.
  intros Hs Hgap Hok Hg. destruct fs as [|[n p] fs].
  - destruct (rx_gap g s Hs) as (s1 & E1 & H1). by exists s1.
  - inversion_clear Hok as [|? ? [Hne Hp] Hok']. cbn [tail fst snd] in *.
    destruct (rx_gap n s Hs) as (s1 & E1 & H1).
    destruct (rx_frame (line_frames fs ++ line_idle g) (concat (last_beats <$> (snd <$> fs)))
      (fun b s' Hb => rx_after_data fs g b s' Hb Hgap Hok' (Hg ltac:(done))) p s1 H1 Hne Hp) as (s2 & E2 & H2).
    exists s2. split; [|done].
    change (line_frames ((n, p) :: fs)) with ((line_idle n ++ preamble ++ data_dibits p) ++ line_frames fs).
    by rewrite <- !app_assoc, rmii_rx_run_app, E1, E2.
Qed.

(** Two edges of reset on an idle line. *)
Definition rmii_rx_reset (s : rmii_rx_regs) : rmii_rx_regs :=
  rmii_rx_clock true (false, 0) (rmii_rx_clock true (false, 0) s).

Lemma rx_reset_idle s : rx_idle (rmii_rx_reset s).
Proof. repeat split. Qed.

(** After a reset on an idle line, from a line on which frames (preamble, delimiter, at least one byte each) are at
    least four dibits apart, the receiver delivers exactly the bytes of every frame in order, [tlast] on the
    last byte of each. *)
Theorem rx_recovers_frames s fs g :
  Forall (fun gp : nat * list Z => (4 <= gp.1)%nat) (tail fs) -> Forall frame_bytes_ok fs ->
  (fs <> [] -> (4 <= g)%nat) ->
  (rmii_rx_run (line_frames fs ++ line_idle g) (rmii_rx_reset s)).1 =
    concat (last_beats <$> (snd <$> fs)).
Proof.
  intros Hgap Hok Hg. destruct (rx_line fs g _ (rx_reset_idle s) Hgap Hok Hg) as (s' & -> & _). done.
Qed.
