(* ===== verification/RmiiLine.v ===== *)
(** * RMII from transmitter to receiver

    The line of RmiiTx.v read by RmiiRx.v, as when two stations' reference
    clocks and pins are connected: packets arrive as they were sent. *)

From S2P Require Import Prelude.
From S2P Require Import Axis.
From S2P Require Import RmiiTx.
From S2P Require Import RmiiRx.

Definition tx_packet_ok (p : list Z) : Prop := p <> [] /\ Forall (is_u 8) p.

Lemma rmii_carries_packets a s ins pause r :
  Forall (fun i => Forall tx_packet_ok i.2) ins -> Forall no_arrival pause ->
  frame_edges (arrived ins) <= Z.of_nat (length pause) ->
  (rmii_rx_run (tx_run (ins ++ pause) (tx_clock true a s, [])).1 (rmii_rx_reset r)).1 =
    concat (last_beats <$> arrived ins).
Proof.
  intros Hins Hp Hn.
  assert (Hall : Forall tx_packet_ok (arrived ins)).
  { clear -Hins. unfold arrived. induction Hins as [|i ins Hi _ IH]; [constructor|].
    cbn [fmap list_fmap concat]. by apply Forall_app. }
  destruct (tx_from_reset a s ins pause) as (fs & g & Hgap & E & Hg & ->); [|done..|].
  { eapply Forall_impl; [exact Hins|]. intros i Hi. eapply Forall_impl; [exact Hi|]. by intros p []. }
  rewrite <- E in *. destruct (rx_line fs g (rmii_rx_reset r) (rx_reset_idle r)) as (s' & -> & _); [| | |done].
  - eapply Forall_impl; [exact Hgap|]. cbn. lia.
  - clear -Hall. induction fs as [|[n p] fs IH]; [constructor|]. inversion_clear Hall. constructor; auto.
  - intros H. specialize (Hg H). lia.
Qed.

(** C6. Transmitter and receiver in a row: whatever non-empty packets of bytes arrive at the
    transmitter on whatever edges, the receiver delivers exactly them, in order
    and delimited, once no more arrive for long enough. *)
Theorem rmii_roundtrip a s ins pause r :
  Forall (fun i => Forall tx_packet_ok i.2) ins -> Forall no_arrival pause ->
  frame_edges (arrived ins) <= Z.of_nat (length pause) ->
  (rmii_rx_run (tx_run (ins ++ pause) (tx_clock true a s, [])).1 (rmii_rx_reset r)).1 =
    concat (last_beats <$> arrived ins).
Proof. apply rmii_carries_packets. Qed.

(** ** Witness and examples *)
Definition demo_stale : Z * bool := (0xFF, true).
Definition demo_tx_power_up : tx_regs := TxRegs 0 0 S_IDLE false 0 false.
Definition demo_rx_power_up : rmii_rx_regs :=
  RmiiRxRegs false 0 false 0 0 false false Rx_S_WAIT_FOR_SFD no_axis no_axis.
Definition demo_arrivals : list ((Z * bool) * list (list Z)) :=
  [(demo_stale, []); (demo_stale, [[0xD5; 0x55]]); (demo_stale, []); (demo_stale, [[0x01]])].
Definition demo_pause : list ((Z * bool) * list (list Z)) := replicate 192 (demo_stale, []).

Lemma rmii_roundtrip_witness :
  (rmii_rx_run (tx_run (demo_arrivals ++ demo_pause) (tx_clock true no_axis demo_tx_power_up, [])).1
     (rmii_rx_reset demo_rx_power_up)).1 = [(0xD5, false); (0x55, true); (0x01, true)].
Proof.
  apply (rmii_roundtrip no_axis demo_tx_power_up demo_arrivals demo_pause demo_rx_power_up).
  - repeat constructor; try discriminate; by vm_compute.
  - by repeat constructor.
  - vm_compute. discriminate.
Defined.

(** Carrier sense and data valid share one pin: a PHY that still has data when the carrier goes
    lets the pin fall on every other dibit.  The receiver takes the first low level for the end. *)
Definition falling_byte (b : Z) : list dibit :=
  [(false, slice b 1 0); (true, slice b 3 2); (false, slice b 5 4); (true, slice b 7 6)].
Example toggling_crs_dv_truncates :
  (rmii_rx_run (line_idle 8 ++ preamble ++ byte_dibits 0x41 ++ falling_byte 0x42 ++ line_idle 8)
     (rmii_rx_reset demo_rx_power_up)).1 = [(0x41, true)].
Proof. vm_compute. reflexivity. Qed.

(** The byte phase is taken from the first preamble dibit: with one of them missing the frame is lost. *)
Example short_preamble_lost :
  (rmii_rx_run (line_idle 8 ++ tail preamble ++ data_dibits [0x41; 0x42] ++ line_idle 8)
     (rmii_rx_reset demo_rx_power_up)).1 = [].
Proof. vm_compute. reflexivity. Qed.
