(* ===== verification/Gray.v ===== *)
(** * Gray codes

    The pointers of [afifo_read_logic.vhd] and [afifo_write_logic.vhd]: the code is injective,
    neighbours differ in one bit, so that a register that captures a pointer while it
    changes holds the old or the new one; and the test for a full FIFO on codes. *)

From S2P Require Import Prelude.

(** [shift_right(addr, 1) xor addr] *)
Definition gray (x : Z) : Z := Z.lxor (Z.shiftr x 1) x.

Lemma testbit_gray x i : 0 <= i -> Z.testbit (gray x) i = xorb (Z.testbit x (i + 1)) (Z.testbit x i).
Proof. intros Hi. unfold gray. by rewrite Z.lxor_spec, Z.shiftr_spec. Qed.

Lemma gray_is_u w x : 0 <= w -> is_u w x -> is_u w (gray x).
Proof. intros Hw Hx. apply is_u_lxor; [done| |done]. by apply is_u_shiftr. Qed.

(** The highest set bit of the difference is found first. *)
Lemma gray_inj_bits w x y :
  0 <= w -> is_u w x -> is_u w y -> gray x = gray y ->
  forall k, 0 <= k <= w -> Z.testbit x (w - k) = Z.testbit y (w - k).
Proof.
  intros Hw Hx Hy E k [Hk Hkw]. revert Hkw. pattern k. apply natlike_ind; [| |done].
  - intros _. rewrite !(testbit_high w) by (done || lia). done.
  - clear k Hk. intros k Hk IH Hkw. specialize (IH ltac:(lia)).
    pose proof (f_equal (fun g => Z.testbit g (w - Z.succ k)) E) as Hb. cbn beta in Hb.
    rewrite !testbit_gray in Hb by lia. replace (w - Z.succ k + 1) with (w - k) in Hb by lia. rewrite IH in Hb.
    by destruct (Z.testbit y (w - k)), (Z.testbit x (w - Z.succ k)), (Z.testbit y (w - Z.succ k)).
Qed.

Lemma gray_inj w x y : 0 <= w -> is_u w x -> is_u w y -> gray x = gray y -> x = y.
Proof.
  intros Hw Hx Hy E. apply Z.bits_inj'. intros i Hi. destruct (Z.lt_ge_cases i w).
  - replace i with (w - (w - i)) by lia. apply (gray_inj_bits w x y); done || lia.
  - rewrite !(testbit_high w) by (done || lia). done.
Qed.

(** ** Neighbours differ in one bit *)

Lemma wrap_double w x b : 0 <= w -> wrap (w + 1) (2 * x + Z.b2z b) = 2 * wrap w x + Z.b2z b.
Proof.
  intros Hw. unfold wrap. rewrite Z.pow_add_r by lia. change (2 ^ 1) with 2.
  pose proof (Z.pow_pos_nonneg 2 w ltac:(lia) Hw). set (m := 2 ^ w) in *. rewrite (Z.mul_comm m 2).
  symmetry. apply (Z.mod_unique _ _ (x / m)); pose proof (Z.mod_pos_bound x m ltac:(lia));
    pose proof (Z.div_mod x m ltac:(lia)); destruct b; cbn [Z.b2z]; lia.
Qed.

Lemma testbit_gray_double x b i :
  0 <= i -> Z.testbit (gray (2 * x + Z.b2z b)) i =
    if i =? 0 then xorb (Z.testbit x 0) b else Z.testbit (gray x) (i - 1).
Proof.
  intros Hi. rewrite testbit_gray by done.
  assert (H : forall j, 0 <= j -> Z.testbit (2 * x + Z.b2z b) (j + 1) = Z.testbit x j).
  { intros j Hj. rewrite Z.add_1_r. apply Z.testbit_succ_r. done. }
  rewrite H by done. destruct (Z.eqb_spec i 0) as [->|].
  - by rewrite Z.testbit_0_r.
  - rewrite testbit_gray by lia. replace (i - 1 + 1) with i by lia. f_equal.
    replace i with (i - 1 + 1) at 1 by lia. apply H. lia.
Qed.

(** The code of the next count differs from that of a count in one bit, also where the counter wraps. *)
Lemma gray_neighbours (w : nat) x :
  exists n, forall i, 0 <= i -> i <> n ->
    Z.testbit (gray (wrap (Z.of_nat w) (x + 1))) i = Z.testbit (gray (wrap (Z.of_nat w) x)) i.
Proof.
  revert x. induction w as [|w IH]; intros x.
  { exists 0. intros i _ _. unfold wrap. by rewrite !Z.mod_1_r. }
  rewrite Nat2Z.inj_succ, <- Z.add_1_r.
  assert (exists q b, x = 2 * q + Z.b2z b) as (q & [] & ->).
  { exists (Z.div2 x), (Z.odd x). apply Z.div2_odd. }
  - destruct w as [|w].
    { exists 0. intros i Hi Hne. replace (2 * q + Z.b2z true + 1) with (2 * (q + 1) + Z.b2z false) by (cbn; lia).
      rewrite !wrap_double, !testbit_gray_double, (proj2 (Z.eqb_neq i 0)) by lia.
      unfold wrap. by rewrite !Z.mod_1_r. }
    destruct (IH q) as [n Hn]. exists (n + 1). intros i Hi Hne.
    replace (2 * q + Z.b2z true + 1) with (2 * (q + 1) + Z.b2z false) by (cbn; lia).
    rewrite !wrap_double, !testbit_gray_double by lia.
    destruct (Z.eqb_spec i 0) as [->|]; [|apply Hn; lia].
    rewrite !testbit_wrap by lia. rewrite (proj2 (Z.ltb_lt 0 _)) by lia. cbn [andb].
    rewrite !Z.bit0_odd, Z.odd_add. by destruct (Z.odd q).
  - exists 0. intros i Hi Hne. replace (2 * q + Z.b2z false + 1) with (2 * q + Z.b2z true) by (cbn; lia).
    by rewrite !wrap_double, !testbit_gray_double, (proj2 (Z.eqb_neq i 0)) by lia.
Qed.

(** A register clocked while its input changes may take any mixture of the old and the new bits. *)
Definition captures (old new m : Z) : Prop :=
  forall i, 0 <= i -> Z.testbit m i = Z.testbit old i \/ Z.testbit m i = Z.testbit new i.

Lemma captures_same x m : captures x x m -> m = x.
Proof. intros H. apply Z.bits_inj'. intros i Hi. by destruct (H i Hi). Qed.

Lemma captures_gray (w : nat) x m :
  captures (gray (wrap (Z.of_nat w) x)) (gray (wrap (Z.of_nat w) (x + 1))) m ->
  m = gray (wrap (Z.of_nat w) x) \/ m = gray (wrap (Z.of_nat w) (x + 1)).
Proof.
  intros H. destruct (gray_neighbours w x) as [n Hn]. destruct (Z.lt_ge_cases n 0) as [Hneg|Hpos].
  - left. apply Z.bits_inj'. intros i Hi. destruct (H i Hi) as [E|E]; [done|]. rewrite E. apply Hn; lia.
  - destruct (H n Hpos) as [E|E]; [left|right]; apply Z.bits_inj'; intros i Hi;
      (destruct (Z.eq_dec i n) as [->|]; [done|]); destruct (H i Hi) as [E'|E']; rewrite E'; rewrite ?Hn by done; done.
Qed.

(** ** Full *)

(** [full_sig] of [afifo_write_logic.vhd], pointers of [w + 1] bits. *)
Definition full_sig (w wp rp : Z) : bool :=
  negb (Bool.eqb (Z.testbit wp w) (Z.testbit rp w)) &&
  negb (Bool.eqb (Z.testbit wp (w - 1)) (Z.testbit rp (w - 1))) &&
  (slice wp (w - 2) 0 =? slice rp (w - 2) 0).

Lemma testbit_opposite w x i :
  0 <= w -> is_u (w + 1) x -> 0 <= i ->
  Z.testbit (wrap (w + 1) (x + 2 ^ w)) i = if i =? w then negb (Z.testbit x w) else Z.testbit x i.
Proof.
  intros Hw Hx Hi. rewrite testbit_wrap by lia. destruct (Z.ltb_spec i (w + 1)).
  - destruct (Z.eqb_spec i w) as [->|]; cbn [andb]; [by apply testbit_add_full|].
    rewrite <- (Z.mod_pow2_bits_low (x + 2 ^ w) w i), <- (Z.mod_pow2_bits_low x w i) by lia.
    f_equal. exact (wrap_add_full w x Hw).
  - cbn [andb]. rewrite (proj2 (Z.eqb_neq i w)) by lia. symmetry. apply (testbit_high (w + 1)); done || lia.
Qed.

Lemma full_sig_spec w x y :
  1 <= w -> is_u (w + 1) x -> is_u (w + 1) y ->
  full_sig w (gray x) (gray y) = true <-> x = wrap (w + 1) (y + 2 ^ w).
Proof.
  intros Hw Hx Hy. set (c := wrap (w + 1) (y + 2 ^ w)).
  assert (Hc : is_u (w + 1) c) by (apply wrap_range; lia).
  assert (Hbits : forall i, 0 <= i -> Z.testbit (gray c) i =
    if (i =? w) || (i =? w - 1) then negb (Z.testbit (gray y) i) else Z.testbit (gray y) i).
  { intros i Hi. rewrite !testbit_gray by done. unfold c. rewrite !testbit_opposite by (done || lia).
    destruct (Z.eqb_spec i w) as [E|E], (Z.eqb_spec i (w - 1)) as [E'|E']; cbn [orb]; try lia; try subst i.
    - rewrite (proj2 (Z.eqb_neq (w + 1) w)) by lia. by destruct (Z.testbit y (w + 1)), (Z.testbit y w).
    - rewrite (proj2 (Z.eqb_eq (w - 1 + 1) w)) by lia. replace (w - 1 + 1) with w by lia.
      by destruct (Z.testbit y w), (Z.testbit y (w - 1)).
    - by rewrite (proj2 (Z.eqb_neq (i + 1) w)) by lia. }
  assert (Hg : forall z, is_u (w + 1) z -> is_u (w + 1) (gray z)) by (intros z Hz; apply gray_is_u; [lia|done]).
  unfold full_sig. rewrite !andb_true_iff, !negb_true_iff, !eqb_false_iff, Z.eqb_eq. split.
  - intros [[H1 H2] H3]. apply (gray_inj (w + 1)); [lia|done..|]. apply Z.bits_inj'. intros i Hi. rewrite Hbits by done.
    destruct (Z.eqb_spec i w) as [->|]; [cbn [orb]; by destruct (Z.testbit (gray x) w), (Z.testbit (gray y) w)|].
    destruct (Z.eqb_spec i (w - 1)) as [->|];
      [cbn [orb]; by destruct (Z.testbit (gray x) (w - 1)), (Z.testbit (gray y) (w - 1))|].
    cbn [orb]. destruct (Z.lt_ge_cases i w).
    + pose proof (f_equal (fun z => Z.testbit z i) H3) as E. cbn beta in E.
      rewrite !testbit_slice in E by lia. rewrite (proj2 (Z.leb_le i (w - 2 - 0))) in E by lia.
      cbn [andb] in E. by rewrite Z.add_0_r in E.
    + rewrite !(testbit_high (w + 1)) by (lia || by apply Hg). done.
  - intros ->. fold c. rewrite !Hbits by lia. rewrite !Z.eqb_refl, orb_true_r. cbn [orb].
    split; [split; [by destruct (Z.testbit (gray y) w)|by destruct (Z.testbit (gray y) (w - 1))]|].
    unfold slice, wrap. apply Z.bits_inj'. intros i Hi. rewrite !Z.shiftr_0_r.
    destruct (Z.lt_ge_cases i (w - 2 - 0 + 1)).
    + rewrite !Z.mod_pow2_bits_low by done. rewrite Hbits by done.
      by rewrite (proj2 (Z.eqb_neq i w)), (proj2 (Z.eqb_neq i (w - 1))) by lia.
    + rewrite !Z.mod_pow2_bits_high by lia. done.
Qed.
