(* ===== verification/Afifo.v ===== *)
(** * The FIFO between two clocks: [afifo/*.vhd], [cdc/bit_synchroniser.vhd], [ram/sdp_ram.vhd]

    Both sides' registers with their own clock.  A run is a sequence of edges, of either
    clock or of both at once, in any order; a synchroniser's first register that is
    clocked while the other side changes takes any mixture of old and new bits.
    Theorem: whatever the order of edges, the words that leave are the words that entered, in order, and
    all of them once the reading side has had enough edges. *)

From S2P Require Import Prelude.
From S2P Require Import Gray.

(** ** [fifo_fwft.vhd] *)
Record fwft := Fwft {
  fifo_valid : bool;
  buffer_valid : bool;
  output_valid : bool;
  buffer_r : Z;
  output_r : Z
}.

Definition update_output (read_en : bool) (f : fwft) : bool :=
  (buffer_valid f || fifo_valid f) && (read_en || negb (output_valid f)).
Definition update_buffer (read_en : bool) (f : fwft) : bool :=
  fifo_valid f && Bool.eqb (buffer_valid f) (update_output read_en f).
Definition fifo_read_en_sig (reset fifo_empty : bool) (f : fwft) : bool :=
  if reset then false
  else negb fifo_empty && negb (fifo_valid f && buffer_valid f && output_valid f).

Definition fwft_clock (reset read_en fifo_empty : bool) (fifo_q : Z) (f : fwft) : fwft :=
  let uo := update_output read_en f in
  let ub := update_buffer read_en f in
  if reset then Fwft false false false 0 0
  else {| fifo_valid :=
            if fifo_read_en_sig reset fifo_empty f then true else if ub || uo then false else fifo_valid f;
          buffer_valid := if ub then true else if uo then false else buffer_valid f;
          output_valid := if uo then true else if read_en then false else output_valid f;
          buffer_r := if ub then fifo_q else buffer_r f;
          output_r := if uo then (if buffer_valid f then buffer_r f else fifo_q) else output_r f |}.

(** ** The two sides *)
Inductive reset_state_t := S_IDLE | S_WAIT_FOR_RESET_DONE.

(** Registers clocked by [wr_clk]: [afifo_write_logic], the read pointer's [grey_pointer_sync], the
    reset handshake with its [bit_synchroniser]. *)
Record wr_regs := WrRegs {
  write_addr_r : Z;
  write_pointer_r : Z;
  full_r : bool;
  rp_r : Z;
  rp_r2 : Z;
  reset_state : reset_state_t;
  reset_to_read : bool;
  reset_busy_sig : bool;
  done_ff : bool;
  read_reset_done : bool
}.

(** Registers clocked by [rd_clk]: [afifo_read_logic], the write pointer's [grey_pointer_sync], the
    synchronised reset, the RAM's output and the fall-through stage. *)
Record rd_regs := RdRegs {
  read_addr_r : Z;
  read_pointer_r : Z;
  empty_r : bool;
  wp_r : Z;
  wp_r2 : Z;
  reset_ff : bool;
  read_reset : bool;
  fifo_q : Z;
  stage : fwft
}.

Record wr_in := WrIn { reset : bool; write_en : bool; write_data : Z }.

Section Afifo.
Context (G_LOG2_DEPTH : Z).

Definition rows : Z := 2 ^ G_LOG2_DEPTH.

Definition write_en_wr_clk (i : wr_in) (w : wr_regs) : bool :=
  if reset_busy_sig w then false else if negb (full_r w) then write_en i else false.

Definition write_addr_next (i : wr_in) (w : wr_regs) : Z :=
  if negb (full_r w) && write_en i then wrap (G_LOG2_DEPTH + 1) (write_addr_r w + 1) else write_addr_r w.

(** A rising edge of [wr_clk]; [rp] and [rst] are what the synchronisers capture of the read
    side's pointer and reset. *)
Definition wr_clock (i : wr_in) (rp : Z) (rst : bool) (w : wr_regs) : wr_regs :=
  let next := write_addr_next i w in
  {| write_addr_r := if reset i then 0 else next;
     write_pointer_r := if reset i then 0 else gray next;
     full_r := if reset i then false else full_sig G_LOG2_DEPTH (gray next) (rp_r2 w);
     rp_r := if reset i then 0 else rp;
     rp_r2 := if reset i then 0 else rp_r w;
     reset_state :=
       match reset_state w with
       | S_IDLE => if reset i then S_WAIT_FOR_RESET_DONE else S_IDLE
       | S_WAIT_FOR_RESET_DONE => if read_reset_done w then S_IDLE else S_WAIT_FOR_RESET_DONE
       end;
     reset_to_read :=
       match reset_state w with
       | S_IDLE => reset i
       | S_WAIT_FOR_RESET_DONE => negb (read_reset_done w)
       end;
     reset_busy_sig :=
       match reset_state w with
       | S_IDLE => reset i
       | S_WAIT_FOR_RESET_DONE => negb (read_reset_done w)
       end;
     done_ff := rst;
     read_reset_done := done_ff w |}.

Definition read_en_internal (r : rd_regs) : bool := fifo_read_en_sig (read_reset r) (empty_r r) (stage r).

Definition read_addr_next (r : rd_regs) : Z :=
  if negb (empty_r r) && read_en_internal r then wrap (G_LOG2_DEPTH + 1) (read_addr_r r + 1) else read_addr_r r.

(** A rising edge of [rd_clk]; [wp] and [rst] are captured from the write side. *)
Definition rd_clock (read_en : bool) (wp : Z) (rst : bool) (ram : list Z) (r : rd_regs) : rd_regs :=
  let next := read_addr_next r in
  {| read_addr_r := if read_reset r then 0 else next;
     read_pointer_r := if read_reset r then 0 else gray next;
     empty_r := if read_reset r then true else gray next =? wp_r2 r;
     wp_r := if read_reset r then 0 else wp;
     wp_r2 := if read_reset r then 0 else wp_r r;
     reset_ff := rst;
     read_reset := reset_ff r;
     fifo_q := if read_en_internal r
               then nth (Z.to_nat (wrap G_LOG2_DEPTH (read_addr_r r))) ram 0 else fifo_q r;
     stage := fwft_clock (read_reset r) read_en (empty_r r) (fifo_q r) (stage r) |}.

(** Port A of the RAM. *)
Definition ram_write (i : wr_in) (w : wr_regs) (ram : list Z) : list Z :=
  if write_en_wr_clk i w then <[Z.to_nat (wrap G_LOG2_DEPTH (write_addr_r w)) := write_data i]> ram else ram.

Record afifo := AFifo { ram : list Z; wr : wr_regs; rd : rd_regs }.

Definition empty_out (s : afifo) : bool := negb (output_valid (stage (rd s))).
Definition data_out (s : afifo) : Z := output_r (stage (rd s)).

(** ** Edges *)

(** [Both]: the clocks rise together, or so close that a synchroniser's first register is
    clocked while its input changes; [p] and [b] are what it captures. *)
Inductive edge :=
  | Wr (i : wr_in)
  | Rd (read_en : bool)
  | Both (i : wr_in) (read_en : bool) (rp wp : Z) (rb wb : bool).

Definition edge_step (e : edge) (s : afifo) : afifo :=
  match e with
  | Wr i => AFifo (ram_write i (wr s) (ram s))
                  (wr_clock i (read_pointer_r (rd s)) (read_reset (rd s)) (wr s)) (rd s)
  | Rd re => AFifo (ram s) (wr s)
                  (rd_clock re (write_pointer_r (wr s)) (reset_to_read (wr s)) (ram s) (rd s))
  | Both i re rp wp rb wb =>
      AFifo (ram_write i (wr s) (ram s)) (wr_clock i rp rb (wr s)) (rd_clock re wp wb (ram s) (rd s))
  end.

(** The captured values mix those before and after the edge. *)
Definition edge_ok (e : edge) (s : afifo) : Prop :=
  match e with
  | Both i re rp wp rb wb =>
      captures (read_pointer_r (rd s)) (read_pointer_r (rd (edge_step e s))) rp /\
      captures (write_pointer_r (wr s)) (write_pointer_r (wr (edge_step e s))) wp /\
      (rb = read_reset (rd s) \/ rb = read_reset (rd (edge_step e s))) /\
      (wb = reset_to_read (wr s) \/ wb = reset_to_read (wr (edge_step e s)))
  | _ => True
  end.

(** The words taken and given on an edge. *)
Definition entered (e : edge) (s : afifo) : list Z :=
  match e with
  | Wr i | Both i _ _ _ _ _ => if write_en_wr_clk i (wr s) then [write_data i] else []
  | Rd _ => []
  end.
Definition left (e : edge) (s : afifo) : list Z :=
  match e with
  | Rd re | Both _ re _ _ _ _ => if re && negb (empty_out s) then [data_out s] else []
  | Wr _ => []
  end.

Fixpoint edges (es : list edge) (s : afifo) : list Z * list Z * afifo :=
  match es with
  | [] => ([], [], s)
  | e :: es' =>
      let '(inn, out, s') := edges es' (edge_step e s) in (entered e s ++ inn, left e s ++ out, s')
  end.

Fixpoint edges_ok (es : list edge) (s : afifo) : Prop :=
  match es with
  | [] => True
  | e :: es' => edge_ok e s /\ edges_ok es' (edge_step e s)
  end.

(** Initial values of the signals. *)
Definition power_up : afifo :=
  AFifo (replicate (Z.to_nat rows) 0) (WrRegs 0 0 false 0 0 S_IDLE false false false false)
    (RdRegs 0 0 true 0 0 false false 0 (Fwft false false false 0 0)).

Definition no_reset (e : edge) : Prop :=
  match e with Wr i | Both i _ _ _ _ _ => reset i = false | Rd _ => True end.

(** ** The fall-through stage as a queue *)
Definition staged (q : Z) (f : fwft) : list Z :=
  (if output_valid f then [output_r f] else []) ++ (if buffer_valid f then [buffer_r f] else []) ++
  (if fifo_valid f then [q] else []).

Definition stage_ok (f : fwft) : Prop := buffer_valid f = true -> output_valid f = true.

Lemma fwft_clock_staged read_en empty q q' f :
  stage_ok f -> (fifo_read_en_sig false empty f = false -> q' = q) ->
  let f' := fwft_clock false read_en empty q f in
  staged q f ++ (if fifo_read_en_sig false empty f then [q'] else []) =
    (if read_en && output_valid f then [output_r f] else []) ++ staged q' f' /\ stage_ok f'.
Proof.
  destruct f as [fv bv ov b o]. unfold stage_ok, fwft_clock, staged, update_buffer, update_output, fifo_read_en_sig.
  cbn [fifo_valid buffer_valid output_valid buffer_r output_r].
  destruct fv, bv, ov, read_en, empty; cbn; intros H Hq; try discriminate (H eq_refl);
    (split; [|done]); try rewrite (Hq eq_refl); reflexivity.
Qed.

(** ** The invariant: counts behind the wrapping pointers *)
Context (Hdepth : 1 <= G_LOG2_DEPTH).

Definition pointer (n : Z) : Z := gray (wrap (G_LOG2_DEPTH + 1) n).

(** [n] words written; the reader's counts [r1] and [r2] are in the synchroniser. *)
Definition wr_ok (w : wr_regs) (n r1 r2 : Z) : Prop :=
  write_addr_r w = wrap (G_LOG2_DEPTH + 1) n /\ write_pointer_r w = pointer n /\
  rp_r w = pointer r1 /\ rp_r2 w = pointer r2 /\ (full_r w = false -> n < r2 + rows) /\
  reset_state w = S_IDLE /\ reset_to_read w = false /\ reset_busy_sig w = false.

(** [r] words fetched; the writer's counts [w1] and [w2] are in the synchroniser. *)
Definition rd_ok (d : rd_regs) (r w1 w2 : Z) : Prop :=
  read_addr_r d = wrap (G_LOG2_DEPTH + 1) r /\ read_pointer_r d = pointer r /\
  wp_r d = pointer w1 /\ wp_r2 d = pointer w2 /\ (empty_r d = false -> r < w2) /\
  reset_ff d = false /\ read_reset d = false /\ stage_ok (stage d).

Lemma rows_two : 2 <= rows.
Proof. unfold rows. change 2 with (2 ^ 1) at 1. apply Z.pow_le_mono_r; lia. Qed.

Lemma pow_rows : 2 ^ (G_LOG2_DEPTH + 1) = 2 * rows.
Proof. unfold rows. rewrite Z.pow_add_r by lia. lia. Qed.

Lemma pointer_eq_iff x d : 0 <= d <= rows -> pointer x = pointer (x + d) <-> d = 0.
Proof.
  intros Hd. pose proof rows_two. pose proof pow_rows. split; [|intros ->; by rewrite Z.add_0_r].
  intros E. apply (gray_inj (G_LOG2_DEPTH + 1)) in E; [|lia|apply wrap_range; lia..].
  apply wrap_eq_iff in E; lia.
Qed.

Lemma wr_clock_ok i rp rst w n r1 r2 r1' :
  wr_ok w n r1 r2 -> reset i = false -> rp = pointer r1' -> n <= r2 + rows -> 0 <= n - r2 -> r2 <= r1 ->
  let n' := n + Z.of_nat (length (if write_en_wr_clk i w then [write_data i] else [])) in
  wr_ok (wr_clock i rp rst w) n' r1' r1 /\ n' <= r2 + rows.
Proof.
  intros (Ea & Ep & E1 & E2 & Hfull & Est & Ett & Eb) Hr -> Hmax Hmin Hle n'. pose proof rows_two.
  assert (Hw : write_en_wr_clk i w = negb (full_r w) && write_en i).
  { unfold write_en_wr_clk. rewrite Eb. by destruct (full_r w). }
  assert (Hn : write_addr_next i w = wrap (G_LOG2_DEPTH + 1) n' /\ n <= n' <= r2 + rows).
  { unfold write_addr_next, n'. rewrite Hw, Ea. destruct (full_r w), (write_en i); cbn [negb andb length Z.of_nat];
      rewrite ?Z.add_0_r; try (split; [done|lia]).
    split; [apply wrap_add_idemp; lia|]. specialize (Hfull eq_refl). lia. }
  destruct Hn as [Hn Hbound]. split; [|lia]. unfold wr_ok, wr_clock.
  cbn [write_addr_r write_pointer_r full_r rp_r rp_r2 reset_state reset_to_read reset_busy_sig].
  rewrite Hr, Hn, Est, E1, E2. split_and!; try done.
  intros Hf. destruct (Z.eq_dec n' (r2 + rows)) as [E|]; [|lia]. exfalso. assert (full_sig G_LOG2_DEPTH
    (gray (wrap (G_LOG2_DEPTH + 1) n')) (pointer r2) = true); [|congruence].
  apply full_sig_spec; [done|apply wrap_range; lia..|]. rewrite E. symmetry. apply wrap_add_idemp. lia.
Qed.

Lemma rd_clock_ok re wp rst m d r w1 w2 w1' :
  rd_ok d r w1 w2 -> rst = false -> wp = pointer w1' -> 0 <= w2 - r <= rows -> w2 <= w1 ->
  let r' := r + Z.b2z (read_en_internal d) in
  rd_ok (rd_clock re wp rst m d) r' w1' w1 /\ r' <= w2 /\
  (r' < w2 -> empty_r (rd_clock re wp rst m d) = false).
Proof.
  intros (Ea & Ep & E1 & E2 & Hempty & Eff & Err & Hst) -> -> Hmax Hle r'.
  assert (Hen : read_en_internal d = true -> empty_r d = false).
  { unfold read_en_internal, fifo_read_en_sig. rewrite Err. by destruct (empty_r d). }
  assert (Hn : read_addr_next d = wrap (G_LOG2_DEPTH + 1) r' /\ r <= r' <= w2).
  { unfold read_addr_next, r'. rewrite Ea. destruct (read_en_internal d); cbn [Z.b2z].
    - rewrite (Hen eq_refl). cbn [negb andb]. specialize (Hempty (Hen eq_refl)). split; [apply wrap_add_idemp; lia|lia].
    - rewrite andb_false_r, Z.add_0_r. split; [done|lia]. }
  destruct Hn as [Hn Hbound]. split; [|split; [lia|]].
  2: { intros Hlt. unfold rd_clock. cbn [empty_r]. rewrite Err, Hn, E2. apply Z.eqb_neq. intros E.
       replace w2 with (r' + (w2 - r')) in E by lia. apply pointer_eq_iff in E; lia. }
  unfold rd_ok, rd_clock.
  cbn [read_addr_r read_pointer_r empty_r wp_r wp_r2 reset_ff read_reset stage].
  rewrite Err, Hn, Eff, E1, E2. split_and!; try done.
  - intros Hf. destruct (Z.eq_dec r' w2) as [->|]; [|lia]. unfold pointer in Hf. by rewrite Z.eqb_refl in Hf.
  - destruct (fwft_clock_staged re (empty_r d) (fifo_q d) (if fifo_read_en_sig false (empty_r d) (stage d) then 0 else fifo_q d)
      (stage d) Hst) as [_ H]; [|exact H]. by intros ->.
Qed.

(** The FIFO has taken [hist]; [r] words of it have left the RAM, and the counts [w1] and [w2] are on
    their way to the reading side. *)
Definition fifo_holds (s : afifo) (hist : list Z) (r w1 w2 : Z) : Prop :=
  let n := Z.of_nat (length hist) in
  length (ram s) = Z.to_nat rows /\
  (forall k x, r <= Z.of_nat k -> hist !! k = Some x -> ram s !! Z.to_nat (wrap G_LOG2_DEPTH (Z.of_nat k)) = Some x) /\
  exists r1 r2, wr_ok (wr s) n r1 r2 /\ rd_ok (rd s) r w1 w2 /\
    0 <= r2 <= r1 /\ r1 <= r <= w2 /\ w2 <= w1 <= n /\ n <= r2 + rows.

(** What is inside, the next word to leave first. *)
Definition inside (s : afifo) (hist : list Z) (r : Z) : list Z :=
  staged (fifo_q (rd s)) (stage (rd s)) ++ drop (Z.to_nat r) hist.

Definition ram_holds (m : list Z) (hist : list Z) (r : Z) : Prop :=
  length m = Z.to_nat rows /\
  forall k x, r <= Z.of_nat k -> hist !! k = Some x -> m !! Z.to_nat (wrap G_LOG2_DEPTH (Z.of_nat k)) = Some x.

Lemma wrap_index k : (Z.to_nat (wrap G_LOG2_DEPTH k) < Z.to_nat rows)%nat.
Proof. pose proof (wrap_range G_LOG2_DEPTH k ltac:(lia)) as H. unfold is_u in H. fold rows in H. lia. Qed.

Lemma ram_write_holds i w m hist r r1 r2 :
  wr_ok w (Z.of_nat (length hist)) r1 r2 -> r2 <= r -> ram_holds m hist r ->
  ram_holds (ram_write i w m) (hist ++ (if write_en_wr_clk i w then [write_data i] else [])) r.
Proof.
  intros (Ea & _ & _ & _ & Hfull & _ & _ & Eb) Hr [Hl Hm]. unfold ram_write.
  destruct (write_en_wr_clk i w) eqn:Ew; [|by rewrite app_nil_r].
  assert (Hnf : full_r w = false).
  { unfold write_en_wr_clk in Ew. rewrite Eb in Ew. by destruct (full_r w). }
  specialize (Hfull Hnf). split; [by rewrite length_insert|]. intros k x Hk Hx.
  rewrite Ea, wrap_pointer by lia. apply lookup_snoc_Some in Hx as [[Hlt Hx]|[-> <-]].
  - rewrite list_lookup_insert_ne; [by apply Hm|]. intros E.
    apply Z2Nat.inj in E; [|apply wrap_range; lia..]. symmetry in E.
    replace (Z.of_nat (length hist)) with (Z.of_nat k + (Z.of_nat (length hist) - Z.of_nat k)) in E by lia.
    apply wrap_eq_iff in E; [lia|lia|]. unfold rows in *. lia.
  - apply list_lookup_insert_eq. rewrite Hl. apply wrap_index.
Qed.

Lemma read_inside re wp rst m d hist r w1 w2 :
  rd_ok d r w1 w2 -> 0 <= r -> w2 <= Z.of_nat (length hist) -> ram_holds m hist r ->
  let d' := rd_clock re wp rst m d in
  let r' := r + Z.b2z (read_en_internal d) in
  staged (fifo_q d) (stage d) ++ drop (Z.to_nat r) hist =
    (if re && output_valid (stage d) then [output_r (stage d)] else []) ++
    staged (fifo_q d') (stage d') ++ drop (Z.to_nat r') hist.
Proof.
  intros (Ea & _ & _ & _ & Hempty & _ & Err & Hst) Hr Hw [_ Hm] d' r'.
  destruct (fwft_clock_staged re (empty_r d) (fifo_q d) (fifo_q d') (stage d) Hst) as [E _].
  { intros H. unfold d', rd_clock, read_en_internal. cbn [fifo_q]. by rewrite Err, H. }
  assert (Ed : drop (Z.to_nat r) hist = (if read_en_internal d then [fifo_q d'] else []) ++ drop (Z.to_nat r') hist).
  { unfold r'. destruct (read_en_internal d) eqn:Ee; cbn [Z.b2z app]; [|by rewrite Z.add_0_r].
    assert (empty_r d = false) as He.
    { unfold read_en_internal, fifo_read_en_sig in Ee. rewrite Err in Ee. by destruct (empty_r d). }
    specialize (Hempty He). destruct (lookup_lt_is_Some_2 hist (Z.to_nat r)) as [x Hx]; [lia|].
    rewrite (drop_S _ _ _ Hx), Z2Nat.inj_add by lia. replace (Z.to_nat r + Z.to_nat 1)%nat with (S (Z.to_nat r)) by lia.
    f_equal. unfold d', rd_clock. cbn [fifo_q]. rewrite Ee, Ea, wrap_pointer by lia.
    apply Hm in Hx; [|lia]. rewrite Z2Nat.id in Hx by done. symmetry. by apply nth_lookup_Some. }
  rewrite Ed. unfold read_en_internal in *. rewrite Err in *. rewrite app_assoc, E.
  assert (Es : stage d' = fwft_clock false re (empty_r d) (fifo_q d) (stage d)) by (unfold d', rd_clock; cbn [stage]; by rewrite Err).
  by rewrite Es, <- app_assoc.
Qed.

Lemma ram_holds_mono m hist r r' : r <= r' -> ram_holds m hist r -> ram_holds m hist r'.
Proof. intros Hr [H1 H2]. split; [done|]. intros k x Hk. apply H2. lia. Qed.

Lemma captures_pointer (n n' : Z) p :
  n' = n \/ n' = n + 1 -> captures (pointer n) (pointer n') p -> exists c, n <= c <= n' /\ p = pointer c.
Proof.
  intros [-> | ->] H.
  - exists n. split; [lia|]. by apply captures_same.
  - unfold pointer in *. replace (G_LOG2_DEPTH + 1) with (Z.of_nat (Z.to_nat (G_LOG2_DEPTH + 1))) in * by lia.
    destruct (captures_gray _ _ _ H) as [-> | ->]; [exists n|exists (n + 1)]; (split; [lia|done]).
Qed.

(** What an edge does to the reader's counts. *)
Definition counts_step (e : edge) (s : afifo) (hist : list Z) (r w1 w2 r' w1' w2' : Z) : Prop :=
  match e with
  | Wr _ => r' = r /\ w1' = w1 /\ w2' = w2
  | Rd _ | Both _ _ _ _ _ _ =>
      r' = r + Z.b2z (read_en_internal (rd s)) /\ w2' = w1 /\ Z.of_nat (length hist) <= w1' /\ r' <= w2 /\
      (r' < w2 -> empty_r (rd (edge_step e s)) = false)
  end.

(** Any edge. *)
Lemma edge_holds e s hist r w1 w2 :
  no_reset e -> edge_ok e s -> fifo_holds s hist r w1 w2 ->
  exists r' w1' w2', fifo_holds (edge_step e s) (hist ++ entered e s) r' w1' w2' /\
    counts_step e s hist r w1 w2 r' w1' w2' /\
    inside s hist r ++ entered e s = left e s ++ inside (edge_step e s) (hist ++ entered e s) r'.
Proof.
  intros Hnr Hok (Hl & Hram & r1 & r2 & Hw & Hd & B1 & B2 & B3 & B4).
  assert (Hm : ram_holds (ram s) hist r) by (by split).
  pose proof Hw as (_ & Ewp & _ & _ & _ & _ & Ett & _). pose proof Hd as (_ & Erp & _ & _ & _ & _ & Err & _).
  assert (Hdrop : forall q, inside s hist r ++ q = inside s (hist ++ q) r).
  { intros q. unfold inside. rewrite <- app_assoc. f_equal. symmetry. apply drop_app_le. lia. }
  destruct e as [i|re|i re rp wp rb wb].
  - destruct (wr_clock_ok i (read_pointer_r (rd s)) (read_reset (rd s)) (wr s) _ r1 r2 r Hw Hnr Erp) as [Hw' Hb']; [lia..|].
    pose proof (ram_write_holds i (wr s) (ram s) hist r r1 r2 Hw ltac:(lia) Hm) as [Hl' Hm'].
    exists r, w1, w2. cbn [edge_step entered left app]. split; [|by rewrite Hdrop].
    split; [done|]. split; [done|]. cbn [wr rd]. exists r, r1. rewrite length_app, Nat2Z.inj_add in *.
    split; [done|]. split; [done|]. lia.
  - destruct (rd_clock_ok re (write_pointer_r (wr s)) (reset_to_read (wr s)) (ram s) (rd s) r w1 w2 _ Hd Ett Ewp) as (Hd' & Hb' & He');
      [lia..|].
    pose proof (read_inside re (write_pointer_r (wr s)) (reset_to_read (wr s)) (ram s) (rd s) hist r w1 w2 Hd ltac:(lia)
      ltac:(lia) Hm) as Hi.
    exists (r + Z.b2z (read_en_internal (rd s))), (Z.of_nat (length hist)), w1. cbn [edge_step entered left].
    rewrite !app_nil_r.
    unfold empty_out, data_out. rewrite negb_involutive. split; [|split; [|exact Hi]].
    2: { split; [done|]. split; [done|]. split; [lia|]. split; [exact Hb'|exact He']. }
    split; [done|]. split; [apply (ram_holds_mono _ _ r); [destruct (read_en_internal _); cbn; lia|done]|].
    cbn [wr rd]. exists r1, r2. split; [done|]. split; [done|].
    destruct (read_en_internal (rd s)); cbn [Z.b2z] in *; lia.
  - destruct Hok as (Hrp & Hwp & Hrb & Hwb). cbn [edge_step wr rd] in *.
    set (n := Z.of_nat (length hist)) in *.
    set (inn := if write_en_wr_clk i (wr s) then [write_data i] else []) in *.
    set (r' := r + Z.b2z (read_en_internal (rd s))).
    destruct (wr_clock_ok i (pointer r) rb (wr s) n r1 r2 r Hw Hnr eq_refl) as [(_ & Hwp' & _) Hb']; [lia..|].
    destruct (rd_clock_ok re (pointer n) false (ram s) (rd s) r w1 w2 n Hd eq_refl eq_refl) as ((_ & Hrp' & _) & Hc' & _); [lia..|].
    fold inn in Hwp', Hb'. fold r' in Hrp', Hc'. set (n' := n + Z.of_nat (length inn)) in *.
    assert (Hstep : n' = n \/ n' = n + 1) by (unfold n', inn; destruct (write_en_wr_clk i (wr s)); cbn; lia).
    assert (Hstepr : r' = r \/ r' = r + 1) by (unfold r'; destruct (read_en_internal (rd s)); cbn; lia).
    change (write_pointer_r (wr_clock i rp rb (wr s))) with (write_pointer_r (wr_clock i (pointer r) rb (wr s))) in Hwp.
    change (read_pointer_r (rd_clock re wp wb (ram s) (rd s))) with
      (read_pointer_r (rd_clock re (pointer n) false (ram s) (rd s))) in Hrp.
    rewrite Hwp', Ewp in Hwp. rewrite Hrp', Erp in Hrp.
    apply captures_pointer in Hwp as (w1' & Hw1' & ->); [|done]. apply captures_pointer in Hrp as (r1' & Hr1' & ->); [|done].
    assert (wb = false) as ->.
    { destruct Hwb as [-> | ->]; [done|]. unfold wr_clock. cbn [reset_to_read].
      destruct Hw as (_ & _ & _ & _ & _ & -> & _). exact Hnr. }
    destruct (wr_clock_ok i (pointer r1') rb (wr s) n r1 r2 r1' Hw Hnr eq_refl) as [Hw' _]; [lia..|].
    destruct (rd_clock_ok re (pointer w1') false (ram s) (rd s) r w1 w2 w1' Hd eq_refl eq_refl) as (Hd' & _ & He'); [lia..|].
    pose proof (ram_write_holds i (wr s) (ram s) hist r r1 r2 Hw ltac:(lia) Hm) as Hm'.
    pose proof (read_inside re (pointer w1') false (ram s) (rd s) hist r w1 w2 Hd ltac:(lia) ltac:(lia) Hm) as Hi.
    exists r', w1', w1. match goal with |- context [entered ?e s] => change (entered e s) with inn end. split; [|split].
    + apply (ram_holds_mono _ _ r r') in Hm'; [|lia]. destruct Hm' as [Hl' Hm']. split; [done|]. split; [done|].
      rewrite length_app, Nat2Z.inj_add. fold n n'. exists r1', r1. split; [done|]. split; [done|]. lia.
    + split; [done|]. split; [done|]. split; [lia|]. split; [exact Hc'|exact He'].
    + unfold left, empty_out, data_out. rewrite negb_involutive.
      unfold inside. cbn [edge_step rd]. rewrite drop_app_le by lia. rewrite Hi. fold r'.
      by rewrite <- !app_assoc.
Qed.

(** ** Runs *)
Lemma edges_hold es s hist r w1 w2 :
  Forall no_reset es -> edges_ok es s -> fifo_holds s hist r w1 w2 ->
  let '(inn, out, s') := edges es s in
  exists r' w1' w2', fifo_holds s' (hist ++ inn) r' w1' w2' /\ inside s hist r ++ inn = out ++ inside s' (hist ++ inn) r'.
Proof.
  intros Hnr. revert s hist r w1 w2. induction Hnr as [|e es He _ IH]; intros s hist r w1 w2 Hok Hs; cbn [edges].
  - exists r, w1, w2. rewrite !app_nil_r. by split.
  - destruct Hok as [Hok Hoks].
    destruct (edge_holds e s hist r w1 w2 He Hok Hs) as (r1 & w11 & w21 & Hs1 & _ & E1).
    specialize (IH _ _ _ _ _ Hoks Hs1). destruct (edges es (edge_step e s)) as [[inn out] s'].
    destruct IH as (r' & w1' & w2' & Hs' & E2). exists r', w1', w2'. rewrite app_assoc.
    split; [done|]. by rewrite (app_assoc (inside s hist r)), E1, <- app_assoc, E2, app_assoc.
Qed.

Lemma power_up_holds : fifo_holds power_up [] 0 0 0.
Proof.
  assert (pointer 0 = 0) as E by (unfold pointer, wrap; by rewrite Zmod_0_l).
  pose proof rows_two. split; [apply length_replicate|]. split; [done|]. exists 0, 0.
  unfold wr_ok, rd_ok, wrap. rewrite E, Zmod_0_l. cbn. repeat split; try done; lia.
Qed.

Lemma inside_length s hist r w1 w2 :
  fifo_holds s hist r w1 w2 -> Z.of_nat (length (inside s hist r)) <= rows + 3.
Proof.
  intros (_ & _ & r1 & r2 & _ & _ & H). unfold inside, staged.
  rewrite !length_app, length_drop. destruct (output_valid _), (buffer_valid _), (fifo_valid _); cbn [length]; lia.
Qed.

(** ** Draining *)

(** The writer is quiet and the reader takes what there is. *)
Definition draining (e : edge) : Prop :=
  match e with
  | Wr i => reset i = false /\ write_en i = false
  | Rd re => re = true
  | Both i re _ _ _ _ => reset i = false /\ write_en i = false /\ re = true
  end.

Definition is_read (e : edge) : bool := match e with Wr _ => false | _ => true end.
Definition reads (es : list edge) : Z := Z.of_nat (length (filter (fun e => is_read e = true) es)).

Definition blocked (f : fwft) : bool := fifo_valid f && buffer_valid f && output_valid f.

(** Reading edges until the RAM is empty: those until the writer's last count is seen, one for each
    word, and one if the stage is full. *)
Definition ram_rank (s : afifo) (n r w1 w2 : Z) : Z :=
  (if w1 <? n then 3 else if w2 <? n then 2 else if empty_r (rd s) && (r <? n) then 1 else 0) +
  (n - r) + Z.b2z (blocked (stage (rd s))).

Definition stage_rank (f : fwft) : Z :=
  Z.b2z (fifo_valid f) + Z.b2z (buffer_valid f) + Z.b2z (output_valid f) +
  (if output_valid f then 0 else Z.b2z (fifo_valid f)).

Definition drain_rank (s : afifo) (n r w1 w2 : Z) : Z :=
  if ram_rank s n r w1 w2 =? 0 then stage_rank (stage (rd s)) else ram_rank s n r w1 w2 + 3.

Lemma fwft_drain empty q f :
  stage_ok f ->
  let f' := fwft_clock false true empty q f in
  Z.b2z (blocked f') = 0 /\ 0 <= stage_rank f' <= 3 /\
  (fifo_read_en_sig false empty f = false -> empty = true -> stage_rank f' <= Z.max 0 (stage_rank f - 1)).
Proof.
  destruct f as [fv bv ov b o].
  unfold stage_ok, fwft_clock, blocked, stage_rank, update_buffer, update_output, fifo_read_en_sig.
  cbn [fifo_valid buffer_valid output_valid buffer_r output_r].
  destruct fv, bv, ov, empty; cbn; intros H; try discriminate (H eq_refl); repeat split; try done; try lia.
Qed.

Ltac rank_cases :=
  repeat match goal with
    | |- context [?a <? ?b] => destruct (Z.ltb_spec a b)
    | |- context [?a =? 0] => destruct (Z.eqb_spec a 0)
    end.

Lemma drain_edge e s hist r w1 w2 r' w1' w2' :
  draining e -> edge_ok e s -> fifo_holds s hist r w1 w2 -> counts_step e s hist r w1 w2 r' w1' w2' ->
  fifo_holds (edge_step e s) hist r' w1' w2' ->
  drain_rank (edge_step e s) (Z.of_nat (length hist)) r' w1' w2' <=
    (if is_read e then Z.max 0 (drain_rank s (Z.of_nat (length hist)) r w1 w2 - 1)
     else drain_rank s (Z.of_nat (length hist)) r w1 w2).
Proof.
  intros He Hok (_ & _ & r1 & r2 & _ & Hd & B1 & B2 & B3 & B4) Hc (_ & _ & r1' & r2' & _ & Hd' & C1 & C2 & C3 & C4).
  set (n := Z.of_nat (length hist)) in *.
  destruct (is_read e) eqn:Er.
  2: { destruct e as [i| |]; [|done..]. destruct Hc as (-> & -> & ->). done. }
  assert (Hstage : stage (rd (edge_step e s)) = fwft_clock false true (empty_r (rd s)) (fifo_q (rd s)) (stage (rd s))).
  { destruct Hd as (_ & _ & _ & _ & _ & _ & Err & _).
    destruct e as [i|re|i re rp wp rb wb]; [done| |]; cbn [edge_step rd rd_clock stage]; rewrite Err;
      [by rewrite He|by destruct He as (_ & _ & ->)]. }
  assert (Hc' : r' = r + Z.b2z (read_en_internal (rd s)) /\ w2' = w1 /\ n <= w1' /\ r' <= w2 /\
    (r' < w2 -> empty_r (rd (edge_step e s)) = false)) by (by destruct e).
  destruct Hc' as (-> & -> & Hw1' & Hrw & Hne).
  destruct Hd as (_ & _ & _ & _ & Hempty & _ & Err & Hst). destruct Hd' as (_ & _ & _ & _ & Hempty' & _).
  destruct (fwft_drain (empty_r (rd s)) (fifo_q (rd s)) (stage (rd s)) Hst) as (Hb & Hs1 & Hs2).
  unfold drain_rank, ram_rank. rewrite Hstage, Hb. unfold read_en_internal, fifo_read_en_sig in *. rewrite Err in *.
  fold (blocked (stage (rd s))) in *. set (f' := fwft_clock _ _ _ _ _) in *.
  rewrite (proj2 (Z.ltb_ge w1' n)) by lia.
  destruct (empty_r (rd s)) eqn:Ee; cbn [negb andb Z.b2z] in *.
  - rewrite Z.add_0_r in *. specialize (Hs2 eq_refl eq_refl). destruct (empty_r (rd (edge_step e s))) eqn:Ee'; cbn [andb].
    + rewrite Z.add_0_r in *. destruct (blocked (stage (rd s))); cbn [Z.b2z]; rank_cases;
        try (specialize (Hne ltac:(lia)); discriminate); lia.
    + specialize (Hempty' eq_refl). rewrite Z.add_0_r in *. destruct (blocked (stage (rd s))); cbn [Z.b2z]; rank_cases; lia.
  - specialize (Hempty eq_refl).
    destruct (blocked (stage (rd s))); cbn [negb Z.b2z] in *;
      destruct (empty_r (rd (edge_step e s))) eqn:Ee'; cbn [andb]; rank_cases;
      try (specialize (Hne ltac:(lia)); discriminate); try lia.
Qed.

Lemma draining_enters e s : draining e -> no_reset e /\ entered e s = [].
Proof.
  unfold no_reset, entered, write_en_wr_clk.
  destruct e as [i|re|i re rp wp rb wb]; cbn; [intros [-> ->]| |intros (-> & -> & _)]; try done;
    by destruct (reset_busy_sig (wr s)), (full_r (wr s)).
Qed.

Lemma drain_rank_nonneg s hist r w1 w2 :
  fifo_holds s hist r w1 w2 -> 0 <= drain_rank s (Z.of_nat (length hist)) r w1 w2.
Proof.
  intros (_ & _ & r1 & r2 & _ & _ & H). unfold drain_rank, ram_rank, stage_rank.
  destruct (empty_r _), (blocked _), (fifo_valid _), (buffer_valid _), (output_valid _); cbn [Z.b2z andb]; rank_cases; lia.
Qed.

Lemma drain_rank_zero s hist r w1 w2 :
  fifo_holds s hist r w1 w2 -> drain_rank s (Z.of_nat (length hist)) r w1 w2 = 0 -> inside s hist r = [].
Proof.
  intros (_ & _ & r1 & r2 & _ & _ & H) E. unfold drain_rank, ram_rank in E. set (n := Z.of_nat (length hist)) in *.
  assert (Hr : r = n /\ stage_rank (stage (rd s)) = 0).
  { destruct (empty_r (rd s)), (blocked (stage (rd s))); cbn [Z.b2z andb] in *;
      repeat match type of E with
        | context [?a <? ?b] => destruct (Z.ltb_spec a b)
        | context [?a =? 0] => destruct (Z.eqb_spec a 0)
        end; lia. }
  destruct Hr as [-> Hs]. unfold inside, staged, stage_rank in *. unfold n. rewrite Nat2Z.id, drop_all.
  by destruct (fifo_valid _), (buffer_valid _), (output_valid _).
Qed.

Lemma reads_cons e es : reads (e :: es) = Z.b2z (is_read e) + reads es.
Proof.
  unfold reads. rewrite filter_cons. destruct (is_read e).
  - rewrite decide_True by done. cbn [length Z.b2z]. lia.
  - by rewrite decide_False.
Qed.

Lemma drain_edges es s hist r w1 w2 :
  Forall draining es -> edges_ok es s -> fifo_holds s hist r w1 w2 ->
  let '(inn, out, s') := edges es s in
  inn = [] /\ exists r' w1' w2', fifo_holds s' hist r' w1' w2' /\ inside s hist r = out ++ inside s' hist r' /\
    drain_rank s' (Z.of_nat (length hist)) r' w1' w2' <=
      Z.max 0 (drain_rank s (Z.of_nat (length hist)) r w1 w2 - reads es).
Proof.
  intros Hes. revert s r w1 w2. induction Hes as [|e es He _ IH]; intros s r w1 w2 Hok Hs; cbn [edges].
  - split; [done|]. exists r, w1, w2. pose proof (drain_rank_nonneg _ _ _ _ _ Hs). split; [done|]. split; [done|].
    unfold reads. cbn. lia.
  - destruct Hok as [Hok Hoks]. destruct (draining_enters e s He) as [Hnr Hent].
    destruct (edge_holds e s hist r w1 w2 Hnr Hok Hs) as (r1 & w11 & w21 & Hs1 & Hc & E1).
    rewrite Hent, !app_nil_r in *. pose proof (drain_edge e s hist r w1 w2 r1 w11 w21 He Hok Hs Hc Hs1) as Hrank.
    specialize (IH _ _ _ _ Hoks Hs1). destruct (edges es (edge_step e s)) as [[inn out] s'].
    destruct IH as (-> & r' & w1' & w2' & Hs' & E2 & Hrank'). split; [done|]. exists r', w1', w2'. split; [done|].
    split; [by rewrite E1, E2, app_assoc|]. rewrite reads_cons.
    pose proof (drain_rank_nonneg _ _ _ _ _ Hs). unfold reads in *. destruct (is_read e); cbn [Z.b2z]; lia.
Qed.

Lemma edges_app es es' s :
  edges (es ++ es') s =
    let '(inn, out, s1) := edges es s in let '(inn', out', s2) := edges es' s1 in (inn ++ inn', out ++ out', s2).
Proof.
  revert s. induction es as [|e es IH]; intros s; cbn [app edges].
  - by destruct (edges es' s) as [[inn' out'] s2].
  - rewrite IH. destruct (edges es (edge_step e s)) as [[inn out] s1].
    destruct (edges es' s1) as [[inn' out'] s2]. by rewrite !app_assoc.
Qed.

Lemma edges_ok_app es es' s :
  edges_ok (es ++ es') s <-> edges_ok es s /\ edges_ok es' (edges es s).2.
Proof.
  revert s. induction es as [|e es IH]; intros s; cbn [app edges edges_ok]; [tauto|].
  rewrite IH. destruct (edges es (edge_step e s)) as [[inn out] s1]. cbn [snd]. tauto.
Qed.

(** From a state whose content is known, a run and enough reading edges. *)
Lemma crosses_all es quiet s :
  fifo_holds s [] 0 0 0 -> inside s [] 0 = [] ->
  Forall no_reset es -> Forall draining quiet -> edges_ok (es ++ quiet) s ->
  Z.of_nat (length (edges es s).1.1) + 7 <= reads quiet ->
  (edges (es ++ quiet) s).1.2 = (edges es s).1.1.
Proof.
  intros Hs0 Hi0 Hes Hq Hok Hn. apply edges_ok_app in Hok as [Hok Hokq]. rewrite edges_app.
  pose proof (edges_hold es s [] 0 0 0 Hes Hok Hs0) as H. destruct (edges es s) as [[inn out] s1]. cbn [fst snd app] in *.
  destruct H as (r1 & w1 & w2 & Hs1 & E1). rewrite Hi0 in E1. cbn [app] in E1.
  pose proof (drain_edges quiet s1 inn r1 w1 w2 Hq Hokq Hs1) as H. destruct (edges quiet s1) as [[inn2 out2] s2].
  destruct H as (-> & r2 & w1' & w2' & Hs2 & E2 & Hrank). cbn [fst snd].
  assert (Hmax : drain_rank s1 (Z.of_nat (length inn)) r1 w1 w2 <= Z.of_nat (length inn) + 7).
  { destruct Hs1 as (_ & _ & r3 & r4 & _ & _ & B). unfold drain_rank, ram_rank, stage_rank.
    destruct (empty_r _), (blocked _), (fifo_valid _), (buffer_valid _), (output_valid _); cbn [Z.b2z andb]; rank_cases; lia. }
  pose proof (drain_rank_nonneg _ _ _ _ _ Hs2).
  rewrite (drain_rank_zero _ _ _ _ _ Hs2) in E2 by lia. rewrite app_nil_r in E2. by rewrite E1, E2.
Qed.

(** C16. From power-up, for any order of the two clocks' edges and whatever the synchronisers
    capture of changing pointers: what has left the FIFO is at any time a prefix of what has entered, short of
    at most the RAM's rows and three words; and when the writer pauses, everything has left after
    seven reading edges more than words entered. *)
Theorem afifo_delivers es quiet :
  Forall no_reset es -> Forall draining quiet -> edges_ok (es ++ quiet) power_up ->
  let '(inn, out, _) := edges es power_up in
  (exists rest, inn = out ++ rest /\ Z.of_nat (length rest) <= rows + 3) /\
  (Z.of_nat (length inn) + 7 <= reads quiet -> (edges (es ++ quiet) power_up).1.2 = inn).
Proof.
  intros Hes Hq Hok. pose proof (crosses_all es quiet power_up power_up_holds eq_refl Hes Hq Hok) as Hall.
  apply edges_ok_app in Hok as [Hok _]. pose proof (edges_hold es power_up [] 0 0 0 Hes Hok power_up_holds) as H.
  destruct (edges es power_up) as [[inn out] s1]. cbn [fst] in *. split; [|exact Hall].
  destruct H as (r1 & w1 & w2 & Hs1 & E1). cbn [app] in *. exists (inside s1 inn r1).
  split; [by rewrite <- E1|by apply (inside_length s1 inn r1 w1 w2)].
Qed.
End Afifo.

(** ** Witness *)
Definition demo_afifo_edges : list edge :=
  [Wr (WrIn false true 5); Rd false; Both (WrIn false true 6) false 0 3 false false; Wr (WrIn false true 7); Rd true;
   Wr (WrIn false true 8); Wr (WrIn false true 9); Rd true; Rd false].
Definition demo_afifo_quiet : list edge := Wr (WrIn false false 0) :: replicate 12 (Rd true).

Lemma afifo_delivers_witness :
  (edges 2 demo_afifo_edges (power_up 2)).1.1 = [5; 6; 7; 8] /\
  (edges 2 (demo_afifo_edges ++ demo_afifo_quiet) (power_up 2)).1.2 = (edges 2 demo_afifo_edges (power_up 2)).1.1.
Proof.
  split; [by vm_compute|]. refine (proj2 (afifo_delivers 2 ltac:(lia) demo_afifo_edges demo_afifo_quiet _ _ _) _).
  - by repeat constructor.
  - by repeat constructor.
  - vm_compute. repeat split; intros; auto.
  - by vm_compute.
Defined.
