(* ===== verification/Cdc.v ===== *)
(** * Pulses between clocks: [cdc/pulse_transfer.vhd], [cdc/bit_synchroniser.vhd]

    A pulse on one clock is held until the other clock has seen it and the acknowledgement is
    back.  Theorem: whatever the order of the two clocks' edges, every pulse that finds the transfer ready gives one
    pulse on the other side, never two, and gives it within three of its edges. *)

From S2P Require Import Prelude.

(** Registers on [clk_a]: the held pulse and the acknowledgement's synchroniser. *)
Record pulse_a := PulseA { a_pulse_r : bool; ack_ff : bool; ack_r : bool }.
(** Registers on [clk_b]: [b_ff(0)] to [b_ff(2)]. *)
Record pulse_b := PulseB { b_ff0 : bool; b_ff1 : bool; b_ff2 : bool }.

Definition a_ready_out (a : pulse_a) : bool := negb (ack_r a || a_pulse_r a).
Definition b_pulse_out (b : pulse_b) : bool := negb (b_ff2 b) && b_ff1 b.

(** A rising edge of [clk_a]; [ack] is what the synchroniser captures of [b_ff(1)]. *)
Definition pulse_a_clock (a_pulse_in ack : bool) (a : pulse_a) : pulse_a :=
  {| a_pulse_r := if a_pulse_in then true else if ack_r a then false else a_pulse_r a;
     ack_ff := ack;
     ack_r := ack_ff a |}.

(** A rising edge of [clk_b]; [p] is captured of [a_pulse_r]. *)
Definition pulse_b_clock (p : bool) (b : pulse_b) : pulse_b :=
  {| b_ff0 := p; b_ff1 := b_ff0 b; b_ff2 := b_ff1 b |}.

Definition pulse_a_new : pulse_a := PulseA false false false.
Definition pulse_b_new : pulse_b := PulseB false false false.

(** ** Edges *)
Inductive pulse_edge :=
  | EdgeA (pulse : bool)
  | EdgeB
  | EdgeBoth (pulse ack p : bool).

Definition pulse_step (e : pulse_edge) (s : pulse_a * pulse_b) : pulse_a * pulse_b :=
  match e with
  | EdgeA x => (pulse_a_clock x (b_ff1 s.2) s.1, s.2)
  | EdgeB => (s.1, pulse_b_clock (a_pulse_r s.1) s.2)
  | EdgeBoth x ack p => (pulse_a_clock x ack s.1, pulse_b_clock p s.2)
  end.

(** A register clocked while its input changes takes the old or the new value; pulses
    are given only when the transfer is ready. *)
Definition pulse_edge_ok (e : pulse_edge) (s : pulse_a * pulse_b) : Prop :=
  match e with
  | EdgeA x => x = true -> a_ready_out s.1 = true
  | EdgeB => True
  | EdgeBoth x ack p =>
      (x = true -> a_ready_out s.1 = true) /\
      (ack = b_ff1 s.2 \/ ack = b_ff1 (pulse_step e s).2) /\
      (p = a_pulse_r s.1 \/ p = a_pulse_r (pulse_step e s).1)
  end.

Definition pulse_given (e : pulse_edge) : Z :=
  match e with EdgeA x | EdgeBoth x _ _ => Z.b2z x | EdgeB => 0 end.
(** [b_pulse_out] as a register on [clk_b] samples it. *)
Definition pulse_seen (e : pulse_edge) (s : pulse_a * pulse_b) : Z :=
  match e with EdgeA _ => 0 | EdgeB | EdgeBoth _ _ _ => Z.b2z (b_pulse_out s.2) end.

Fixpoint pulse_run (es : list pulse_edge) (s : pulse_a * pulse_b) : Z * Z * (pulse_a * pulse_b) :=
  match es with
  | [] => (0, 0, s)
  | e :: es' =>
      let '(g, n, s') := pulse_run es' (pulse_step e s) in (pulse_given e + g, pulse_seen e s + n, s')
  end.

Fixpoint pulse_run_ok (es : list pulse_edge) (s : pulse_a * pulse_b) : Prop :=
  match es with
  | [] => True
  | e :: es' => pulse_edge_ok e s /\ pulse_run_ok es' (pulse_step e s)
  end.

(** ** The handshake's phases *)

(** The pulse's level travels from [a_pulse_r] through [b_ff] and back: at most one change
    of level is on its way. *)
Definition level_chain (s : pulse_a * pulse_b) : list bool :=
  [a_pulse_r s.1; b_ff0 s.2; b_ff1 s.2; ack_ff s.1; ack_r s.1].

Fixpoint one_change (l : list bool) : bool :=
  match l with
  | x :: (y :: _) as l' => if Bool.eqb x y then one_change l' else forallb (Bool.eqb y) l'
  | _ => true
  end.

Definition pulse_inv (s : pulse_a * pulse_b) : Prop := one_change (level_chain s) = true.

(** A pulse given and not yet seen, and the edges of [clk_b] until it is. *)
Definition pulse_pending (s : pulse_a * pulse_b) : bool :=
  if a_pulse_r s.1 then negb (b_ff1 s.2 && b_ff2 s.2) else b_ff1 s.2 && negb (b_ff2 s.2).
Definition pulse_rank (s : pulse_a * pulse_b) : Z :=
  if pulse_pending s then (if b_ff1 s.2 then 1 else if b_ff0 s.2 then 2 else 3) else 0.

Definition on_b (e : pulse_edge) : bool := match e with EdgeA _ => false | _ => true end.

Lemma pulse_edge_step e s :
  pulse_edge_ok e s -> pulse_inv s ->
  pulse_inv (pulse_step e s) /\
  pulse_seen e s + Z.b2z (pulse_pending (pulse_step e s)) = Z.b2z (pulse_pending s) + pulse_given e /\
  (pulse_given e = 0 -> pulse_rank (pulse_step e s) <= if on_b e then Z.max 0 (pulse_rank s - 1) else pulse_rank s).
Proof.
  destruct s as [[a1 a2 a3] [c0 c1 c2]]. unfold pulse_inv, level_chain.
  destruct e as [x| |x ack p];
    cbn [pulse_edge_ok pulse_step pulse_a_clock pulse_b_clock a_pulse_r ack_ff ack_r b_ff0 b_ff1 b_ff2 fst snd
         a_ready_out].
  - intros Hok Hinv. destruct a1, a3; cbn [orb negb] in Hok; try (destruct x; [discriminate (Hok eq_refl)|]);
      try destruct x; destruct a2, c0, c1, c2; try discriminate Hinv; cbn; repeat split; done || lia.
  - intros _ Hinv. destruct a1, a2, a3, c0, c1, c2; try discriminate Hinv; cbn; repeat split; done || lia.
  - intros (Hok & Hack & Hp) Hinv. destruct a1, a3; cbn [orb negb] in *; try (destruct x; [discriminate (Hok eq_refl)|]);
      try destruct x; destruct a2, c0, c1, c2; try discriminate Hinv; cbn in Hack, Hp;
      destruct Hack as [-> | ->], Hp as [-> | ->]; cbn; repeat split; done || lia.
Qed.

Lemma pulse_run_counts es s :
  pulse_run_ok es s -> pulse_inv s ->
  let '(g, n, s') := pulse_run es s in
  pulse_inv s' /\ n + Z.b2z (pulse_pending s') = Z.b2z (pulse_pending s) + g.
Proof.
  revert s. induction es as [|e es IH]; intros s Hok Hinv; cbn [pulse_run]; [split; [done|lia]|].
  destruct Hok as [Hok Hoks]. destruct (pulse_edge_step e s Hok Hinv) as (Hinv' & E & _).
  specialize (IH _ Hoks Hinv'). destruct (pulse_run es (pulse_step e s)) as [[g n] s']. destruct IH as [H1 H2].
  split; [done|lia].
Qed.

Definition b_edges (es : list pulse_edge) : Z := Z.of_nat (length (filter (fun e => on_b e = true) es)).

Lemma pulse_run_rank es s :
  pulse_run_ok es s -> pulse_inv s -> Forall (fun e => pulse_given e = 0) es ->
  pulse_rank (pulse_run es s).2 <= Z.max 0 (pulse_rank s - b_edges es).
Proof.
  intros Hok Hinv Hq. revert s Hok Hinv. induction Hq as [|e es He _ IH]; intros s Hok Hinv; cbn [pulse_run].
  - unfold b_edges, pulse_rank. cbn. destruct (pulse_pending s), (b_ff1 s.2), (b_ff0 s.2); lia.
  - destruct Hok as [Hok Hoks]. destruct (pulse_edge_step e s Hok Hinv) as (Hinv' & _ & Hr). specialize (Hr He).
    specialize (IH _ Hoks Hinv'). destruct (pulse_run es (pulse_step e s)) as [[g n] s']. cbn [snd] in *.
    unfold b_edges in *. rewrite filter_cons. destruct (on_b e).
    + rewrite decide_True by done. cbn [length]. lia.
    + rewrite decide_False by done. lia.
Qed.

Lemma pulse_run_app es es' s :
  pulse_run (es ++ es') s =
    let '(g, n, s1) := pulse_run es s in let '(g', n', s2) := pulse_run es' s1 in (g + g', n + n', s2).
Proof.
  revert s. induction es as [|e es IH]; intros s; cbn [app pulse_run].
  - by destruct (pulse_run es' s) as [[g n] s2].
  - rewrite IH. destruct (pulse_run es (pulse_step e s)) as [[g n] s1]. destruct (pulse_run es' s1) as [[g' n'] s2].
    by rewrite !Z.add_assoc.
Qed.

Lemma pulse_run_ok_app es es' s :
  pulse_run_ok (es ++ es') s <-> pulse_run_ok es s /\ pulse_run_ok es' (pulse_run es s).2.
Proof.
  revert s. induction es as [|e es IH]; intros s; cbn [app pulse_run pulse_run_ok]; [tauto|].
  rewrite IH. destruct (pulse_run es (pulse_step e s)) as [[g n] s1]. cbn [snd]. tauto.
Qed.

(** C19. From power-up, for any order of edges and whatever the synchronisers capture: pulses seen are never more
    than pulses given, at most one less, and as many once three edges of [clk_b] have passed without
    a new one. *)
Theorem pulse_transferred es quiet :
  pulse_run_ok (es ++ quiet) (pulse_a_new, pulse_b_new) -> Forall (fun e => pulse_given e = 0) quiet ->
  let '(g, n, _) := pulse_run es (pulse_a_new, pulse_b_new) in
  n <= g <= n + 1 /\
  (3 <= b_edges quiet -> (pulse_run (es ++ quiet) (pulse_a_new, pulse_b_new)).1.2 = g).
Proof.
  set (s0 := (pulse_a_new, pulse_b_new)). intros Hok Hq. rewrite pulse_run_app. apply pulse_run_ok_app in Hok as [Hok Hokq].
  pose proof (pulse_run_counts es s0 Hok eq_refl) as H. destruct (pulse_run es s0) as [[g n] s1]. cbn [snd] in Hokq.
  destruct H as [Hinv E]. cbn in E. split; [destruct (pulse_pending s1); cbn in E; lia|]. intros H3.
  pose proof (pulse_run_counts quiet s1 Hokq Hinv) as H. pose proof (pulse_run_rank quiet s1 Hokq Hinv Hq) as Hr.
  assert (Hg : (pulse_run quiet s1).1.1 = 0).
  { clear -Hq. revert s1. induction Hq as [|e es He _ IH]; intros s; cbn [pulse_run]; [done|].
    specialize (IH (pulse_step e s)). destruct (pulse_run es (pulse_step e s)) as [[g n] s']. cbn [fst] in *. lia. }
  destruct (pulse_run quiet s1) as [[g' n'] s2]. destruct H as [_ E']. cbn [fst snd] in *. subst g'.
  assert (Hp : pulse_pending s2 = false).
  { assert (pulse_rank s1 <= 3) by (unfold pulse_rank; by destruct (pulse_pending s1), (b_ff1 s1.2), (b_ff0 s1.2); lia).
    unfold pulse_rank in Hr at 1. destruct (pulse_pending s2); [|done].
    destruct (b_ff1 s2.2), (b_ff0 s2.2); lia. }
  rewrite Hp in E'. cbn in E'. lia.
Qed.

(** ** Witness and example *)
Definition demo_pulse_edges : list pulse_edge :=
  [EdgeA true; EdgeA false; EdgeB; EdgeBoth false false true; EdgeB; EdgeA false; EdgeA false; EdgeA false; EdgeB; EdgeB;
   EdgeA false; EdgeA false; EdgeA true].

Lemma pulse_transferred_witness :
  (pulse_run (demo_pulse_edges ++ [EdgeB; EdgeB; EdgeA false; EdgeB]) (pulse_a_new, pulse_b_new)).1.2 = 2.
Proof.
  pose proof (pulse_transferred demo_pulse_edges [EdgeB; EdgeB; EdgeA false; EdgeB]) as H.
  apply H.
  - vm_compute. repeat split; auto; discriminate.
  - by repeat constructor.
  - vm_compute. discriminate.
Defined.

(** A pulse while the transfer is busy is lost in the one before: two resets, one seen. *)
Example busy_pulse_merged :
  (pulse_run [EdgeA true; EdgeA true; EdgeB; EdgeB; EdgeB; EdgeB] (pulse_a_new, pulse_b_new)).1 = (2, 1).
Proof. vm_compute. reflexivity. Qed.
