(* ===== verification/PacketAfifo.v ===== *)
(** * The transmit packet FIFO: [ethernet/packet_afifo/packet_afifo.vhd], [skid_buffer_single.vhd]

    Bytes cross to the transmitter's clock through [afifo] and a skid buffer into a FIFO, from
    which a packet is given out only once it is there as a whole.  Theorem: for any order of the clocks'
    edges the bytes leave as they entered, in order, and a packet, once begun, is offered without
    a gap; that is what the transmitter needs, which cannot wait. *)

From S2P Require Import Prelude.
From S2P Require Import Axis.
From S2P Require Import Cdc.
From S2P Require Fifo.
From S2P Require Afifo.

(** ** [skid_buffer_single.vhd] *)
Record skid := Skid { expansion_data_r : Z; expansion_valid_r : bool }.

Definition skid_clock (reset : bool) (data_in : Z) (valid_in ready_in : bool) (k : skid) : skid :=
  if reset then Skid 0 false
  else if ready_in then Skid (expansion_data_r k) false
  else if valid_in && negb (expansion_valid_r k) then Skid data_in true
  else k.

Definition skid_ready_out (k : skid) : bool := negb (expansion_valid_r k).
Definition skid_data_out (data_in : Z) (k : skid) : Z :=
  if expansion_valid_r k then expansion_data_r k else data_in.
Definition skid_valid_out (valid_in : bool) (k : skid) : bool := expansion_valid_r k || valid_in.

(** ** The reading side *)

(** Registers clocked by [rd_clk] behind [afifo]. *)
Record packet_regs := PacketRegs {
  skid_buffer : skid;
  packet_fifo : Fifo.fifo;
  num_packets_in_fifo : Z;
  read_packet : bool
}.

(** [tlast & tdata] in 9 bits *)
Definition word_of (a : axis) : Z := Z.lor (Z.shiftl (Z.b2z (tlast a)) 8) (tdata a).
Definition word_last (w : Z) : bool := Z.testbit w 8.
Definition beat_of (w : Z) : beat := (slice w 7 0, word_last w).

Section PacketAfifo.
Context (G_LOG2_DEPTH : Z).

Definition fifo_full (p : packet_regs) : bool := Fifo.f_full G_LOG2_DEPTH (packet_fifo p).
Definition fifo_empty (p : packet_regs) : bool := Fifo.f_empty (packet_fifo p).
Definition fifo_dout (p : packet_regs) : Z := Fifo.data_out_r (packet_fifo p).
Definition fifo_re (m_tready : bool) (p : packet_regs) : bool := if read_packet p then m_tready else false.

Definition m_axis (p : packet_regs) : axis :=
  Axis (slice (fifo_dout p) 7 0) (read_packet p && negb (fifo_empty p)) (word_last (fifo_dout p)).

(** A rising edge of [rd_clk]; [din] and [valid] are the output of [afifo]. *)
Definition packet_clock (reset : bool) (din : Z) (valid m_tready : bool) (p : packet_regs) : packet_regs :=
  let k := skid_buffer p in
  let we := skid_valid_out valid k in
  let w := skid_data_out din k in
  let re := fifo_re m_tready p in
  let in_last := we && negb (fifo_full p) && word_last w in
  let out_last := re && word_last (fifo_dout p) && negb (fifo_empty p) in
  {| skid_buffer := skid_clock reset din valid (negb (fifo_full p)) k;
     packet_fifo := Fifo.f_clock G_LOG2_DEPTH reset w we re (packet_fifo p);
     num_packets_in_fifo :=
       if reset then 0
       else if in_last && negb out_last then wrap 5 (num_packets_in_fifo p + 1)
       else if negb in_last && out_last then wrap 5 (num_packets_in_fifo p - 1)
       else num_packets_in_fifo p;
     read_packet :=
       if reset then false
       else if out_last then false
       else if negb (num_packets_in_fifo p =? 0) then true else read_packet p |}.

(** ** The whole entity *)
Record packet_afifo := PAfifo {
  cross : Afifo.afifo;
  local : packet_regs;
  reset_a : pulse_a;
  reset_b : pulse_b
}.

Definition s_axis_tready_out (s : packet_afifo) : bool := negb (Afifo.full_r (Afifo.wr (cross s))).
Definition afifo_in (reset : bool) (a : axis) (s : packet_afifo) : Afifo.wr_in :=
  Afifo.WrIn reset (tvalid a && negb (Afifo.reset_busy_sig (Afifo.wr (cross s)))) (word_of a).

(** Edges of [wr_clk], [rd_clk] or both, with what the synchronisers capture at once. *)
Inductive packet_edge :=
  | PWr (reset : bool) (a : axis)
  | PRd (m_tready : bool)
  | PBoth (reset : bool) (a : axis) (m_tready : bool) (rp wp : Z) (rb wb ack pulse : bool).

Definition afifo_edge (e : packet_edge) (s : packet_afifo) : Afifo.edge :=
  let re := skid_ready_out (skid_buffer (local s)) in
  match e with
  | PWr r a => Afifo.Wr (afifo_in r a s)
  | PRd _ => Afifo.Rd re
  | PBoth r a _ rp wp rb wb _ _ => Afifo.Both (afifo_in r a s) re rp wp rb wb
  end.

Definition local_step (m_tready : bool) (s : packet_afifo) : packet_regs :=
  packet_clock (b_pulse_out (reset_b s)) (Afifo.data_out (cross s)) (negb (Afifo.empty_out (cross s))) m_tready (local s).

Definition packet_step (e : packet_edge) (s : packet_afifo) : packet_afifo :=
  let c := Afifo.edge_step G_LOG2_DEPTH (afifo_edge e s) (cross s) in
  match e with
  | PWr r _ => PAfifo c (local s) (pulse_a_clock r (b_ff1 (reset_b s)) (reset_a s)) (reset_b s)
  | PRd t => PAfifo c (local_step t s) (reset_a s) (pulse_b_clock (a_pulse_r (reset_a s)) (reset_b s))
  | PBoth r _ t _ _ _ _ ack pulse =>
      PAfifo c (local_step t s) (pulse_a_clock r ack (reset_a s)) (pulse_b_clock pulse (reset_b s))
  end.

Definition packet_edge_ok (e : packet_edge) (s : packet_afifo) : Prop :=
  Afifo.edge_ok G_LOG2_DEPTH (afifo_edge e s) (cross s) /\
  match e with
  | PBoth _ _ _ _ _ _ _ ack pulse =>
      (ack = b_ff1 (reset_b s) \/ ack = b_ff1 (reset_b (packet_step e s))) /\
      (pulse = a_pulse_r (reset_a s) \/ pulse = a_pulse_r (reset_a (packet_step e s)))
  | _ => True
  end.

Definition packet_power_up : packet_afifo :=
  PAfifo (Afifo.power_up G_LOG2_DEPTH)
    (PacketRegs (Skid 0 false) (Fifo.f_new G_LOG2_DEPTH) 0 false) pulse_a_new pulse_b_new.

Definition without_reset (e : packet_edge) : Prop :=
  match e with PWr r _ | PBoth r _ _ _ _ _ _ _ _ => r = false | PRd _ => True end.

(** Bytes taken and given. *)
Definition taken (e : packet_edge) (s : packet_afifo) : list beat :=
  match e with
  | PWr _ a | PBoth _ a _ _ _ _ _ _ _ => if s_axis_tready_out s then axis_beats a else []
  | PRd _ => []
  end.
Definition given (e : packet_edge) (s : packet_afifo) : list beat :=
  match e with
  | PRd t | PBoth _ _ t _ _ _ _ _ _ => if t then axis_beats (m_axis (local s)) else []
  | PWr _ _ => []
  end.

(** What [m_axis] shows when [rd_clk] rises, and whether the transmitter was ready. *)
Definition shown (e : packet_edge) (s : packet_afifo) : list (axis * bool) :=
  match e with PRd t | PBoth _ _ t _ _ _ _ _ _ => [(m_axis (local s), t)] | PWr _ _ => [] end.

Fixpoint packet_run (es : list packet_edge) (s : packet_afifo) : list beat * list beat * list (axis * bool) * packet_afifo :=
  match es with
  | [] => ([], [], [], s)
  | e :: es' =>
      let '(inn, out, shows, s') := packet_run es' (packet_step e s) in
      (taken e s ++ inn, given e s ++ out, shown e s ++ shows, s')
  end.

Fixpoint packet_run_ok (es : list packet_edge) (s : packet_afifo) : Prop :=
  match es with
  | [] => True
  | e :: es' => packet_edge_ok e s /\ packet_run_ok es' (packet_step e s)
  end.

(** Once a byte is offered it stays until taken, and the rest of its packet follows without a gap. *)
Fixpoint gapless (shows : list (axis * bool)) : Prop :=
  match shows with
  | (a, t) :: ((a', _) :: _) as shows' =>
      (tvalid a = true -> t = false -> a' = a) /\
      (tvalid a = true -> tlast a = false -> tvalid a' = true) /\ gapless shows'
  | _ => True
  end.

(** Every packet of the stream has at least [k] bytes; [c] of the first one have gone before. *)
Fixpoint long_packets (k c : Z) (bs : list beat) : Prop :=
  match bs with
  | [] => True
  | (_, last) :: bs' => if last then k <= c + 1 /\ long_packets k 0 bs' else long_packets k (c + 1) bs'
  end.

Definition bytes_in (e : packet_edge) : Prop :=
  match e with PWr _ a | PBoth _ a _ _ _ _ _ _ _ => is_u 8 (tdata a) | PRd _ => True end.

(** ** Words in the FIFO *)
Context (Hdepth : 1 <= G_LOG2_DEPTH).

Definition lasts (ws : list Z) : Z := Z.of_nat (length (filter (fun w => word_last w = true) ws)).

Lemma word_lasts_cons w ws : lasts (w :: ws) = Z.b2z (word_last w) + lasts ws.
Proof.
  unfold lasts. rewrite filter_cons. destruct (word_last w).
  - rewrite decide_True by done. cbn [length Z.b2z]. lia.
  - by rewrite decide_False.
Qed.

Lemma word_lasts_nil : lasts [] = 0.
Proof. done. Qed.

Lemma word_lasts_app ws ws' : lasts (ws ++ ws') = lasts ws + lasts ws'.
Proof. unfold lasts. rewrite filter_app, length_app. lia. Qed.

Lemma lasts_bounds ws : 0 <= lasts ws <= Z.of_nat (length ws).
Proof. unfold lasts. pose proof (length_filter (fun w => word_last w = true) ws). lia. Qed.

(** The FIFO holds [ws]; a packet is read only while all of it is there. *)
Definition packet_holds (p : packet_regs) (ws : list Z) : Prop :=
  (exists o q, Fifo.f_holds G_LOG2_DEPTH (packet_fifo p) o q /\ ws = Fifo.contents o q /\
     (read_packet p = true -> o <> None)) /\
  num_packets_in_fifo p = wrap 5 (lasts ws) /\
  (read_packet p = true -> 1 <= lasts ws).

Definition skid_words (k : skid) : list Z := if expansion_valid_r k then [expansion_data_r k] else [].

Lemma f_clock_gated x we re f :
  Fifo.f_clock G_LOG2_DEPTH false x we re f =
  Fifo.f_clock G_LOG2_DEPTH false x (we && negb (Fifo.f_full G_LOG2_DEPTH f)) re f.
Proof. unfold Fifo.f_clock. by rewrite <- andb_assoc, andb_diag. Qed.

(** A word passes the skid buffer or waits in it. *)
Lemma skid_clock_words din valid ready k :
  skid_words k ++ (if skid_ready_out k && valid then [din] else []) =
  (if skid_valid_out valid k && ready then [skid_data_out din k] else []) ++
  skid_words (skid_clock false din valid ready k).
Proof.
  destruct k as [d v]. unfold skid_words, skid_ready_out, skid_valid_out, skid_data_out, skid_clock.
  cbn [expansion_data_r expansion_valid_r]. by destruct v, valid, ready.
Qed.

Lemma packet_num n ws ws' : n = wrap 5 (lasts ws) -> forall a b : bool,
  lasts ws' = lasts ws + Z.b2z a - Z.b2z b ->
  (if a && negb b then wrap 5 (n + 1) else (if negb a && b then wrap 5 (n - 1) else n)) = wrap 5 (lasts ws').
Proof.
  intros -> a b ->. unfold wrap. destruct a, b; cbn [andb negb Z.b2z];
    rewrite ?Zplus_mod_idemp_l, ?Zminus_mod_idemp_l; f_equal; lia.
Qed.

Lemma packet_valid p ws : packet_holds p ws -> tvalid (m_axis p) = read_packet p.
Proof.
  intros ((o & q & Hf & _ & Ho) & _). unfold m_axis, fifo_empty, Fifo.f_empty. cbn [tvalid].
  destruct Hf as (_ & _ & -> & _). destruct (read_packet p); [|done]. destruct o; [done|by destruct (Ho eq_refl)].
Qed.

Lemma packet_head p ws : packet_holds p ws -> read_packet p = true -> exists ws', ws = fifo_dout p :: ws'.
Proof.
  intros ((o & q & Hf & -> & Ho) & _) Hr. destruct Hf as (_ & _ & _ & Hd & _).
  destruct o as [x|]; [|by destruct (Ho Hr)]. exists q. unfold fifo_dout. by rewrite (Hd x).
Qed.

(** A reading edge. *)
Lemma packet_clock_holds din valid t p ws :
  packet_holds p ws -> lasts ws <= 31 ->
  let out := if t && read_packet p then [fifo_dout p] else [] in
  let inn := if skid_valid_out valid (skid_buffer p) && negb (fifo_full p) then [skid_data_out din (skid_buffer p)] else [] in
  exists ws', packet_holds (packet_clock false din valid t p) ws' /\ ws ++ inn = out ++ ws' /\
    read_packet (packet_clock false din valid t p) =
      (if read_packet p then negb (t && word_last (fifo_dout p)) else 1 <=? lasts ws).
Proof.
  intros Hp Hmax out inn. pose proof (packet_valid _ _ Hp) as Hv. pose proof (packet_head _ _ Hp) as Hh.
  destruct Hp as ((o & q & Hf & Hws & Ho) & Hn & Hl).
  set (we := skid_valid_out valid (skid_buffer p)) in *. set (w := skid_data_out din (skid_buffer p)) in *.
  set (re := fifo_re t p).
  assert (Hre : re = t && read_packet p) by (unfold re, fifo_re; destruct t, (read_packet p); done).
  destruct (Fifo.f_clock_contents G_LOG2_DEPTH ltac:(lia) (packet_fifo p) o q w (we && negb (fifo_full p)) re Hf)
    as (o' & q' & Hf' & Hc & Hnone & Hkeep & Hnil).
  { intros H. apply andb_true_iff in H as [_ H]. by apply negb_true_iff in H. }
  { rewrite Hre. intros H. apply andb_true_iff in H as [_ H]. by apply Ho. }
  unfold fifo_full in Hf'. rewrite <- f_clock_gated in Hf'.
  set (ws' := Fifo.contents o' q') in *.
  assert (Hout : re && word_last (fifo_dout p) && negb (fifo_empty p) = (t && read_packet p) && word_last (fifo_dout p)).
  { rewrite Hre. unfold m_axis in Hv. cbn [tvalid] in Hv. destruct (read_packet p), (fifo_empty p); try done;
      by rewrite !andb_false_r || by rewrite !andb_true_r. }
  assert (E : ws ++ inn = out ++ ws').
  { rewrite Hc, Hre, <- Hws. unfold out. destruct (t && read_packet p) eqn:Et; [|done].
    apply andb_true_iff in Et as [_ Et]. by destruct (Hh Et) as (? & ->). }
  assert (Elasts : lasts ws' = lasts ws + Z.b2z (we && negb (fifo_full p) && word_last w)
                    - Z.b2z ((t && read_packet p) && word_last (fifo_dout p))).
  { apply (f_equal lasts) in E. rewrite !word_lasts_app in E. unfold inn, out in E. fold we w in E.
    destruct (we && negb (fifo_full p)), (t && read_packet p); cbn [andb Z.b2z];
      rewrite ?word_lasts_cons, ?word_lasts_nil in E; lia. }
  assert (Eread : read_packet (packet_clock false din valid t p) =
      (if read_packet p then negb (t && word_last (fifo_dout p)) else 1 <=? lasts ws)).
  { unfold packet_clock. cbn [read_packet]. fold re. rewrite Hout, Hn. pose proof (lasts_bounds ws) as Hb.
    assert (wrap 5 (lasts ws) = lasts ws) as -> by (apply wrap_small; unfold is_u; lia).
    destruct (Z.leb_spec 1 (lasts ws)), (Z.eqb_spec (lasts ws) 0); try lia; cbn [negb].
    - destruct (read_packet p), t, (word_last (fifo_dout p)); done.
    - destruct (read_packet p); [specialize (Hl eq_refl); lia|]. by rewrite andb_false_r. }
  assert (Hnext : read_packet (packet_clock false din valid t p) = true -> 1 <= lasts ws').
  { rewrite Eread, Elasts. pose proof (lasts_bounds ws). intros Hr.
    destruct (read_packet p) eqn:Er.
    - specialize (Hl eq_refl). destruct t, (word_last (fifo_dout p)); try done; cbn [andb Z.b2z];
        destruct (we && negb (fifo_full p) && word_last w); cbn [Z.b2z]; lia.
    - apply Z.leb_le in Hr. rewrite andb_false_r. cbn [andb Z.b2z].
      destruct (we && negb (fifo_full p) && word_last w); cbn [Z.b2z]; lia. }
  exists ws'. split; [|done]. split; [|split]; [| |exact Hnext].
  - exists o', q'. split; [exact Hf'|]. split; [done|]. intros Hr Ho'.
    destruct (Hnone Ho') as [Hcase ->]. rewrite Eread in Hr. rewrite Hre in Hcase.
    destruct (read_packet p) eqn:Er.
    + specialize (Hl eq_refl). specialize (Ho eq_refl). destruct Hcase as [Hcase|]; [|done].
      destruct t; [|done]. destruct (Hh eq_refl) as (l & El). rewrite Hws in El, Hl.
      destruct o as [x|]; [|done]. injection El as Ex _. cbn [Fifo.contents from_option app] in Hl.
      unfold Fifo.contents in Hl. cbn in Hl. rewrite word_lasts_cons, word_lasts_nil, Ex in Hl.
      by destruct (word_last (fifo_dout p)).
    + rewrite andb_false_r in Hcase. destruct Hcase as [|Hcase]; [done|].
      apply Z.leb_le in Hr. rewrite Hws, Hcase in Hr. by cbn in Hr.
  - unfold packet_clock. cbn [num_packets_in_fifo]. fold we w re. rewrite Hout. by apply (packet_num _ ws).
Qed.

(** ** The number of packets stays within its five bits *)
Lemma long_packets_lasts k c ws :
  1 <= k -> 0 <= c -> long_packets k c (beat_of <$> ws) -> k * lasts ws <= Z.min c (k - 1) + Z.of_nat (length ws).
Proof.
  intros Hk. revert c. induction ws as [|w ws IH]; intros c Hc; cbn [fmap list_fmap long_packets beat_of length].
  - rewrite word_lasts_nil. lia.
  - rewrite word_lasts_cons. destruct (word_last w); cbn [Z.b2z]; [intros [Hle H]|intros H]; apply IH in H; lia.
Qed.

Lemma long_packets_app k c bs bs' :
  0 <= c -> long_packets k c (bs ++ bs') -> exists c', 0 <= c' /\ long_packets k c' bs'.
Proof.
  revert c. induction bs as [|[b last] bs IH]; intros c Hc; cbn [app long_packets]; [by exists c|].
  destruct last; [intros [_ H]|intros H]; eapply IH; try exact H; lia.
Qed.

Lemma packet_holds_length p ws : packet_holds p ws -> Z.of_nat (length ws) <= Afifo.rows G_LOG2_DEPTH.
Proof.
  intros ((o & q & (_ & Hl & _) & -> & _) & _). unfold Fifo.contents, Fifo.f_rows, Afifo.rows in *.
  rewrite length_app. destruct o; cbn; lia.
Qed.

(** ** The whole entity *)

(** [ins] has entered and [outs] has left. *)
Definition packet_at (s : packet_afifo) (ins outs ws : list Z) (r w1 w2 : Z) : Prop :=
  packet_holds (local s) ws /\ Afifo.fifo_holds G_LOG2_DEPTH (cross s) ins r w1 w2 /\
  ins = outs ++ ws ++ skid_words (skid_buffer (local s)) ++ Afifo.inside (cross s) ins r.

Definition packet_ok (s : packet_afifo) (ins outs : list Z) : Prop :=
  reset_a s = pulse_a_new /\ reset_b s = pulse_b_new /\ exists ws r w1 w2, packet_at s ins outs ws r w1 w2.

Definition words_in (e : packet_edge) (s : packet_afifo) : list Z := Afifo.entered (afifo_edge e s) (cross s).
Definition words_out (e : packet_edge) (s : packet_afifo) : list Z :=
  match e with
  | PRd t | PBoth _ _ t _ _ _ _ _ _ => if t && read_packet (local s) then [fifo_dout (local s)] else []
  | PWr _ _ => []
  end.

Definition local_out (t : bool) (s : packet_afifo) : list Z :=
  if t && read_packet (local s) then [fifo_dout (local s)] else [].
Definition cross_out (s : packet_afifo) : list Z :=
  if skid_ready_out (skid_buffer (local s)) && negb (Afifo.empty_out (cross s)) then [Afifo.data_out (cross s)] else [].

Lemma local_step_holds t s ws :
  reset_b s = pulse_b_new -> packet_holds (local s) ws -> lasts ws <= 31 ->
  exists ws', packet_holds (local_step t s) ws' /\
    ws ++ skid_words (skid_buffer (local s)) ++ cross_out s =
      local_out t s ++ ws' ++ skid_words (skid_buffer (local_step t s)).
Proof.
  intros Eb Hp Hmax. set (valid := negb (Afifo.empty_out (cross s))). set (din := Afifo.data_out (cross s)).
  destruct (packet_clock_holds din valid t _ ws Hp Hmax) as (ws' & Hp' & E & _).
  assert (El : local_step t s = packet_clock false din valid t (local s)) by (unfold local_step; by rewrite Eb).
  rewrite El. exists ws'. split; [done|]. unfold cross_out, local_out. fold valid din.
  rewrite (skid_clock_words din valid (negb (fifo_full (local s)))), app_assoc, E, <- app_assoc. done.
Qed.

Lemma m_axis_eq p ws :
  packet_holds p ws -> m_axis p = Axis (slice (fifo_dout p) 7 0) (read_packet p) (word_last (fifo_dout p)).
Proof. intros Hp. rewrite <- (packet_valid _ _ Hp). done. Qed.

(** An offered byte stays, and the next of its packet follows. *)
Lemma local_step_steady t s ws :
  reset_b s = pulse_b_new -> packet_holds (local s) ws -> lasts ws <= 31 ->
  tvalid (m_axis (local s)) = true ->
  (t = false -> m_axis (local_step t s) = m_axis (local s)) /\
  (tlast (m_axis (local s)) = false -> tvalid (m_axis (local_step t s)) = true).
Proof.
  intros Eb Hp Hmax Hv. rewrite (packet_valid _ _ Hp) in Hv. destruct (packet_head _ _ Hp Hv) as (l & El).
  destruct (packet_clock_holds (Afifo.data_out (cross s)) (negb (Afifo.empty_out (cross s))) t _ ws Hp Hmax)
    as (ws' & Hp' & E & Hr).
  assert (Es : local_step t s = packet_clock false (Afifo.data_out (cross s)) (negb (Afifo.empty_out (cross s))) t (local s))
    by (unfold local_step; by rewrite Eb).
  rewrite <- Es in *. rewrite Hv in *. split.
  - intros ->. cbn [andb negb] in *. destruct (packet_head _ _ Hp' Hr) as (l' & El').
    rewrite El', El in E. injection E as E _. rewrite (m_axis_eq _ _ Hp'), (m_axis_eq _ _ Hp), <- E, Hr, Hv. done.
  - rewrite (m_axis_eq _ _ Hp). cbn [tlast]. intros Hl. rewrite (packet_valid _ _ Hp'), Hr, Hl. by destruct t.
Qed.

(** An edge. *)
Lemma packet_step_at e s ins outs ws r w1 w2 :
  without_reset e -> packet_edge_ok e s -> reset_a s = pulse_a_new -> reset_b s = pulse_b_new ->
  packet_at s ins outs ws r w1 w2 -> lasts ws <= 31 ->
  reset_a (packet_step e s) = pulse_a_new /\ reset_b (packet_step e s) = pulse_b_new /\
  exists ws' r' w1' w2',
    packet_at (packet_step e s) (ins ++ words_in e s) (outs ++ words_out e s) ws' r' w1' w2' /\
    Afifo.counts_step G_LOG2_DEPTH (afifo_edge e s) (cross s) ins r w1 w2 r' w1' w2' /\
    (match e with PWr _ _ => ws' = ws | _ => True end).
Proof.
  intros He [Hok Hpulse] Ea Eb (Hp & Hc & E) Hmax.
  assert (Hnr : Afifo.no_reset (afifo_edge e s)) by (destruct e; exact He || exact I).
  destruct (Afifo.edge_holds G_LOG2_DEPTH Hdepth _ _ _ _ _ _ Hnr Hok Hc) as (r' & w1' & w2' & Hc' & Hcs & Ei).
  assert (Hread : forall t x, Afifo.inside (cross s) ins r ++ words_in e s = cross_out s ++ x ->
    exists ws', packet_holds (local_step t s) ws' /\
      ins ++ words_in e s = (outs ++ local_out t s) ++ ws' ++ skid_words (skid_buffer (local_step t s)) ++ x).
  { intros t x Ex. destruct (local_step_holds t s ws Eb Hp Hmax) as (ws' & Hp' & Ew). exists ws'. split; [done|].
    apply (f_equal (fun l => outs ++ l ++ x)) in Ew. cbn beta in Ew. rewrite <- !app_assoc in Ew.
    rewrite E at 1. rewrite <- !app_assoc, Ex. exact Ew. }
  assert (Eq : forall ack x, ack = b_ff1 (reset_b s) -> x = a_pulse_r (reset_a s) ->
    pulse_a_clock false ack (reset_a s) = pulse_a_new /\ pulse_b_clock x (reset_b s) = pulse_b_new).
  { intros ack x -> ->. rewrite Ea, Eb. done. }
  destruct e as [rst a|t|rst a t rp wp rb wb ack pulse]; cbn [packet_step words_out without_reset] in *.
  - subst rst. destruct (Eq _ _ eq_refl eq_refl) as [Eqa _]. split; [done|]. split; [done|]. exists ws, r', w1', w2'.
    split; [|by split]. split; [done|]. split; [done|].
    rewrite app_nil_r. change (Afifo.left (afifo_edge (PWr false a) s) (cross s)) with (@nil Z) in Ei. cbn [app] in Ei.
    cbn [cross local]. rewrite E at 1. unfold words_in. rewrite <- !app_assoc, Ei. done.
  - destruct (Eq _ _ eq_refl eq_refl) as [_ Eqb]. destruct (Hread t _ Ei) as (ws' & Hp' & Ew).
    split; [done|]. split; [done|]. exists ws', r', w1', w2'. split; [|by split]. split; [done|]. by split.
  - subst rst. destruct Hpulse as [Hack Hpulse]. cbn [packet_step reset_a reset_b] in Hack, Hpulse.
    assert (ack = b_ff1 (reset_b s) /\ pulse = a_pulse_r (reset_a s)) as [Hack' Hpulse'].
    { unfold pulse_a_clock, pulse_b_clock in *. rewrite Ea, Eb in *. cbn in *. destruct Hack, Hpulse; by subst. }
    destruct (Eq _ _ Hack' Hpulse') as [Eqa Eqb]. destruct (Hread t _ Ei) as (ws' & Hp' & Ew).
    split; [done|]. split; [done|]. exists ws', r', w1', w2'. split; [|by split]. split; [done|]. by split.
Qed.

Lemma packet_step_ok e s ins outs :
  without_reset e -> packet_edge_ok e s -> packet_ok s ins outs ->
  (forall ws, packet_holds (local s) ws -> (exists rest, ins = outs ++ ws ++ rest) -> lasts ws <= 31) ->
  packet_ok (packet_step e s) (ins ++ words_in e s) (outs ++ words_out e s).
Proof.
  intros He Hok (Ea & Eb & ws & r & w1 & w2 & Hs) Hmax. pose proof Hs as (Hp & _ & E).
  specialize (Hmax ws Hp ltac:(eexists; exact E)).
  destruct (packet_step_at e s ins outs ws r w1 w2 He Hok Ea Eb Hs Hmax) as (Ea' & Eb' & ws' & r' & w1' & w2' & Hs' & _).
  split; [done|]. split; [done|]. by exists ws', r', w1', w2'.
Qed.

(** ** Words and beats *)
Lemma beat_word a : is_u 8 (tdata a) -> beat_of (word_of a) = (tdata a, tlast a).
Proof.
  intros Ha. unfold beat_of, word_of, word_last. f_equal.
  - apply Z.bits_inj'. intros n Hn. rewrite testbit_slice, Z.lor_spec, testbit_shiftl, Z.add_0_r by lia.
    destruct (Z.leb_spec n (7 - 0)) as [Hle|Hgt]; cbn [andb].
    + rewrite (Z.testbit_neg_r _ (n - 8)) by lia. by rewrite andb_false_r.
    + symmetry. apply (testbit_high 8); [done|lia].
  - rewrite Z.lor_spec, testbit_shiftl, (testbit_high 8 (tdata a)) by (done || lia). by destruct (tlast a).
Qed.

Lemma taken_words e s ins outs :
  bytes_in e -> packet_ok s ins outs -> taken e s = beat_of <$> words_in e s.
Proof.
  intros Hb (_ & _ & ws & r & w1 & w2 & (_ & (_ & _ & r1 & r2 & (_ & _ & _ & _ & _ & _ & _ & Ebusy) & _) & _)).
  assert (H : forall rst a, is_u 8 (tdata a) -> (if s_axis_tready_out s then axis_beats a else []) = beat_of <$>
    (if Afifo.write_en_wr_clk (afifo_in rst a s) (Afifo.wr (cross s)) then [word_of a] else [])).
  { intros rst a Ha. unfold s_axis_tready_out, Afifo.write_en_wr_clk, afifo_in, axis_beats. cbn [Afifo.write_en].
    rewrite Ebusy, andb_true_r. destruct (Afifo.full_r _), (tvalid a); try done.
    cbn [negb fmap list_fmap]. by rewrite (beat_word a Ha). }
  destruct e; [by apply H|done|by apply H].
Qed.

Lemma given_words e s ins outs : packet_ok s ins outs -> given e s = beat_of <$> words_out e s.
Proof.
  intros (_ & _ & ws & r & w1 & w2 & (Hp & _)). unfold given, words_out.
  assert (H : forall t : bool, (if t then axis_beats (m_axis (local s)) else []) =
    beat_of <$> (if t && read_packet (local s) then [fifo_dout (local s)] else [])).
  { intros t. rewrite (m_axis_eq _ _ Hp). unfold axis_beats. cbn [tvalid tdata tlast].
    by destruct t, (read_packet (local s)). }
  destruct e; [done|apply H..].
Qed.

(** ** Runs *)
Context (k : Z) (Hk : 1 <= k) (Hcount : Afifo.rows G_LOG2_DEPTH <= 31 * k).

Lemma packets_counted p ins outs ws more :
  long_packets k 0 ((beat_of <$> ins) ++ more) -> packet_holds p ws ->
  (exists rest, ins = outs ++ ws ++ rest) -> lasts ws <= 31.
Proof.
  intros Hl Hp (rest & ->). rewrite !fmap_app, <- !app_assoc in Hl. apply long_packets_app in Hl as (c & Hc & Hl); [|lia].
  assert (Hw : long_packets k c (beat_of <$> ws)).
  { clear -Hl. revert c Hl. induction ws as [|w ws IH]; intros c; cbn [fmap list_fmap app long_packets beat_of]; [done|].
    destruct (word_last w); [intros [H1 H2]; split; [done|]|intros H2]; by apply IH. }
  apply long_packets_lasts in Hw; [|lia..]. pose proof (packet_holds_length _ _ Hp). nia.
Qed.

Lemma gapless_cons a t shows :
  match shows with
  | (a', _) :: _ => (tvalid a = true -> t = false -> a' = a) /\ (tvalid a = true -> tlast a = false -> tvalid a' = true)
  | [] => True
  end -> gapless shows -> gapless ((a, t) :: shows).
Proof. destruct shows as [|[a' t'] shows]; [done|]. intros [H1 H2] H. by split. Qed.

Lemma packet_run_holds es s ins outs :
  Forall without_reset es -> Forall bytes_in es -> packet_run_ok es s -> packet_ok s ins outs ->
  let '(inn, out, shows, s') := packet_run es s in
  long_packets k 0 ((beat_of <$> ins) ++ inn) ->
  exists wi wo, inn = beat_of <$> wi /\ out = beat_of <$> wo /\ packet_ok s' (ins ++ wi) (outs ++ wo) /\
    gapless shows /\ (match shows with (a, _) :: _ => a = m_axis (local s) | [] => True end).
Proof.
  intros Hes. revert s ins outs. induction Hes as [|e es He _ IH]; intros s ins outs Hb Hok Hs; cbn [packet_run].
  - intros _. exists [], []. by rewrite !app_nil_r.
  - apply Forall_cons in Hb as [Hbe Hb]. destruct Hok as [Hoke Hok].
    pose proof (packet_step_ok e s ins outs He Hoke Hs) as Hstep.
    pose proof (taken_words e s ins outs Hbe Hs) as Et. pose proof (given_words e s ins outs Hs) as Eg.
    specialize (IH (packet_step e s) (ins ++ words_in e s) (outs ++ words_out e s) Hb Hok).
    destruct (packet_run es (packet_step e s)) as [[[inn out] shows] s'] eqn:Er. intros Hl.
    assert (Hmax : forall ws, packet_holds (local s) ws -> (exists rest, ins = outs ++ ws ++ rest) -> lasts ws <= 31).
    { intros ws Hp Hex. exact (packets_counted _ ins outs ws _ Hl Hp Hex). }
    specialize (Hstep Hmax). specialize (IH Hstep). rewrite Et, app_assoc, <- fmap_app in Hl.
    destruct (IH Hl) as (wi & wo & -> & -> & Hs' & Hg & Hhd).
    exists (words_in e s ++ wi), (words_out e s ++ wo). rewrite Et, Eg, !fmap_app, !(app_assoc _ (words_in e s)), !(app_assoc _ (words_out e s)).
    split; [done|]. split; [done|]. split; [done|].
    destruct Hs as (Ea & Eb & ws & r & w1 & w2 & (Hp & _ & Ews)). specialize (Hmax ws Hp ltac:(eexists; exact Ews)).
    assert (Hread : forall t, local (packet_step e s) = local_step t s -> gapless ((m_axis (local s), t) :: shows)).
    { intros t El. apply gapless_cons; [|done]. destruct shows as [|[a' t'] shows]; [done|]. rewrite Hhd, El.
      split; intros Hv; by apply (local_step_steady t s ws). }
    destruct e as [rst a|t|rst a t rp wp rb wb ack pulse]; cbn [shown app]; (split; [|done]).
    + exact Hg.
    + by apply Hread.
    + by apply Hread.
Qed.

(** ** Draining *)

(** No more bytes come and the transmitter is ready. *)
Definition packet_quiet (e : packet_edge) : Prop :=
  match e with
  | PWr rst a => rst = false /\ tvalid a = false
  | PRd t => t = true
  | PBoth rst a t _ _ _ _ _ _ => rst = false /\ tvalid a = false /\ t = true
  end.

Definition reading (e : packet_edge) : bool := match e with PWr _ _ => false | _ => true end.
Fixpoint packet_reads (es : list packet_edge) : Z :=
  match es with [] => 0 | e :: es' => Z.b2z (reading e) + packet_reads es' end.

(** No packet of the stream is longer than [m] bytes; [c] of the first one have gone before. *)
Fixpoint short_packets (m c : Z) (bs : list beat) : Prop :=
  match bs with
  | [] => True
  | (_, last) :: bs' => c + 1 <= m /\ short_packets m (if last then 0 else c + 1) bs'
  end.

Lemma short_packets_app m c bs bs' :
  0 <= c -> short_packets m c (bs ++ bs') -> exists c', 0 <= c' /\ short_packets m c' bs'.
Proof.
  revert c. induction bs as [|[b last] bs IH]; intros c Hc; cbn [app short_packets]; [by exists c|].
  intros [_ H]. eapply IH; [|exact H]. destruct last; lia.
Qed.

Lemma short_packets_incomplete m c ws bs :
  0 <= c -> short_packets m c ((beat_of <$> ws) ++ bs) -> lasts ws = 0 -> ws = [] \/ c + Z.of_nat (length ws) <= m.
Proof.
  revert c. induction ws as [|w ws IH]; intros c Hc H E; [by left|]. right.
  rewrite word_lasts_cons in *. cbn [fmap list_fmap app short_packets beat_of] in *. destruct H as [H1 H2].
  pose proof (lasts_bounds ws). destruct (word_last w); cbn [Z.b2z] in *; [lia|].
  destruct (IH (c + 1) ltac:(lia) H2 ltac:(lia)) as [-> |]; cbn [length] in *; lia.
Qed.

(** Reading edges until the next byte is given out, or until all that came is in the FIFO. *)
Definition wait_rank (s : packet_afifo) (ins ws : list Z) (r w1 w2 : Z) : Z :=
  if read_packet (local s) then 0
  else if 1 <=? lasts ws then 1
  else if expansion_valid_r (skid_buffer (local s)) then Afifo.rows G_LOG2_DEPTH + 10
  else Afifo.drain_rank (cross s) (Z.of_nat (length ins)) r w1 w2 + 2.

Definition packet_rank (s : packet_afifo) (ins outs ws : list Z) (r w1 w2 : Z) : Z :=
  (Z.of_nat (length ins) - Z.of_nat (length outs)) * (Afifo.rows G_LOG2_DEPTH + 11) + wait_rank s ins ws r w1 w2.

Lemma drain_rank_max s ins r w1 w2 :
  Afifo.fifo_holds G_LOG2_DEPTH s ins r w1 w2 ->
  0 <= Afifo.drain_rank s (Z.of_nat (length ins)) r w1 w2 <= Afifo.rows G_LOG2_DEPTH + 7.
Proof.
  intros Hs. split; [by apply (Afifo.drain_rank_nonneg G_LOG2_DEPTH)|].
  destruct Hs as (_ & _ & r3 & r4 & _ & _ & B). pose proof (Afifo.rows_two G_LOG2_DEPTH Hdepth).
  unfold Afifo.drain_rank, Afifo.ram_rank, Afifo.stage_rank.
  destruct (Afifo.empty_r _), (Afifo.blocked _), (Afifo.fifo_valid _), (Afifo.buffer_valid _), (Afifo.output_valid _);
    cbn [Z.b2z andb];
    repeat match goal with
      | |- context [?a <? ?b] => destruct (Z.ltb_spec a b)
      | |- context [?a =? 0] => destruct (Z.eqb_spec a 0)
      end; lia.
Qed.

Lemma wait_rank_max s ins outs ws r w1 w2 :
  packet_at s ins outs ws r w1 w2 -> 0 <= wait_rank s ins ws r w1 w2 <= Afifo.rows G_LOG2_DEPTH + 10.
Proof.
  intros (_ & Hc & _). pose proof (drain_rank_max _ _ _ _ _ Hc). unfold wait_rank.
  pose proof (Afifo.rows_two G_LOG2_DEPTH Hdepth). repeat case_match; lia.
Qed.

Lemma quiet_words e s : packet_quiet e -> without_reset e /\ words_in e s = [].
Proof.
  intros He. assert (H : forall rst a, tvalid a = false ->
    (if Afifo.write_en_wr_clk (afifo_in rst a s) (Afifo.wr (cross s)) then [word_of a] else []) = []).
  { intros rst a Ha. unfold Afifo.write_en_wr_clk, afifo_in. cbn [Afifo.write_en]. rewrite Ha. cbn [andb].
    by repeat case_match. }
  destruct e as [rst a|t|rst a t rp wp rb wb ack pulse]; cbn [packet_quiet without_reset] in *.
  - destruct He as [-> Ha]. split; [done|]. by apply H.
  - done.
  - destruct He as (-> & Ha & ->). split; [done|]. by apply H.
Qed.

Lemma cross_step e s : cross (packet_step e s) = Afifo.edge_step G_LOG2_DEPTH (afifo_edge e s) (cross s).
Proof. by destruct e. Qed.

Lemma local_reading e s :
  packet_quiet e -> reading e = true -> local (packet_step e s) = local_step true s /\
  words_out e s = local_out true s.
Proof. destruct e as [|t|rst a t]; cbn; [done|by intros ->|by intros (_ & _ & ->)]. Qed.

Lemma skid_room s : reset_b s = pulse_b_new -> fifo_full (local s) = false -> forall t,
  expansion_valid_r (skid_buffer (local_step t s)) = false.
Proof. intros Eb Hf t. unfold local_step, packet_clock. rewrite Eb. cbn. by rewrite Hf. Qed.

(** A reading edge while nothing is given out. *)
Lemma wait_reading e s ins outs ws r w1 w2 ws' r' w1' w2' :
  packet_quiet e -> packet_edge_ok e s -> reading e = true -> reset_b s = pulse_b_new ->
  packet_at s ins outs ws r w1 w2 -> lasts ws <= 31 -> (lasts ws = 0 -> fifo_full (local s) = false) ->
  packet_at (packet_step e s) ins (outs ++ words_out e s) ws' r' w1' w2' ->
  Afifo.counts_step G_LOG2_DEPTH (afifo_edge e s) (cross s) ins r w1 w2 r' w1' w2' ->
  read_packet (local s) = false ->
  (lasts ws = 0 /\ skid_words (skid_buffer (local s)) = [] /\ Afifo.inside (cross s) ins r = []) \/
  wait_rank (packet_step e s) ins ws' r' w1' w2' <= wait_rank s ins ws r w1 w2 - 1.
Proof.
  intros He [Hok _] Er Eb (Hp & Hc & E) Hmax Hroom (Hp' & Hc' & _) Hcs Hread.
  pose proof (drain_rank_max _ _ _ _ _ Hc) as Hd. pose proof (drain_rank_max _ _ _ _ _ Hc') as Hd'.
  destruct (local_reading e s He Er) as [El _]. rewrite cross_step in *. rewrite El in *.
  destruct (packet_clock_holds (Afifo.data_out (cross s)) (negb (Afifo.empty_out (cross s))) true _ ws Hp Hmax)
    as (_ & _ & _ & Hr).
  assert (Es : local_step true s = packet_clock false (Afifo.data_out (cross s)) (negb (Afifo.empty_out (cross s))) true (local s))
    by (unfold local_step; by rewrite Eb).
  rewrite <- Es, Hread in Hr. unfold wait_rank. rewrite Hread, cross_step, El, Hr.
  pose proof (Afifo.rows_two G_LOG2_DEPTH Hdepth). pose proof (lasts_bounds ws).
  destruct (Z.leb_spec 1 (lasts ws)); [right; lia|]. assert (Hl : lasts ws = 0) by lia.
  rewrite (skid_room s Eb (Hroom Hl)).
  destruct (expansion_valid_r (skid_buffer (local s))) eqn:Ev.
  - right. destruct (1 <=? lasts ws'); lia.
  - assert (Hdr : Afifo.draining (afifo_edge e s)).
    { unfold afifo_edge, skid_ready_out. rewrite Ev. destruct e as [|t|rst a t rp wp rb wb]; cbn in *; [done|done|].
      destruct He as (-> & Ha & _). by rewrite Ha. }
    assert (Ei : Afifo.is_read (afifo_edge e s) = true) by (by destruct e).
    pose proof (Afifo.drain_edge G_LOG2_DEPTH _ _ _ _ _ _ _ _ _ Hdr Hok Hc Hcs Hc') as Hrank. rewrite Ei in Hrank.
    destruct (Z.eq_dec (Afifo.drain_rank (cross s) (Z.of_nat (length ins)) r w1 w2) 0) as [Ez|].
    + left. split; [done|]. unfold skid_words. rewrite Ev. split; [done|].
      by apply (Afifo.drain_rank_zero G_LOG2_DEPTH _ _ _ _ _ Hc).
    + right. destruct (1 <=? lasts ws'); lia.
Qed.

Lemma wait_writing e s ins outs ws r w1 w2 ws' r' w1' w2' :
  packet_quiet e -> packet_edge_ok e s -> reading e = false -> packet_at s ins outs ws r w1 w2 ->
  packet_at (packet_step e s) ins (outs ++ words_out e s) ws' r' w1' w2' ->
  Afifo.counts_step G_LOG2_DEPTH (afifo_edge e s) (cross s) ins r w1 w2 r' w1' w2' ->
  (match e with PWr _ _ => ws' = ws | _ => True end) ->
  wait_rank (packet_step e s) ins ws' r' w1' w2' <= wait_rank s ins ws r w1 w2.
Proof.
  intros He [Hok _] Er (_ & Hc & _) (_ & Hc' & _) Hcs Hws. destruct e as [rst a|t|]; [|done..]. subst ws'.
  rewrite cross_step in Hc'. destruct He as [-> Ha].
  assert (Hdr : Afifo.draining (afifo_edge (PWr false a) s)) by (cbn; by rewrite Ha).
  pose proof (Afifo.drain_edge G_LOG2_DEPTH _ _ _ _ _ _ _ _ _ Hdr Hok Hc Hcs Hc') as Hrank.
  change (Afifo.is_read (afifo_edge (PWr false a) s)) with false in Hrank. cbv iota in Hrank.
  unfold wait_rank. rewrite cross_step. change (local (packet_step (PWr false a) s)) with (local s).
  repeat case_match; lia.
Qed.

Context (m : Z) (Hm : m + 2 <= Afifo.rows G_LOG2_DEPTH).

Lemma unfinished_room p ins outs ws :
  short_packets m 0 (beat_of <$> ins) -> packet_holds p ws -> (exists rest, ins = outs ++ ws ++ rest) ->
  lasts ws = 0 -> fifo_full p = false.
Proof.
  intros Hl Hp (rest & ->) E. rewrite !fmap_app in Hl. apply short_packets_app in Hl as (c & Hc & Hl); [|lia].
  destruct Hp as ((o & q & Hf & -> & _) & _).
  pose proof (Fifo.f_full_holds G_LOG2_DEPTH ltac:(lia) _ _ _ Hf) as Hfull. fold (fifo_full p) in Hfull.
  apply not_true_iff_false. intros Ht. apply Hfull in Ht. pose proof (Afifo.rows_two G_LOG2_DEPTH Hdepth).
  assert (Hq : Z.of_nat (length q) <= Z.of_nat (length (Fifo.contents o q))).
  { unfold Fifo.contents. rewrite length_app. lia. }
  change (Fifo.f_rows G_LOG2_DEPTH) with (Afifo.rows G_LOG2_DEPTH) in Ht.
  destruct (short_packets_incomplete _ _ _ _ Hc Hl E) as [En|]; [|lia]. rewrite En in Hq. cbn in Hq. lia.
Qed.

(** All complete packets have been given out. *)
Definition packets_out (ins outs : list Z) : Prop := exists rest, ins = outs ++ rest /\ lasts rest = 0.

Lemma packets_out_mono ins outs more rest :
  packets_out ins outs -> ins = (outs ++ more) ++ rest -> packets_out ins (outs ++ more).
Proof.
  intros (rest0 & E & Hl) E'. exists rest. split; [done|]. rewrite E', <- app_assoc in E.
  apply app_inv_head in E. rewrite <- E, word_lasts_app in Hl. pose proof (lasts_bounds more). pose proof (lasts_bounds rest). lia.
Qed.

Lemma packet_drain_step e s ins outs ws r w1 w2 :
  packet_quiet e -> packet_edge_ok e s -> reset_a s = pulse_a_new -> reset_b s = pulse_b_new ->
  packet_at s ins outs ws r w1 w2 ->
  long_packets k 0 (beat_of <$> ins) -> short_packets m 0 (beat_of <$> ins) ->
  reset_a (packet_step e s) = pulse_a_new /\ reset_b (packet_step e s) = pulse_b_new /\
  exists ws' r' w1' w2', packet_at (packet_step e s) ins (outs ++ words_out e s) ws' r' w1' w2' /\
    (packets_out ins outs \/
     packet_rank (packet_step e s) ins (outs ++ words_out e s) ws' r' w1' w2' + Z.b2z (reading e) <=
       packet_rank s ins outs ws r w1 w2).
Proof.
  intros He Hok Ea Eb Hs Hlong Hshort. destruct (quiet_words e s He) as [Hnr Hin]. pose proof Hs as (Hp & _ & E).
  assert (Hex : exists rest, ins = outs ++ ws ++ rest) by (eexists; exact E).
  assert (Hmax : lasts ws <= 31).
  { apply (packets_counted (local s) ins outs ws []); [by rewrite app_nil_r|done..]. }
  destruct (packet_step_at e s ins outs ws r w1 w2 Hnr Hok Ea Eb Hs Hmax) as (Ea' & Eb' & ws' & r' & w1' & w2' & Hs' & Hcs & Hws).
  rewrite Hin, app_nil_r in Hs'. split; [done|]. split; [done|]. exists ws', r', w1', w2'. split; [done|].
  unfold packet_rank. rewrite length_app.
  destruct (reading e) eqn:Er; cbn [Z.b2z].
  - destruct (local_reading e s He Er) as [_ Ho]. destruct (read_packet (local s)) eqn:Ep.
    + right. rewrite Ho. unfold local_out. rewrite Ep. cbn [andb length].
      pose proof (wait_rank_max _ _ _ _ _ _ _ Hs'). pose proof (wait_rank_max _ _ _ _ _ _ _ Hs). nia.
    + destruct (wait_reading _ _ _ _ _ _ _ _ _ _ _ _ He Hok Er Eb Hs Hmax
        (unfinished_room _ _ _ _ Hshort Hp Hex) Hs' Hcs Ep) as [(H1 & H2 & H3)|H].
      * left. rewrite H2, H3, !app_nil_r in E. by exists ws.
      * right. rewrite Ho. unfold local_out. rewrite Ep. cbn [andb length]. nia.
  - right. pose proof (wait_writing _ _ _ _ _ _ _ _ _ _ _ _ He Hok Er Hs Hs' Hcs Hws).
    destruct e; [|done..]. cbn [words_out length]. nia.
Qed.

Lemma packet_run_app es es' s :
  packet_run (es ++ es') s =
    let '(i1, o1, h1, s1) := packet_run es s in
    let '(i2, o2, h2, s2) := packet_run es' s1 in (i1 ++ i2, o1 ++ o2, h1 ++ h2, s2).
Proof.
  revert s. induction es as [|e es IH]; intros s; cbn [app packet_run].
  - by destruct (packet_run es' s) as [[[i2 o2] h2] s2].
  - rewrite IH. destruct (packet_run es (packet_step e s)) as [[[i1 o1] h1] s1].
    destruct (packet_run es' s1) as [[[i2 o2] h2] s2]. by rewrite !app_assoc.
Qed.

Lemma packet_run_ok_app es es' s :
  packet_run_ok (es ++ es') s <-> packet_run_ok es s /\ packet_run_ok es' (packet_run es s).2.
Proof.
  revert s. induction es as [|e es IH]; intros s; cbn [app packet_run packet_run_ok]; [tauto|].
  rewrite IH. destruct (packet_run es (packet_step e s)) as [[[i1 o1] h1] s1]. cbn [snd]. tauto.
Qed.

Lemma packet_drain es s ins outs ws r w1 w2 :
  Forall packet_quiet es -> packet_run_ok es s -> reset_a s = pulse_a_new -> reset_b s = pulse_b_new ->
  packet_at s ins outs ws r w1 w2 ->
  long_packets k 0 (beat_of <$> ins) -> short_packets m 0 (beat_of <$> ins) ->
  let '(inn, out, _, s') := packet_run es s in
  inn = [] /\ exists wo, out = beat_of <$> wo /\
    exists ws' r' w1' w2', packet_at s' ins (outs ++ wo) ws' r' w1' w2' /\
      (packets_out ins (outs ++ wo) \/
       packet_rank s' ins (outs ++ wo) ws' r' w1' w2' + packet_reads es <= packet_rank s ins outs ws r w1 w2).
Proof.
  intros Hq. revert s outs ws r w1 w2. induction Hq as [|e es He _ IH];
    intros s outs ws r w1 w2 Hok Ea Eb Hs Hlong Hshort; cbn [packet_run packet_reads].
  - split; [done|]. exists []. rewrite !app_nil_r. split; [done|]. exists ws, r, w1, w2. split; [done|]. right. lia.
  - destruct Hok as [Hoke Hok].
    destruct (packet_drain_step e s ins outs ws r w1 w2 He Hoke Ea Eb Hs Hlong Hshort)
      as (Ea' & Eb' & ws' & r' & w1' & w2' & Hs' & Hrank).
    specialize (IH _ _ _ _ _ _ Hok Ea' Eb' Hs' Hlong Hshort).
    assert (Ht : taken e s = []).
    { destruct e as [rst a|t|rst a t]; cbn [taken]; unfold axis_beats; [destruct He as [_ ->]|done|destruct He as (_ & -> & _)];
        by destruct (s_axis_tready_out s). }
    assert (Hg : given e s = beat_of <$> words_out e s).
    { apply (given_words e s ins outs). split; [done|]. split; [done|]. by exists ws, r, w1, w2. }
    destruct (packet_run es (packet_step e s)) as [[[inn out] shows] s'].
    destruct IH as (-> & wo & -> & ws2 & r2 & w12 & w22 & Hs2 & Hrank2). rewrite Ht, Hg. split; [done|].
    exists (words_out e s ++ wo). rewrite fmap_app. split; [done|]. rewrite app_assoc.
    exists ws2, r2, w12, w22. split; [done|]. destruct Hrank as [Hdone|Hrank]; [|destruct Hrank2 as [Hdone|Hrank2]].
    + left. rewrite <- app_assoc. eapply packets_out_mono; [exact Hdone|]. rewrite (app_assoc outs). exact (proj2 (proj2 Hs2)).
    + by left.
    + right. lia.
Qed.

Lemma packet_power_up_ok : packet_at packet_power_up [] [] [] 0 0 0.
Proof.
  split; [|split; [by apply Afifo.power_up_holds|done]]. split; [|done].
  exists None, []. split; [|done]. apply Fifo.f_holds_nil; [lia| |done..]. apply length_replicate.
Qed.

Lemma packets_cross_all es quiet :
  Forall without_reset es -> Forall bytes_in es -> Forall packet_quiet quiet ->
  packet_run_ok (es ++ quiet) packet_power_up ->
  let '(inn, out, shows, _) := packet_run es packet_power_up in
  long_packets k 0 inn ->
  (exists rest, inn = out ++ rest) /\ gapless shows /\
  (short_packets m 0 inn -> (Z.of_nat (length inn) + 1) * (Afifo.rows G_LOG2_DEPTH + 11) <= packet_reads quiet ->
   let '(inn', out', _, _) := packet_run (es ++ quiet) packet_power_up in
   inn' = inn /\ exists rest, inn = out' ++ rest /\ Forall (fun b => b.2 = false) rest).
Proof.
  intros Hes Hb Hq Hok. apply packet_run_ok_app in Hok as [Hok Hokq]. rewrite packet_run_app.
  pose proof (packet_run_holds es packet_power_up [] [] Hes Hb Hok) as H.
  destruct (packet_run es packet_power_up) as [[[inn out] shows] s1]. cbn [snd app] in *. intros Hlong.
  destruct H as (wi & wo & -> & -> & (Ea & Eb & ws & r & w1 & w2 & Hs) & Hg & _).
  { split; [done|]. split; [done|]. exists [], 0, 0, 0. exact packet_power_up_ok. }
  { exact Hlong. }
  split; [|split; [done|]].
  { destruct Hs as (_ & _ & E). eexists. rewrite <- fmap_app. f_equal. exact E. }
  intros Hshort Hreads. pose proof (packet_drain quiet s1 wi wo ws r w1 w2 Hq Hokq Ea Eb Hs Hlong Hshort) as H.
  destruct (packet_run quiet s1) as [[[inn2 out2] shows2] s2].
  destruct H as (-> & wo2 & -> & ws2 & r2 & w12 & w22 & Hs2 & Hrank). rewrite app_nil_r. split; [done|].
  assert (Hout : packets_out wi (wo ++ wo2)).
  { destruct Hrank as [|Hrank]; [done|]. exfalso. unfold packet_rank in Hrank. rewrite length_fmap in Hreads.
    pose proof (wait_rank_max _ _ _ _ _ _ _ Hs). pose proof (wait_rank_max _ _ _ _ _ _ _ Hs2).
    destruct Hs2 as (_ & _ & E2). apply (f_equal length) in E2. rewrite length_app in E2. pose proof (Afifo.rows_two G_LOG2_DEPTH Hdepth).
    nia. }
  destruct Hout as (rest & E & Hl). exists (beat_of <$> rest). rewrite <- fmap_app, <- fmap_app, <- E. split; [done|].
  clear E. induction rest as [|w rest IH]; [by constructor|]. rewrite word_lasts_cons in Hl.
  pose proof (lasts_bounds rest). destruct (word_last w) eqn:Ew; cbn [Z.b2z] in Hl; [lia|].
  constructor; [done|]. apply IH. lia.
Qed.

(** Whole packets of a size between [k] and [m]. *)
Lemma long_beats c p bs :
  p <> [] -> k <= c + Z.of_nat (length p) -> long_packets k 0 bs -> long_packets k c (last_beats p ++ bs).
Proof.
  revert c. induction p as [|b p IH]; intros c Hp Hl Hbs; [done|]. rewrite last_beats_cons.
  cbn [app long_packets length] in *. destruct p as [|b' p]; [split; [cbn in *; lia|done]|].
  apply IH; [done|cbn [length] in *; lia|done].
Qed.

Lemma short_beats c p bs :
  p <> [] -> c + Z.of_nat (length p) <= m -> short_packets m 0 bs -> short_packets m c (last_beats p ++ bs).
Proof.
  revert c. induction p as [|b p IH]; intros c Hp Hl Hbs; [done|]. rewrite last_beats_cons.
  cbn [app short_packets length] in *. split; [lia|]. destruct p as [|b' p]; [done|].
  apply IH; [done|cbn [length] in *; lia|done].
Qed.

Definition sized (p : list Z) : Prop := p <> [] /\ k <= Z.of_nat (length p) <= m.

Lemma sized_packets ps :
  Forall sized ps -> long_packets k 0 (concat (last_beats <$> ps)) /\ short_packets m 0 (concat (last_beats <$> ps)).
Proof.
  induction 1 as [|p ps (Hp & Hk1 & Hm1) _ [IH1 IH2]]; [done|]. cbn [fmap list_fmap concat].
  split; [by apply long_beats|by apply short_beats].
Qed.

Lemma packets_last ps rest out :
  concat (last_beats <$> ps) = out ++ rest -> Forall (fun b : beat => b.2 = false) rest ->
  Forall sized ps -> rest = [].
Proof.
  intros E Hr Hs. destruct ps as [|p ps _] using rev_ind; [by destruct out, rest|].
  apply Forall_app in Hs as [_ Hs]. rewrite Forall_singleton in Hs. destruct Hs as [Hp _].
  destruct (exists_last Hp) as (q & b & ->). rewrite fmap_app, concat_app in E.
  cbn [fmap list_fmap concat] in E. rewrite last_beats_snoc, app_nil_r, app_assoc in E.
  destruct rest as [|x rest _] using rev_ind; [done|]. rewrite app_assoc in E.
  apply app_inj_tail in E as [_ <-]. apply Forall_app in Hr as [_ Hr]. rewrite Forall_singleton in Hr. done.
Qed.

(** Whole packets all pass. *)
Lemma packets_pass es quiet ps :
  Forall without_reset es -> Forall bytes_in es -> Forall packet_quiet quiet ->
  packet_run_ok (es ++ quiet) packet_power_up -> Forall sized ps ->
  (packet_run es packet_power_up).1.1.1 = concat (last_beats <$> ps) ->
  (Z.of_nat (length (concat (last_beats <$> ps))) + 1) * (Afifo.rows G_LOG2_DEPTH + 11) <= packet_reads quiet ->
  (packet_run (es ++ quiet) packet_power_up).1.1.2 = concat (last_beats <$> ps).
Proof.
  intros Hes Hb Hq Hok Hps E Hn. pose proof (packets_cross_all es quiet Hes Hb Hq Hok) as H.
  destruct (packet_run es packet_power_up) as [[[inn out] shows] s1]. cbn [fst snd] in *. subst inn.
  destruct (sized_packets ps Hps) as [Hl Hs]. destruct (H Hl) as (_ & _ & H'). specialize (H' Hs Hn).
  destruct (packet_run (es ++ quiet) packet_power_up) as [[[inn' out'] shows'] s2]. cbn [fst snd].
  destruct H' as (-> & rest & E & Hr). rewrite (packets_last ps rest out' E Hr Hps), app_nil_r in E. done.
Qed.

(** ** Properties *)

(** C15. From power-up, for any order of the two clocks' edges and whatever is captured of changing
    pointers, when no packet is so short that 32 of them could be inside: the bytes given to the
    transmitter are those taken, in order, and a packet once begun follows without a gap, each byte
    held until it is taken.  If no packet fills the FIFO either, then after the writer pauses every
    complete packet leaves within a bounded number of reading edges. *)
Theorem packets_cross es quiet :
  Forall without_reset es -> Forall bytes_in es -> Forall packet_quiet quiet ->
  packet_run_ok (es ++ quiet) packet_power_up ->
  let '(inn, out, shows, _) := packet_run es packet_power_up in
  long_packets k 0 inn ->
  (exists rest, inn = out ++ rest) /\ gapless shows /\
  (short_packets m 0 inn -> (Z.of_nat (length inn) + 1) * (Afifo.rows G_LOG2_DEPTH + 11) <= packet_reads quiet ->
   let '(inn', out', _, _) := packet_run (es ++ quiet) packet_power_up in
   inn' = inn /\ exists rest, inn = out' ++ rest /\ Forall (fun b => b.2 = false) rest).
Proof. apply packets_cross_all. Qed.
End PacketAfifo.

(** ** Witness and example *)
Lemma apart_ok G es s :
  Forall (fun e => match e with PBoth _ _ _ _ _ _ _ _ _ => False | _ => True end) es -> packet_run_ok G es s.
Proof.
  intros H. revert s. induction H as [|e es He _ IH]; intros s; [done|]. split; [|apply IH].
  split; destruct e; done.
Qed.

Definition demo_byte (b : Z) (last : bool) : list packet_edge := [PWr false (Axis b true last); PRd false].
Definition demo_packet_edges : list packet_edge :=
  PBoth false (Axis 1 true false) false 0 0 false false false false :: demo_byte 2 false ++ demo_byte 3 true ++
  demo_byte 4 false.
Definition demo_packet_quiet : list packet_edge := replicate 95 (PRd true).

Lemma packets_cross_witness :
  exists rest, [(1, false); (2, false); (3, true); (4, false)] =
    (packet_run 3 (demo_packet_edges ++ demo_packet_quiet) (packet_power_up 3)).1.1.2 ++ rest /\
    Forall (fun b => b.2 = false) rest.
Proof.
  refine (proj2 (proj2 (proj2 (packets_cross 3 ltac:(lia) 1 ltac:(lia) _ 6 _ demo_packet_edges demo_packet_quiet _ _ _ _ _)) _ _)).
  - by vm_compute.
  - by vm_compute.
  - by repeat constructor.
  - repeat constructor; done.
  - by repeat constructor.
  - split; [|apply apart_ok; by repeat constructor]. split; [|by split; left].
    vm_compute. repeat split; intros; by left.
  - vm_compute. repeat split; discriminate.
  - vm_compute. repeat split; discriminate.
  - by vm_compute.
Defined.

(** 33 packets of one byte while the transmitter waits: the five-bit counter wraps, and after the
    first of them it reads zero with 32 packets inside; they wait for ever. *)
Example counter_wraps_stuck :
  let s := (packet_run 6 (concat (replicate 33 [PWr false (Axis 7 true true); PRd false; PRd false]) ++
                          replicate 8 (PRd false)) (packet_power_up 6)).2 in
  let '(_, out, _, s') := packet_run 6 (replicate 100 (PRd true)) s in
  out = [(7, true)] /\ num_packets_in_fifo (local s') = 0 /\ read_packet (local s') = false /\
  packet_run 6 [PRd true] s' = ([], [], [(m_axis (local s'), true)], s').
Proof. vm_compute. done. Qed.
