(* ===== verification/UdpStack.v ===== *)
(** * The whole path of a payload

    UDP framer, Ethernet framer, packet FIFO, RMII transmitter and receiver, receive FIFO, Ethernet
    deframer, receive buffer and UDP deframer in the order of [rmii/rmii_mac.vhd] and
    [example/toplevel.vhd].  Each
    predicate below says of one component: some run of it from a reset, with whatever gaps
    and back-pressure, takes one stream and gives another. *)

From S2P Require Import Prelude.
From S2P Require Import Axis.
From S2P Require Import UdpDevice.
From S2P Require Import EthernetFcs.
From S2P Require EthernetFramer.
From S2P Require EthernetDeframer.
From S2P Require EthernetLink.
From S2P Require RxPacketBuffer.
From S2P Require Afifo.
From S2P Require PacketAfifo.
From S2P Require RmiiTx.
From S2P Require RmiiRx.
From S2P Require RmiiLine.
From S2P Require UdpIpFramer.
From S2P Require UdpIpFramerDrain.
From S2P Require UdpIpDeframer.
From S2P Require Import UdpLink.

(** ** The hops *)

Inductive udp_sends (c : framer_config) (ps : list (list Z)) : list beat -> Prop :=
  | UdpSends i0 s0 ins pause :
      UdpIpFramer.in_reset i0 = true -> UdpIpFramerDrain.rams_ok s0 ->
      Forall (UdpIpFramer.in_ok c) ins -> Forall (UdpIpFramerDrain.quiet c) pause ->
      (UdpIpFramer.udp_framer_run ins (UdpIpFramer.udp_framer_clock i0 s0)).1.1 = concat (last_beats <$> ps) ->
      (2 * length (concat (last_beats <$> (UdpIpFramer.datagram c <$> ps))) + 4 <= length pause)%nat ->
      udp_sends c ps
        (UdpIpFramer.udp_framer_run (ins ++ pause) (UdpIpFramer.udp_framer_clock i0 s0)).1.2.

(** The stream as packets for one destination. *)
Fixpoint ipv4_events (dst : Z) (first : bool) (bs : list beat) : list EthernetFramer.packet_event :=
  match bs with
  | [] => []
  | (b, last) :: bs' =>
      (if first then [EthernetFramer.Start dst false] else []) ++
      EthernetFramer.Byte b last :: ipv4_events dst last bs'
  end.

Inductive ethernet_sends (src dst : Z) (taken : list beat) : list beat -> Prop :=
  | EthernetSends i0 s0 ins quiet :
      EthernetFramer.in_reset i0 = true ->
      Forall (fun i => EthernetFramer.in_reset i = false /\ EthernetFramer.source_mac_in i = src) ins ->
      Forall (EthernetFramer.quiet_in src) quiet -> (16 <= EthernetFramer.ready_count quiet)%nat ->
      (EthernetFramer.framer_run ins (EthernetFramer.framer_clock i0 s0)).1.1 = ipv4_events dst true taken ->
      ethernet_sends src dst taken
        (EthernetFramer.framer_run (ins ++ quiet) (EthernetFramer.framer_clock i0 s0)).1.2.

(** [i_tx_packet_afifo] *)
Inductive queues (G : Z) (taken : list beat) : list beat -> Prop :=
  | Queues es quiet :
      Forall PacketAfifo.without_reset es -> Forall PacketAfifo.bytes_in es ->
      Forall PacketAfifo.packet_quiet quiet ->
      PacketAfifo.packet_run_ok G (es ++ quiet) (PacketAfifo.packet_power_up G) ->
      (PacketAfifo.packet_run G es (PacketAfifo.packet_power_up G)).1.1.1 = taken ->
      (Z.of_nat (length taken) + 1) * (Afifo.rows G + 11) <= PacketAfifo.packet_reads quiet ->
      queues G taken
        (PacketAfifo.packet_run G (es ++ quiet) (PacketAfifo.packet_power_up G)).1.1.2.

(** The frames reach the transmitter whole, on whatever edges. *)
Inductive rmii_carries (taken : list beat) : list beat -> Prop :=
  | RmiiCarries a s ins pause r :
      Forall (fun i => Forall (fun p => p <> []) i.2) ins -> Forall RmiiTx.no_arrival pause ->
      RmiiTx.frame_edges (RmiiTx.arrived ins) <= Z.of_nat (length pause) ->
      concat (last_beats <$> RmiiTx.arrived ins) = taken ->
      rmii_carries taken
        (RmiiRx.rmii_rx_run (RmiiTx.tx_run (ins ++ pause) (RmiiTx.tx_clock true a s, [])).1
           (RmiiRx.rmii_rx_reset r)).1.

(** [i_afifo]: [tlast & tdata] in its words; all of them find room. *)
Definition rx_afifo_din (b : beat) : Z := PacketAfifo.word_of (Axis b.1 true b.2).

Inductive crosses (G : Z) (taken : list beat) : list beat -> Prop :=
  | Crosses es quiet :
      Forall Afifo.no_reset es -> Forall Afifo.draining quiet ->
      Afifo.edges_ok G (es ++ quiet) (Afifo.power_up G) ->
      (Afifo.edges G es (Afifo.power_up G)).1.1 = rx_afifo_din <$> taken ->
      Z.of_nat (length taken) + 7 <= Afifo.reads quiet ->
      crosses G taken
        (PacketAfifo.beat_of <$> (Afifo.edges G (es ++ quiet) (Afifo.power_up G)).1.2).

Inductive ethernet_receives (filter_src : bool) (peer station : Z) (taken : list beat)
    : list EthernetDeframer.user_beat -> Prop :=
  | EthernetReceives ins g1 g2 :
      Forall (EthernetDeframer.in_ok filter_src peer station) (ins ++ [g1; g2]) ->
      EthernetDeframer.spaced false ins -> EthernetDeframer.in_beats ins = taken ->
      tvalid (EthernetDeframer.s_axis g1) = false -> tvalid (EthernetDeframer.s_axis g2) = false ->
      ethernet_receives filter_src peer station taken
        (EthernetDeframer.deframer_run (ins ++ [g1; g2]) EthernetDeframer.after_reset).1.

Inductive buffers (G : Z) (taken : list EthernetDeframer.user_beat) : list beat -> Prop :=
  | Buffers i0 s0 ins pause :
      RxPacketBuffer.in_reset i0 = true ->
      length (RxPacketBuffer.ram s0) = Z.to_nat (RxPacketBuffer.rx_rows G) ->
      Forall RxPacketBuffer.live ins -> Forall RxPacketBuffer.quiet pause ->
      RxPacketBuffer.rx_stream ins = taken ->
      RxPacketBuffer.overflowed_out (RxPacketBuffer.rx_run G ins (RxPacketBuffer.rx_clock G i0 s0)).2 = false ->
      (2 * length taken + 1 <= length pause)%nat ->
      buffers G taken (RxPacketBuffer.rx_run G (ins ++ pause) (RxPacketBuffer.rx_clock G i0 s0)).1.

Inductive udp_receives (d : deframer_config) (taken : list beat) : list beat -> Prop :=
  | UdpReceives i0 s0 ins gap :
      UdpIpDeframer.in_reset i0 = true -> Forall (UdpIpDeframer.in_ok d) (ins ++ [gap]) ->
      tvalid (UdpIpDeframer.s_axis gap) = false -> UdpIpDeframer.in_beats ins = taken ->
      udp_receives d taken
        (UdpIpDeframer.udp_deframer_run (ins ++ [gap]) (UdpIpDeframer.udp_deframer_clock i0 s0)).1.

(** ** Lemmas on the streams between them *)

Lemma ipv4_events_packet dst p bs :
  p <> [] -> ipv4_events dst true (last_beats p ++ bs) =
    EthernetFramer.packet_events (EthernetFramer.Packet dst false p) ++ ipv4_events dst true bs.
Proof.
  intros Hp. unfold EthernetFramer.packet_events. cbn [EthernetFramer.pkt_dst EthernetFramer.pkt_arp
    EthernetFramer.pkt_payload].
  assert (H : forall first q, q <> [] -> ipv4_events dst first (last_beats q ++ bs) =
    (if first then [EthernetFramer.Start dst false] else []) ++
    ((fun bl => EthernetFramer.Byte bl.1 bl.2) <$> last_beats q) ++ ipv4_events dst true bs).
  { intros first q. revert first. induction q as [|b q IH]; intros first Hq; [done|].
    rewrite last_beats_cons. cbn [app ipv4_events fmap list_fmap fst snd]. do 2 f_equal.
    destruct q as [|b' q]; [done|]. by rewrite IH. }
  by rewrite (H true p Hp).
Qed.

Lemma ipv4_events_packets dst ds :
  Forall (fun d => d <> []) ds ->
  ipv4_events dst true (concat (last_beats <$> ds)) =
    concat (EthernetFramer.packet_events <$> (EthernetFramer.Packet dst false <$> ds)).
Proof.
  induction 1 as [|d ds Hd _ IH]; [done|]. cbn [fmap list_fmap concat]. by rewrite ipv4_events_packet, IH.
Qed.

Lemma good_stream ds part :
  Forall (fun d => d <> []) ds ->
  RxPacketBuffer.packets part (concat (EthernetLink.good_payload <$> ds)) =
    match ds with [] => [] | d :: ds' => (part ++ d, false) :: ((fun d => (d, false)) <$> ds') end.
Proof.
  intros Hds. revert part. induction Hds as [|d ds Hd _ IH]; intros part; [done|].
  cbn [fmap list_fmap concat]. unfold EthernetLink.good_payload at 1.
  assert (H : forall q part evs, q <> [] ->
    RxPacketBuffer.packets part (((fun bl : beat => (bl.1, bl.2, false)) <$> last_beats q) ++ evs) =
      (part ++ q, false) :: RxPacketBuffer.packets [] evs).
  { intros q. induction q as [|b q IHq]; intros part' evs Hq; [done|]. rewrite last_beats_cons.
    cbn [fmap list_fmap app RxPacketBuffer.packets fst snd]. destruct q as [|b' q]; [done|].
    rewrite IHq by done. by rewrite <- app_assoc. }
  rewrite H by done. rewrite IH. by destruct ds.
Qed.

Lemma good_stream_no_bad ds ins :
  RxPacketBuffer.rx_stream ins = concat (EthernetLink.good_payload <$> ds) ->
  Forall (fun i => RxPacketBuffer.ends_bad i = false) ins.
Proof.
  intros E. assert (H : Forall (fun e : Z * bool * bool => e.2 = false) (RxPacketBuffer.rx_stream ins)).
  { rewrite E. clear E. induction ds as [|d ds IH]; [constructor|]. cbn [fmap list_fmap concat].
    apply Forall_app. split; [|done]. unfold EthernetLink.good_payload. apply Forall_fmap, Forall_true. done. }
  clear E. unfold RxPacketBuffer.rx_stream in H. induction ins as [|i ins IH]; [constructor|].
  cbn [fmap list_fmap concat] in H. apply Forall_app in H as [H1 H2]. constructor; [|by apply IH].
  unfold RxPacketBuffer.arrivals, RxPacketBuffer.ends_bad in *.
  destruct (tvalid (RxPacketBuffer.s_axis i)); [|done]. inversion_clear H1 as [|? ? Hu _]. cbn in Hu.
  by rewrite Hu, andb_false_r.
Qed.

Lemma good_beats_stream ds :
  RxPacketBuffer.good_beats ((fun d => (d, false)) <$> ds) = concat (last_beats <$> ds).
Proof. unfold RxPacketBuffer.good_beats. by rewrite <- list_fmap_compose. Qed.

Lemma good_payload_length ds :
  length (concat (EthernetLink.good_payload <$> ds)) = length (concat (last_beats <$> ds)).
Proof.
  induction ds as [|d ds IH]; [done|]. cbn [fmap list_fmap concat]. rewrite !length_app, IH.
  unfold EthernetLink.good_payload. by rewrite length_fmap.
Qed.

(** ** Bytes *)
Ltac byte_list :=
  repeat first
    [ apply Forall_nil_2
    | apply Forall_cons_2; [first [apply wrap_range; lia | apply slice_range; lia | by vm_compute]|] ].

Lemma fcs_clock_byte ui rst iv d v e r :
  is_u 8 (fcs_byte r) -> is_u 8 (fcs_byte (fcs_clock ui rst iv d v e r)).
Proof.
  intros Hr. assert (Hx : forall y, is_u 8 (Z.lxor 0xff (reverse_slv 8 y))).
  { intros y. apply is_u_lxor; [done|by vm_compute|]. apply (bits_word_is_u _ 8). }
  unfold fcs_clock. cbn [fcs_byte]. destruct rst, (e && v), v; try apply Hx; try exact Hr; by vm_compute.
Qed.

Lemma fcs_feed_byte bytes r : is_u 8 (fcs_byte r) -> is_u 8 (fcs_byte (fcs_feed bytes r)).
Proof.
  revert r. induction bytes as [|b bytes IH]; intros r Hr; [done|]. unfold fcs_feed. cbn [foldl].
  apply IH. by apply fcs_clock_byte.
Qed.

Lemma frame_bytes dst src arp p :
  Forall (is_u 8) p -> Forall (is_u 8) (EthernetFramer.frame dst src arp p).
Proof.
  intros Hp. unfold EthernetFramer.frame. apply Forall_app. split.
  - apply Forall_app. split; [|done]. unfold EthernetFramer.header. apply Forall_app. split.
    { apply Forall_fmap, Forall_true. intros k. by apply wrap_range. }
    apply Forall_app. split; [|by destruct arp; byte_list].
    apply Forall_fmap, Forall_true. intros k. by apply wrap_range.
  - unfold EthernetFramer.frame_fcs, fcs_trailer.
    assert (H : is_u 8 (fcs_byte (fcs_feed (EthernetFramer.header dst src arp ++ p) EthernetFramer.fcs_init)))
      by (by apply fcs_feed_byte).
    repeat apply Forall_cons_2; try apply Forall_nil_2; repeat apply fcs_clock_byte; exact H.
Qed.

Lemma datagram_bytes c p : Forall (is_u 8) p -> Forall (is_u 8) (UdpIpFramer.datagram c p).
Proof.
  intros Hp. unfold UdpIpFramer.datagram. apply Forall_app. split; [|done].
  unfold UdpIpFramer.full_header, framer_ip_header, UdpIpFramer.udp_header.
  apply Forall_app. split; byte_list.
Qed.

(** ** Hop by hop *)
Lemma queues_frames G k m fs out :
  1 <= G -> 1 <= k -> Afifo.rows G <= 31 * k -> m + 2 <= Afifo.rows G ->
  Forall (PacketAfifo.sized k m) fs ->
  queues G (concat (last_beats <$> fs)) out -> out = concat (last_beats <$> fs).
Proof.
  intros HG Hk Hc Hm Hfs [es quiet Hes Hb Hq Hok E Hn].
  by apply (PacketAfifo.packets_pass G HG k Hk Hc m Hm).
Qed.

Lemma crosses_beats G bs out :
  1 <= G -> Forall (fun b : beat => is_u 8 b.1) bs -> crosses G bs out -> out = bs.
Proof.
  intros HG Hb [es quiet Hes Hq Hok E Hn].
  rewrite (Afifo.crosses_all G HG es quiet (Afifo.power_up G)); try done.
  - rewrite E, <- list_fmap_compose. clear -Hb. induction Hb as [|[b l] bs Hx _ IH]; [done|].
    cbn [fmap list_fmap]. f_equal; [|exact IH]. unfold compose, rx_afifo_din. by rewrite PacketAfifo.beat_word.
  - by apply Afifo.power_up_holds.
  - rewrite E, length_fmap. lia.
Qed.

Lemma last_beats_bytes fs :
  Forall (Forall (is_u 8)) fs -> Forall (fun b : beat => is_u 8 b.1) (concat (last_beats <$> fs)).
Proof.
  induction 1 as [|f fs Hf _ IH]; [constructor|]. cbn [fmap list_fmap concat]. apply Forall_app. split; [|exact IH].
  clear IH. induction Hf as [|b f Hb Hf IH]; [constructor|]. rewrite last_beats_cons. by constructor.
Qed.

Lemma rmii_carries_frames fs out :
  Forall (fun f => f <> []) fs -> Forall (Forall (is_u 8)) fs ->
  rmii_carries (concat (last_beats <$> fs)) out -> out = concat (last_beats <$> fs).
Proof.
  intros Hne Hb [a s ins pause r Hins Hp Hn E].
  assert (Hne' : Forall (fun p => p <> []) (RmiiTx.arrived ins)).
  { clear -Hins. unfold RmiiTx.arrived. induction Hins as [|i ins Hi _ IH]; [constructor|].
    cbn [fmap list_fmap concat]. by apply Forall_app. }
  apply beats_packets_inj in E; [|done..]. subst fs.
  apply RmiiLine.rmii_carries_packets; [|done..]. clear -Hb Hne. unfold RmiiTx.arrived in *.
  induction ins as [|i ins IH]; [constructor|]. cbn [fmap list_fmap concat] in *.
  apply Forall_app in Hb as [Hb Hb'], Hne as [Hne Hne']. constructor; [|by apply IH].
  clear -Hb Hne. induction Hne as [|p ps Hp _ IH]; [constructor|]. inversion_clear Hb. constructor; [by split|].
  by apply IH.
Qed.

Lemma udp_sends_datagrams c ps out :
  Forall payload_ok ps -> udp_sends c ps out -> out = concat (last_beats <$> (UdpIpFramer.datagram c <$> ps)).
Proof. intros Hps []. by apply framer_stream. Qed.

Lemma ethernet_sends_frames src dst ds out :
  Forall (fun d => d <> []) ds -> ethernet_sends src dst (concat (last_beats <$> ds)) out ->
  out = concat (last_beats <$> ((fun d => EthernetFramer.packet_frame src (EthernetFramer.Packet dst false d)) <$> ds)).
Proof.
  intros Hds [i0 s0 ins quiet Hr Hins Hq Hn Hev]. rewrite ipv4_events_packets in Hev by done.
  rewrite (EthernetFramer.framer_sends src i0 s0 ins (EthernetFramer.Packet dst false <$> ds) quiet); try done.
  - by rewrite <- !list_fmap_compose.
  - by apply Forall_fmap.
Qed.

Lemma ethernet_receives_payloads filter_src peer station src dst ds out :
  is_u 48 src -> is_u 48 dst ->
  EthernetDeframer.mac_match dst station && (negb filter_src || EthernetDeframer.mac_match src peer) = true ->
  Forall (fun d => d <> []) ds ->
  ethernet_receives filter_src peer station
    (concat (last_beats <$> ((fun d => EthernetFramer.packet_frame src (EthernetFramer.Packet dst false d)) <$> ds))) out ->
  out = concat (EthernetLink.good_payload <$> ds).
Proof.
  intros Hsrc Hdst Hm Hds [ins g1 g2 Hins Hsp Hb Hg1 Hg2].
  assert (Hp : Forall EthernetLink.packet_ok (EthernetFramer.Packet dst false <$> ds)).
  { apply Forall_fmap. eapply Forall_impl; [exact Hds|]. by intros d Hd. }
  destruct (EthernetDeframer.deframer_delivers_all filter_src peer station ins
    (EthernetFramer.packet_frame src <$> (EthernetFramer.Packet dst false <$> ds)) g1 g2) as [-> _]; try done.
  - by rewrite Hb, <- !list_fmap_compose.
  - apply Forall_fmap. eapply Forall_impl; [exact Hp|]. intros p [_ H]. by apply EthernetLink.packet_frame_length.
  - rewrite EthernetLink.deframe_packets by done. clear Hins Hb Hp. induction Hds as [|d ds Hd _ IH]; [done|].
    cbn [fmap list_fmap]. rewrite filter_cons_True.
    + cbn [fmap list_fmap concat EthernetFramer.pkt_payload]. f_equal. exact IH.
    + unfold EthernetLink.for_station. cbn [EthernetFramer.pkt_arp EthernetFramer.pkt_dst negb andb]. exact Hm.
Qed.

Lemma buffers_pass G ds out :
  2 <= G -> Forall (fun d => (2 <= length d)%nat) ds -> buffers G (concat (EthernetLink.good_payload <$> ds)) out ->
  out = concat (last_beats <$> ds).
Proof.
  intros HG Hds [i0 s0 ins pause Hr Hl Hins Hq Hst Hov Hn].
  assert (Hne : Forall (fun d => d <> []) ds) by (eapply Forall_impl; [exact Hds|]; by intros [|]; cbn; [lia|]).
  assert (Hps : RxPacketBuffer.packets [] (RxPacketBuffer.rx_stream ins) = (fun d => (d, false)) <$> ds).
  { rewrite Hst, good_stream by done. by destruct ds. }
  destruct (RxPacketBuffer.rx_from_reset G HG i0 s0 ins pause Hr Hl Hins Hq) as (_ & E & _); try done.
  - apply RxPacketBuffer.calm_good. by apply (good_stream_no_bad ds).
  - rewrite Hps. apply Forall_fmap. eapply Forall_impl; [exact Hds|]. by intros p Hp _.
  - by rewrite Hps, good_beats_stream, <- good_payload_length.
  - by rewrite E, Hps, good_beats_stream.
Qed.

Lemma udp_receives_payloads c d ps out :
  wired c -> for_udp_station c d = true -> deframer_enable d = true ->
  udp_receives d (concat (last_beats <$> (UdpIpFramer.datagram c <$> ps))) out ->
  out = concat (last_beats <$> ps).
Proof.
  intros Hc Hd He [i0 s0 ins gap Hr Hins Hg Hb].
  pose proof (UdpIpDeframer.run_after_reset d He i0 s0 ins gap (UdpIpFramer.datagram c <$> ps) Hr Hins Hg Hb) as H.
  destruct (UdpIpDeframer.udp_deframer_run _ _) as [o r]. cbn [fst]. destruct H as (-> & _).
  - apply Forall_fmap, Forall_true. intros p. apply complete_datagram.
  - by apply deframe_datagrams.
Qed.

Lemma datagram_length c p : (28 <= length (UdpIpFramer.datagram c p))%nat.
Proof. unfold UdpIpFramer.datagram. rewrite length_app, UdpIpFramer.full_header_length. lia. Qed.

Lemma frame_length src dst c p :
  length (EthernetFramer.packet_frame src (EthernetFramer.Packet dst false (UdpIpFramer.datagram c p))) =
    (46 + length p)%nat.
Proof.
  unfold EthernetFramer.packet_frame, EthernetFramer.frame, EthernetFramer.header, UdpIpFramer.datagram.
  cbn [EthernetFramer.pkt_dst EthernetFramer.pkt_arp EthernetFramer.pkt_payload].
  rewrite !length_app, !length_fmap, UdpIpFramer.full_header_length.
  change (length (EthernetFramer.frame_fcs _)) with 4%nat. cbn [length]. lia.
Qed.


(** ** Witness: one packet of two bytes *)
Definition demo_payload : list Z := [0x48; 0x69].
Definition demo_src : Z := 0x020000000001.
Definition demo_dst : Z := EthernetDeframer.demo_station.
Definition demo_datagram : list Z := UdpIpFramer.datagram UdpIpFramerDrain.demo_cfg demo_payload.
Definition demo_frame : list Z :=
  EthernetFramer.packet_frame demo_src (EthernetFramer.Packet demo_dst false demo_datagram).

Definition demo_udp_ins : list UdpIpFramer.udp_framer_in :=
  [UdpIpFramerDrain.demo_in UdpIpFramerDrain.demo_cfg (Axis 0x48 true false) true;
   UdpIpFramerDrain.demo_in UdpIpFramerDrain.demo_cfg (Axis 0x69 true true) true].

(** Every byte offered until it is taken. *)
Fixpoint demo_offer (fuel : nat) (bs : list beat) (s : EthernetFramer.framer_regs) : list EthernetFramer.framer_in :=
  match fuel, bs with
  | S fuel', (b, last) :: bs' =>
      let i := EthernetFramer.FramerIn false true demo_src demo_dst (Axis b true last) false true in
      let taken := EthernetFramer.s_axis_tready_out i s in
      i :: demo_offer fuel' (if taken then bs' else bs) (EthernetFramer.framer_clock i s)
  | _, _ => []
  end.
Definition demo_framer_start : EthernetFramer.framer_regs :=
  EthernetFramer.framer_clock EthernetFramer.demo_reset EthernetFramer.demo_power_up.
Definition demo_framer_ins : list EthernetFramer.framer_in :=
  demo_offer 100 (last_beats demo_datagram) demo_framer_start.
Definition demo_framer_pause : list EthernetFramer.framer_in :=
  replicate 20 (EthernetFramer.FramerIn false true demo_src demo_dst no_axis false true).

(** The frame through the two FIFOs, the clocks taking turns. *)
Definition demo_queue_edges : list PacketAfifo.packet_edge :=
  concat ((fun b : beat => [PacketAfifo.PWr false (Axis b.1 true b.2); PacketAfifo.PRd true]) <$> last_beats demo_frame).
Definition demo_queue_quiet : list PacketAfifo.packet_edge := replicate (Z.to_nat 3675) (PacketAfifo.PRd true).
Definition demo_cross_edges : list Afifo.edge :=
  concat ((fun b => [Afifo.Wr (Afifo.WrIn false true (rx_afifo_din b)); Afifo.Rd true]) <$> last_beats demo_frame).
Definition demo_cross_quiet : list Afifo.edge := replicate 60 (Afifo.Rd true).

Definition demo_line_pause : list ((Z * bool) * list (list Z)) := replicate 300 ((0, false), []).

Definition demo_rx_ins : list RxPacketBuffer.rx_in :=
  (fun bl => RxPacketBuffer.RxIn false (Axis bl.1 true bl.2) false) <$> last_beats demo_datagram.
Definition demo_rx_power_up : RxPacketBuffer.rx_regs :=
  RxPacketBuffer.RxRegs (replicate 64 (0, false)) 0 0 0 (0, false) false 0 0 false.

Definition demo_received : list beat :=
  (UdpIpDeframer.udp_deframer_run (UdpIpDeframer.demo_inputs demo_datagram ++ [UdpIpDeframer.demo_gap])
     (UdpIpDeframer.udp_deframer_clock UdpIpDeframer.demo_reset UdpIpDeframer.power_up)).1.

